(* ===== verification/_CoqProject ===== *)
-Q . S2P
Prelude.v
Rtp.v
Dtmf.v
Rtcp.v
SrtpBase.v
Srtp.v
Srtcp.v
Media.v
Playout.v
Stats.v
Routing.v
SocketPool.v
Mixer.v
Float64.v
Resample.v
Vad.v
Text.v
Net.v
Sdp.v
SdpText.v
Gate.v
Coders.v
Transcode.v
RtpEndpoint.v
Timeline.v
Call.v
Negotiate.v
SessionDtmf.v
Transfer.v
Manager.v
Download.v
Pcap.v
Recorder.v
Converter.v
