(* ===== verification/Prelude.v ===== *)
(** * rtpbridge

    A verification of rtpbridge, a media bridge: sessions of endpoints that
    exchange RTP audio, controlled over WebSockets.  Paths are relative to
    [src/src/].

    ** The program and its model

    A controller connects ([control/server.rs], [control/auth.rs]), asks the
    session manager for a session ([session/mod.rs]) and puts endpoints into it.
    A plain-RTP endpoint negotiates by SDP ([media/sdp.rs],
    [session/endpoint_rtp.rs]), takes a pair of ports from the pool
    ([net/socket_pool.rs]) and from then on turns datagrams into packets and
    packets into datagrams, through SRTP, RTCP and DTMF ([media/]).  The session
    smooths the packets of each source ([session/playout.rs]), finds their
    destinations ([session/routing.rs]), converts between codecs
    ([session/source_audio.rs], [media/resample.rs], [media/transcode.rs]) or mixes
    ([session/mixer.rs]), records ([recording/]) and can hand an endpoint over to
    another session ([session/transfer.rs]).  The converter [bin/pcap2audio.rs]
    reads the recordings.

    Each part is one Module, with the source's names:

    - [Prelude]: integers at their widths, bytes, the [outcome] monad, shared
      tactics and hints;
    - [Rtp] ([media/rtp.rs]), [Dtmf] ([media/dtmf.rs]), [Rtcp] ([media/rtcp.rs]);
    - [SrtpBase], [Srtp], [Srtcp] ([media/srtp.rs]): primitives and window, the
      RTP context, the RTCP context;
    - [Media] ([media/codec.rs], [media/pcm_frames.rs], [session/endpoint.rs]),
      [Coders] (the coders of [media/codec.rs]);
    - [Playout], [Stats], [Routing], [Mixer] (the files of those names in
      [session/]) and [SocketPool] ([net/socket_pool.rs]);
    - [Float64] and [Resample] ([media/resample.rs]), [Vad] ([media/vad.rs]),
      [Transcode] ([session/source_audio.rs], [session/audio_analysis.rs],
      [media/transcode.rs] and the transcoding branch of [poll_and_route]);
    - [Text], [Net] (what the code uses of [str] and [std::net]), [Sdp] and
      [SdpText] ([media/sdp.rs]: the functions, and their round trip);
    - [RtpEndpoint] (the inbound and outbound handlers of
      [session/endpoint_rtp.rs]), [Timeline] (its outbound clock over whole
      streams), [Call] (two endpoints), [Negotiate] (its offers and answers),
      [SessionDtmf] ([session/session_dtmf.rs]);
    - [Transfer] ([session/transfer.rs]), [Manager] ([session/mod.rs],
      [shutdown.rs]), [Gate] ([control/auth.rs], [control/server.rs]),
      [Download] ([playback/download_policy.rs]);
    - [Pcap] (frames of [recording/pcap_writer.rs]; epochs of the converter),
      [Recorder] ([recording/recorder.rs], [recording/meta.rs]), [Converter] (the
      first pass of [bin/pcap2audio.rs], and recorder and converter together).

    ** Reading the definitions

    A struct is a [Record], an enum an [Inductive] and a method a function from
    the state to the new state and its result; [r {{ f := v }}] is an assignment
    to a field.  Integers are [Z], wrapped where the code wraps ([wrap16],
    [wrap32], ...).  [outcome] has [Panic] for an index out of range, a failed
    [unwrap] or an overflow that the code does not handle, so the absence of
    panics is a statement about the definitions; [result] is Rust's.  Clocks and
    random numbers are arguments.  Where tasks run concurrently ([Transfer],
    [Manager], and [Converter] for recordings with their writers) each access to
    shared state is a step of a relation and the theorems are about every
    sequence of steps.

    Code outside the repository is a class with the laws that are used, each with
    an instance in the examples: [Crypto] and [Base64] (AES-CTR, HMAC-SHA1,
    base64), [Signing] and [HttpParsers], [AudioEncoder] and [CodecLibs] (mu-law
    tables, libg722, libopus), [Predictor] (the voice network), [Json],
    [PcapFile], [Urls], [IpNets] and [IpNetworks].  Doubles are the standard library's [SpecFloat].

    ** What is proved

    - SRTP and SRTCP ([Srtp], [Srtcp]): delivered packets are decrypted to what
      was sent across losses, reordering and rollovers; no index is accepted
      twice; the 64-bit window decides like the set of all accepted indices; what
      does not authenticate changes nothing; the IVs of a key never repeat while
      the numbers of each stream ascend; the limits of a key hold.
    - Endpoint ([RtpEndpoint], [Timeline], [Call], [Negotiate]): media goes to
      negotiated or approved addresses only, forged datagrams are ignored, a
      latched address stays; the wire shows one RTP timeline across switches of
      source and DTMF; an offer and its answer agree and carry a call; failed
      renegotiations change nothing; SRTP is never downgraded.
    - Session ([Playout], [Routing], [Mixer], [Transcode], [Resample], [Vad],
      [SocketPool]): order and drainage of the playout clocks, the routing
      relation, the saturated sum of the mixer, whole and punctual transcoding,
      a resampler and a voice monitor that always answer, sound and complete
      allocation of ports.
    - Formats ([Rtcp], [Dtmf], [SdpText], [Pcap]): round trips, and loss counts
      against RFC 3550 over true indices.
    - Concurrency ([Transfer], [Manager]): an endpoint is where its committed
      transfers put it and is neither lost nor duplicated; session slots are
      accounted for, stale timers are harmless, and one leak is shown.
    - Boundary ([Gate], [Download]): what reaches the control plane is signed, or
      comes from no browser; downloads, after any redirects and DNS answers, stay
      within the policy, which is compared with the IANA registries, and end.
    - Recording ([Recorder], [Converter], [Pcap]): bounded memory, every packet
      counted as dropped or found by the converter in its channel, reordering
      undone.

    ** Fuel

    Loops that are not structural take fuel.  Where the code could fail to
    terminate or the bound is not plain, running out of it is a [Panic] or no
    answer at all, and the theorems show that it does not happen: the RTCP loops
    run on the length of the datagram, of which each round takes at least one
    byte; checksum carries fold in three rounds; a download takes six hops, after
    which the code itself stops; playout pacing runs on what is queued; epochs run
    on the number of packets; the resampler runs on twice the expected number of
    samples plus eight, which [process_total] of [Resample] shows to be enough for
    every source rate of 32 bits and every destination rate up to 2^18.  Loops
    that take an element off their input in every round (the words of a text, the
    digits of a number, the frames of the reframer and of the voice monitor) run
    on the size of that input, and end when it does.

    ** Not modelled

    WebRTC endpoints (the str0m library), WebSocket audio, bridge, tone and file
    endpoints, the file cache and shared playback (files, threads and the
    symphonia library), fax detection (trigonometric functions of the platform),
    the select loop of a session with its timers and events, the JSON command
    layer, configuration, metrics, storage and start-up.  Of the modelled files:
    sockets and receive tasks; the encoded feed path of the mixer; thread start,
    file creation and flush timeouts of a recording; the limit on concurrent name
    resolutions; TLS and connection timeouts; the decoding pass and the WAV output
    of the converter.  Text is ASCII, except in the control gate, where it is
    UTF-8 bytes.  Atomics are sequential, and one port allocation or one handler
    runs without another in between, except in the step relations above. *)

From stdpp Require Export base tactics numbers list gmap.
From Stdlib Require Export ZArith Lia Bool.
From coqutil Require Export Datatypes.RecordSetters.
Export DoubleBraceUpdate.

#[global] Open Scope Z_scope.

(** Field updates [r {{ f := v }}] reduce by [cbn]. *)
Arguments RecordSetters.constant {E} newValue _ /.
Arguments RecordSetters.apply_update {R E} u _ /.

#[global] Arguments Z.land : simpl never.
#[global] Arguments Z.lor : simpl never.
#[global] Arguments Z.lxor : simpl never.
#[global] Arguments Z.shiftl : simpl never.
#[global] Arguments Z.shiftr : simpl never.
#[global] Arguments Z.modulo : simpl never.
#[global] Arguments Z.div : simpl never.
#[global] Arguments Z.pow : simpl never.
#[global] Arguments Z.min : simpl never.
#[global] Arguments Z.max : simpl never.
#[global] Arguments Z.of_nat : simpl never.
#[global] Arguments Z.to_nat : simpl never.

(** ** Machine integers

    A Rust integer of width [w] is a [Z]; [wrapN] is the wrap-around of
    [wrapping_*] and of plain arithmetic in a release build (the release
    profile of [Cargo.toml] leaves overflow checks off). *)
Definition wrap8 (x : Z) : Z := x mod 256.
Definition wrap16 (x : Z) : Z := x mod 65536.
Definition wrap32 (x : Z) : Z := x mod 4294967296.
Definition wrap64 (x : Z) : Z := x mod 18446744073709551616.

Definition u8_max : Z := 255.
Definition u16_max : Z := 65535.
Definition u32_max : Z := 4294967295.
Definition u64_max : Z := 18446744073709551615.
Definition i64_max : Z := 9223372036854775807.
Definition i64_min : Z := -9223372036854775808.

Definition is_u8 (x : Z) : Prop := 0 <= x < 256.
Definition is_u16 (x : Z) : Prop := 0 <= x < 65536.
Definition is_u32 (x : Z) : Prop := 0 <= x < 4294967296.
Definition is_u64 (x : Z) : Prop := 0 <= x < 18446744073709551616.

(** [x as i32] for [x : u32]. *)
Definition as_i32 (x : Z) : Z := if x <? 2147483648 then x else x - 4294967296.

(** [saturating_add], [saturating_sub], [saturating_mul] on unsigned types. *)
Definition sat_add32 (a b : Z) : Z := Z.min (a + b) u32_max.
Definition sat_add64 (a b : Z) : Z := Z.min (a + b) u64_max.
Definition sat_sub (a b : Z) : Z := Z.max (a - b) 0.
Definition sat_mul32 (a b : Z) : Z := Z.min (a * b) u32_max.
Definition sat_mul64 (a b : Z) : Z := Z.min (a * b) u64_max.
(** [i64::saturating_sub]. *)
Definition sat_sub_i64 (a b : Z) : Z := Z.max i64_min (Z.min (a - b) i64_max).

(** [checked_add] and [checked_mul] on [usize] (64-bit targets). *)
Definition checked_add64 (a b : Z) : option Z :=
  if a + b <=? u64_max then Some (a + b) else None.
Definition checked_mul64 (a b : Z) : option Z :=
  if a * b <=? u64_max then Some (a * b) else None.

(** ** Time

    An [Instant] and a [Duration] are counted in nanoseconds. *)
Definition ns_per_us : Z := 1000.
Definition ns_per_ms : Z := 1000000.
Definition ns_per_s : Z := 1000000000.
(** [Instant] is a [timespec] with signed 64-bit seconds on the target. *)
Definition instant_min : Z := i64_min * ns_per_s.
Definition instant_checked_sub (t d : Z) : option Z :=
  if t - d <? instant_min then None else Some (t - d).
(** [saturating_duration_since] (and [duration_since], [elapsed], which
    saturate as well). *)
Definition duration_since (later earlier : Z) : Z := Z.max (later - earlier) 0.

(** ** Outcomes: a value or a panic (index or slice out of range) *)
Inductive outcome (A : Type) : Type :=
| Val (a : A)
| Panic.
Arguments Val {A} a.
Arguments Panic {A}.

Definition obind {A B} (m : outcome A) (k : A -> outcome B) : outcome B :=
  match m with
  | Val a => k a
  | Panic => Panic
  end.

Declare Scope rust_scope.
Delimit Scope rust_scope with rust.
#[global] Open Scope rust_scope.
Notation "'let!' x ':=' m 'in' k" := (obind m (fun x => k))
  (at level 10, x pattern, m at level 100, k at level 200,
   format "'[v' 'let!'  x  ':='  m  'in' '//' k ']'") : rust_scope.

(** ** Results: [anyhow::Result], the error named by its message *)
Inductive result (E A : Type) : Type :=
| Ok (a : A)
| Err (e : E).
Arguments Ok {E A} a.
Arguments Err {E A} e.

(** ** Byte buffers *)
Abbreviation bytes := (list Z).
Abbreviation are_bytes := (Forall is_u8).

Definition len {A} (l : list A) : Z := Z.of_nat (length l).

(** [l[i]], [&l[i..]], [&l[..j]] and [&l[i..j]]. *)
Definition byte_at (l : bytes) (i : Z) : Z := nth (Z.to_nat i) l 0.
Definition get (l : bytes) (i : Z) : outcome Z :=
  if (0 <=? i) && (i <? len l) then Val (byte_at l i) else Panic.
Definition slice (l : bytes) (i j : Z) : outcome bytes :=
  if (0 <=? i) && (i <=? j) && (j <=? len l)
  then Val (take (Z.to_nat (j - i)) (drop (Z.to_nat i) l)) else Panic.
Definition slice_from (l : bytes) (i : Z) : outcome bytes :=
  if (0 <=? i) && (i <=? len l) then Val (drop (Z.to_nat i) l) else Panic.
Definition slice_to (l : bytes) (j : Z) : outcome bytes :=
  if (0 <=? j) && (j <=? len l) then Val (take (Z.to_nat j) l) else Panic.

(** [uN::from_be_bytes] and [uN::to_be_bytes]. *)
Definition from_be (l : bytes) : Z := fold_left (fun acc b => acc * 256 + b) l 0.
Fixpoint to_be (n : nat) (x : Z) : bytes :=
  match n with
  | O => []
  | S k => (x / 256 ^ Z.of_nat k) mod 256 :: to_be k x
  end.

Definition be16_at (l : bytes) (i : Z) : Z :=
  from_be [byte_at l i; byte_at l (i + 1)].
Definition be32_at (l : bytes) (i : Z) : Z :=
  from_be [byte_at l i; byte_at l (i + 1); byte_at l (i + 2); byte_at l (i + 3)].
Definition be64_at (l : bytes) (i : Z) : Z :=
  from_be [byte_at l i; byte_at l (i + 1); byte_at l (i + 2); byte_at l (i + 3);
           byte_at l (i + 4); byte_at l (i + 5); byte_at l (i + 6); byte_at l (i + 7)].

Definition get16 (l : bytes) (i : Z) : outcome Z :=
  let! a := get l i in let! b := get l (i + 1) in Val (from_be [a; b]).
Definition get32 (l : bytes) (i : Z) : outcome Z :=
  let! a := get l i in let! b := get l (i + 1) in
  let! c := get l (i + 2) in let! d := get l (i + 3) in Val (from_be [a; b; c; d]).
Definition get64 (l : bytes) (i : Z) : outcome Z :=
  let! hi := get32 l i in let! lo := get32 l (i + 4) in Val (hi * 4294967296 + lo).

(** ** Tactics *)

Create HintDb rtp.
Create Rewrite HintDb masks.

(** Linear arithmetic with the machine-integer operations unfolded and
    [mod]/[div] by constants turned into equations. *)
Ltac unfold_ints :=
  unfold wrap8, wrap16, wrap32, wrap64, is_u8, is_u16, is_u32, is_u64,
    sat_add32, sat_add64, sat_sub, sat_mul32, sat_mul64, sat_sub_i64, as_i32,
    u8_max, u16_max, u32_max, u64_max, i64_max, i64_min, duration_since in *.
Ltac mlia := unfold_ints; Z.to_euclidean_division_equations; lia.

(** Reflect the boolean comparisons of the code into propositions. *)
Ltac bool_prop :=
  repeat match goal with
  | H : negb _ = true |- _ => apply negb_true_iff in H
  | H : negb _ = false |- _ => apply negb_false_iff in H
  | H : (_ && _)%bool = true |- _ => apply andb_true_iff in H; destruct H
  | H : (_ || _)%bool = false |- _ => apply orb_false_iff in H; destruct H
  | H : (_ =? _) = true |- _ => apply Z.eqb_eq in H
  | H : (_ =? _) = false |- _ => apply Z.eqb_neq in H
  | H : (_ <? _) = true |- _ => apply Z.ltb_lt in H
  | H : (_ <? _) = false |- _ => apply Z.ltb_ge in H
  | H : (_ <=? _) = true |- _ => apply Z.leb_le in H
  | H : (_ <=? _) = false |- _ => apply Z.leb_gt in H
  end.

(** Split on the tests of the goal, one at a time, innermost first. *)
Ltac split_if :=
  match goal with
  | |- context [if ?b then _ else _] =>
      lazymatch b with
      | context [if _ then _ else _] => fail
      | _ => destruct b eqn:?; bool_prop
      end
  end.
Ltac split_ifs := repeat split_if.

(** ** Lemmas on outcomes and buffers *)

Lemma len_nonneg {A} (l : list A) : 0 <= len l.
Proof. unfold len. lia. Qed.

Lemma len_app {A} (l k : list A) : len (l ++ k) = len l + len k.
Proof. unfold len. rewrite length_app. lia. Qed.

Lemma len_cons {A} (x : A) l : len (x :: l) = 1 + len l.
Proof. unfold len. cbn [length]. lia. Qed.

Lemma len_nil {A} : len (@nil A) = 0.
Proof. reflexivity. Qed.

Lemma len_take {A} (l : list A) n : 0 <= n -> len (take (Z.to_nat n) l) = Z.min n (len l).
Proof. unfold len. rewrite length_take. lia. Qed.

Lemma len_drop {A} (l : list A) n : 0 <= n -> len (drop (Z.to_nat n) l) = Z.max 0 (len l - n).
Proof. unfold len. rewrite length_drop. lia. Qed.

Lemma last_cons {A} (l : list A) x d : List.last (x :: l) d = List.last l x.
Proof.
  revert x d. induction l as [| y l IH]; intros x d; [done |].
  change (List.last (y :: l) d = List.last (y :: l) x). by rewrite !IH.
Qed.

Lemma get_val l i : 0 <= i < len l -> get l i = Val (byte_at l i).
Proof. intros. unfold get. rewrite (proj2 (Z.leb_le 0 i)), (proj2 (Z.ltb_lt _ _)) by lia. done. Qed.

Lemma get16_val l i : 0 <= i -> i + 2 <= len l -> get16 l i = Val (be16_at l i).
Proof. intros. unfold get16. rewrite !get_val by lia. done. Qed.

Lemma get32_val l i : 0 <= i -> i + 4 <= len l -> get32 l i = Val (be32_at l i).
Proof. intros. unfold get32. rewrite !get_val by lia. done. Qed.

Lemma get64_val l i : 0 <= i -> i + 8 <= len l -> get64 l i = Val (be64_at l i).
Proof.
  intros. unfold get64. rewrite !get32_val by lia. cbn [obind]. f_equal.
  unfold be32_at, be64_at, from_be. cbn [fold_left].
  replace (i + 4 + 1) with (i + 5) by lia. replace (i + 4 + 2) with (i + 6) by lia.
  replace (i + 4 + 3) with (i + 7) by lia. lia.
Qed.

Lemma slice_val l i j : 0 <= i <= j -> j <= len l ->
  slice l i j = Val (take (Z.to_nat (j - i)) (drop (Z.to_nat i) l)).
Proof.
  intros. unfold slice.
  rewrite (proj2 (Z.leb_le 0 i)), (proj2 (Z.leb_le i j)), (proj2 (Z.leb_le j _)) by lia. done.
Qed.

Lemma slice_from_val l i : 0 <= i <= len l -> slice_from l i = Val (drop (Z.to_nat i) l).
Proof. intros. unfold slice_from. rewrite !(proj2 (Z.leb_le _ _)) by lia. done. Qed.

Lemma slice_to_val l j : 0 <= j <= len l -> slice_to l j = Val (take (Z.to_nat j) l).
Proof. intros. unfold slice_to. rewrite !(proj2 (Z.leb_le _ _)) by lia. done. Qed.

(** Evaluate the in-range reads of the goal. *)
Ltac reads :=
  repeat (first
    [ rewrite get_val by lia | rewrite get16_val by lia | rewrite get32_val by lia
    | rewrite get64_val by lia | rewrite slice_val by lia | rewrite slice_from_val by lia
    | rewrite slice_to_val by lia ]; cbn [obind]).

Lemma are_bytes_at l i : are_bytes l -> is_u8 (byte_at l i).
Proof.
  intros H. unfold byte_at.
  destruct (nth_in_or_default (Z.to_nat i) l 0) as [Hin | ->]; [| unfold is_u8; lia].
  by apply (proj1 (List.Forall_forall _ _) H).
Qed.

Lemma from_be_acc l acc :
  fold_left (fun a b => a * 256 + b) l acc = acc * 256 ^ len l + from_be l.
Proof.
  unfold from_be. revert acc. induction l as [| b l IH]; intros acc; cbn [fold_left].
  - rewrite len_nil. lia.
  - rewrite IH, (IH (0 * 256 + b)), len_cons, Z.pow_add_r by (try lia; apply len_nonneg). lia.
Qed.

Lemma from_be_cons b l : from_be (b :: l) = b * 256 ^ len l + from_be l.
Proof. unfold from_be at 1. cbn [fold_left]. rewrite from_be_acc. lia. Qed.

Lemma from_be_app l k : from_be (l ++ k) = from_be l * 256 ^ len k + from_be k.
Proof.
  unfold from_be at 1. rewrite fold_left_app. fold (from_be l). apply from_be_acc.
Qed.

Lemma from_be_bound l : are_bytes l -> 0 <= from_be l < 256 ^ len l.
Proof.
  induction 1 as [| b l Hb _ IH]; [done |].
  rewrite from_be_cons, len_cons, Z.pow_add_r by (try lia; apply len_nonneg).
  unfold is_u8 in Hb. nia.
Qed.

Lemma length_to_be n x : length (to_be n x) = n.
Proof. induction n; cbn; congruence. Qed.

Lemma len_to_be n x : len (to_be n x) = Z.of_nat n.
Proof. unfold len. by rewrite length_to_be. Qed.

Lemma to_be_bytes n x : are_bytes (to_be n x).
Proof. induction n; constructor; [unfold is_u8; apply Z.mod_pos_bound; lia | done]. Qed.

(** Encoding then decoding is reduction modulo the width. *)
Lemma from_to_be n x : from_be (to_be n x) = x mod 256 ^ Z.of_nat n.
Proof.
  induction n as [| n IH]; [cbn; by rewrite Z.mod_1_r |].
  cbn [to_be]. rewrite from_be_cons, IH, len_to_be.
  replace (Z.of_nat (S n)) with (Z.of_nat n + 1) by lia.
  rewrite Z.pow_add_r by lia.
  assert (0 < 256 ^ Z.of_nat n) by (apply Z.pow_pos_nonneg; lia).
  change (256 ^ 1) with 256. rewrite (Z.rem_mul_r x) by lia. lia.
Qed.

Lemma to_be_mod n x : to_be n (x mod 256 ^ Z.of_nat n) = to_be n x.
Proof.
  assert (G : forall m k, (k <= m)%nat -> to_be k (x mod 256 ^ Z.of_nat m) = to_be k x).
  { intros m k. induction k as [| k IH]; intros Hk; [done |]. cbn [to_be].
    rewrite IH by lia. f_equal.
    replace (Z.of_nat m) with (Z.of_nat k + (1 + (Z.of_nat m - Z.of_nat k - 1))) by lia.
    set (d := Z.of_nat m - Z.of_nat k - 1). assert (0 <= d) by lia.
    rewrite Z.pow_add_r by lia.
    assert (0 < 256 ^ Z.of_nat k) by (apply Z.pow_pos_nonneg; lia).
    assert (0 < 256 ^ (1 + d)) by (apply Z.pow_pos_nonneg; lia).
    rewrite Z.rem_mul_r by lia.
    rewrite (Z.mul_comm (256 ^ Z.of_nat k)), Z.div_add, Z.div_small by (try lia; by apply Z.mod_pos_bound).
    rewrite Z.add_0_l, Z.pow_add_r by lia. change (256 ^ 1) with 256.
    assert (0 < 256 ^ d) by (apply Z.pow_pos_nonneg; lia).
    rewrite Z.rem_mul_r by lia. rewrite (Z.mul_comm 256), Z.mod_add, Z.mod_mod by lia. done. }
  by apply G.
Qed.

(** Decoding then encoding is the identity on bytes. *)
Lemma to_from_be l : are_bytes l -> to_be (length l) (from_be l) = l.
Proof.
  induction 1 as [| b l Hb Hl IH]; [done |].
  pose proof (from_be_bound l Hl) as B. cbn [length to_be].
  fold (len l). assert (0 < 256 ^ len l) by (apply Z.pow_pos_nonneg; [lia | apply len_nonneg]).
  rewrite from_be_cons. f_equal.
  - rewrite (Z.add_comm (_ * _)), Z.div_add, Z.div_small by lia.
    unfold is_u8 in Hb. rewrite Z.add_0_l. apply Z.mod_small. lia.
  - rewrite <- to_be_mod. fold (len l).
    rewrite (Z.add_comm (_ * _)), Z.mod_add, Z.mod_small by lia. done.
Qed.

(** Reading inside a concatenation. *)
Lemma byte_at_app_l l k i : 0 <= i < len l -> byte_at (l ++ k) i = byte_at l i.
Proof. intros. unfold byte_at. rewrite app_nth1; [done | unfold len in *; lia]. Qed.

Lemma byte_at_app_r l k i : len l <= i -> byte_at (l ++ k) i = byte_at k (i - len l).
Proof.
  intros. unfold byte_at, len in *. rewrite app_nth2 by lia. f_equal. lia.
Qed.

Lemma byte_at_app_shift l k n : 0 <= n -> byte_at (l ++ k) (len l + n) = byte_at k n.
Proof. intros. rewrite byte_at_app_r by lia. f_equal. lia. Qed.

(** A 32-bit field written after [l]. *)
Lemma be32_at_app l x k : be32_at (l ++ to_be 4 x ++ k) (len l) = wrap32 x.
Proof.
  unfold be32_at. rewrite !byte_at_app_shift by lia. rewrite byte_at_app_r, Z.sub_diag by lia.
  exact (from_to_be 4 x).
Qed.

Lemma byte_at_cons_S b l i : 0 < i -> byte_at (b :: l) i = byte_at l (i - 1).
Proof.
  intros. unfold byte_at. replace (Z.to_nat i) with (S (Z.to_nat (i - 1))) by lia. done.
Qed.

Lemma be16_at_u16 l i : are_bytes l -> is_u16 (be16_at l i).
Proof.
  intros H. unfold be16_at.
  pose proof (from_be_bound [byte_at l i; byte_at l (i + 1)]) as B.
  unfold is_u16. cbn in B. apply B. repeat constructor; by apply are_bytes_at.
Qed.

Lemma be32_at_u32 l i : are_bytes l -> is_u32 (be32_at l i).
Proof.
  intros H. unfold be32_at.
  pose proof (from_be_bound [byte_at l i; byte_at l (i + 1); byte_at l (i + 2); byte_at l (i + 3)]) as B.
  unfold is_u32. cbn in B. apply B. repeat constructor; by apply are_bytes_at.
Qed.

(** A decidable fact about one byte is checked on the 256 values. *)
Lemma byte_check (P : Z -> bool) :
  forallb (fun n => P (Z.of_nat n)) (seq 0 256) = true -> forall b, is_u8 b -> P b = true.
Proof.
  intros H b [Hb0 Hb1]. rewrite forallb_forall in H.
  rewrite <- (Z2Nat.id b) by done. apply H. apply in_seq. lia.
Qed.

(** Masks of low bits, and shifts, as arithmetic. *)
Lemma land1 b : Z.land b 1 = b mod 2.
Proof. exact (Z.land_ones b 1 ltac:(lia)). Qed.
Lemma land3 b : Z.land b 3 = b mod 4.
Proof. exact (Z.land_ones b 2 ltac:(lia)). Qed.
Lemma land15 b : Z.land b 15 = b mod 16.
Proof. exact (Z.land_ones b 4 ltac:(lia)). Qed.
Lemma land31 b : Z.land b 31 = b mod 32.
Proof. exact (Z.land_ones b 5 ltac:(lia)). Qed.
Lemma land63 b : Z.land b 63 = b mod 64.
Proof. exact (Z.land_ones b 6 ltac:(lia)). Qed.
Lemma land127 b : Z.land b 127 = b mod 128.
Proof. exact (Z.land_ones b 7 ltac:(lia)). Qed.
Lemma land255 b : Z.land b 255 = b mod 256.
Proof. exact (Z.land_ones b 8 ltac:(lia)). Qed.
Lemma land_ffff b : Z.land b 65535 = b mod 65536.
Proof. exact (Z.land_ones b 16 ltac:(lia)). Qed.
Lemma land_ffffff b : Z.land b 16777215 = b mod 16777216.
Proof. exact (Z.land_ones b 24 ltac:(lia)). Qed.
Lemma land_7fffffff b : Z.land b 2147483647 = b mod 2147483648.
Proof. exact (Z.land_ones b 31 ltac:(lia)). Qed.
Lemma land_ffffffff b : Z.land b 4294967295 = b mod 4294967296.
Proof. exact (Z.land_ones b 32 ltac:(lia)). Qed.
Lemma shiftr_div b n : 0 <= n -> Z.shiftr b n = b / 2 ^ n.
Proof. apply Z.shiftr_div_pow2. Qed.
Lemma shiftl_mul b n : 0 <= n -> Z.shiftl b n = b * 2 ^ n.
Proof. apply Z.shiftl_mul_pow2. Qed.

#[export] Hint Rewrite land1 land3 land15 land31 land63 land127 land255 land_ffff land_ffffff
  land_7fffffff land_ffffffff : masks.

Lemma ldiff3 x : Z.ldiff x 3 = x / 4 * 4.
Proof.
  change 3 with (Z.ones 2). rewrite Z.ldiff_ones_r, Z.shiftl_mul_pow2, Z.shiftr_div_pow2 by lia. done.
Qed.

Lemma are_bytes_take l n : are_bytes l -> are_bytes (take n l).
Proof. apply Forall_take. Qed.
Lemma are_bytes_drop l n : are_bytes l -> are_bytes (drop n l).
Proof. apply Forall_drop. Qed.
#[export] Hint Resolve are_bytes_take are_bytes_drop are_bytes_at be16_at_u16 be32_at_u32 : rtp.

Lemma byte_at_drop l n i : 0 <= n -> 0 <= i -> byte_at (drop (Z.to_nat n) l) i = byte_at l (n + i).
Proof. intros. unfold byte_at. rewrite nth_skipn. f_equal. lia. Qed.

Lemma be16_at_drop l n i : 0 <= n -> 0 <= i -> be16_at (drop (Z.to_nat n) l) i = be16_at l (n + i).
Proof. intros. unfold be16_at. rewrite !byte_at_drop by lia. by rewrite Z.add_assoc. Qed.

(** Disjoint bit fields: [or] is addition. *)
Lemma lor_add hi lo n : 0 <= n -> 0 <= lo < 2 ^ n -> Z.lor (hi * 2 ^ n) lo = hi * 2 ^ n + lo.
Proof.
  intros Hn Hlo.
  assert (Hz : Z.land (hi * 2 ^ n) lo = 0).
  { apply Z.bits_inj'. intros i Hi. rewrite Z.land_spec, Z.bits_0.
    destruct (Z.lt_ge_cases i n).
    - rewrite Z.mul_pow2_bits_low by lia. done.
    - rewrite <- (Z.mod_small lo (2 ^ n)) by lia.
      rewrite Z.mod_pow2_bits_high by lia. apply andb_false_r. }
  pose proof (Z.add_lor_land (hi * 2 ^ n) lo). lia.
Qed.
