(* ===== verification/Rtp.v ===== *)
(** RTP fixed header: parsing, payload extraction and packet building
    ([src/media/rtp.rs]).

    [parse] and [payload] are written in the [outcome] monad: every index and
    slice of the source is a checked read, so "no panic" is a statement about
    the definitions. *)

From S2P Require Import Prelude.

Module RtpHeader.

Record t := mk {
  version : Z;
  padding : bool;
  extension : bool;
  csrc_count : Z;
  marker : bool;
  payload_type : Z;
  sequence_number : Z;
  timestamp : Z;
  ssrc : Z;
  header_len : Z;
}.

(** The extension words are skipped with checked [usize] arithmetic; an
    overflow is the early return of [?]. *)
Definition skip_extension (data : bytes) (header_len : Z) : outcome (option Z) :=
  if len data <? header_len + 4 then Val None
  else
    let! ext_len := get16 data (header_len + 2) in
    Val (match checked_mul64 ext_len 4 with
         | None => None
         | Some b => checked_add64 header_len (4 + b)
         end).

Definition parse (data : bytes) : outcome (option t) :=
  if len data <? 12 then Val None
  else
    let! b0 := get data 0 in
    let version := Z.land (Z.shiftr b0 6) 3 in
    if negb (version =? 2) then Val None
    else
      let! b1 := get data 1 in
      let padding := negb (Z.land (Z.shiftr b0 5) 1 =? 0) in
      let extension := negb (Z.land (Z.shiftr b0 4) 1 =? 0) in
      let csrc_count := Z.land b0 15 in
      let marker := negb (Z.land (Z.shiftr b1 7) 1 =? 0) in
      let payload_type := Z.land b1 127 in
      let! sequence_number := get16 data 2 in
      let! timestamp := get32 data 4 in
      let! ssrc := get32 data 8 in
      let! header_len :=
        (if extension then skip_extension data (12 + csrc_count * 4)
         else Val (Some (12 + csrc_count * 4))) in
      match header_len with
      | None => Val None
      | Some header_len =>
          if len data <? header_len then Val None
          else Val (Some (mk version padding extension csrc_count marker payload_type
                             sequence_number timestamp ssrc header_len))
      end.

Definition payload (h : t) (data : bytes) : outcome bytes :=
  let! payload := slice_from data (header_len h) in
  if padding h && negb (len payload =? 0) then
    let! pad_len := get payload (len payload - 1) in
    if (0 <? pad_len) && (pad_len <=? len payload)
    then slice_to payload (len payload - pad_len)
    else Val payload
  else Val payload.

Definition build (payload_type sequence_number timestamp ssrc : Z) (marker : bool)
    (payload : bytes) : bytes :=
  [128] ++ [Z.lor (if marker then 128 else 0) (Z.land payload_type 127)]
  ++ to_be 2 sequence_number ++ to_be 4 timestamp ++ to_be 4 ssrc ++ payload.

(** Field widths and a header that lies inside the datagram. *)
Definition wf (data : bytes) (h : t) : Prop :=
  version h = 2 /\ 0 <= csrc_count h <= 15 /\ 0 <= payload_type h <= 127 /\
  is_u16 (sequence_number h) /\ is_u32 (timestamp h) /\ is_u32 (ssrc h) /\
  12 + csrc_count h * 4 <= header_len h <= len data.

(** ** Helper lemmas *)

Lemma land15_bound b : 0 <= Z.land b 15 <= 15.
Proof. rewrite land15. mlia. Qed.

Lemma land127_bound b : 0 <= Z.land b 127 <= 127.
Proof. rewrite land127. mlia. Qed.

Lemma skip_extension_spec data hl :
  are_bytes data -> 12 <= hl <= 72 ->
  skip_extension data hl = Val None \/
  exists n, skip_extension data hl = Val (Some n) /\ hl + 4 <= n.
Proof.
  intros Hd Hhl. unfold skip_extension. split_if; [by left |].
  rewrite get16_val by lia. cbn [obind].
  pose proof (be16_at_u16 data (hl + 2) Hd) as B. unfold is_u16 in B.
  unfold checked_mul64, checked_add64, u64_max.
  rewrite (proj2 (Z.leb_le _ _)) by lia. rewrite (proj2 (Z.leb_le _ _)) by lia.
  right. eexists. split; [done |]. lia.
Qed.

Lemma parse_cases data :
  are_bytes data ->
  parse data = Val None \/ exists h, parse data = Val (Some h) /\ wf data h.
Proof.
  intros Hd. unfold parse. split_if; [by left |].
  reads. split_if; [by left |]. reads.
  pose proof (land15_bound (byte_at data 0)) as Hc.
  destruct (negb (Z.land (Z.shiftr (byte_at data 0) 4) 1 =? 0)).
  - destruct (skip_extension_spec data (12 + Z.land (byte_at data 0) 15 * 4) Hd ltac:(lia))
      as [-> | (n & -> & Hn)]; cbn [obind]; [by left |].
    split_if; [by left | right]. eexists. split; [done |].
    unfold wf. cbn. pose proof (land127_bound (byte_at data 1)).
    repeat split; try apply be16_at_u16; try apply be32_at_u32; try done; lia.
  - cbn [obind]. split_if; [by left | right]. eexists. split; [done |].
    unfold wf. cbn. pose proof (land127_bound (byte_at data 1)).
    repeat split; try apply be16_at_u16; try apply be32_at_u32; try done; lia.
Qed.

Lemma len_build pt seq ts sc m pl : len (build pt seq ts sc m pl) = 12 + len pl.
Proof. unfold build. rewrite !len_app, !len_to_be, !len_cons, !len_nil. lia. Qed.

Lemma build_byte1 pt (m : bool) :
  is_u8 pt ->
  let b1 := Z.lor (if m then 128 else 0) (Z.land pt 127) in
  negb (Z.land (Z.shiftr b1 7) 1 =? 0) = m /\ Z.land b1 127 = Z.land pt 127.
Proof.
  intros Hpt. cbv zeta.
  assert (C : forall m' : bool,
    eqb (negb (Z.land (Z.shiftr (Z.lor (if m' then 128 else 0) (Z.land pt 127)) 7) 1 =? 0)) m'
    && (Z.land (Z.lor (if m' then 128 else 0) (Z.land pt 127)) 127 =? Z.land pt 127) = true).
  { intros m'. pattern pt. revert pt Hpt. by apply byte_check; destruct m'; vm_compute. }
  specialize (C m). cbv beta in C. apply andb_true_iff in C. destruct C as [C1 C2].
  split; [by apply eqb_prop | by apply Z.eqb_eq].
Qed.

(** ** Properties *)

(** For every datagram, [RtpHeader::parse] returns without a panic; when it
    accepts, the version is 2, every field fits its width and the header (with
    its CSRC list and extension) lies inside the datagram. *)
Theorem parse_total data :
  are_bytes data ->
  parse data = Val None \/ exists h, parse data = Val (Some h) /\ wf data h.
Proof. apply parse_cases. Qed.

Lemma build_bytes pt seq ts sc m pl : are_bytes pl -> are_bytes (build pt seq ts sc m pl).
Proof.
  intros H. unfold build. repeat (apply Forall_app; split); try apply to_be_bytes; try done.
  - repeat constructor; mlia.
  - constructor; [| constructor]. rewrite land127.
    destruct m; [| rewrite Z.lor_0_l; mlia].
    pose proof (lor_add 1 (pt mod 128) 7 ltac:(lia) ltac:(mlia)) as L.
    change (1 * 2 ^ 7) with 128 in L. rewrite L. mlia.
Qed.

Lemma payload_val data h :
  are_bytes data -> parse data = Val (Some h) -> exists pl, payload h data = Val pl.
Proof.
  intros Hd Hp. destruct (parse_cases data Hd) as [E | (h' & E & W)]; [congruence |].
  rewrite Hp in E. injection E as <-. destruct W as (_ & Hc & _ & _ & _ & _ & Hl).
  unfold payload. rewrite slice_from_val by lia. cbn [obind].
  set (pl := drop _ data). pose proof (len_nonneg pl). split_if; [| by eexists].
  rewrite get_val by lia. cbn [obind]. split_if; [| by eexists].
  rewrite slice_to_val by lia. by eexists.
Qed.

(** On a header accepted by [parse], [payload] does not panic, and it
    returns the datagram without its header and without at most the padding
    announced by its last byte. *)
Theorem payload_safe data h :
  are_bytes data -> parse data = Val (Some h) ->
  exists n, payload h data = Val (take (Z.to_nat n) (drop (Z.to_nat (header_len h)) data)) /\
    0 <= n <= len data - header_len h /\
    (padding h = false -> n = len data - header_len h) /\
    (padding h = true -> 0 < byte_at data (len data - 1) <= len data - header_len h ->
     n = len data - header_len h - byte_at data (len data - 1)).
Proof.
  intros Hd Hp. destruct (parse_cases data Hd) as [E | (h' & E & W)]; [congruence |].
  rewrite Hp in E. injection E as <-. destruct W as (_ & Hc & _ & _ & _ & _ & Hl).
  unfold payload. rewrite slice_from_val by lia. cbn [obind].
  set (pl := drop _ data).
  assert (Hlen : len pl = len data - header_len h) by (unfold pl; rewrite len_drop; lia).
  assert (Hfull : pl = take (Z.to_nat (len data - header_len h)) pl).
  { symmetry. apply take_ge. unfold len in *. lia. }
  assert (Hlast : 0 < len pl -> byte_at pl (len pl - 1) = byte_at data (len data - 1)).
  { intros. rewrite Hlen in *. unfold pl, byte_at. rewrite nth_skipn. f_equal. lia. }
  destruct (padding h); cbn [andb].
  - destruct (len pl =? 0) eqn:E0; bool_prop; cbn [negb].
    + exists (len data - header_len h). split; [by rewrite <- Hfull |]. repeat split; intros; try done; lia.
    + rewrite get_val by (pose proof (len_nonneg pl); lia). cbn [obind].
      pose proof (len_nonneg pl). rewrite Hlast by lia. split_if.
      * exists (len pl - byte_at data (len data - 1)).
        rewrite slice_to_val by lia. split; [done |]. repeat split; intros; try done; lia.
      * exists (len data - header_len h). split; [by rewrite <- Hfull |].
        repeat split; intros; try done; try lia.
  - exists (len data - header_len h). split; [by rewrite <- Hfull |]. repeat split; intros; try done; lia.
Qed.

(** Witness for [payload_safe]: a packet of two payload bytes and two bytes of
    padding. *)
Lemma payload_safe_witness :
  payload (mk 2 true false 0 false 0 1 2 3 12) [160; 0; 0; 1; 0; 0; 0; 2; 0; 0; 0; 3; 7; 8; 0; 2]
  = Val [7; 8].
Proof.
  destruct (payload_safe [160; 0; 0; 1; 0; 0; 0; 2; 0; 0; 0; 3; 7; 8; 0; 2]
              (mk 2 true false 0 false 0 1 2 3 12)) as (n & E & _ & _ & H).
  - repeat constructor; vm_compute; done.
  - reflexivity.
  - rewrite E, H; [reflexivity | reflexivity | by vm_compute].
Defined.

(** Witness for [parse_total]: a header with one CSRC and a one-word extension. *)
Lemma parse_total_witness :
  exists h, parse [145; 0; 0; 1; 0; 0; 0; 2; 0; 0; 0; 3; 0; 0; 0; 4; 0; 0; 0; 1; 9; 9; 9; 9]
    = Val (Some h) /\ header_len h = 24.
Proof.
  destruct (parse_total [145; 0; 0; 1; 0; 0; 0; 2; 0; 0; 0; 3; 0; 0; 0; 4; 0; 0; 0; 1; 9; 9; 9; 9])
    as [E | (h & E & W)].
  - repeat constructor; vm_compute; done.
  - vm_compute in E. discriminate.
  - exists h. split; [done |]. vm_compute in E. by injection E as <-.
Defined.

Lemma build_fields pt seq ts sc m pl :
  let p := build pt seq ts sc m pl in
  byte_at p 0 = 128 /\ be16_at p 2 = wrap16 seq /\ be32_at p 4 = wrap32 ts /\ be32_at p 8 = wrap32 sc.
Proof. split_and!; [done | apply (from_to_be 2) | apply (from_to_be 4) | apply (from_to_be 4)]. Qed.

Lemma parse_build pt seq ts sc m pl :
  is_u8 pt ->
  let h := mk 2 false false 0 m (Z.land pt 127) (wrap16 seq) (wrap32 ts) (wrap32 sc) 12 in
  parse (build pt seq ts sc m pl) = Val (Some h) /\
  payload h (build pt seq ts sc m pl) = Val pl.
Proof.
  intros Hpt h. destruct (build_byte1 pt m Hpt) as [B1 B2].
  pose proof (len_nonneg pl) as Hn.
  assert (Hl := len_build pt seq ts sc m pl).
  set (p := build pt seq ts sc m pl) in *.
  assert (E1 : byte_at p 1 = Z.lor (if m then 128 else 0) (Z.land pt 127)) by done.
  destruct (build_fields pt seq ts sc m pl) as (E0 & E2 & E4 & E8). fold p in E0, E2, E4, E8.
  split.
  - unfold parse. rewrite (proj2 (Z.ltb_ge _ _)) by lia.
    rewrite (get_val p 0) by lia. cbn [obind]. rewrite E0.
    change (negb (Z.land (Z.shiftr 128 6) 3 =? 2)) with false. cbv iota. reads.
    rewrite E1, E2, E4, E8, B1, B2.
    change (negb (Z.land (Z.shiftr 128 4) 1 =? 0)) with false. cbv iota. cbn [obind].
    change (12 + Z.land 128 15 * 4) with 12.
    destruct (Z.ltb_spec (len p) 12); [lia | done].
  - unfold payload. change (header_len h) with 12. rewrite slice_from_val by lia. done.
Qed.

(** [parse] and [payload] invert [build]: the fields come back modulo their
    width and the payload is returned unchanged. *)
Theorem build_parse_roundtrip pt seq ts sc m pl :
  is_u8 pt ->
  let h := mk 2 false false 0 m (Z.land pt 127) (wrap16 seq) (wrap32 ts) (wrap32 sc) 12 in
  parse (build pt seq ts sc m pl) = Val (Some h) /\
  payload h (build pt seq ts sc m pl) = Val pl.
Proof. apply parse_build. Qed.

(** Witness for [build_parse_roundtrip]. *)
Lemma build_parse_roundtrip_witness :
  parse (build 111 65537 7 9 true [1; 2; 3])
  = Val (Some (mk 2 false false 0 true 111 1 7 9 12)).
Proof. apply (build_parse_roundtrip 111 65537 7 9 true [1; 2; 3]). vm_compute. done. Defined.

End RtpHeader.
