(* ===== verification/Dtmf.v ===== *)
(** RFC 4733 telephone events ([src/media/dtmf.rs]): the detector that
    assembles the packets of a digit into one event, the generator of the
    packets of an injected digit, and the duration rescaling between event
    clocks.  A [char] is its code point; [now] is the value of
    [Instant::now()] during the call. *)

From S2P Require Import Prelude.

Module Dtmf.

Definition DTMF_TIMEOUT : Z := 3 * ns_per_s.

Record DtmfEvent := mkDtmfEvent { digit : Z; duration_ms : Z; ev_volume : Z }.

Record DtmfPacket := mkDtmfPacket { pkt_payload : bytes; pkt_marker : bool }.

(** The event in progress: event id, volume, last duration, RTP timestamp and
    wall-clock start. *)
Record current_event := mkCurrent {
  cur_id : Z; cur_vol : Z; cur_dur : Z; cur_ts : Z; cur_started : Z }.

Record DtmfDetector := mkDetector {
  current : option current_event;
  last_completed : option (Z * Z);
}.

Definition new_detector : DtmfDetector := mkDetector None None.

Definition event_id_to_digit (id : Z) : option Z :=
  match id with
  | 0 => Some 48 (* '0' *)
  | 1 => Some 49
  | 2 => Some 50
  | 3 => Some 51
  | 4 => Some 52
  | 5 => Some 53
  | 6 => Some 54
  | 7 => Some 55
  | 8 => Some 56
  | 9 => Some 57 (* '9' *)
  | 10 => Some 42 (* '*' *)
  | 11 => Some 35 (* '#' *)
  | 12 => Some 65 (* 'A' *)
  | 13 => Some 66
  | 14 => Some 67
  | 15 => Some 68 (* 'D' *)
  | _ => None
  end.

Definition digit_to_event_id (c : Z) : option Z :=
  match c with
  | 48 => Some 0 (* '0' *)
  | 49 => Some 1
  | 50 => Some 2
  | 51 => Some 3
  | 52 => Some 4
  | 53 => Some 5
  | 54 => Some 6
  | 55 => Some 7
  | 56 => Some 8
  | 57 => Some 9 (* '9' *)
  | 42 => Some 10 (* '*' *)
  | 35 => Some 11 (* '#' *)
  | 65 | 97 => Some 12 (* 'A' | 'a' *)
  | 66 | 98 => Some 13
  | 67 | 99 => Some 14
  | 68 | 100 => Some 15 (* 'D' | 'd' *)
  | _ => None
  end.

(** [((dur as u64 * 1000) / rate as u64) as u32] with the default rate. *)
Definition ticks_to_ms (dur clock_rate : Z) : Z :=
  let rate := if 0 <? clock_rate then clock_rate else 8000 in
  wrap32 (dur * 1000 / rate).

Definition event_of (id dur vol clock_rate : Z) : option DtmfEvent :=
  match event_id_to_digit id with
  | Some d => Some (mkDtmfEvent d (ticks_to_ms dur clock_rate) vol)
  | None => None
  end.

Definition drain_if_timed_out (d : DtmfDetector) (clock_rate now : Z)
    : DtmfDetector * option DtmfEvent :=
  match current d with
  | Some c =>
      if DTMF_TIMEOUT <? duration_since now (cur_started c)
      then (d {{ current := None }}, event_of (cur_id c) (cur_dur c) (cur_vol c) clock_rate)
      else (d, None)
  | None => (d, None)
  end.

Definition check_timeout (d : DtmfDetector) (clock_rate now : Z)
    : DtmfDetector * option DtmfEvent :=
  drain_if_timed_out d clock_rate now.

Definition has_active_digit (d : DtmfDetector) : bool :=
  match current d with Some _ => true | None => false end.

(** An event in progress with another id is cut off and reported. *)
Definition interrupt (d : DtmfDetector) (event_id clock_rate : Z)
    : DtmfDetector * option DtmfEvent :=
  match current d with
  | Some c =>
      if negb (cur_id c =? event_id)
      then (d {{ current := None }}, event_of (cur_id c) (cur_dur c) (cur_vol c) clock_rate)
      else (d, None)
  | None => (d, None)
  end.

Definition same_completed (d : DtmfDetector) (event_id timestamp : Z) : bool :=
  match last_completed d with
  | Some (i, t) => (i =? event_id) && (t =? timestamp)
  | None => false
  end.

Definition process (d : DtmfDetector) (payload : bytes) (timestamp clock_rate now : Z)
    : DtmfDetector * option DtmfEvent :=
  if len payload <? 4 then (d, None)
  else
    let event_id := byte_at payload 0 in
    let end_bit := negb (Z.land (Z.shiftr (byte_at payload 1) 7) 1 =? 0) in
    let volume := Z.land (byte_at payload 1) 63 in
    let duration := be16_at payload 2 in
    let this := mkCurrent event_id volume duration timestamp now in
    let '(d, timed_out) := drain_if_timed_out d clock_rate now in
    match timed_out with
    | Some ev => (d {{ current := Some this }}, Some ev)
    | None =>
        let '(d, interrupted) := interrupt d event_id clock_rate in
        let d := d {{ current := Some this }} in
        if end_bit then
          match interrupted with
          | Some ev => (d, Some ev)
          | None =>
              let d := d {{ current := None }} in
              if same_completed d event_id timestamp then (d, None)
              else
                (d {{ last_completed := Some (event_id, timestamp) }},
                 event_of event_id duration volume clock_rate)
          end
        else (d, interrupted)
    end.

Definition build_telephone_event (event_id : Z) (end_ : bool) (volume duration : Z) : bytes :=
  [event_id;
   Z.lor (if end_ then 128 else 0) (Z.land volume 63);
   wrap8 (Z.shiftr duration 8);
   Z.land duration 255].

(** Body of the packet loop of [generate]: the packets pushed for index [i]. *)
Definition packets_at (event_id volume total_ticks ptime_ticks num_packets i : Z)
    : list DtmfPacket :=
  let is_first := i =? 0 in
  let is_last := i =? num_packets - 1 in
  let current_duration :=
    if is_last then Z.min total_ticks u16_max
    else Z.min (wrap32 ((i + 1) * ptime_ticks)) u16_max in
  if is_last then
    map (fun rep =>
           mkDtmfPacket (build_telephone_event event_id true volume current_duration)
                        (is_first && (rep =? 0))) [0; 1; 2]
  else
    [mkDtmfPacket (build_telephone_event event_id false volume current_duration) is_first].

Definition generate (c duration_ms volume clock_rate ptime_ms : Z) : option (list DtmfPacket) :=
  match digit_to_event_id c with
  | None => None
  | Some event_id =>
      if (ptime_ms =? 0) || (clock_rate =? 0) then None
      else
        let total_ticks := wrap32 (duration_ms * clock_rate / 1000) in
        let ptime_ticks := wrap32 (ptime_ms * clock_rate / 1000) in
        let num_packets := (duration_ms + ptime_ms - 1) / ptime_ms in
        Some (concat (map (packets_at event_id volume total_ticks ptime_ticks num_packets)
                (seqZ 0 num_packets)))
  end.

Definition rescale_event_duration (payload : bytes) (src_clock dst_clock : Z) : bytes :=
  if (len payload <? 4) || (src_clock =? dst_clock) || (src_clock =? 0) || (dst_clock =? 0)
  then payload
  else
    let duration := be16_at payload 2 in
    let scaled := Z.min (duration * dst_clock / src_clock) u16_max in
    <[2%nat := scaled / 256]> (<[3%nat := scaled mod 256]> payload).

Definition is_telephone_event_pt (pt : Z) (negotiated : option Z) : bool :=
  match negotiated with
  | Some te_pt => pt =? te_pt
  | None => (pt =? 101) || (pt =? 96) || (pt =? 126)
  end.

(** Feeding a detector the payloads of one event, each with its arrival time. *)
Fixpoint run (d : DtmfDetector) (timestamp clock_rate : Z) (l : list (bytes * Z))
    : DtmfDetector * list DtmfEvent :=
  match l with
  | [] => (d, [])
  | (p, now) :: l =>
      let '(d, e) := process d p timestamp clock_rate now in
      let '(d, es) := run d timestamp clock_rate l in
      (d, match e with Some ev => ev :: es | None => es end)
  end.

(** Consecutive arrivals no further apart than the timeout. *)
Fixpoint gaps_ok (prev : Z) (times : list Z) : Prop :=
  match times with
  | [] => True
  | t :: ts => t - prev <= DTMF_TIMEOUT /\ gaps_ok t ts
  end.

(** ** Decoding the built payloads *)

Lemma event_byte1 (e : bool) vol :
  let b := Z.lor (if e then 128 else 0) (Z.land vol 63) in
  negb (Z.land (Z.shiftr b 7) 1 =? 0) = e /\ Z.land b 63 = Z.land vol 63.
Proof.
  cbv zeta. rewrite land63. set (v := vol mod 64).
  assert (Hv : is_u8 v) by (unfold v; mlia).
  assert (Hv' : v = v mod 64) by (unfold v; mlia).
  assert (C : forall e' : bool,
    eqb (negb (Z.land (Z.shiftr (Z.lor (if e' then 128 else 0) (v mod 64)) 7) 1 =? 0)) e'
    && (Z.land (Z.lor (if e' then 128 else 0) (v mod 64)) 63 =? v mod 64) = true).
  { intros e'. clear Hv'. clearbody v. revert v Hv. by apply byte_check; destruct e'; vm_compute. }
  specialize (C e). rewrite <- Hv' in C. apply andb_true_iff in C. destruct C as [C1 C2].
  split; [by apply eqb_prop | by apply Z.eqb_eq].
Qed.

Lemma event_duration id e vol dur :
  is_u16 dur -> be16_at (build_telephone_event id e vol dur) 2 = dur.
Proof.
  intros. change (be16_at _ 2) with (from_be [wrap8 (Z.shiftr dur 8); Z.land dur 255]).
  unfold from_be. cbn [fold_left]. rewrite land255, Z.shiftr_div_pow2 by lia.
  change (2 ^ 8) with 256. mlia.
Qed.

(** The detector has nothing pending, or the same event within the timeout. *)
Definition ready (d : DtmfDetector) (id now : Z) : Prop :=
  match current d with
  | None => True
  | Some c => cur_id c = id /\ now - cur_started c <= DTMF_TIMEOUT
  end.

Lemma ready_no_event d id rate now :
  ready d id now ->
  drain_if_timed_out d rate now = (d, None) /\ interrupt d id rate = (d, None).
Proof.
  unfold ready, drain_if_timed_out, interrupt. destruct (current d) as [c |]; [| done].
  intros [-> Ht]. rewrite Z.eqb_refl. cbn [negb].
  rewrite (proj2 (Z.ltb_ge _ _)) by (unfold duration_since, DTMF_TIMEOUT, ns_per_s in *; lia).
  done.
Qed.

Lemma process_continuation d id vol dur ts rate now :
  is_u16 dur -> ready d id now ->
  process d (build_telephone_event id false vol dur) ts rate now
  = (d {{ current := Some (mkCurrent id (Z.land vol 63) dur ts now) }}, None).
Proof.
  intros Hd Hr. destruct (ready_no_event d id rate now Hr) as [E1 E2].
  destruct (event_byte1 false vol) as [B1 B2].
  unfold process. change (len (build_telephone_event id false vol dur) <? 4) with false.
  rewrite event_duration by done. change (byte_at (build_telephone_event id false vol dur) 0) with id.
  change (byte_at (build_telephone_event id false vol dur) 1) with (Z.lor 0 (Z.land vol 63)).
  cbv iota zeta in *. rewrite B1, B2, E1, E2. done.
Qed.

Lemma process_end d id vol dur ts rate now :
  is_u16 dur -> ready d id now ->
  process d (build_telephone_event id true vol dur) ts rate now
  = if same_completed d id ts then (d {{ current := None }}, None)
    else (d {{ current := None; last_completed := Some (id, ts) }},
          event_of id dur (Z.land vol 63) rate).
Proof.
  intros Hd Hr. destruct (ready_no_event d id rate now Hr) as [E1 E2].
  destruct (event_byte1 true vol) as [B1 B2].
  unfold process. change (len (build_telephone_event id true vol dur) <? 4) with false.
  rewrite event_duration by done. change (byte_at (build_telephone_event id true vol dur) 0) with id.
  change (byte_at (build_telephone_event id true vol dur) 1) with (Z.lor 128 (Z.land vol 63)).
  cbv iota zeta in *. rewrite B1, B2, E1, E2. by destruct d.
Qed.

(** ** The packets of a generated digit *)

(** Continuation packets followed by the three copies of the end packet. *)
Lemma generate_shape c dur vol rate ptime id :
  digit_to_event_id c = Some id -> 0 < dur -> 0 < rate -> 0 < ptime ->
  exists conts m0 m1,
    generate c dur vol rate ptime =
      Some (conts ++ [mkDtmfPacket (build_telephone_event id true vol
                        (Z.min (wrap32 (dur * rate / 1000)) u16_max)) m0;
                      mkDtmfPacket (build_telephone_event id true vol
                        (Z.min (wrap32 (dur * rate / 1000)) u16_max)) m1;
                      mkDtmfPacket (build_telephone_event id true vol
                        (Z.min (wrap32 (dur * rate / 1000)) u16_max)) m1]) /\
    Forall (fun p => exists d, is_u16 d /\ pkt_payload p = build_telephone_event id false vol d) conts /\
    len conts = (dur + ptime - 1) / ptime - 1.
Proof.
  intros Hc Hdur Hrate Hptime. unfold generate. rewrite Hc.
  rewrite (proj2 (Z.eqb_neq ptime 0)), (proj2 (Z.eqb_neq rate 0)) by lia. cbn [orb].
  set (n := (dur + ptime - 1) / ptime).
  assert (Hn : 1 <= n) by (apply Z.div_le_lower_bound; lia).
  set (tt := wrap32 (dur * rate / 1000)). set (pt := wrap32 (ptime * rate / 1000)).
  assert (Es : seqZ 0 n = seqZ 0 (n - 1) ++ [n - 1]).
  { replace n with ((n - 1) + 1) at 1 by lia. rewrite seqZ_app by lia. done. }
  rewrite Es, map_app, concat_app. cbn [map concat]. rewrite app_nil_r.
  exists (concat (map (packets_at id vol tt pt n) (seqZ 0 (n - 1)))), (n - 1 =? 0), false.
  split; [| split].
  - f_equal. f_equal. unfold packets_at. rewrite Z.eqb_refl.
    cbn [map]. rewrite andb_true_r, !andb_false_r. done.
  - rewrite List.Forall_forall. intros p Hp. apply in_concat in Hp. destruct Hp as (l & Hl & Hp).
    apply in_map_iff in Hl. destruct Hl as (i & <- & Hi).
    rewrite <- list_elem_of_In, elem_of_seqZ in Hi. unfold packets_at in Hp.
    rewrite (proj2 (Z.eqb_neq i (n - 1))) in Hp by lia. destruct Hp as [<- | []].
    eexists. split; [| done]. mlia.
  - transitivity (len (seqZ 0 (n - 1))); [| unfold len; rewrite length_seqZ; lia].
    assert (G : forall l, Forall (fun i => i <> n - 1) l ->
                len (concat (map (packets_at id vol tt pt n) l)) = len l).
    { induction 1 as [| i l Hi _ IH]; [done |]. cbn [map concat].
      rewrite len_app, IH, len_cons. unfold packets_at.
      rewrite (proj2 (Z.eqb_neq _ _)) by done. reflexivity. }
    apply G. rewrite Forall_forall. intros i. rewrite elem_of_seqZ. lia.
Qed.

Lemma run_continuations d id vol ts rate ps times :
  Forall (fun p => exists dur, is_u16 dur /\ pkt_payload p = build_telephone_event id false vol dur) ps ->
  len times = len ps ->
  last_completed d = None ->
  (forall t, match times with t0 :: _ => t = t0 | [] => False end -> ready d id t) ->
  (match times with t0 :: ts => gaps_ok t0 ts | [] => True end) ->
  exists d', run d ts rate (zip (map pkt_payload ps) times) = (d', []) /\
    last_completed d' = None /\
    (times = [] -> d' = d) /\
    (forall c, times <> [] -> current d' = Some c -> cur_id c = id /\ cur_started c = List.last times 0) /\
    (times <> [] -> current d' <> None).
Proof.
  intros HF. revert d times. induction HF as [| p ps (dur & Hdur & Hp) HF IH]; intros d times Hl Hlc Hr Hg.
  - destruct times; [| rewrite len_cons, len_nil in Hl; pose proof (len_nonneg times); lia].
    exists d. cbn. done.
  - destruct times as [| t times]; [rewrite len_cons, len_nil in Hl; pose proof (len_nonneg ps); lia |].
    rewrite !len_cons in Hl. cbn [map zip zip_with run]. rewrite Hp.
    rewrite process_continuation by (try done; by apply Hr).
    set (d1 := d {{ current := _ }}).
    destruct (IH d1 times) as (d' & E & E1 & E2 & E3 & E4).
    + lia.
    + by destruct d.
    + intros t' Ht'. destruct times as [| t0 times]; [done |]. subst t'.
      destruct d. cbn. destruct Hg as [Hg _]. done.
    + by destruct times; [| destruct Hg].
    + rewrite E. exists d'. split; [done |].
      split; [done |]. split; [done |]. split.
      * intros c _ Hc. destruct times as [| t0 times].
        -- rewrite (E2 eq_refl) in Hc. destruct d. cbn in Hc. by injection Hc as <-.
        -- destruct (E3 c ltac:(done) Hc) as [? ->]. done.
      * intros _. destruct times as [| t0 times]; [rewrite (E2 eq_refl); by destruct d | by apply E4].
Qed.

Lemma run_app d ts rate l k :
  run d ts rate (l ++ k) =
  let '(d1, e1) := run d ts rate l in let '(d2, e2) := run d1 ts rate k in (d2, e1 ++ e2).
Proof.
  revert d. induction l as [| [p now] l IH]; intros d; cbn [run app].
  - by destruct (run d ts rate k).
  - destruct (process d p ts rate now) as [d1 e]. rewrite IH.
    destruct (run d1 ts rate l) as [d2 e2]. destruct (run d2 ts rate k) as [d3 e3].
    by destruct e.
Qed.

Lemma gaps_ok_app prev a b :
  gaps_ok prev (a ++ b) <-> gaps_ok prev a /\ gaps_ok (List.last a prev) b.
Proof.
  revert prev. induction a as [| t a IH]; intros prev; cbn [gaps_ok app]; [tauto |].
  rewrite IH, last_cons. tauto.
Qed.

Lemma split_last3 {A} (l : list A) n :
  len l = n + 3 -> 0 <= n -> exists a x y z, l = a ++ [x; y; z] /\ len a = n.
Proof.
  intros Hl Hn. exists (take (Z.to_nat n) l).
  destruct (drop (Z.to_nat n) l) as [| x [| y [| z [| w r]]]] eqn:E;
    assert (len (drop (Z.to_nat n) l) = 3) as E' by (rewrite len_drop; lia);
    rewrite E in E'; try (vm_compute in E'; done).
  - exists x, y, z. split; [by rewrite <- E, take_drop |]. rewrite len_take; lia.
  - rewrite !len_cons in E'. pose proof (len_nonneg r). lia.
Qed.

(** RFC 4733: the keys in the order of their event codes. *)
Definition event_codes : list Z := [48; 49; 50; 51; 52; 53; 54; 55; 56; 57; 42; 35; 65; 66; 67; 68].
Definition ascii_upper (c : Z) : Z := if (97 <=? c) && (c <=? 122) then c - 32 else c.
(** [c] is the key with code [id], a letter in either case. *)
Definition key (c id : Z) : Prop := 0 <= id /\ event_codes !! Z.to_nat id = Some (ascii_upper c).

Lemma key_tables c id :
  key c id -> digit_to_event_id c = Some id /\ event_id_to_digit id = Some (ascii_upper c).
Proof.
  intros [Hid Hk]. assert (Hlt : (Z.to_nat id < 16)%nat) by (by apply lookup_lt_Some in Hk).
  assert (Hc : forall k, ascii_upper c = k -> c = k \/ c = k + 32 /\ 65 <= k <= 90).
  { intros k <-. unfold ascii_upper. destruct (Z.leb_spec 97 c), (Z.leb_spec c 122); cbn [andb]; lia. }
  rewrite <- (Z2Nat.id id) by done. revert Hk Hlt. generalize (Z.to_nat id). intros n Hk Hlt.
  do 16 (destruct n as [| n]; [injection Hk as Hk; symmetry in Hk; rewrite Hk; specialize (Hc _ Hk);
    destruct Hc as [-> | [-> Hr]]; first [done | lia] |]). lia.
Qed.

(** The first end copy completes the event; the other copies are silent. *)
Lemma run_end_copies d id vol dur ts rate t0 t1 t2 :
  is_u16 dur -> ready d id t0 -> last_completed d = None ->
  run d ts rate (zip (replicate 3 (build_telephone_event id true vol dur)) [t0; t1; t2])
  = (mkDetector None (Some (id, ts)),
     match event_of id dur (Z.land vol 63) rate with Some ev => [ev] | None => [] end).
Proof.
  intros Hdur Hr Hl. destruct d as [cur lc]. cbn in Hl. subst lc.
  cbn [replicate zip zip_with run].
  rewrite process_end by done. cbn [same_completed last_completed]. cbv iota beta.
  rewrite process_end by done.
  change (same_completed _ id ts) with ((id =? id) && (ts =? ts)).
  rewrite !Z.eqb_refl. cbn [andb]. rewrite process_end by done.
  change (same_completed _ id ts) with ((id =? id) && (ts =? ts)).
  rewrite !Z.eqb_refl. cbn. by destruct (event_of _ _ _ _).
Qed.

(** Continuation packets and three end copies make one event. *)
Lemma run_generated id d vol D ts rate conts m0 m1 t0 times :
  event_id_to_digit id = Some d -> is_u16 D ->
  Forall (fun p => exists dd, is_u16 dd /\ pkt_payload p = build_telephone_event id false vol dd) conts ->
  len (t0 :: times)
    = len (conts ++ [mkDtmfPacket (build_telephone_event id true vol D) m0;
                     mkDtmfPacket (build_telephone_event id true vol D) m1;
                     mkDtmfPacket (build_telephone_event id true vol D) m1]) ->
  gaps_ok t0 times ->
  snd (run new_detector ts rate
    (zip (map pkt_payload (conts ++ [mkDtmfPacket (build_telephone_event id true vol D) m0;
                                     mkDtmfPacket (build_telephone_event id true vol D) m1;
                                     mkDtmfPacket (build_telephone_event id true vol D) m1])) (t0 :: times)))
  = [mkDtmfEvent d (ticks_to_ms D rate) (Z.land vol 63)].
Proof.
  intros Hd HD HF Hlen Hgap. rewrite len_app in Hlen.
  destruct (split_last3 (t0 :: times) (len conts)) as (a & x & y & z & Ea & Hla).
  { rewrite Hlen. reflexivity. }
  { apply len_nonneg. }
  assert (Hgaps : gaps_ok t0 (a ++ [x; y; z])) by (rewrite <- Ea; cbn; split; [unfold DTMF_TIMEOUT, ns_per_s; lia | done]).
  rewrite Ea, map_app.
  rewrite zip_with_app by (rewrite length_map; unfold len in Hla; lia).
  rewrite run_app.
  apply gaps_ok_app in Hgaps. destruct Hgaps as [Hga Hgb].
  assert (Ha0 : forall t, match a with t' :: _ => t = t' | [] => False end -> ready new_detector id t) by done.
  assert (Hga' : match a with t' :: ts' => gaps_ok t' ts' | [] => True end) by (destruct a; [done | by destruct Hga]).
  destruct (run_continuations new_detector id vol ts rate conts a HF Hla eq_refl Ha0 Hga')
    as (d' & E & E1 & E2 & E3 & E4).
  rewrite E. cbn [map pkt_payload].
  pose proof (run_end_copies d' id vol D ts rate x y z HD) as R.
  cbn [replicate] in R. rewrite R; [cbn; unfold event_of; by rewrite Hd | | done].
  unfold ready. destruct (current d') as [cc |] eqn:Ecur; [| done].
  destruct a as [| a0 a]; [rewrite (E2 eq_refl) in Ecur; done |].
  destruct (E3 cc ltac:(done) eq_refl) as [-> ->]. split; [done |].
  destruct Hgb as [Hgb _].
  rewrite last_cons in *. lia.
Qed.

(** C22: for every key of the telephone keypad, a letter in either case, packets
    are generated with the event code RFC 4733 gives that key, and delivered in
    order with no pause longer than the timeout they make a fresh detector report
    exactly one event: that key, its volume and the (16-bit saturated) duration. *)
Theorem generate_detect_roundtrip c dur vol rate ptime id :
  key c id -> 0 < dur -> 0 < rate -> 0 < ptime ->
  exists ps, generate c dur vol rate ptime = Some ps /\
    Forall (fun p => head (pkt_payload p) = Some id) ps /\
    forall ts t0 times, len (t0 :: times) = len ps -> gaps_ok t0 times ->
      snd (run new_detector ts rate (zip (map pkt_payload ps) (t0 :: times)))
      = [mkDtmfEvent (ascii_upper c) (ticks_to_ms (Z.min (wrap32 (dur * rate / 1000)) u16_max) rate)
           (Z.land vol 63)].
Proof.
  intros [Hc Hd]%key_tables Hdur Hrate Hpt.
  destruct (generate_shape c dur vol rate ptime id Hc Hdur Hrate Hpt)
    as (conts & m0 & m1 & Eg & HF & _).
  eexists. split; [exact Eg |]. split.
  { apply Forall_app. split; [| by repeat constructor]. eapply Forall_impl; [exact HF |].
    by intros p (dd & _ & ->). }
  intros ts t0 times Hlen Hgap. clear Eg.
  set (D := Z.min (wrap32 (dur * rate / 1000)) u16_max) in *.
  assert (HD : is_u16 D).
  { unfold D. pose proof (Z.mod_pos_bound (dur * rate / 1000) 4294967296). unfold wrap32, is_u16, u16_max. lia. }
  apply run_generated; done.
Qed.

(** Witness for [generate_detect_roundtrip]: the letter 'b' for 100 ms at 8 kHz, one
    packet every 20 ms. *)
Lemma generate_detect_roundtrip_witness :
  exists ps, generate 98 100 10 8000 20 = Some ps /\ Forall (fun p => head (pkt_payload p) = Some 13) ps /\
    len ps = 7 /\
    snd (run new_detector 1000 8000
          (zip (map pkt_payload ps) (0 :: map (fun i => i * 20 * ns_per_ms) [1; 2; 3; 4; 5; 6])))
    = [mkDtmfEvent 66 100 10].
Proof.
  destruct (generate_detect_roundtrip 98 100 10 8000 20 13) as (ps & E & F & R); [by split | done ..|].
  exists ps. split; [done |]. split; [done |].
  assert (L : len ps = 7) by (vm_compute in E; by injection E as <-). split; [done |].
  rewrite R; [reflexivity | by rewrite L |]. by cbn; unfold DTMF_TIMEOUT, ns_per_s, ns_per_ms.
Defined.

(** An end packet of a new digit that arrives while another digit is in
    progress reports the interrupted digit, and one of its redundant copies then
    reports the new digit: both digits are reported once, in order. *)
Theorem interrupted_digit_not_lost d c id vol dur ts rate now t1 t2 ev ev' :
  current d = Some c -> cur_id c <> id -> duration_since now (cur_started c) <= DTMF_TIMEOUT ->
  duration_since t1 now <= DTMF_TIMEOUT -> is_u16 dur ->
  last_completed d <> Some (id, ts) ->
  event_of (cur_id c) (cur_dur c) (cur_vol c) rate = Some ev ->
  event_of id dur (Z.land vol 63) rate = Some ev' ->
  run d ts rate (zip (replicate 3 (build_telephone_event id true vol dur)) [now; t1; t2])
  = (mkDetector None (Some (id, ts)), [ev; ev']).
Proof.
  intros Hc Hne Ht Ht1 Hdur Hlc Hev Hev'. destruct d as [cur lc]. cbn in Hc, Hlc. subst cur.
  cbn [replicate zip zip_with run].
  assert (P1 : process (mkDetector (Some c) lc) (build_telephone_event id true vol dur) ts rate now
               = (mkDetector (Some (mkCurrent id (Z.land vol 63) dur ts now)) lc, Some ev)).
  { destruct (event_byte1 true vol) as [B1 B2]. unfold process.
    change (len (build_telephone_event id true vol dur) <? 4) with false.
    rewrite event_duration by done.
    change (byte_at (build_telephone_event id true vol dur) 0) with id.
    change (byte_at (build_telephone_event id true vol dur) 1) with (Z.lor 128 (Z.land vol 63)).
    cbv iota zeta in *. rewrite B1, B2. unfold drain_if_timed_out, interrupt. cbn [current].
    rewrite (proj2 (Z.ltb_ge _ _)) by lia. cbn [current].
    rewrite (proj2 (Z.eqb_neq _ _)) by done. cbn [negb]. rewrite Hev. done. }
  rewrite P1.
  assert (S : same_completed (mkDetector (Some (mkCurrent id (Z.land vol 63) dur ts now)) lc) id ts = false).
  { unfold same_completed. cbn. destruct lc as [[i t] |]; [| done].
    destruct (Z.eqb_spec i id), (Z.eqb_spec t ts); subst; try done. }
  rewrite process_end by (first [done | unfold ready, duration_since in *; cbn; lia]).
  rewrite S, Hev'. rewrite process_end by done.
  change (same_completed _ id ts) with ((id =? id) && (ts =? ts)).
  rewrite !Z.eqb_refl. done.
Qed.

(** Witness for [interrupted_digit_not_lost]: '1' cut off by the end of '2'. *)
Lemma interrupted_digit_not_lost_witness :
  run (mkDetector (Some (mkCurrent 1 10 800 500 0)) None) 900 8000
    (zip (replicate 3 (build_telephone_event 2 true 10 1600)) [20 * ns_per_ms; 40 * ns_per_ms; 60 * ns_per_ms])
  = (mkDetector None (Some (2, 900)), [mkDtmfEvent 49 100 10; mkDtmfEvent 50 200 10]).
Proof.
  apply (interrupted_digit_not_lost (mkDetector (Some (mkCurrent 1 10 800 500 0)) None)
           (mkCurrent 1 10 800 500 0)); try done; by vm_compute.
Defined.

(** A continuation packet of an already completed event that arrives late is
    taken for a new digit: once the timeout passes the same digit is reported a
    second time. *)
Theorem late_continuation_reported_again id vol dur ts rate t0 t1 t2 ev :
  is_u16 dur -> event_of id dur (Z.land vol 63) rate = Some ev ->
  t2 - t1 > DTMF_TIMEOUT ->
  let '(d, es) := run new_detector ts rate
    [(build_telephone_event id true vol dur, t0); (build_telephone_event id false vol dur, t1)] in
  es = [ev] /\ check_timeout d rate t2 = (mkDetector None (Some (id, ts)), Some ev).
Proof.
  intros Hdur Hev Ht. cbn [run]. rewrite process_end by done. cbn [same_completed last_completed new_detector].
  rewrite Hev, process_continuation by done. split; [done |].
  unfold check_timeout, drain_if_timed_out, duration_since. cbn.
  rewrite (proj2 (Z.ltb_lt _ _)) by lia. by rewrite Hev.
Qed.

(** Witness for [late_continuation_reported_again]. *)
Lemma late_continuation_reported_again_witness :
  let '(d, es) := run new_detector 160 8000
    [(build_telephone_event 9 true 10 800, 0); (build_telephone_event 9 false 10 800, ns_per_ms)] in
  es = [mkDtmfEvent 57 100 10] /\
  check_timeout d 8000 (4 * ns_per_s) = (mkDetector None (Some (9, 160)), Some (mkDtmfEvent 57 100 10)).
Proof.
  apply (late_continuation_reported_again 9 10 800 160 8000 0 ns_per_ms (4 * ns_per_s)); by vm_compute.
Defined.

(** ** Rescaling *)

(** Rescaling a telephone event to another clock changes only the duration
    field; up to saturation the duration in milliseconds seen at the new clock
    is that of the old clock within rounding. *)
Theorem rescale_preserves_duration p src dst :
  are_bytes p -> 4 <= len p -> 0 < src -> 0 < dst -> src <> dst ->
  let q := rescale_event_duration p src dst in
  len q = len p /\
  (forall i, 0 <= i -> i <> 2 -> i <> 3 -> byte_at q i = byte_at p i) /\
  be16_at q 2 = Z.min (be16_at p 2 * dst / src) u16_max /\
  (be16_at p 2 * dst / src <= u16_max ->
   be16_at p 2 * 1000 / src - 1 - 1000 / dst <= be16_at q 2 * 1000 / dst <= be16_at p 2 * 1000 / src).
Proof.
  intros Hp Hl Hs Hd Hne q. pose proof (be16_at_u16 p 2 Hp) as Hd2.
  set (du := be16_at p 2) in *.
  assert (Hsc : 0 <= du * dst / src) by (apply Z.div_pos; unfold is_u16 in Hd2; nia).
  destruct p as [| b0 [| b1 [| b2 [| b3 p]]]]; try (vm_compute in Hl; congruence).
  assert (Eq : q = b0 :: b1 :: Z.min (du * dst / src) u16_max / 256
                 :: Z.min (du * dst / src) u16_max mod 256 :: p).
  { unfold q, rescale_event_duration.
    rewrite (proj2 (Z.ltb_ge _ _)), (proj2 (Z.eqb_neq src dst)), (proj2 (Z.eqb_neq src 0)),
      (proj2 (Z.eqb_neq dst 0)) by lia. done. }
  assert (E2 : be16_at q 2 = Z.min (du * dst / src) u16_max).
  { rewrite Eq. change (be16_at _ 2) with
      (from_be [Z.min (du * dst / src) u16_max / 256; Z.min (du * dst / src) u16_max mod 256]).
    unfold from_be. cbn [fold_left]. mlia. }
  split; [by rewrite Eq |]. split; [| split; [done |]].
  - intros i Hi H2 H3. rewrite Eq. destruct (decide (i = 0)) as [-> |]; [done |].
    destruct (decide (i = 1)) as [-> |]; [done |]. rewrite !byte_at_cons_S by lia. done.
  - intros Hu. rewrite E2, Z.min_l by done. unfold is_u16 in Hd2. clear - Hd2 Hs Hd Hsc.
    split.
    + assert (G : (du * 1000 / src) * dst <= (du * dst / src + 1) * 1000).
      { pose proof (Z.mul_div_le (du * 1000) src Hs).
        pose proof (Z.mul_succ_div_gt (du * dst) src Hs). nia. }
      pose proof (Z.mul_succ_div_gt 1000 dst Hd).
      pose proof (Z.mul_succ_div_gt (du * dst / src * 1000) dst Hd). nia.
    + apply Z.div_le_lower_bound; [done |].
      pose proof (Z.mul_div_le (du * dst / src * 1000) dst Hd).
      pose proof (Z.mul_div_le (du * dst) src Hs). nia.
Qed.

(** Witness for [rescale_preserves_duration]: a WebRTC event forwarded to SIP. *)
Lemma rescale_preserves_duration_witness :
  rescale_event_duration [5; 138; 18; 192] 48000 8000 = [5; 138; 3; 32] /\
  be16_at (rescale_event_duration [5; 138; 18; 192] 48000 8000) 2 = 800.
Proof.
  split; [reflexivity |].
  destruct (rescale_preserves_duration [5; 138; 18; 192] 48000 8000) as (_ & _ & E & _); try done.
  - repeat constructor; by vm_compute.
Defined.

End Dtmf.
