(* ===== verification/Rtcp.v ===== *)
(** RTCP ([src/media/rtcp.rs]): receive statistics (RFC 3550 appendix A),
    the compound sender report, validation and parsing of compound packets.

    [now] is [Instant::now()] in nanoseconds, [sys] is [SystemTime::now()]
    since the Unix epoch as seconds and nanoseconds.  The loops over a datagram
    run on fuel; running out of it is a [Panic], so the totality theorems show
    that the fuel suffices. *)

From S2P Require Import Prelude.

Module Rtcp.

Definition RTCP_SR : Z := 200.
Definition RTCP_RR : Z := 201.
Definition RTCP_SDES : Z := 202.
Definition RTCP_BYE : Z := 203.

Record ReportBlock := mkReportBlock {
  rb_ssrc : Z;
  fraction_lost : Z;
  rb_cumulative_lost : Z; (* i32 *)
  rb_highest_seq : Z;
  rb_jitter : Z;
  last_sr : Z;
  delay_since_last_sr : Z;
}.

Record SenderReport := mkSenderReport {
  sr_ssrc : Z;
  ntp_timestamp : Z;
  rtp_timestamp : Z;
  sender_packet_count : Z;
  sender_octet_count : Z;
  sr_report_blocks : list ReportBlock;
}.

Record ReceiverReport := mkReceiverReport {
  rr_ssrc : Z;
  rr_report_blocks : list ReportBlock;
}.

(** [reason] is the byte string that the source converts with
    [String::from_utf8_lossy]. *)
Record ByePacket := mkByePacket { ssrc_list : list Z; reason : option bytes }.

Inductive RtcpPacket :=
| SenderReportP (sr : SenderReport)
| ReceiverReportP (rr : ReceiverReport)
| ByeP (bye : ByePacket).

Record RemoteReceiverReport := mkRemoteReceiverReport {
  packets_lost : Z;
  highest_sequence : Z;
  rrr_jitter : Z;
  received_at : Z;
  generation : Z;
  count : Z;
}.

Record RtcpStats := mkStats {
  packets_received : Z;
  octets_received : Z;
  jitter : Z;
  last_sr_ntp : Z;
  last_sr_received : option Z;
  last_sr_ssrc : option Z;
  seq_initialized : bool;
  base_seq : Z;
  extended_max_seq : Z;
  expected_prior : Z;
  received_prior : Z;
  last_jitter_sample : option (Z * Z * Z);
  packets_sent : Z;
  octets_sent : Z;
  our_last_sr_ntp_middle : Z;
  (** Round-trip time in units of 1/65536 ms: the [f64] computation of the
      source is exact on these values (at most 42 significant bits). *)
  rtt_ms : option Z;
  rtt_observed_at : option Z;
  remote_receiver_report : option RemoteReceiverReport;
  remote_report_generation : Z;
  remote_report_count : Z;
  current_ssrc : option Z;
  lost_accumulated : Z;
}.

Definition new : RtcpStats :=
  mkStats 0 0 0 0 None None false 0 0 0 0 None 0 0 0 None None None 0 0 None 0.

(** ** Receive statistics *)

Definition expected_packets (s : RtcpStats) : Z :=
  if negb (seq_initialized s) then 0
  else wrap32 (extended_max_seq s - base_seq s + 1).

Definition current_gen_lost (s : RtcpStats) : Z :=
  sat_sub (expected_packets s) (packets_received s).

Definition cumulative_lost (s : RtcpStats) : Z :=
  sat_add32 (lost_accumulated s) (current_gen_lost s).

(** A new source SSRC folds the loss of the ending generation and re-baselines. *)
Definition rebaseline (s : RtcpStats) (ssrc : Z) : RtcpStats :=
  let s :=
    match current_ssrc s with
    | Some _ => s {{ lost_accumulated := sat_add32 (lost_accumulated s) (current_gen_lost s) }}
    | None => s
    end in
  s {{ current_ssrc := Some ssrc;
       seq_initialized := false;
       packets_received := 0;
       octets_received := 0;
       expected_prior := 0;
       received_prior := 0;
       last_jitter_sample := None;
       jitter := 0 }}.

Definition track_seq (s : RtcpStats) (seq : Z) : RtcpStats :=
  if negb (seq_initialized s) then
    s {{ base_seq := seq; extended_max_seq := seq; seq_initialized := true }}
  else
    let delta := wrap16 (seq - wrap16 (extended_max_seq s)) in
    if negb (delta =? 0) && (delta <? 32768)
    then s {{ extended_max_seq := wrap32 (extended_max_seq s + delta) }}
    else s.

(** [|D|] of RFC 3550 A.8 in microseconds, and one step of the estimator. *)
Definition transit_difference (arrival_us timestamp_delta clock_rate : Z) : Z :=
  let media_us := Z.quot (timestamp_delta * 1000000) clock_rate in
  Z.min (Z.abs (sat_sub_i64 arrival_us media_us)) u32_max.

Definition jitter_step (j d : Z) : Z :=
  let delta := Z.shiftr (d - j) 4 in
  wrap32 (Z.max (j + delta) 0).

Definition track_jitter (s : RtcpStats) (timestamp clock_rate now : Z) : RtcpStats :=
  if 0 <? clock_rate then
    let s :=
      match last_jitter_sample s with
      | Some (previous_arrival, previous_timestamp, previous_rate) =>
          if previous_rate =? clock_rate then
            let arrival_us := Z.min (duration_since now previous_arrival / ns_per_us) i64_max in
            let timestamp_delta := as_i32 (wrap32 (timestamp - previous_timestamp)) in
            s {{ jitter := jitter_step (jitter s)
                           (transit_difference arrival_us timestamp_delta clock_rate) }}
          else s {{ jitter := 0 }}
      | None => s {{ jitter := 0 }}
      end in
    s {{ last_jitter_sample := Some (now, timestamp, clock_rate) }}
  else s.

Definition record_received (s : RtcpStats) (ssrc seq timestamp payload_len clock_rate now : Z)
    : RtcpStats :=
  let s := if bool_decide (current_ssrc s = Some ssrc) then s else rebaseline s ssrc in
  let s := s {{ packets_received := wrap32 (packets_received s + 1);
                octets_received := wrap32 (octets_received s + wrap32 payload_len) }} in
  track_jitter (track_seq s seq) timestamp clock_rate now.

Definition fraction_lost_and_update (s : RtcpStats) : RtcpStats * Z :=
  let expected := expected_packets s in
  let expected_interval := wrap32 (expected - expected_prior s) in
  let received_interval := wrap32 (packets_received s - received_prior s) in
  let s := s {{ expected_prior := expected; received_prior := packets_received s }} in
  if (expected_interval =? 0) || (expected_interval <=? received_interval) then (s, 0)
  else
    let lost_interval := expected_interval - received_interval in
    (s, Z.min (Z.shiftl lost_interval 8 / expected_interval) 255).

Definition highest_seq (s : RtcpStats) : Z := extended_max_seq s.

Definition record_sent (s : RtcpStats) (payload_len : Z) : RtcpStats :=
  s {{ packets_sent := wrap32 (packets_sent s + 1);
       octets_sent := wrap32 (octets_sent s + wrap32 payload_len) }}.

Definition process_sr (s : RtcpStats) (sr : SenderReport) (now : Z) : RtcpStats :=
  s {{ last_sr_ntp := Z.land (Z.shiftr (ntp_timestamp sr) 16) 4294967295;
       last_sr_received := Some now;
       last_sr_ssrc := Some (sr_ssrc sr) }}.

(** 64-bit NTP time of the system clock. *)
Definition ntp_now (sys : Z * Z) : Z :=
  let '(secs, nanos) := sys in
  let ntp_secs := wrap64 (secs + 2208988800) in
  let ntp_frac := nanos * 4294967296 / 1000000000 in
  Z.lor (wrap64 (Z.shiftl ntp_secs 32)) ntp_frac.

Definition ntp_middle (ntp : Z) : Z := Z.land (Z.shiftr ntp 16) 4294967295.

Definition process_rr (s : RtcpStats) (block : ReportBlock) (our_ssrc now : Z) (sys : Z * Z)
    : RtcpStats :=
  if negb (rb_ssrc block =? our_ssrc) then s
  else
    let s := s {{ remote_report_count := sat_add64 (remote_report_count s) 1 }} in
    let s := s {{ remote_receiver_report :=
                    Some (mkRemoteReceiverReport (rb_cumulative_lost block) (rb_highest_seq block)
                            (rb_jitter block) now (remote_report_generation s)
                            (remote_report_count s)) }} in
    if last_sr block =? 0 then s
    else
      let rtt_ntp := wrap32 (wrap32 (ntp_middle (ntp_now sys) - last_sr block)
                             - delay_since_last_sr block) in
      let rtt := (Z.shiftr rtt_ntp 16 * 65536 + Z.land rtt_ntp 65535) * 1000 in
      if (0 <=? rtt) && (rtt <? 10000 * 65536)
      then s {{ rtt_ms := Some rtt; rtt_observed_at := Some now }}
      else s.

Definition reset_remote_receiver_report (s : RtcpStats) : RtcpStats :=
  s {{ remote_report_generation := sat_add64 (remote_report_generation s) 1;
       remote_report_count := 0;
       remote_receiver_report := None }}.

Definition record_sr_sent (s : RtcpStats) (ntp : Z) : RtcpStats :=
  s {{ our_last_sr_ntp_middle := ntp_middle ntp }}.

(** ** Building the compound report *)

(** [((secs.min(0xFFFF) as u32) << 16) | subsec_micros * 65536 / 1_000_000]. *)
Definition dlsr_of (elapsed : Z) : Z :=
  Z.lor (wrap32 (Z.shiftl (Z.min (elapsed / ns_per_s) 65535) 16))
        (wrap32 ((elapsed mod ns_per_s) / ns_per_us * 65536 / 1000000)).

Definition build_sr_rr (our_ssrc remote_ssrc : Z) (stats : RtcpStats)
    (rtp_timestamp clock_rate now : Z) (sys : Z * Z) : bytes * RtcpStats :=
  let ntp := ntp_now sys in
  let stats := record_sr_sent stats ntp in
  let rc := 1 in
  let length := 6 + rc * 6 in
  let head := [Z.lor 128 rc; RTCP_SR] ++ to_be 2 length ++ to_be 4 our_ssrc ++ to_be 8 ntp
    ++ to_be 4 rtp_timestamp ++ to_be 4 (packets_sent stats) ++ to_be 4 (octets_sent stats)
    ++ to_be 4 remote_ssrc in
  let '(stats, fraction_lost) := fraction_lost_and_update stats in
  let cum_lost := Z.land (current_gen_lost stats) 16777215 in
  let rate := if 0 <? clock_rate then clock_rate else 8000 in
  let jitter_ts := wrap32 (jitter stats * rate / 1000000) in
  let '(last_sr, dlsr) :=
    if bool_decide (last_sr_ssrc stats = Some remote_ssrc) then
      (last_sr_ntp stats,
       match last_sr_received stats with
       | Some t => dlsr_of (duration_since now t)
       | None => 0
       end)
    else (0, 0) in
  (head ++ [fraction_lost] ++
   [Z.land (Z.shiftr cum_lost 16) 255; Z.land (Z.shiftr cum_lost 8) 255; Z.land cum_lost 255]
   ++ to_be 4 (highest_seq stats) ++ to_be 4 jitter_ts ++ to_be 4 last_sr ++ to_be 4 dlsr,
   stats).

(** ** Validating a compound packet *)

(** Items of one SDES chunk, from [offset]: the offset after the chunk. *)
Fixpoint sdes_items (fuel : nat) (content : bytes) (offset : Z) : outcome (option Z) :=
  match fuel with
  | O => Panic
  | S fuel =>
      if len content <=? offset then Val None
      else
        let! b := get content offset in
        if b =? 0 then Val (Some (Z.ldiff (offset + 4) 3))
        else if len content <? offset + 2 then Val None
        else
          let! l := get content (offset + 1) in
          let offset := offset + (2 + l) in
          if len content <? offset then Val None
          else sdes_items fuel content offset
  end.

Fixpoint sdes_chunks (count : nat) (content : bytes) (offset : Z) : outcome (option Z) :=
  match count with
  | O => Val (Some offset)
  | S count =>
      if len content <? offset + 4 then Val None
      else
        let! next := sdes_items (S (length content)) content (offset + 4) in
        match next with
        | None => Val None
        | Some offset => sdes_chunks count content offset
        end
  end.

Definition valid_bye (content : bytes) (count : Z) : outcome bool :=
  let end_ := 4 + count * 4 in
  if (count =? 0) || (len content <? end_) then Val false
  else if end_ <? len content then
    let! l := get content end_ in
    Val (negb (len content <? end_ + 1 + l))
  else Val true.

Definition valid_sdes (content : bytes) (count : Z) : outcome bool :=
  let! offset := sdes_chunks (Z.to_nat count) content 4 in
  match offset with
  | None => Val false
  | Some offset => Val (offset =? len content)
  end.

(** The [match data[1]] on the packet type: [false] is an early return. *)
Definition valid_content (pt count : Z) (content : bytes) : outcome bool :=
  if (pt =? RTCP_SR) && (len content <? 28 + count * 24) then Val false
  else if (pt =? RTCP_RR) && (len content <? 8 + count * 24) then Val false
  else if pt =? RTCP_BYE then valid_bye content count
  else if pt =? RTCP_SDES then valid_sdes content count
  else if (204 <=? pt) && (pt <=? 206) && (len content <? 12) then Val false
  else if (pt =? 207) && (len content <? 8) then Val false
  else Val true.

(** Strip the padding of the packet; [None] is an early return. *)
Definition strip_padding (data content : bytes) (b0 size : Z) : outcome (option bytes) :=
  if negb (Z.land b0 32 =? 0) then
    let! padding := get content (size - 1) in
    if negb (size =? len data) || (padding =? 0) || (size - 4 <? padding) then Val None
    else let! c := slice_to content (size - padding) in Val (Some c)
  else Val (Some content).

Fixpoint valid_loop (fuel : nat) (data : bytes) : outcome bool :=
  match fuel with
  | O => Panic
  | S fuel =>
      if len data =? 0 then Val true
      else if len data <? 4 then Val false
      else
        let! b0 := get data 0 in
        let! b1 := get data 1 in
        if negb (Z.shiftr b0 6 =? 2) || negb ((192 <=? b1) && (b1 <=? 223)) then Val false
        else
          let! w := get16 data 2 in
          let size := (w + 1) * 4 in
          if len data <? size then Val false
          else
            let! content := slice_to data size in
            let! content := strip_padding data content b0 size in
            match content with
            | None => Val false
            | Some content =>
                let count := Z.land b0 31 in
                let! ok := valid_content b1 count content in
                if ok then let! rest := slice_from data size in valid_loop fuel rest
                else Val false
            end
  end.

Definition valid_compound (data : bytes) : outcome bool :=
  if len data =? 0 then Val false else valid_loop (S (length data)) data.

(** ** Parsing *)

(** [i32::from_be_bytes] of the sign-extended 24-bit field. *)
Definition sign_extend24 (b5 b6 b7 : Z) : Z :=
  as_i32 (from_be [if negb (Z.land b5 128 =? 0) then 255 else 0; b5; b6; b7]).

Definition parse_block (data : bytes) (off : Z) : outcome ReportBlock :=
  let! ssrc := get32 data off in
  let! fl := get data (off + 4) in
  let! b5 := get data (off + 5) in
  let! b6 := get data (off + 6) in
  let! b7 := get data (off + 7) in
  let! highest := get32 data (off + 8) in
  let! jit := get32 data (off + 12) in
  let! lsr := get32 data (off + 16) in
  let! dlsr := get32 data (off + 20) in
  Val (mkReportBlock ssrc fl (sign_extend24 b5 b6 b7) highest jit lsr dlsr).

Fixpoint parse_blocks_from (count : nat) (data : bytes) (off : Z) : outcome (list ReportBlock) :=
  match count with
  | O => Val []
  | S count =>
      if len data <? off + 24 then Val []
      else
        let! b := parse_block data off in
        let! bs := parse_blocks_from count data (off + 24) in
        Val (b :: bs)
  end.

Definition parse_report_blocks (data : bytes) (count : Z) : outcome (list ReportBlock) :=
  parse_blocks_from (Z.to_nat count) data 0.

Definition parse_sr (c : bytes) (rc : Z) : outcome RtcpPacket :=
  let! ssrc := get32 c 4 in
  let! ntp := get64 c 8 in
  let! rtp_ts := get32 c 16 in
  let! pkt_count := get32 c 20 in
  let! oct_count := get32 c 24 in
  let! rest := slice_from c 28 in
  let! blocks := parse_report_blocks rest rc in
  Val (SenderReportP (mkSenderReport ssrc ntp rtp_ts pkt_count oct_count blocks)).

Definition parse_rr (c : bytes) (rc : Z) : outcome RtcpPacket :=
  let! ssrc := get32 c 4 in
  let! rest := slice_from c 8 in
  let! blocks := parse_report_blocks rest rc in
  Val (ReceiverReportP (mkReceiverReport ssrc blocks)).

(** The SSRC loop of a BYE: the list and the offset after it. *)
Fixpoint bye_ssrcs (count : nat) (c : bytes) (off : Z) : outcome (list Z * Z) :=
  match count with
  | O => Val ([], off)
  | S count =>
      if len c <? off + 4 then Val ([], off)
      else
        let! s := get32 c off in
        let! r := bye_ssrcs count c (off + 4) in
        Val (s :: fst r, snd r)
  end.

Definition parse_bye (c : bytes) (rc : Z) : outcome RtcpPacket :=
  let! r := bye_ssrcs (Z.to_nat rc) c 4 in
  let '(ssrcs, off) := r in
  let! reason :=
    (if off <? len c then
       let! l := get c off in
       let off := off + 1 in
       if (0 <? l) && (off + l <=? len c)
       then let! s := slice c off (off + l) in Val (Some s)
       else Val None
     else Val None) in
  Val (ByeP (mkByePacket ssrcs reason)).

Definition parse_packet (pt rc : Z) (c : bytes) : outcome (option RtcpPacket) :=
  if (pt =? RTCP_SR) && (28 <=? len c) then let! p := parse_sr c rc in Val (Some p)
  else if (pt =? RTCP_RR) && (8 <=? len c) then let! p := parse_rr c rc in Val (Some p)
  else if pt =? RTCP_BYE then let! p := parse_bye c rc in Val (Some p)
  else Val None.

Definition content_len (padding : bool) (pkt_data : bytes) : outcome Z :=
  if padding && negb (len pkt_data =? 0) then
    let! pad_count := get pkt_data (len pkt_data - 1) in
    Val (if (0 <? pad_count) && (pad_count <=? len pkt_data)
         then len pkt_data - pad_count else len pkt_data)
  else Val (len pkt_data).

Fixpoint parse_loop (fuel : nat) (data : bytes) (offset : Z) : outcome (list RtcpPacket) :=
  match fuel with
  | O => Panic
  | S fuel =>
      if len data <? offset + 4 then Val []
      else
        let! b0 := get data offset in
        if negb (Z.land (Z.shiftr b0 6) 3 =? 2) then Val []
        else
          let padding := negb (Z.land (Z.shiftr b0 5) 1 =? 0) in
          let rc := Z.land b0 31 in
          let! pt := get data (offset + 1) in
          let! length := get16 data (offset + 2) in
          let packet_len := (length + 1) * 4 in
          if len data <? offset + packet_len then Val []
          else
            let! pkt_data := slice data offset (offset + packet_len) in
            let! content_len := content_len padding pkt_data in
            let! pkt_content := slice_to pkt_data content_len in
            let! p := parse_packet pt rc pkt_content in
            let! ps := parse_loop fuel data (offset + packet_len) in
            Val (match p with Some p => p :: ps | None => ps end)
  end.

Definition parse_rtcp (data : bytes) : outcome (list RtcpPacket) :=
  parse_loop (S (length data)) data 0.

(** ** Parsing and validation never panic *)

Lemma land31_bound b : 0 <= Z.land b 31 <= 31.
Proof. rewrite land31. mlia. Qed.

Lemma get_u8 l i b : are_bytes l -> get l i = Val b -> is_u8 b.
Proof.
  intros Hl. unfold get. split_if; [| done]. intros [= <-]. by apply are_bytes_at.
Qed.

Lemma parse_block_val data off :
  0 <= off -> off + 24 <= len data -> exists b, parse_block data off = Val b.
Proof. intros. unfold parse_block. reads. by eexists. Qed.

Lemma parse_blocks_from_val n data off :
  0 <= off -> exists bs, parse_blocks_from n data off = Val bs /\
    len bs = Z.min (Z.of_nat n) ((Z.max (len data - off) 0) / 24).
Proof.
  revert off. induction n as [| n IH]; intros off Hoff; cbn [parse_blocks_from].
  - exists []. split; [done |]. rewrite len_nil. mlia.
  - split_if.
    + exists []. split; [done |]. rewrite len_nil. mlia.
    + destruct (parse_block_val data off) as [b ->]; [lia | lia |].
      destruct (IH (off + 24)) as (bs & -> & Hbs); [lia |].
      cbn [obind]. exists (b :: bs). split; [done |]. rewrite len_cons, Hbs. mlia.
Qed.

Lemma parse_report_blocks_val data n :
  0 <= n -> exists bs, parse_report_blocks data n = Val bs /\ len bs = Z.min n (len data / 24).
Proof.
  intros Hn. destruct (parse_blocks_from_val (Z.to_nat n) data 0) as (bs & E & Hl); [lia |].
  exists bs. split; [done |]. rewrite Hl. pose proof (len_nonneg data). f_equal; [lia |]. f_equal. lia.
Qed.

Lemma bye_ssrcs_val n c off :
  0 <= off -> exists l o, bye_ssrcs n c off = Val (l, o) /\ off <= o /\
    len l = Z.min (Z.of_nat n) (Z.max (len c - off) 0 / 4).
Proof.
  revert off. induction n as [| n IH]; intros off Hoff; cbn [bye_ssrcs].
  - exists [], off. repeat split; [lia |]. rewrite len_nil. mlia.
  - split_if.
    + exists [], off. repeat split; [lia |]. rewrite len_nil. mlia.
    + reads. destruct (IH (off + 4)) as (l & o & -> & Ho & Hl); [lia |].
      cbn [obind fst snd]. exists (be32_at c off :: l), o. repeat split; [lia |].
      rewrite len_cons, Hl. mlia.
Qed.

(** Number of blocks (or SSRCs) a parsed packet carries. *)
Definition items (p : RtcpPacket) : Z :=
  match p with
  | SenderReportP sr => len (sr_report_blocks sr)
  | ReceiverReportP rr => len (rr_report_blocks rr)
  | ByeP b => len (ssrc_list b)
  end.

Definition opt_items (p : option RtcpPacket) : Z :=
  match p with Some p => items p | None => 0 end.

(** Blocks carried by a packet of type [pt] announcing [rc] of them. *)
Definition expected_items (pt rc : Z) (c : bytes) : Z :=
  if (pt =? RTCP_SR) && (28 <=? len c) then Z.min rc ((len c - 28) / 24)
  else if (pt =? RTCP_RR) && (8 <=? len c) then Z.min rc ((len c - 8) / 24)
  else if pt =? RTCP_BYE then Z.min rc (Z.max (len c - 4) 0 / 4)
  else 0.

Lemma parse_bye_val c rc :
  0 <= rc -> exists p, parse_bye c rc = Val p /\ items p = Z.min rc (Z.max (len c - 4) 0 / 4).
Proof.
  intros Hrc. unfold parse_bye.
  destruct (bye_ssrcs_val (Z.to_nat rc) c 4) as (l & o & -> & Ho & Hl); [lia |]. cbn [obind].
  rewrite Z2Nat.id in Hl by done.
  destruct (Z.ltb_spec o (len c)); cbn [obind]; [| by eexists].
  reads. split_if; cbn [obind]; [| by eexists]. rewrite slice_val by lia. cbn [obind]. by eexists.
Qed.

Lemma parse_packet_val pt rc c :
  0 <= rc -> exists p, parse_packet pt rc c = Val p /\ opt_items p = expected_items pt rc c.
Proof.
  intros Hrc. unfold parse_packet, expected_items. split_if; [| split_if; [| split_if]].
  - unfold parse_sr. reads.
    destruct (parse_report_blocks_val (drop (Z.to_nat 28) c) rc) as (bs & -> & Hl); [done |].
    cbn [obind]. eexists. split; [done |]. cbn. rewrite Hl, len_drop by lia. f_equal. f_equal. lia.
  - unfold parse_rr. reads.
    destruct (parse_report_blocks_val (drop (Z.to_nat 8) c) rc) as (bs & -> & Hl); [done |].
    cbn [obind]. eexists. split; [done |]. cbn. rewrite Hl, len_drop by lia. f_equal. f_equal. lia.
  - destruct (parse_bye_val c rc Hrc) as (p & -> & Hp). cbn [obind]. by eexists.
  - by eexists.
Qed.

Lemma content_len_val padding d :
  are_bytes d -> exists n, content_len padding d = Val n /\ 0 <= n <= len d.
Proof.
  intros Hd. unfold content_len. pose proof (len_nonneg d). split_if.
  - reads. eexists. split; [done |]. split_if; lia.
  - exists (len d). split; [done | lia].
Qed.

(** One iteration of the parser on the rest of the datagram. *)
Lemma parse_loop_step fuel data off :
  are_bytes data -> 0 <= off -> off + 4 <= len data ->
  Z.land (Z.shiftr (byte_at data off) 6) 3 = 2 ->
  off + (be16_at data (off + 2) + 1) * 4 <= len data ->
  exists c p, len c <= (be16_at data (off + 2) + 1) * 4 /\
    parse_packet (byte_at data (off + 1)) (Z.land (byte_at data off) 31) c = Val p /\
    (Z.land (Z.shiftr (byte_at data off) 5) 1 = 0 -> len c = (be16_at data (off + 2) + 1) * 4) /\
    (Z.land (Z.shiftr (byte_at data off) 5) 1 <> 0 ->
     let pad := byte_at data (off + (be16_at data (off + 2) + 1) * 4 - 1) in
     0 < pad <= (be16_at data (off + 2) + 1) * 4 ->
     len c = (be16_at data (off + 2) + 1) * 4 - pad) /\
    parse_loop (S fuel) data off =
      (let! ps := parse_loop fuel data (off + (be16_at data (off + 2) + 1) * 4) in
       Val (match p with Some p => p :: ps | None => ps end)).
Proof.
  intros Hd Hoff Hl Hv Hs. pose proof (be16_at_u16 data (off + 2) Hd) as Hw. unfold is_u16 in Hw.
  set (size := (be16_at data (off + 2) + 1) * 4) in *.
  set (pd := take (Z.to_nat (off + size - off)) (drop (Z.to_nat off) data)).
  assert (Hpd : are_bytes pd) by (unfold pd; auto with rtp).
  assert (Hlpd : len pd = size) by (unfold pd; rewrite len_take, len_drop; lia).
  set (pb := negb (Z.land (Z.shiftr (byte_at data off) 5) 1 =? 0)).
  destruct (content_len_val pb pd Hpd) as (n & En & Hn).
  destruct (parse_packet_val (byte_at data (off + 1)) (Z.land (byte_at data off) 31)
              (take (Z.to_nat n) pd)) as (p & Ep & _); [apply land31_bound |].
  exists (take (Z.to_nat n) pd), p. rewrite len_take by lia. split; [lia |]. split; [done |].
  assert (Hb : byte_at pd (size - 1) = byte_at data (off + size - 1)).
  { unfold pd, byte_at. rewrite nth_firstn. destruct (Nat.ltb_spec (Z.to_nat (size - 1)) (Z.to_nat (off + size - off))); [| lia].
    rewrite nth_skipn. f_equal. lia. }
  unfold content_len in En. split; [| split].
  - intros Hp. unfold pb in En. rewrite Hp in En. cbn in En. injection En as <-. lia.
  - intros Hp pad Hpad. unfold pb in En. rewrite (proj2 (Z.eqb_neq _ _)) in En by done.
    rewrite (proj2 (Z.eqb_neq (len pd) 0)) in En by lia. cbn [negb andb] in En.
    rewrite get_val in En by lia. cbn [obind] in En. rewrite Hlpd, Hb in En. fold pad in En.
    rewrite (proj2 (Z.ltb_lt 0 pad)), (proj2 (Z.leb_le pad size)) in En by lia.
    cbn in En. injection En as <-. lia.
  - cbn [parse_loop]. rewrite (proj2 (Z.ltb_ge _ _)) by lia. rewrite get_val by lia. cbn [obind].
    rewrite Hv. cbn [negb Z.eqb Pos.eqb]. rewrite get_val by lia. cbn [obind].
    rewrite get16_val by lia. cbn [obind]. fold size. rewrite (proj2 (Z.ltb_ge _ _)) by lia.
    rewrite slice_val by lia. cbn [obind]. fold pd. fold (content_len pb pd) in En.
    fold pb. rewrite En. cbn [obind]. rewrite slice_to_val by lia. cbn [obind]. rewrite Ep. done.
Qed.

Lemma parse_loop_val fuel data off :
  are_bytes data -> 0 <= off -> len data - off < Z.of_nat fuel -> 0 < Z.of_nat fuel ->
  exists ps, parse_loop fuel data off = Val ps.
Proof.
  intros Hd. revert off. induction fuel as [| fuel IH]; intros off Hoff Hf Hf0; [lia |].
  destruct (Z.ltb_spec (len data) (off + 4)) as [Hlt | Hlt].
  { cbn [parse_loop]. rewrite (proj2 (Z.ltb_lt _ _)) by lia. by eexists. }
  destruct (Z.eq_dec (Z.land (Z.shiftr (byte_at data off) 6) 3) 2) as [Hv | Hv].
  2: { cbn [parse_loop]. rewrite (proj2 (Z.ltb_ge _ _)) by lia. reads.
       rewrite (proj2 (Z.eqb_neq _ _)) by done. by eexists. }
  pose proof (be16_at_u16 data (off + 2) Hd) as Hw. unfold is_u16 in Hw.
  destruct (Z.ltb_spec (len data) (off + (be16_at data (off + 2) + 1) * 4)) as [Hs | Hs].
  { cbn [parse_loop]. rewrite (proj2 (Z.ltb_ge _ _)) by lia. reads. rewrite Hv. cbn [negb Z.eqb Pos.eqb].
    reads. rewrite (proj2 (Z.ltb_lt _ _)) by lia. by eexists. }
  destruct (parse_loop_step fuel data off) as (c & p & _ & _ & _ & _ & ->); try done.
  destruct (IH (off + (be16_at data (off + 2) + 1) * 4)) as [ps ->]; [lia | lia | lia |].
  cbn [obind]. by eexists.
Qed.

Lemma parse_rtcp_val data : are_bytes data -> exists ps, parse_rtcp data = Val ps.
Proof. intros Hd. apply parse_loop_val; [done | lia | unfold len; lia | lia]. Qed.

(** [parse_rtcp] terminates without a panic on every datagram. *)
Theorem parse_rtcp_total data : are_bytes data -> exists ps, parse_rtcp data = Val ps.
Proof. intros Hd. apply parse_loop_val; [done | lia | unfold len; lia | lia]. Qed.

(** Witness for [parse_rtcp_total]: an empty receiver report. *)
Lemma parse_rtcp_total_witness :
  exists ps, parse_rtcp [128; 201; 0; 1; 0; 0; 0; 9] = Val ps /\
    ps = [ReceiverReportP (mkReceiverReport 9 [])].
Proof.
  destruct (parse_rtcp_total [128; 201; 0; 1; 0; 0; 0; 9]) as [ps E];
    [repeat constructor; by vm_compute |].
  exists ps. split; [done |]. vm_compute in E. by injection E as <-.
Defined.

Lemma sdes_items_val fuel c off :
  are_bytes c -> 0 <= off -> len c - off < Z.of_nat fuel -> 0 < Z.of_nat fuel ->
  exists r, sdes_items fuel c off = Val r /\ (forall o, r = Some o -> off <= o).
Proof.
  intros Hc. revert off. induction fuel as [| fuel IH]; intros off Hoff Hf Hf0; [lia |].
  cbn [sdes_items]. split_if; [by eexists |]. reads. split_if.
  { eexists. split; [done |]. intros o [= <-]. rewrite ldiff3. mlia. }
  split_if; [by eexists |]. reads.
  pose proof (are_bytes_at c (off + 1) Hc) as Hb. unfold is_u8 in Hb.
  split_if; [by eexists |].
  destruct (IH (off + (2 + byte_at c (off + 1)))) as (r & -> & Hr); [lia | lia | lia |].
  eexists. split; [done |]. intros o Ho. specialize (Hr o Ho). lia.
Qed.

Lemma sdes_chunks_val n c off :
  are_bytes c -> 0 <= off -> exists r, sdes_chunks n c off = Val r.
Proof.
  intros Hc. revert off. induction n as [| n IH]; intros off Hoff; cbn [sdes_chunks]; [by eexists |].
  split_if; [by eexists |].
  destruct (sdes_items_val (S (length c)) c (off + 4)) as ([o |] & -> & Ho);
    [done | lia | unfold len in *; lia | lia | |]; cbn [obind]; [| by eexists].
  apply IH. specialize (Ho o eq_refl). lia.
Qed.

Lemma valid_content_val pt n c : are_bytes c -> 0 <= n -> exists b, valid_content pt n c = Val b.
Proof.
  intros Hc Hn. unfold valid_content. split_if; [by eexists |]. split_if; [by eexists |].
  split_if.
  - unfold valid_bye. split_if; [by eexists |]. split_if; [| by eexists]. reads. by eexists.
  - split_if; [| split_ifs; by eexists].
    unfold valid_sdes. destruct (sdes_chunks_val (Z.to_nat n) c 4 Hc) as [[o |] ->]; [lia | |];
      cbn [obind]; by eexists.
Qed.

Lemma strip_padding_val data b0 size :
  are_bytes data -> 4 <= size <= len data ->
  exists r, strip_padding data (take (Z.to_nat size) data) b0 size = Val r /\
    (forall c, r = Some c -> are_bytes c /\ len c <= size /\
       (Z.land b0 32 = 0 -> len c = size) /\
       (Z.land b0 32 <> 0 -> 0 < byte_at data (size - 1) <= size - 4 /\
                             len c = size - byte_at data (size - 1) /\ size = len data)).
Proof.
  intros Hd Hs. unfold strip_padding.
  assert (Hl : len (take (Z.to_nat size) data) = size) by (rewrite len_take; lia).
  assert (Hb : byte_at (take (Z.to_nat size) data) (size - 1) = byte_at data (size - 1)).
  { unfold byte_at. rewrite nth_firstn. by destruct (Nat.ltb_spec (Z.to_nat (size - 1)) (Z.to_nat size)); [| lia]. }
  split_if.
  - reads. rewrite Hb. pose proof (are_bytes_at data (size - 1) Hd) as B. unfold is_u8 in B.
    split_if; [by eexists |]. rewrite slice_to_val by lia. cbn [obind]. eexists. split; [done |].
    intros c [= <-]. rewrite len_take by lia. repeat split; intros; try (by auto with rtp); try lia.
  - eexists. split; [done |]. intros c [= <-]. repeat split; intros; try (by auto with rtp); lia.
Qed.

(** One iteration of the validator. *)
Lemma valid_loop_inv fuel data :
  are_bytes data -> len data <> 0 -> valid_loop (S fuel) data = Val true ->
  let size := (be16_at data 2 + 1) * 4 in
  4 <= size <= len data /\ Z.shiftr (byte_at data 0) 6 = 2 /\ 192 <= byte_at data 1 <= 223 /\
  exists c, strip_padding data (take (Z.to_nat size) data) (byte_at data 0) size = Val (Some c) /\
    valid_content (byte_at data 1) (Z.land (byte_at data 0) 31) c = Val true /\
    valid_loop fuel (drop (Z.to_nat size) data) = Val true.
Proof.
  intros Hd Hne H size. cbn [valid_loop] in H. rewrite (proj2 (Z.eqb_neq _ _)) in H by done.
  destruct (Z.ltb_spec (len data) 4); [done |].
  rewrite !get_val in H by lia. cbn [obind] in H.
  destruct (_ || _) eqn:Eg in H; [done |]. apply orb_false_iff in Eg. destruct Eg as [Eg1 Eg2].
  rewrite get16_val in H by lia. cbn [obind] in H. fold size in H.
  pose proof (be16_at_u16 data 2 Hd) as Hw. unfold is_u16 in Hw.
  destruct (Z.ltb_spec (len data) size); [done |].
  rewrite slice_to_val in H by (unfold size in *; lia). cbn [obind] in H.
  split; [unfold size in *; lia |]. bool_prop. split; [done |]. split; [done |].
  destruct (strip_padding_val data (byte_at data 0) size Hd) as ([c |] & E & Hc);
    [unfold size in *; lia | |]; rewrite E in H; cbn [obind] in H; [| done].
  exists c. split; [done |]. destruct (Hc c eq_refl) as [Hcb _].
  destruct (valid_content_val (byte_at data 1) (Z.land (byte_at data 0) 31) c Hcb) as [[] Ev];
    [apply land31_bound | |]; rewrite Ev in H; cbn [obind] in H; [| done].
  split; [done |]. rewrite slice_from_val in H by (unfold size in *; lia). done.
Qed.

Lemma valid_loop_val fuel data :
  are_bytes data -> len data < Z.of_nat fuel -> exists b, valid_loop fuel data = Val b.
Proof.
  revert data. induction fuel as [| fuel IH]; intros data Hd Hf; [pose proof (len_nonneg data); lia |].
  cbn [valid_loop]. split_if; [by eexists |]. split_if; [by eexists |]. reads.
  split_if; [by eexists |]. reads. split_if; [by eexists |].
  pose proof (be16_at_u16 data 2 Hd) as Hw. unfold is_u16 in Hw. reads.
  set (size := (be16_at data 2 + 1) * 4) in *.
  destruct (strip_padding_val data (byte_at data 0) size Hd) as ([c |] & -> & Hc);
    [lia | |]; cbn [obind]; [| by eexists].
  destruct (Hc c eq_refl) as [Hcb _].
  destruct (valid_content_val (byte_at data 1) (Z.land (byte_at data 0) 31) c Hcb) as [[] ->];
    [apply land31_bound | |]; cbn [obind]; [| by eexists].
  reads. apply IH; [auto with rtp |]. rewrite len_drop by lia. lia.
Qed.

(** [valid_compound] terminates without a panic on every datagram. *)
Theorem valid_compound_total data : are_bytes data -> exists b, valid_compound data = Val b.
Proof.
  intros Hd. unfold valid_compound. split_if; [by eexists |].
  apply valid_loop_val; [done |]. unfold len. lia.
Qed.

(** Witness for [valid_compound_total]: a source description with an
    unterminated item. *)
Lemma valid_compound_total_witness :
  valid_compound [129; 202; 0; 2; 0; 0; 0; 9; 1; 200; 65; 66] = Val false.
Proof.
  destruct (valid_compound_total [129; 202; 0; 2; 0; 0; 0; 9; 1; 200; 65; 66]) as [b E];
    [repeat constructor; by vm_compute |].
  rewrite E. vm_compute in E. by injection E as <-.
Defined.

(** ** A validated compound is parsed completely *)

(** Report blocks and BYE sources announced by the packet headers of a
    datagram, walking it by the length words alone. *)
Fixpoint announced (fuel : nat) (data : bytes) : Z :=
  match fuel with
  | O => 0
  | S fuel =>
      if len data <? 4 then 0
      else
        let pt := byte_at data 1 in
        (if (pt =? RTCP_SR) || (pt =? RTCP_RR) || (pt =? RTCP_BYE)
         then Z.land (byte_at data 0) 31 else 0)
        + announced fuel (drop (Z.to_nat ((be16_at data 2 + 1) * 4)) data)
  end.

Definition total_items (ps : list RtcpPacket) : Z := fold_right (fun p n => items p + n) 0 ps.

Lemma padding_bit b : is_u8 b -> (Z.land (Z.shiftr b 5) 1 = 0 <-> Z.land b 32 = 0).
Proof.
  intros Hb. rewrite <- !Z.eqb_eq.
  assert (E : eqb (Z.land (Z.shiftr b 5) 1 =? 0) (Z.land b 32 =? 0) = true)
    by (revert b Hb; by apply byte_check; vm_compute).
  apply eqb_prop in E. by rewrite E.
Qed.

Lemma valid_content_items pt n c :
  0 <= n -> valid_content pt n c = Val true ->
  expected_items pt n c
  = if (pt =? RTCP_SR) || (pt =? RTCP_RR) || (pt =? RTCP_BYE) then n else 0.
Proof.
  intros Hn H. unfold valid_content in H. unfold expected_items.
  unfold RTCP_SR, RTCP_RR, RTCP_BYE in *.
  destruct (Z.eqb_spec pt 200) as [-> |]; cbn [andb orb Z.eqb Pos.eqb] in *.
  { destruct (Z.ltb_spec (len c) (28 + n * 24)); [done |].
    rewrite (proj2 (Z.leb_le _ _)) by lia. mlia. }
  destruct (Z.eqb_spec pt 201) as [-> |]; cbn [andb orb Z.eqb Pos.eqb] in *.
  { destruct (Z.ltb_spec (len c) (8 + n * 24)); [done |].
    rewrite (proj2 (Z.leb_le _ _)) by lia. mlia. }
  destruct (Z.eqb_spec pt 203) as [-> |]; cbn [andb orb Z.eqb Pos.eqb] in *; [| done].
  unfold valid_bye in H. destruct (_ || _) eqn:E in H; [done |]. bool_prop. mlia.
Qed.

Lemma validated_loop fuel data off ps :
  are_bytes data -> 0 <= off <= len data -> len data - off < Z.of_nat fuel ->
  valid_loop fuel (drop (Z.to_nat off) data) = Val true ->
  parse_loop fuel data off = Val ps ->
  total_items ps = announced fuel (drop (Z.to_nat off) data).
Proof.
  intros Hd. revert off ps. induction fuel as [| fuel IH]; intros off ps Hoff Hf Hv Hp; [done |].
  set (d := drop (Z.to_nat off) data) in *.
  assert (Hdb : are_bytes d) by (unfold d; auto with rtp).
  assert (Hld : len d = len data - off) by (unfold d; rewrite len_drop; lia).
  destruct (Z.eq_dec (len d) 0) as [Hz | Hz].
  { cbn [announced parse_loop] in *. rewrite (proj2 (Z.ltb_lt (len d) 4)) by lia.
    rewrite (proj2 (Z.ltb_lt (len data) (off + 4))) in Hp by lia. by injection Hp as <-. }
  destruct (valid_loop_inv fuel d Hdb Hz Hv) as (Hs & Hver & Hpt & c & Es & Ev & Er).
  set (size := (be16_at d 2 + 1) * 4) in *.
  assert (B0 : byte_at d 0 = byte_at data off) by (unfold d; rewrite byte_at_drop by lia; f_equal; lia).
  assert (B1 : byte_at d 1 = byte_at data (off + 1)) by (unfold d; rewrite byte_at_drop by lia; done).
  assert (B2 : be16_at d 2 = be16_at data (off + 2)) by (unfold d; rewrite be16_at_drop by lia; done).
  destruct (parse_loop_step fuel data off) as (c' & p & _ & Ep & Hnp & Hpp & El);
    [done | lia | lia | | |].
  { rewrite <- B0, Hver. done. }
  { rewrite <- B2. fold size. lia. }
  rewrite <- B2 in *. fold size in Hnp, Hpp, El. rewrite <- B0, <- B1 in *.
  assert (Hcl : len c' = len c).
  { destruct (strip_padding_val d (byte_at d 0) size Hdb ltac:(lia)) as (r & E & Hr).
    rewrite Es in E. injection E as <-. destruct (Hr c eq_refl) as (_ & _ & R0 & R1).
    pose proof (padding_bit (byte_at d 0) ltac:(auto with rtp)) as PB.
    destruct (Z.eq_dec (Z.land (byte_at d 0) 32) 0) as [Hb | Hb].
    - rewrite R0, Hnp by (try done; by apply PB). done.
    - destruct (R1 Hb) as (Hpad & -> & _).
      assert (Epad : byte_at d (size - 1) = byte_at data (off + size - 1)).
      { unfold d. rewrite byte_at_drop by lia. f_equal. lia. }
      rewrite Epad in *. apply Hpp; [by rewrite PB | lia]. }
  destruct (parse_packet_val (byte_at d 1) (Z.land (byte_at d 0) 31) c') as (p' & Ep' & Hi);
    [apply land31_bound |].
  rewrite Ep in Ep'. injection Ep' as <-.
  rewrite El in Hp. destruct (parse_loop fuel data (off + size)) as [ps' |] eqn:Er'; [| done].
  cbn [obind] in Hp. injection Hp as <-.
  assert (Hrest : total_items ps' = announced fuel (drop (Z.to_nat size) d)).
  { unfold d. rewrite drop_drop. replace (Z.to_nat off + Z.to_nat size)%nat with (Z.to_nat (off + size)) by lia.
    apply IH; [lia | lia | | done]. unfold d in Er. rewrite drop_drop in Er.
    by replace (Z.to_nat (off + size)) with (Z.to_nat off + Z.to_nat size)%nat by lia. }
  cbn [announced]. rewrite (proj2 (Z.ltb_ge _ _)) by lia. fold size. rewrite <- Hrest.
  rewrite <- (valid_content_items _ _ _ (proj1 (land31_bound _)) Ev).
  assert (expected_items (byte_at d 1) (Z.land (byte_at d 0) 31) c
          = expected_items (byte_at d 1) (Z.land (byte_at d 0) 31) c') as ->
    by (unfold expected_items; by rewrite Hcl).
  rewrite <- Hi. by destruct p.
Qed.

(** Once [valid_compound] accepts a datagram, [parse_rtcp] extracts every
    report block and every BYE source that its packet headers announce: nothing
    is silently truncated. *)
Theorem validated_parsed_completely data ps :
  are_bytes data -> valid_compound data = Val true -> parse_rtcp data = Val ps ->
  total_items ps = announced (S (length data)) data.
Proof.
  intros Hd Hv Hp. unfold valid_compound in Hv. destruct (len data =? 0); [done |].
  apply (validated_loop _ data 0); try done; unfold len; lia.
Qed.

(** Witness for [validated_parsed_completely]: a receiver report followed by a
    BYE for two sources. *)
Lemma validated_parsed_completely_witness :
  let data := [128; 201; 0; 1; 0; 0; 0; 9; 130; 203; 0; 2; 0; 0; 0; 9; 0; 0; 0; 10] in
  exists ps, parse_rtcp data = Val ps /\ total_items ps = announced (S (length data)) data /\
    total_items ps = 2.
Proof.
  intros data. destruct (parse_rtcp data) as [ps |] eqn:E; [| by vm_compute in E].
  exists ps. split; [done |]. split.
  - apply (validated_parsed_completely data ps); [repeat constructor; by vm_compute | by vm_compute | done].
  - vm_compute in E. injection E as <-. reflexivity.
Defined.

(** ** Widths of the statistics *)

Definition wf (s : RtcpStats) : Prop :=
  is_u32 (packets_received s) /\ is_u32 (octets_received s) /\ is_u32 (jitter s) /\
  is_u32 (last_sr_ntp s) /\ is_u16 (base_seq s) /\ is_u32 (extended_max_seq s) /\
  is_u32 (expected_prior s) /\ is_u32 (received_prior s) /\ is_u32 (packets_sent s) /\
  is_u32 (octets_sent s) /\ is_u32 (our_last_sr_ntp_middle s) /\ is_u32 (lost_accumulated s) /\
  is_u64 (remote_report_generation s) /\ is_u64 (remote_report_count s) /\
  (forall r, rtt_ms s = Some r -> 0 <= r < 655360000).

Lemma new_wf : wf new.
Proof. unfold wf, new. cbn. split_and!; try done; mlia. Qed.

Lemma wrap32_u32 x : is_u32 (wrap32 x).
Proof. mlia. Qed.
Lemma wrap16_u16 x : is_u16 (wrap16 x).
Proof. mlia. Qed.

Lemma gen_lost_u32 s : is_u32 (packets_received s) -> is_u32 (current_gen_lost s).
Proof.
  intros H. unfold current_gen_lost, expected_packets. destruct (negb _); [mlia |].
  pose proof (wrap32_u32 (extended_max_seq s - base_seq s + 1)). unfold_ints. lia.
Qed.

Lemma sat_add32_u32 a b : is_u32 a -> is_u32 b -> is_u32 (sat_add32 a b).
Proof. mlia. Qed.

Lemma rebaseline_wf s ssrc : wf s -> wf (rebaseline s ssrc).
Proof.
  intros (?&?&?&?&?&?&?&?&?&?&?&?&?&?&?).
  assert (is_u32 (sat_add32 (lost_accumulated s) (current_gen_lost s)))
    by (apply sat_add32_u32; [done | by apply gen_lost_u32]).
  unfold rebaseline, wf. destruct (current_ssrc s); destruct s; cbn in *; split_and!;
    try done; mlia.
Qed.

Lemma track_seq_wf s seq : wf s -> is_u16 seq -> wf (track_seq s seq).
Proof.
  intros (?&?&?&?&?&?&?&?&?&?&?&?&?&?&?) ?. unfold track_seq, wf.
  split_ifs; destruct s; cbn in *; split_and!; try done; mlia.
Qed.

Lemma jitter_step_u32 j d : is_u32 (jitter_step j d).
Proof. unfold jitter_step. mlia. Qed.

Lemma track_jitter_wf s ts rate now : wf s -> wf (track_jitter s ts rate now).
Proof.
  intros (?&?&?&?&?&?&?&?&?&?&?&?&?&?&?). unfold track_jitter, wf.
  destruct (last_jitter_sample s) as [[[pa pt] pr] |] eqn:E;
  split_ifs; destruct s; cbn in *; split_and!; try done; try apply jitter_step_u32; mlia.
Qed.

Lemma record_received_wf s ssrc seq ts plen rate now :
  wf s -> is_u16 seq -> wf (record_received s ssrc seq ts plen rate now).
Proof.
  intros H Hseq. unfold record_received. apply track_jitter_wf, track_seq_wf; [| done].
  assert (wf (if bool_decide (current_ssrc s = Some ssrc) then s else rebaseline s ssrc)) as W
    by (case_bool_decide; [done | by apply rebaseline_wf]).
  revert W. generalize (if bool_decide (current_ssrc s = Some ssrc) then s else rebaseline s ssrc).
  intros t (?&?&?&?&?&?&?&?&?&?&?&?&?&?&?). unfold wf. destruct t; cbn in *; split_and!;
    try done; mlia.
Qed.

(** ** Sequence tracking against the true packet indices

    A sender numbers its packets by an unbounded index; only the low 16 bits
    travel in the header.  A packet that arrives is described by its index,
    its timestamp, its payload length and its arrival time. *)

Definition arrival : Type := Z * Z * Z * Z.
Definition index_of (a : arrival) : Z := a.1.1.1.

Definition receive (ssrc rate : Z) (s : RtcpStats) (a : arrival) : RtcpStats :=
  let '(i, ts, plen, now) := a in record_received s ssrc (wrap16 i) ts plen rate now.

Definition highest (m : Z) (js : list Z) : Z := fold_left Z.max js m.

(** Every index arrives within half the 16-bit space of the highest so far. *)
Fixpoint in_window (m : Z) (js : list Z) : Prop :=
  match js with
  | [] => True
  | i :: rest => -32768 <= i - m <= 32767 /\ in_window (Z.max m i) rest
  end.

(** The indices from the first to the highest that never arrived. *)
Definition missing (base : Z) (js : list Z) : list Z :=
  filter (fun i => i ∉ js) (seqZ base (highest base js - base + 1)).

(** What the rest of the statistics had lost before the source [ssrc] began. *)
Definition lost_before (s : RtcpStats) : Z :=
  match current_ssrc s with
  | Some _ => cumulative_lost s
  | None => lost_accumulated s
  end.

(** The statistics [s] after [n] packets of the source with the given base and
    highest index. *)
Definition tracks (s : RtcpStats) (ssrc base m n acc : Z) : Prop :=
  current_ssrc s = Some ssrc /\ seq_initialized s = true /\ base_seq s = base /\
  extended_max_seq s = wrap32 m /\ packets_received s = wrap32 n /\ lost_accumulated s = acc.

Lemma track_jitter_tracks s ts rate now ssrc base m n acc :
  tracks s ssrc base m n acc -> tracks (track_jitter s ts rate now) ssrc base m n acc.
Proof.
  intros (?&?&?&?&?&?). unfold track_jitter, tracks.
  destruct (last_jitter_sample s) as [[[pa pt] pr] |]; split_ifs; destruct s; done.
Qed.

Lemma receive_first ssrc rate s i ts plen now :
  current_ssrc s <> Some ssrc -> 0 <= i < 65536 ->
  tracks (receive ssrc rate s (i, ts, plen, now)) ssrc i i 1 (lost_before s).
Proof.
  intros Hs Hi. unfold receive, record_received. rewrite bool_decide_false by done.
  apply track_jitter_tracks. unfold track_seq, rebaseline, tracks, lost_before, cumulative_lost.
  destruct (current_ssrc s); destruct s; cbn; split_and!; try done; mlia.
Qed.

Lemma receive_next ssrc rate s i ts plen now base m n acc :
  tracks s ssrc base m n acc -> -32768 <= i - m <= 32767 ->
  tracks (receive ssrc rate s (i, ts, plen, now)) ssrc base (Z.max m i) (n + 1) acc.
Proof.
  intros (Hc & Hi & Hb & Hm & Hn & Ha) Hw. unfold receive, record_received.
  rewrite bool_decide_true by done. apply track_jitter_tracks.
  destruct s; cbn in *; subst. unfold track_seq, tracks. cbn.
  split_ifs; cbn; split_and!; try done; mlia.
Qed.

Lemma receive_all ssrc rate s ps base m n acc :
  tracks s ssrc base m n acc -> in_window m (index_of <$> ps) ->
  tracks (fold_left (receive ssrc rate) ps s) ssrc base
    (highest m (index_of <$> ps)) (n + len ps) acc.
Proof.
  revert s m n. induction ps as [| [[[i ts] plen] now] ps IH]; intros s m n H Hw; cbn.
  - by rewrite len_nil, Z.add_0_r.
  - destruct Hw as [Hw1 Hw2]. rewrite len_cons, Z.add_assoc.
    apply IH; [by apply receive_next | done].
Qed.

Lemma highest_ge m js : m <= highest m js /\ Forall (fun i => i <= highest m js) js.
Proof.
  revert m. unfold highest. induction js as [| i js IH]; intros m; cbn; [split; [lia | done] |].
  destruct (IH (Z.max m i)) as [H1 H2]. split; [lia | constructor; [lia | done]].
Qed.

(** Distinct indices of an interval and the missing ones partition it. *)
Lemma missing_count base js :
  NoDup js -> Forall (fun i => base <= i) js ->
  len (missing base js) = highest base js - base + 1 - len js.
Proof.
  intros Hnd Hlo. destruct (highest_ge base js) as [H0 Hhi]. unfold missing.
  set (all := seqZ base (highest base js - base + 1)).
  assert (Hall : len all = highest base js - base + 1) by (unfold len, all; rewrite length_seqZ; lia).
  assert (P : all ≡ₚ filter (fun i => i ∈ js) all ++ filter (fun i => i ∉ js) all)
    by (by rewrite filter_app_complement).
  assert (Q : filter (fun i => i ∈ js) all ≡ₚ js).
  { apply NoDup_Permutation; [apply NoDup_filter, NoDup_seqZ | done |].
    intros x. unfold all. rewrite list_elem_of_filter, elem_of_seqZ. split; [tauto |]. intros Hx. split; [done |].
    rewrite Forall_forall in Hlo, Hhi. specialize (Hlo x Hx). specialize (Hhi x Hx). lia. }
  assert (L : len all = len js + len (filter (fun i => i ∉ js) all)).
  { rewrite <- len_app. unfold len. f_equal. apply Permutation_length.
    rewrite <- Q at 1. done. }
  lia.
Qed.

(** C19: the loss statistics are those of RFC 3550 over the true packet
    indices.  When a new source starts at index [i] and its packets arrive
    reordered by less than half the 16-bit sequence space, without duplicates
    and never from before the first one, then through any number of wrap-arounds
    the extended highest sequence number is the highest true index (mod 2^32),
    the loss of the generation is exactly the number of indices that never
    arrived, and the session total adds it to what earlier sources had lost. *)
Theorem losses_counted ssrc rate s i ts plen now ps
  (is_new : current_ssrc s <> Some ssrc)
  (first : 0 <= i < 65536)
  (window : in_window i (index_of <$> ps))
  (distinct : NoDup (i :: (index_of <$> ps)))
  (after_first : Forall (fun j => i <= j) (index_of <$> ps))
  (width : highest i (index_of <$> ps) - i < u32_max) :
  let s' := fold_left (receive ssrc rate) ((i, ts, plen, now) :: ps) s in
  let lost := len (missing i (i :: (index_of <$> ps))) in
  highest_seq s' = wrap32 (highest i (index_of <$> ps)) /\
  packets_received s' = 1 + len ps /\
  current_gen_lost s' = lost /\
  cumulative_lost s' = sat_add32 (lost_before s) lost.
Proof.
  intros s' lost.
  assert (T : tracks s' ssrc i (highest i (index_of <$> ps)) (1 + len ps) (lost_before s)).
  { apply (receive_all ssrc rate (receive ssrc rate s (i, ts, plen, now)) ps);
      [by apply receive_first | done]. }
  assert (E : lost = highest i (index_of <$> ps) - i + 1 - (1 + len ps)).
  { unfold lost. rewrite missing_count; [| done | constructor; [lia | done]].
    rewrite len_cons. unfold len at 1. rewrite length_fmap. unfold highest at 1. cbn.
    rewrite Z.max_id. done. }
  assert (0 <= lost) by apply len_nonneg. pose proof (len_nonneg ps).
  destruct T as (?&Hi&Hb&Hm&Hn&Ha). unfold highest_seq, cumulative_lost, current_gen_lost, expected_packets.
  rewrite Hi, Hb, Hm, Hn, Ha. cbn [negb]. clearbody lost s'.
  split_and!; [done | mlia | mlia | f_equal; mlia].
Qed.

(** Across a wrap-around, reordered, with two packets lost. *)
Lemma losses_counted_witness :
  let arrivals := [(65535, 160, 20, 2000); (65537, 480, 20, 3000); (65536, 320, 20, 4000);
                   (65540, 960, 20, 5000)] in
  let s' := fold_left (receive 7 8000) ((65534, 0, 20, 1000) :: arrivals) new in
  highest_seq s' = 65540 /\ current_gen_lost s' = 2.
Proof.
  intros arrivals s'.
  destruct (losses_counted 7 8000 new 65534 0 20 1000 arrivals) as (H1 & _ & H2 & _);
    [done | lia | cbn; lia | | cbn; repeat constructor; lia | by vm_compute |].
  - apply (bool_decide_unpack _). by vm_compute.
  - split; [exact H1 | exact H2].
Defined.

(** A change of the source's SSRC (a re-INVITE, a transfer) never loses or
    invents packets in the session total: right after the first packet of the
    new source the loss of its generation is zero, one packet has been received
    and the cumulative loss is what it was before, whatever the sequence
    numbers of the two sources. *)
Theorem ssrc_change_keeps_losses s old ssrc seq ts plen rate now
  (W : wf s) (started : current_ssrc s = Some old) (changed : old <> ssrc) (Hseq : is_u16 seq) :
  let s' := record_received s ssrc seq ts plen rate now in
  current_ssrc s' = Some ssrc /\ packets_received s' = 1 /\ current_gen_lost s' = 0 /\
  cumulative_lost s' = cumulative_lost s.
Proof.
  intros s'.
  assert (T : tracks s' ssrc seq seq 1 (cumulative_lost s)).
  { replace (cumulative_lost s) with (lost_before s) by (unfold lost_before; by rewrite started).
    replace s' with (receive ssrc rate s (seq, ts, plen, now))
      by (unfold receive, s'; f_equal; mlia).
    apply receive_first; [congruence | done]. }
  assert (U : is_u32 (cumulative_lost s)).
  { destruct W as (?&?&?&?&?&?&?&?&?&?&?&?&?). apply sat_add32_u32; [done | by apply gen_lost_u32]. }
  destruct T as (Hc&Hi&Hb&Hm&Hn&Ha). rewrite Hc, Hn.
  assert (G : current_gen_lost s' = 0)
    by (unfold current_gen_lost, expected_packets; rewrite Hi, Hb, Hm, Hn; cbn [negb]; mlia).
  split_and!; [done | done | done |]. unfold cumulative_lost at 1. rewrite G, Ha. mlia.
Qed.

Lemma ssrc_change_keeps_losses_witness :
  let s := fold_left (receive 7 8000) [(10, 0, 20, 1000); (15, 800, 20, 2000)] new in
  cumulative_lost s = 4 /\ cumulative_lost (record_received s 8 40000 5 20 8000 3000) = 4.
Proof.
  intros s. split; [done |].
  assert (W : wf s) by (unfold s; cbn [fold_left receive];
    repeat apply record_received_wf; [apply new_wf | mlia | mlia]).
  destruct (ssrc_change_keeps_losses s 7 8 40000 5 20 8000 3000 W) as (_ & _ & _ & H);
    [done | done | unfold is_u16; lia | exact H].
Defined.

(** ** The compound report and its parser *)

(** What a receiver reads of a 24-bit signed field. *)
Definition signed24 (x : Z) : Z :=
  let x := x mod 16777216 in if x <? 8388608 then x else x - 16777216.

Lemma sign_extend24_spec x :
  sign_extend24 (Z.land (Z.shiftr (Z.land x 16777215) 16) 255)
    (Z.land (Z.shiftr (Z.land x 16777215) 8) 255) (Z.land (Z.land x 16777215) 255) = signed24 x.
Proof.
  autorewrite with masks. rewrite !shiftr_div by lia.
  change (2 ^ 16) with 65536. change (2 ^ 8) with 256.
  unfold signed24. set (c := x mod 16777216). assert (0 <= c < 16777216) by (unfold c; mlia).
  clearbody c. unfold sign_extend24.
  assert (E : negb (Z.land (c / 65536 mod 256) 128 =? 0) = (128 <=? c / 65536 mod 256)).
  { set (b := c / 65536 mod 256). assert (Hb : is_u8 b) by (unfold b; mlia). clearbody b.
    apply eqb_prop. revert b Hb. by apply byte_check; vm_compute. }
  rewrite E. unfold from_be, as_i32. cbn [fold_left]. split_ifs; mlia.
Qed.

Lemma fraction_u8 s : is_u8 (fraction_lost_and_update s).2.
Proof.
  unfold fraction_lost_and_update. split_if; cbn [snd]; [unfold is_u8; lia |].
  assert (0 <= Z.shiftl (wrap32 (expected_packets s - expected_prior s)
    - wrap32 (packets_received s - received_prior s)) 8
    / wrap32 (expected_packets s - expected_prior s)); [| unfold is_u8; lia].
  assert (0 <= wrap32 (expected_packets s - expected_prior s)) by mlia.
  apply Z.div_pos; [| lia]. rewrite Z.shiftl_nonneg. lia.
Qed.

Lemma ntp_now_u64 secs nanos :
  0 <= secs -> 0 <= nanos < 1000000000 -> is_u64 (ntp_now (secs, nanos)).
Proof.
  intros Hs Hn. unfold ntp_now. rewrite shiftl_mul by lia. change (2 ^ 32) with 4294967296.
  assert (E : wrap64 (wrap64 (secs + 2208988800) * 4294967296)
              = wrap32 (secs + 2208988800) * 2 ^ 32) by mlia.
  rewrite E, lor_add by mlia. mlia.
Qed.

Lemma dlsr_u32 e : 0 <= e -> is_u32 (dlsr_of e).
Proof.
  intros He. unfold dlsr_of, ns_per_s, ns_per_us. rewrite shiftl_mul by lia.
  assert (E : wrap32 (Z.min (e / 1000000000) 65535 * 2 ^ 16)
              = Z.min (e / 1000000000) 65535 * 2 ^ 16) by mlia.
  assert (F : wrap32 (e mod 1000000000 / 1000 * 65536 / 1000000)
              = e mod 1000000000 / 1000 * 65536 / 1000000) by mlia.
  rewrite E, F, lor_add by mlia. mlia.
Qed.

(** A 52-byte sender report with one block is accepted, and read field by field. *)
Lemma parse_one_sr p :
  len p = 52 -> byte_at p 0 = 129 -> byte_at p 1 = 200 -> be16_at p 2 = 12 ->
  valid_compound p = Val true /\
  parse_rtcp p = Val [SenderReportP (mkSenderReport (be32_at p 4) (be64_at p 8) (be32_at p 16)
    (be32_at p 20) (be32_at p 24)
    [mkReportBlock (be32_at p 28) (byte_at p 32)
       (sign_extend24 (byte_at p 33) (byte_at p 34) (byte_at p 35))
       (be32_at p 36) (be32_at p 40) (be32_at p 44) (be32_at p 48)])].
Proof.
  intros Hl E0 E1 E2.
  assert (Hn : length p = 52%nat) by (unfold len in Hl; lia).
  split.
  - unfold valid_compound. rewrite Hl, Hn. cbn [Z.eqb valid_loop]. rewrite Hl. cbn [Z.eqb Z.ltb].
    change (52 <? 4) with false. cbv iota. reads. rewrite E0, E1, E2.
    change (negb (Z.shiftr 129 6 =? 2) || negb ((192 <=? 200) && (200 <=? 223))) with false.
    change (52 <? (12 + 1) * 4) with false. cbv iota.
    change ((12 + 1) * 4) with 52. reads.
    rewrite take_ge by (rewrite Hn; lia). unfold strip_padding.
    change (negb (Z.land 129 32 =? 0)) with false. cbv iota. cbn [obind].
    unfold valid_content, RTCP_SR, RTCP_RR, RTCP_BYE, RTCP_SDES. rewrite Hl.
    change (Z.land 129 31) with 1. cbn [obind]. reads. by rewrite drop_ge by (rewrite Hn; lia).
  - unfold parse_rtcp. rewrite Hn. cbn [parse_loop]. rewrite Hl.
    change (52 <? 0 + 4) with false. cbv iota. reads. change (0 + 1) with 1. change (0 + 2) with 2.
    rewrite E0, E1, E2. change (negb (Z.land (Z.shiftr 129 6) 3 =? 2)) with false.
    change (0 + (12 + 1) * 4) with 52. change (52 <? 52 + 4) with true.
    change (52 <? 52) with false. cbv iota. reads. change (Z.to_nat 0) with 0%nat.
    rewrite drop_0, take_ge by (rewrite Hn; lia). unfold content_len.
    change (negb (Z.land (Z.shiftr 129 5) 1 =? 0)) with false. cbn [andb obind].
    reads. rewrite take_ge by (rewrite Hn, Hl; lia).
    unfold parse_packet. rewrite Hl. change ((200 =? RTCP_SR) && (28 <=? 52)) with true. cbv iota.
    unfold parse_sr. reads. unfold parse_report_blocks.
    change (Z.to_nat (Z.land 129 31)) with 1%nat. cbn [parse_blocks_from].
    assert (Hd : len (drop (Z.to_nat 28) p) = 24) by (rewrite len_drop by lia; lia).
    rewrite Hd. change (24 <? 0 + 24) with false. cbv iota. unfold parse_block. reads.
    unfold be32_at. rewrite !byte_at_drop by lia. done.
Qed.

(** The buffer of [build_sr_rr] as a function of the values it reports. *)
Definition sr_bytes (our_ssrc ntp ts pkts octs remote_ssrc frac lost high jit lsr dlsr : Z) : bytes :=
  ([Z.lor 128 1; RTCP_SR] ++ to_be 2 12 ++ to_be 4 our_ssrc ++ to_be 8 ntp
    ++ to_be 4 ts ++ to_be 4 pkts ++ to_be 4 octs ++ to_be 4 remote_ssrc)
  ++ [frac] ++ [Z.land (Z.shiftr (Z.land lost 16777215) 16) 255;
                Z.land (Z.shiftr (Z.land lost 16777215) 8) 255; Z.land (Z.land lost 16777215) 255]
  ++ to_be 4 high ++ to_be 4 jit ++ to_be 4 lsr ++ to_be 4 dlsr.

Lemma parse_sr_bytes our ntp ts pkts octs remote frac lost high jit lsr dlsr :
  is_u32 our -> is_u64 ntp -> is_u32 ts -> is_u32 pkts -> is_u32 octs -> is_u32 remote ->
  is_u32 high -> is_u32 jit -> is_u32 lsr -> is_u32 dlsr ->
  let p := sr_bytes our ntp ts pkts octs remote frac lost high jit lsr dlsr in
  valid_compound p = Val true /\
  parse_rtcp p = Val [SenderReportP (mkSenderReport our ntp ts pkts octs
    [mkReportBlock remote frac (signed24 lost) high jit lsr dlsr])].
Proof.
  intros Hour Hntp Hts Hpk Hoc Hre Hhi Hji Hls Hdl p.
  assert (W32 : forall x, is_u32 x -> x = x mod 256 ^ Z.of_nat 4)
    by (intros x ?; symmetry; by apply Z.mod_small).
  destruct (parse_one_sr p) as [V P]; [done | done | done | done |].
  split; [done |]. rewrite P. rewrite <- sign_extend24_spec.
  rewrite (W32 our), (W32 ts), (W32 pkts), (W32 octs), (W32 remote), (W32 high), (W32 jit),
    (W32 lsr), (W32 dlsr) by done.
  rewrite <- (Z.mod_small ntp (256 ^ Z.of_nat 8)) by done.
  rewrite <- !from_to_be. reflexivity.
Qed.

Definition report_of (s : RtcpStats) (remote_ssrc clock_rate now : Z) : ReportBlock :=
  let known := bool_decide (last_sr_ssrc s = Some remote_ssrc) in
  mkReportBlock remote_ssrc (fraction_lost_and_update s).2 (signed24 (current_gen_lost s))
    (extended_max_seq s)
    (wrap32 (jitter s * (if 0 <? clock_rate then clock_rate else 8000) / 1000000))
    (if known then last_sr_ntp s else 0)
    (if known then match last_sr_received s with
                   | Some t => dlsr_of (duration_since now t) | None => 0 end else 0).

Lemma build_sr_rr_bytes our remote s ts rate now sys :
  let r := report_of s remote rate now in
  (build_sr_rr our remote s ts rate now sys).1 =
  sr_bytes our (ntp_now sys) ts (packets_sent s) (octets_sent s) remote (fraction_lost r)
    (current_gen_lost s) (rb_highest_seq r) (rb_jitter r) (last_sr r) (delay_since_last_sr r).
Proof.
  unfold build_sr_rr, report_of, fraction_lost_and_update, record_sr_sent. destruct s; cbn -[Z.mul].
  unfold expected_packets, current_gen_lost, highest_seq. cbn -[Z.mul].
  destruct (_ || _); cbn; destruct (bool_decide _); reflexivity.
Qed.

(** C20: what [build_sr_rr] sends is a compound packet that [valid_compound]
    accepts and that [parse_rtcp] reads back as the same sender report with its
    one report block: counters, extended sequence number, jitter in timestamp
    units, last-SR stamp and delay all survive; the loss of the generation
    comes back as its 24-bit two's complement value. *)
Theorem build_parse_report_roundtrip our remote s ts rate now secs nanos
  (W : wf s) (Hour : is_u32 our) (Hremote : is_u32 remote) (Hts : is_u32 ts)
  (Hsecs : 0 <= secs) (Hnanos : 0 <= nanos < 1000000000) :
  let p := (build_sr_rr our remote s ts rate now (secs, nanos)).1 in
  valid_compound p = Val true /\
  parse_rtcp p = Val [SenderReportP (mkSenderReport our (ntp_now (secs, nanos)) ts
    (packets_sent s) (octets_sent s) [report_of s remote rate now])].
Proof.
  intros p. unfold p. rewrite build_sr_rr_bytes.
  destruct W as (?&?&?&?&?&?&?&?&?&?&?&?&?&?&?).
  apply parse_sr_bytes; try done; unfold report_of; cbn.
  - by apply ntp_now_u64.
  - apply wrap32_u32.
  - case_bool_decide; [done | mlia].
  - case_bool_decide; [| mlia]. destruct (last_sr_received s); [apply dlsr_u32 |]; mlia.
Qed.

Lemma build_parse_report_roundtrip_witness :
  let s := fold_left (receive 7 8000) [(10, 0, 20, 1000); (15, 800, 20, 2000)] new in
  parse_rtcp (build_sr_rr 99 7 s 1600 8000 5000 (1700000000, 500000000)).1 =
  Val [SenderReportP (mkSenderReport 99 (ntp_now (1700000000, 500000000)) 1600 0 0
    [mkReportBlock 7 170 4 15 49 0 0])].
Proof.
  intros s.
  assert (W : wf s) by (unfold s; cbn [fold_left receive];
    repeat apply record_received_wf; [apply new_wf | mlia | mlia]).
  destruct (build_parse_report_roundtrip 99 7 s 1600 8000 5000 1700000000 500000000 W) as [_ H];
    [unfold is_u32; lia | unfold is_u32; lia | unfold is_u32; lia | lia | lia |].
  exact H.
Defined.

(** The cumulative loss of a report is masked to 24 bits where RFC 3550
    clamps it at 0x7fffff: exactly the losses of less than 2^23 packets are
    read back as they are, and a loss between 2^23 and 2^24 is read by the peer
    as a negative number. *)
Theorem large_loss_reported_negative s remote rate now (Hs : is_u32 (packets_received s)) :
  (rb_cumulative_lost (report_of s remote rate now) = current_gen_lost s
     <-> current_gen_lost s < 8388608) /\
  (8388608 <= current_gen_lost s < 16777216 ->
     rb_cumulative_lost (report_of s remote rate now) < 0).
Proof.
  pose proof (gen_lost_u32 s Hs). cbn. unfold signed24. cbn zeta.
  split; [split |]; intros; revert H0; split_if; mlia.
Qed.

Lemma large_loss_reported_negative_witness :
  let s := new {{ seq_initialized := true; base_seq := 0; extended_max_seq := 8388608;
                  packets_received := 1 }} in
  rb_cumulative_lost (report_of s 7 8000 0) < 0.
Proof.
  intros s. apply (large_loss_reported_negative s 7 8000 0); [unfold is_u32; cbn; lia |].
  by vm_compute.
Defined.

(** The jitter estimator stays between its previous value and the new
    transit difference, never overflows, moves strictly down whenever the
    difference is smaller and strictly up once it is larger by sixteen. *)
Theorem jitter_step_between j d (Hj : is_u32 j) (Hd : is_u32 d) :
  Z.min j d <= jitter_step j d <= Z.max j d /\
  (d < j -> jitter_step j d < j) /\ (j + 16 <= d -> j < jitter_step j d).
Proof.
  unfold jitter_step. rewrite shiftr_div by lia. change (2 ^ 4) with 16. split_and!; mlia.
Qed.

Lemma jitter_step_between_witness : jitter_step 100 5 = 94 /\ jitter_step 100 5 < 100.
Proof.
  split; [done |].
  apply (jitter_step_between 100 5); unfold is_u32; lia.
Defined.

(** The fraction lost is a byte, it is the share of the packets expected
    since the previous report that did not arrive, in 1/256, and asking again
    before anything arrives reports no loss and changes nothing. *)
Theorem fraction_lost_of_interval s (W : wf s) :
  let s1 := (fraction_lost_and_update s).1 in
  let f := (fraction_lost_and_update s).2 in
  let expected := wrap32 (expected_packets s - expected_prior s) in
  let received := wrap32 (packets_received s - received_prior s) in
  0 <= f <= 255 /\
  (received < expected -> f = Z.min 255 ((expected - received) * 256 / expected)) /\
  (expected <= received -> f = 0) /\
  fraction_lost_and_update s1 = (s1, 0).
Proof.
  intros s1 f expected received. split; [| split; [| split]].
  - pose proof (fraction_u8 s). fold f in H. unfold is_u8 in H. lia.
  - assert (0 <= received) by (unfold received; mlia). intros Hlt. unfold f, fraction_lost_and_update.
    fold expected received. split_if.
    + apply orb_true_iff in Heqb as [E | E]; bool_prop; lia.
    + cbn [snd]. rewrite shiftl_mul by lia. apply Z.min_comm.
  - intros Hle. unfold f, fraction_lost_and_update. fold expected received.
    by rewrite (proj2 (Z.leb_le _ _) Hle), orb_true_r.
  - unfold s1, fraction_lost_and_update. split_if; destruct s; unfold expected_packets; cbn;
      rewrite !Z.sub_diag; done.
Qed.

Lemma fraction_lost_of_interval_witness :
  let s := fold_left (receive 7 8000) [(10, 0, 20, 1000); (15, 800, 20, 2000)] new in
  (fraction_lost_and_update s).2 = 170.
Proof.
  intros s.
  assert (W : wf s) by (unfold s; cbn [fold_left receive];
    repeat apply record_received_wf; [apply new_wf | mlia | mlia]).
  destruct (fraction_lost_of_interval s W) as (_ & H & _). rewrite H; by vm_compute.
Defined.

(** ** The statistics through any history *)

(** Every call that changes the statistics, with its arguments. *)
Inductive op :=
| Received (ssrc seq ts plen rate now : Z)
| Sent (plen : Z)
| GotSr (sr : SenderReport) (now : Z)
| GotRr (block : ReportBlock) (our now : Z) (sys : Z * Z)
| ResetRemote
| SendReport (our remote ts rate now : Z) (sys : Z * Z).

Definition apply_op (s : RtcpStats) (o : op) : RtcpStats :=
  match o with
  | Received ssrc seq ts plen rate now => record_received s ssrc seq ts plen rate now
  | Sent plen => record_sent s plen
  | GotSr sr now => process_sr s sr now
  | GotRr block our now sys => process_rr s block our now sys
  | ResetRemote => reset_remote_receiver_report s
  | SendReport our remote ts rate now sys => (build_sr_rr our remote s ts rate now sys).2
  end.

Definition typed_op (o : op) : Prop :=
  match o with Received _ seq _ _ _ _ => is_u16 seq | _ => True end.

Lemma process_rr_wf s block our now sys : wf s -> wf (process_rr s block our now sys).
Proof.
  intros (?&?&?&?&?&?&?&?&?&?&?&?&?&?&R). unfold process_rr, wf.
  destruct (negb (rb_ssrc block =? our)); [by split_and! |].
  destruct (last_sr block =? 0); [destruct s; cbn in *; split_and!; try done; mlia |].
  match goal with |- context [if ?b then _ else _] => destruct b eqn:B end;
    destruct s; cbn in *; split_and!; try done; try mlia.
  intros r [= <-]. apply andb_true_iff in B as [B1 B2]. lia.
Qed.

Lemma expected_u32 s : is_u32 (expected_packets s).
Proof. unfold expected_packets. split_if; mlia. Qed.

Lemma build_sr_rr_wf our remote s ts rate now sys :
  wf s -> wf (build_sr_rr our remote s ts rate now sys).2.
Proof.
  intros (?&?&?&?&?&?&?&?&?&?&?&?&?&?&?). pose proof (expected_u32 s) as He.
  assert (Hm : is_u32 (ntp_middle (ntp_now sys)))
    by (unfold ntp_middle; autorewrite with masks; mlia).
  unfold build_sr_rr. unfold fraction_lost_and_update, record_sr_sent. destruct s; cbn in *.
  destruct (_ || _); cbn; case_bool_decide; unfold wf; cbn; by split_and!.
Qed.

(** In any history of received and sent packets, processed reports and
    sent reports, every counter stays within the width of its field, and a
    round-trip time that is reported is less than ten seconds. *)
Theorem stats_widths (ops : list op) (typed : Forall typed_op ops) :
  wf (fold_left apply_op ops new).
Proof.
  pose proof new_wf as W. revert W. generalize new.
  induction typed as [| o ops Ho _ IH]; intros s W; [done |]. cbn. apply IH.
  destruct o; cbn.
  - by apply record_received_wf.
  - destruct W as (?&?&?&?&?&?&?&?&?&?&?&?&?&?&?). unfold wf. destruct s; cbn in *.
    split_and!; try done; mlia.
  - destruct W as (?&?&?&?&?&?&?&?&?&?&?&?&?&?&?). unfold wf, process_sr.
    destruct s; cbn in *. autorewrite with masks. split_and!; try done; mlia.
  - by apply process_rr_wf.
  - destruct W as (?&?&?&?&?&?&?&?&?&?&?&?&?&?&?). unfold wf. destruct s; cbn in *.
    split_and!; try done; mlia.
  - by apply build_sr_rr_wf.
Qed.

Lemma stats_widths_witness :
  wf (fold_left apply_op [Received 7 65535 0 160 8000 0; Sent 160; ResetRemote;
                          SendReport 1 7 320 8000 50 (1700000000, 0)] new).
Proof.
  apply stats_widths. repeat constructor; unfold typed_op, is_u16; lia.
Defined.

End Rtcp.
