(* ===== verification/SrtpBase.v ===== *)
(** SRTP building blocks ([media/srtp.rs]): the cryptographic primitives as an
    interface, AES-CM keystream application, key derivation, IV computation,
    the RTP header length, and the 64-entry sliding replay window shared by
    SRTP and SRTCP, with its refinement of a set of accepted indices. *)

From S2P Require Import Prelude.

(** ** Primitives

    The [aes]/[ctr], [hmac]/[sha1] and [base64] crates: [aes_ctr key iv n] is the
    first [n] bytes of the AES-128 counter-mode keystream, [hmac_sha1 key msg]
    the 20-byte tag, [base64_decode] the standard alphabet decoder. *)
Class Crypto := {
  aes_ctr : bytes -> bytes -> nat -> bytes;
  hmac_sha1 : bytes -> bytes -> bytes;
  base64_decode : bytes -> option bytes;
  aes_ctr_length : forall key iv n, length (aes_ctr key iv n) = n;
  aes_ctr_bytes : forall key iv n, are_bytes (aes_ctr key iv n);
  hmac_sha1_length : forall key msg, length (hmac_sha1 key msg) = 20%nat;
  hmac_sha1_bytes : forall key msg, are_bytes (hmac_sha1 key msg);
  base64_decode_bytes : forall s d, base64_decode s = Some d -> are_bytes d;
}.

Definition SRTP_AUTH_TAG_LEN : Z := 10.
Definition SRTP_MASTER_KEY_LEN : Z := 16.
Definition SRTP_MASTER_SALT_LEN : Z := 14.
Definition MAX_SRTP_PACKETS_PER_MASTER_KEY : Z := 281474976710656.
Definition MAX_SRTCP_PACKETS_PER_MASTER_KEY : Z := 2147483648.
Definition MAX_RECV_SSRCS : Z := 64.
Definition MAX_SEND_SSRCS : Z := 64.

(** The [bail!]s of the two contexts. *)
Inductive srtp_error :=
| BadLifetime | BadBase64 | BadKeyLength
| PacketTooShort | TooManySsrcs | LifetimeExhausted | HeaderTooShort
| AuthTagMismatch | ReplayTooOld | ReplayDuplicate | IndexExhausted.

Definition xor_bytes (a b : bytes) : bytes := zip_with Z.lxor a b.

Section with_crypto.
Context {C : Crypto}.

(** [cipher.apply_keystream(&mut data)]. *)
Definition apply_keystream (key iv data : bytes) : bytes :=
  xor_bytes data (aes_ctr key iv (length data)).

Definition tag_of (key msg : bytes) : bytes := take (Z.to_nat SRTP_AUTH_TAG_LEN) (hmac_sha1 key msg).

Definition srtp_kdf (master_key master_salt : bytes) (label : Z) (out_len : nat) : bytes :=
  let x := <[7%nat := label]> (replicate 14 0) in
  let iv := xor_bytes master_salt x ++ [0; 0] in
  apply_keystream master_key iv (replicate out_len 0).

End with_crypto.

(** The bytes of the IV before the salt is mixed in. *)
Definition iv_block (ssrc index : Z) : bytes :=
  [0; 0; 0; 0] ++ to_be 4 ssrc ++ to_be 8 (wrap64 (Z.shiftl index 16)).

Definition compute_iv (salt : bytes) (ssrc index : Z) : bytes :=
  let iv := iv_block ssrc index in
  xor_bytes (take 14 iv) salt ++ drop 14 iv.

Definition compute_srtcp_iv (salt : bytes) (ssrc srtcp_index : Z) : bytes :=
  let iv := iv_block ssrc srtcp_index in
  xor_bytes (take 14 iv) salt ++ drop 14 iv.

Definition rtp_header_len (packet : bytes) : outcome (option Z) :=
  if len packet <? 12 then Val None
  else
    let! b0 := get packet 0 in
    let cc := Z.land b0 15 in
    let l := 12 + cc * 4 in
    if len packet <? l then Val None
    else if negb (Z.land b0 16 =? 0) then
      if len packet <? l + 4 then Val None
      else
        let! ext_words := get16 packet (l + 2) in
        match checked_mul64 ext_words 4 with
        | None => Val None
        | Some b =>
            match checked_add64 b 4 with
            | None => Val None
            | Some b =>
                match checked_add64 b l with
                | None => Val None
                | Some l => if len packet <? l then Val None else Val (Some l)
                end
            end
        end
    else Val (Some l).

(** ** Exclusive or *)

Lemma xor_bytes_length a b : length a = length b -> length (xor_bytes a b) = length a.
Proof. intros. unfold xor_bytes. rewrite length_zip_with. lia. Qed.

Lemma xor_bytes_cancel a b : length a = length b -> xor_bytes (xor_bytes a b) b = a.
Proof.
  revert b. induction a as [| x a IH]; intros [| y b]; cbn; intros [=]; [done |].
  unfold xor_bytes in IH. rewrite IH by done. by rewrite Z.lxor_assoc, Z.lxor_nilpotent, Z.lxor_0_r.
Qed.

Lemma xor_bytes_inj a a' b :
  length a = length b -> length a' = length b -> xor_bytes a b = xor_bytes a' b -> a = a'.
Proof.
  intros H H' E. rewrite <- (xor_bytes_cancel a b), <- (xor_bytes_cancel a' b) by done. by rewrite E.
Qed.

Lemma lxor_u8 a b : is_u8 a -> is_u8 b -> is_u8 (Z.lxor a b).
Proof.
  intros Ha Hb. unfold is_u8 in *. split; [apply Z.lxor_nonneg; lia |].
  destruct (Z.eq_dec (Z.lxor a b) 0) as [-> |]; [lia |].
  assert (0 <= Z.lxor a b) by (apply Z.lxor_nonneg; lia).
  apply (Z.log2_lt_pow2 _ 8); [lia |].
  pose proof (Z.log2_lxor a b ltac:(lia) ltac:(lia)).
  assert (forall c, 0 <= c < 256 -> Z.log2 c < 8) as L.
  { intros c Hc. destruct (Z.eq_dec c 0) as [-> |]; [done |]. apply Z.log2_lt_pow2; lia. }
  pose proof (L a Ha). pose proof (L b Hb). lia.
Qed.

Lemma xor_bytes_bytes a b : are_bytes a -> are_bytes b -> are_bytes (xor_bytes a b).
Proof.
  intros Ha. revert b. induction Ha as [| x a Hx _ IH]; intros b Hb; [done |].
  destruct Hb as [| y b Hy Hb]; [done |]. constructor; [by apply lxor_u8 | by apply IH].
Qed.

Section crypto_lemmas.
Context {C : Crypto}.

Lemma apply_keystream_length key iv d : length (apply_keystream key iv d) = length d.
Proof. unfold apply_keystream. apply xor_bytes_length. by rewrite aes_ctr_length. Qed.

(** Counter mode decrypts with the operation that encrypts. *)
Lemma apply_keystream_involutive key iv d :
  apply_keystream key iv (apply_keystream key iv d) = d.
Proof.
  unfold apply_keystream at 1. rewrite apply_keystream_length. unfold apply_keystream.
  apply xor_bytes_cancel. by rewrite aes_ctr_length.
Qed.

Lemma apply_keystream_bytes key iv d : are_bytes d -> are_bytes (apply_keystream key iv d).
Proof. intros. apply xor_bytes_bytes; [done | apply aes_ctr_bytes]. Qed.

Lemma tag_of_length key msg : length (tag_of key msg) = 10%nat.
Proof. unfold tag_of. rewrite length_take, hmac_sha1_length. done. Qed.

Lemma tag_of_bytes key msg : are_bytes (tag_of key msg).
Proof. apply Forall_take, hmac_sha1_bytes. Qed.

Lemma srtp_kdf_length k s l n : length (srtp_kdf k s l n) = n.
Proof. unfold srtp_kdf. by rewrite apply_keystream_length, length_replicate. Qed.

End crypto_lemmas.

(** A keystream byte is fixed by salt, SSRC and index: distinct pairs of SSRC
    and 48-bit index have distinct IVs. *)
Lemma compute_iv_inj salt ssrc index ssrc' index' :
  length salt = 14%nat -> is_u32 ssrc -> is_u32 ssrc' ->
  0 <= index < 281474976710656 -> 0 <= index' < 281474976710656 ->
  compute_iv salt ssrc index = compute_iv salt ssrc' index' -> ssrc = ssrc' /\ index = index'.
Proof.
  intros Hs H1 H2 H3 H4 E. unfold compute_iv in E.
  assert (L : forall s i, length (iv_block s i) = 16%nat) by done.
  apply app_inj_1 in E as [E1 E2]; [| by rewrite !xor_bytes_length; rewrite ?length_take, ?L, ?Hs].
  apply xor_bytes_inj in E1; [| by rewrite length_take, L, Hs | by rewrite length_take, L, Hs].
  assert (B : iv_block ssrc index = iv_block ssrc' index')
    by (rewrite <- (take_drop 14 (iv_block ssrc index)), E1, E2; apply take_drop).
  unfold iv_block in B. apply app_inj_2 in B as [_ B]; [| done].
  apply app_inj_1 in B as [B1 B2]; [| by rewrite !length_to_be].
  apply (f_equal from_be) in B1, B2. rewrite !from_to_be in B1, B2.
  rewrite !Z.mod_small in B1 by (unfold is_u32 in *; change (256 ^ Z.of_nat 4) with 4294967296; lia).
  rewrite !shiftl_mul in B2 by lia. change (256 ^ Z.of_nat 8) with 18446744073709551616 in B2.
  change (2 ^ 16) with 65536 in B2. split; [done |]. mlia.
Qed.

Lemma rtp_header_len_val p :
  are_bytes p ->
  rtp_header_len p = Val None \/
  exists l, rtp_header_len p = Val (Some l) /\ 12 <= l <= len p.
Proof.
  intros Hp. unfold rtp_header_len, checked_mul64, checked_add64. split_if; [by left |].
  assert (0 <= Z.land (byte_at p 0) 15 <= 15) by (rewrite land15; mlia).
  rewrite get_val by lia. cbn [obind]. split_if; [by left |]. split_if.
  - split_if; [by left |]. rewrite get16_val by lia. cbn [obind].
    pose proof (be16_at_u16 p (12 + Z.land (byte_at p 0) 15 * 4 + 2) Hp) as [? ?].
    repeat (split_if; try (by left)); right; eexists; split; try done; lia.
  - right. eexists. split; [done | lia].
Qed.

(** The header length depends on the header bytes and the total length only. *)
Lemma rtp_header_len_same p q l :
  rtp_header_len p = Val (Some l) -> are_bytes p -> len q = len p ->
  (forall i, 0 <= i < l -> byte_at q i = byte_at p i) -> rtp_header_len q = Val (Some l).
Proof.
  intros E Hp Hl Hb. destruct (rtp_header_len_val p Hp) as [E' | (l' & E' & Hr)]; [congruence |].
  assert (l' = l) as -> by congruence. clear E'. rewrite <- E.
  unfold rtp_header_len in *. rewrite Hl.
  destruct (len p <? 12) eqn:E12; [done |]. bool_prop.
  rewrite !get_val by lia. cbn [obind]. rewrite (Hb 0) by lia. rewrite get_val in E by lia.
  cbn [obind] in E. set (hl := 12 + Z.land (byte_at p 0) 15 * 4) in *.
  assert (0 <= Z.land (byte_at p 0) 15 <= 15) by (rewrite land15; mlia).
  destruct (len p <? hl) eqn:Ehl; [done |]. destruct (negb _) eqn:Ex; [| done].
  destruct (len p <? hl + 4) eqn:E4; [done |]. bool_prop.
  rewrite get16_val in E by lia. rewrite !get16_val by lia. cbn [obind] in *.
  replace (be16_at q (hl + 2)) with (be16_at p (hl + 2)); [done |].
  unfold be16_at. pose proof (be16_at_u16 p (hl + 2) Hp) as [? ?].
  unfold checked_mul64, checked_add64 in E. revert E. repeat (split_if; try done). intros [= <-].
  rewrite !Hb by lia. done.
Qed.

(** ** The sliding replay window

    [replay_window] is a 64-bit map: bit [k] stands for index [highest - k]. *)

Definition window_advance (w delta : Z) : Z :=
  if delta <? 64 then Z.lor (wrap64 (Z.shiftl w delta)) 1 else 1.
Definition window_seen (w delta : Z) : bool := negb (Z.land w (Z.shiftl 1 delta) =? 0).
Definition window_mark (w delta : Z) : Z := Z.lor w (Z.shiftl 1 delta).

(** The abstract state: the set of all indices accepted so far, never forgotten. *)
Definition window_ok (A : gset Z) (h w : Z) : Prop :=
  h ∈ A /\ (forall a, a ∈ A -> a <= h) /\
  (forall k, 0 <= k < 64 -> Z.testbit w k = bool_decide (h - k ∈ A)).

Lemma elem_add (A : gset Z) i x : x ∈ {[i]} ∪ A <-> x = i \/ x ∈ A.
Proof. by rewrite elem_of_union, elem_of_singleton. Qed.

Lemma elem_add_here (A : gset Z) i x : x = i -> bool_decide (x ∈ {[i]} ∪ A) = true.
Proof. intros ->. apply bool_decide_true, elem_add. by left. Qed.

Lemma elem_add_max (A : gset Z) h i m a :
  (forall a, a ∈ A -> a <= h) -> i <= m -> h <= m -> a ∈ {[i]} ∪ A -> a <= m.
Proof. intros H Hi Hh [-> | Ha]%elem_add; [done |]. specialize (H _ Ha). lia. Qed.

Lemma window_first i : window_ok {[i]} i 1.
Proof.
  split; [set_solver | split; [intros a Ha%elem_of_singleton; lia |]].
  intros k Hk. destruct (decide (k = 0)) as [-> | Hn].
  - rewrite bool_decide_true by (rewrite Z.sub_0_r; set_solver). done.
  - rewrite bool_decide_false by (rewrite elem_of_singleton; lia).
    change 1 with (2 ^ 0). apply Z.pow2_bits_false. lia.
Qed.

Lemma window_seen_spec A h w delta :
  window_ok A h w -> 0 <= delta < 64 -> window_seen w delta = bool_decide (h - delta ∈ A).
Proof.
  intros (_ & _ & H) Hd. unfold window_seen. rewrite <- H by done.
  rewrite shiftl_mul, Z.mul_1_l by lia.
  destruct (Z.testbit w delta) eqn:E.
  - apply negb_true_iff, Z.eqb_neq. intros Z0.
    assert (T : Z.testbit (Z.land w (2 ^ delta)) delta = true)
      by (rewrite Z.land_spec, E, Z.pow2_bits_true by lia; done).
    rewrite Z0, Z.bits_0 in T. done.
  - apply negb_false_iff, Z.eqb_eq, Z.bits_inj'. intros i Hi.
    rewrite Z.land_spec, Z.bits_0. destruct (decide (i = delta)) as [-> |].
    + by rewrite E.
    + rewrite Z.pow2_bits_false by lia. apply andb_false_r.
Qed.

Lemma window_advance_ok A h w i :
  window_ok A h w -> h < i -> window_ok ({[i]} ∪ A) i (window_advance w (i - h)).
Proof.
  intros (Hh & Hmax & H) Hi. split; [set_solver |].
  split; [intros a; apply (elem_add_max A h); [done | lia | lia] |].
  intros k Hk. unfold window_advance. destruct (Z.ltb_spec (i - h) 64) as [Hd | Hd].
  - rewrite Z.lor_spec. unfold wrap64. change 18446744073709551616 with (2 ^ 64).
    rewrite Z.mod_pow2_bits_low, Z.shiftl_spec by lia.
    destruct (decide (k = 0)) as [-> | Hk0].
    + rewrite orb_true_r. by rewrite elem_add_here by lia.
    + change 1 with (2 ^ 0). rewrite Z.pow2_bits_false, orb_false_r by lia.
      destruct (Z.lt_ge_cases k (i - h)).
      * rewrite Z.testbit_neg_r by lia. symmetry. apply bool_decide_false.
        intros [? | Ha]%elem_add; [lia |]. specialize (Hmax _ Ha). lia.
      * rewrite H by lia. apply bool_decide_ext. replace (h - (k - (i - h))) with (i - k) by lia.
        rewrite elem_add. split; [by right | intros [? | ?]; [lia | done]].
  - change 1 with (2 ^ 0). destruct (decide (k = 0)) as [-> | Hk0].
    + rewrite Z.pow2_bits_true by lia. by rewrite elem_add_here by lia.
    + rewrite Z.pow2_bits_false by lia. symmetry. apply bool_decide_false.
      intros [? | Ha]%elem_add; [lia |]. specialize (Hmax _ Ha). lia.
Qed.

Lemma window_mark_ok A h w i :
  window_ok A h w -> i <= h -> h - i < 64 -> window_ok ({[i]} ∪ A) h (window_mark w (h - i)).
Proof.
  intros (Hh & Hmax & H) Hi Hd. split; [set_solver |].
  split; [intros a; apply (elem_add_max A h); [done | lia | lia] |].
  intros k Hk. unfold window_mark. rewrite Z.lor_spec, H, shiftl_mul, Z.mul_1_l by lia.
  destruct (decide (k = h - i)) as [-> | Hk0].
  - rewrite Z.pow2_bits_true, orb_true_r by lia. by rewrite elem_add_here by lia.
  - rewrite Z.pow2_bits_false, orb_false_r by lia. apply bool_decide_ext.
    rewrite elem_add. split; [by right | intros [? | ?]; [lia | done]].
Qed.

(** The abstract decision: fresh, and not more than 63 behind the highest. *)
Definition fresh_index (A : gset Z) (h i : Z) : bool :=
  bool_decide (i ∉ A) && (h - 64 <? i).

(** ** A concrete instance of the interface, for evaluating examples *)

Definition sample_keystream (key iv : bytes) (n : nat) : bytes :=
  map (fun k => (from_be key + 7 * from_be iv + Z.of_nat k) mod 256) (seq 0 n).

Lemma sample_keystream_bytes key iv n : are_bytes (sample_keystream key iv n).
Proof.
  unfold sample_keystream. apply List.Forall_forall. intros x (k & <- & _)%in_map_iff. mlia.
Qed.

Definition sample_decode (s : bytes) : option bytes :=
  if forallb (fun b => (0 <=? b) && (b <? 256)) s then Some s else None.

Lemma sample_decode_bytes s d : sample_decode s = Some d -> are_bytes d.
Proof.
  unfold sample_decode. destruct (forallb _ s) eqn:E; [| done]. intros [= <-].
  apply List.Forall_forall. intros x Hx. rewrite forallb_forall in E. specialize (E x Hx).
  apply andb_true_iff in E. unfold is_u8. lia.
Qed.

Definition sample_crypto : Crypto := {|
  aes_ctr := sample_keystream;
  hmac_sha1 key msg := to_be 20 (from_be (key ++ msg) + 3);
  base64_decode := sample_decode;
  aes_ctr_length key iv n := eq_trans (length_map _ _) (length_seq _ _);
  aes_ctr_bytes := sample_keystream_bytes;
  hmac_sha1_length key msg := length_to_be 20 _;
  hmac_sha1_bytes key msg := to_be_bytes 20 _;
  base64_decode_bytes := sample_decode_bytes;
|}.
