(* ===== verification/Srtp.v ===== *)
(** SRTP for AES_CM_128_HMAC_SHA1_80 ([media/srtp.rs], [SrtpContext]): rollover
    counters, the per-SSRC replay window, [protect] and [unprotect], and their
    correctness: replay protection refines a set of accepted indices, every
    protected packet that is delivered within the window is recovered, packets
    that fail authentication change nothing, and key lifetimes are enforced. *)

From S2P Require Import Prelude SrtpBase.

Module Srtp.

Record SrtpStreamState := mkStream {
  roc : Z;
  highest_seq : Z;
  seq_initialized : bool;
  replay_window : Z;
  protected_packets : Z;
  accepted_packets : Z;
}.

(** [#[derive(Default)]]. *)
Definition default_stream : SrtpStreamState := mkStream 0 0 false 0 0 0.

Definition reset_stream (st : SrtpStreamState) : SrtpStreamState :=
  st {{ roc := 0; highest_seq := 0; seq_initialized := false; replay_window := 0 }}.

Definition update_roc (st : SrtpStreamState) (seq : Z) : SrtpStreamState :=
  if negb (seq_initialized st) then
    st {{ highest_seq := seq; seq_initialized := true; replay_window := 1 }}
  else if (seq <? 32768) && (32768 <? highest_seq st) then
    st {{ roc := wrap32 (roc st + 1); highest_seq := seq }}
  else if highest_seq st <? seq then st {{ highest_seq := seq }}
  else st.

Definition estimate_roc (st : SrtpStreamState) (seq : Z) : Z * Z :=
  if negb (seq_initialized st) then (0, seq)
  else
    let r :=
      if highest_seq st <? 32768 then
        if wrap16 (highest_seq st + 32768) <? seq then wrap32 (roc st - 1) else roc st
      else if seq <? wrap16 (highest_seq st - 32768) then wrap32 (roc st + 1)
      else roc st in
    (r, Z.lor (Z.shiftl r 16) seq).

Definition check_replay (st : SrtpStreamState) (seq : Z)
    : SrtpStreamState * result srtp_error (Z * Z) :=
  if negb (seq_initialized st) then
    (st {{ highest_seq := seq; seq_initialized := true; replay_window := 1 }}, Ok (0, seq))
  else
    let '(estimated_roc, index) := estimate_roc st seq in
    let highest_index := Z.lor (Z.shiftl (roc st) 16) (highest_seq st) in
    if highest_index <? index then
      (st {{ replay_window := window_advance (replay_window st) (index - highest_index);
             highest_seq := seq; roc := estimated_roc }}, Ok (estimated_roc, index))
    else
      let delta := highest_index - index in
      if 64 <=? delta then (st, Err ReplayTooOld)
      else if window_seen (replay_window st) delta then (st, Err ReplayDuplicate)
      else (st {{ replay_window := window_mark (replay_window st) delta }},
            Ok (estimated_roc, index)).

Record SrtpContext := mkContext {
  cipher_key : bytes;
  cipher_salt : bytes;
  auth_key : bytes;
  streams : gmap Z SrtpStreamState;
  packet_lifetime : Z;
}.

(** [self.streams.entry(ssrc).or_default()], and writing the entry back. *)
Definition entry (c : SrtpContext) (ssrc : Z) : SrtpStreamState :=
  default default_stream (streams c !! ssrc).
Definition put (c : SrtpContext) (ssrc : Z) (st : SrtpStreamState) : SrtpContext :=
  c {{ streams := <[ssrc := st]> (streams c) }}.

(** A brand-new SSRC over the cap. *)
Definition over_cap (c : SrtpContext) (ssrc cap : Z) : bool :=
  bool_decide (streams c !! ssrc = None) && (cap <=? Z.of_nat (size (streams c))).

Definition tighten_packet_lifetime (c : SrtpContext) (l : Z) : SrtpContext :=
  c {{ packet_lifetime := l }}.

Definition reset_sequence_state (c : SrtpContext) : SrtpContext :=
  c {{ streams := reset_stream <$> streams c }}.

Section with_crypto.
Context {C : Crypto}.

Definition from_sdes_key_with_lifetime (key_b64 : bytes) (lifetime : Z)
    : result srtp_error SrtpContext :=
  if (lifetime =? 0) || (MAX_SRTP_PACKETS_PER_MASTER_KEY <? lifetime) then Err BadLifetime
  else
    match base64_decode key_b64 with
    | None => Err BadBase64
    | Some key_material =>
        if negb (len key_material =? SRTP_MASTER_KEY_LEN + SRTP_MASTER_SALT_LEN)
        then Err BadKeyLength
        else
          let master_key := take 16 key_material in
          let master_salt := take 14 (drop 16 key_material) in
          Ok (mkContext (srtp_kdf master_key master_salt 0 16)
                (srtp_kdf master_key master_salt 2 14)
                (srtp_kdf master_key master_salt 1 20) ∅ lifetime)
    end.

Definition from_sdes_key (key_b64 : bytes) : result srtp_error SrtpContext :=
  from_sdes_key_with_lifetime key_b64 MAX_SRTP_PACKETS_PER_MASTER_KEY.

Definition protect (c : SrtpContext) (rtp_packet : bytes)
    : outcome (SrtpContext * result srtp_error bytes) :=
  if len rtp_packet <? 12 then Val (c, Err PacketTooShort)
  else
    let! ssrc := get32 rtp_packet 8 in
    let! seq := get16 rtp_packet 2 in
    if over_cap c ssrc MAX_SEND_SSRCS then Val (c, Err TooManySsrcs)
    else
      let st := entry c ssrc in
      if packet_lifetime c <=? protected_packets st
      then Val (put c ssrc st, Err LifetimeExhausted)
      else
        let st := update_roc st seq in
        let index := Z.lor (Z.shiftl (roc st) 16) seq in
        let! header_len := rtp_header_len rtp_packet in
        match header_len with
        | None => Val (put c ssrc st, Err HeaderTooShort)
        | Some header_len =>
            let iv := compute_iv (cipher_salt c) ssrc index in
            let! head := slice_to rtp_packet header_len in
            let! body := slice_from rtp_packet header_len in
            let output := head ++ apply_keystream (cipher_key c) iv body in
            let tag := tag_of (auth_key c) (output ++ to_be 4 (roc st)) in
            Val (put c ssrc (st {{ protected_packets := wrap64 (protected_packets st + 1) }}),
                 Ok (output ++ tag))
        end.

Definition unprotect (c : SrtpContext) (srtp_packet : bytes)
    : outcome (SrtpContext * result srtp_error bytes) :=
  if len srtp_packet <? 12 + SRTP_AUTH_TAG_LEN then Val (c, Err PacketTooShort)
  else
    let! auth_portion := slice_to srtp_packet (len srtp_packet - SRTP_AUTH_TAG_LEN) in
    let! received_tag := slice_from srtp_packet (len srtp_packet - SRTP_AUTH_TAG_LEN) in
    let! seq := get16 srtp_packet 2 in
    let! ssrc := get32 srtp_packet 8 in
    let estimated_roc :=
      match streams c !! ssrc with
      | Some st => (estimate_roc st seq).1
      | None => 0
      end in
    let computed_tag := tag_of (auth_key c) (auth_portion ++ to_be 4 estimated_roc) in
    if negb (bool_decide (computed_tag = received_tag)) then Val (c, Err AuthTagMismatch)
    else if over_cap c ssrc MAX_RECV_SSRCS then Val (c, Err TooManySsrcs)
    else
      let st := entry c ssrc in
      if packet_lifetime c <=? accepted_packets st
      then Val (put c ssrc st, Err LifetimeExhausted)
      else
        let '(st, r) := check_replay st seq in
        match r with
        | Err e => Val (put c ssrc st, Err e)
        | Ok (_, index) =>
            let! header_len := rtp_header_len auth_portion in
            match header_len with
            | None => Val (put c ssrc st, Err HeaderTooShort)
            | Some header_len =>
                let iv := compute_iv (cipher_salt c) ssrc index in
                let! head := slice_to auth_portion header_len in
                let! body := slice_from auth_portion header_len in
                Val (put c ssrc (st {{ accepted_packets := wrap64 (accepted_packets st + 1) }}),
                     Ok (head ++ apply_keystream (cipher_key c) iv body))
            end
        end.

End with_crypto.

(** ** Packet indices *)

Lemma join_index r s : is_u16 s -> Z.lor (Z.shiftl r 16) s = r * 65536 + s.
Proof. intros. rewrite shiftl_mul by lia. by apply lor_add. Qed.

Definition typed_stream (st : SrtpStreamState) : Prop :=
  is_u32 (roc st) /\ is_u16 (highest_seq st) /\
  0 <= protected_packets st /\ 0 <= accepted_packets st.

Definition highest_index (st : SrtpStreamState) : Z := roc st * 65536 + highest_seq st.

Lemma estimate_typed st seq :
  typed_stream st -> is_u16 seq ->
  let '(r, i) := estimate_roc st seq in
  is_u32 r /\ i = r * 65536 + seq /\ 0 <= i < 281474976710656.
Proof.
  intros (Hr & Hh & _) Hs. unfold estimate_roc. destruct (negb _); [mlia |].
  rewrite join_index by done. split_ifs; split_and!; try done; mlia.
Qed.

(** The estimate is the true index when it is less than half the sequence
    space away from the highest index received. *)
Lemma estimate_exact st i :
  typed_stream st -> seq_initialized st = true -> 0 <= i < 281474976710656 ->
  -32767 <= i - highest_index st <= 32767 ->
  estimate_roc st (wrap16 i) = (i / 65536, i).
Proof.
  intros (Hr & Hh & _) Hi Hb Hw. unfold estimate_roc, highest_index in *. rewrite Hi. cbn [negb].
  rewrite join_index by mlia.
  assert (E : (if highest_seq st <? 32768 then
        if wrap16 (highest_seq st + 32768) <? wrap16 i then wrap32 (roc st - 1) else roc st
      else if wrap16 i <? wrap16 (highest_seq st - 32768) then wrap32 (roc st + 1)
      else roc st) = i / 65536) by (split_ifs; mlia).
  rewrite E. f_equal. mlia.
Qed.

(** ** The replay check refines a set of accepted indices *)

Definition recv_ok (st : SrtpStreamState) (A : gset Z) : Prop :=
  typed_stream st /\
  if seq_initialized st then window_ok A (highest_index st) (replay_window st)
  else roc st = 0 /\ A = ∅.

Definition fresh (st : SrtpStreamState) (A : gset Z) (i : Z) : bool :=
  if seq_initialized st then fresh_index A (highest_index st) i else true.

Lemma recv_ok_default : recv_ok default_stream ∅.
Proof. split; [unfold typed_stream; cbn; mlia | done]. Qed.

Lemma check_replay_accepts st A seq :
  recv_ok st A -> is_u16 seq -> fresh st A (estimate_roc st seq).2 = true ->
  exists st', check_replay st seq = (st', Ok (estimate_roc st seq)) /\
    recv_ok st' ({[(estimate_roc st seq).2]} ∪ A) /\
    seq_initialized st' = true /\
    highest_index st' = (if seq_initialized st
                         then Z.max (highest_index st) (estimate_roc st seq).2 else seq) /\
    accepted_packets st' = accepted_packets st.
Proof.
  intros [T W] Hs F. pose proof (estimate_typed st seq T Hs) as Ht. unfold check_replay, fresh in *.
  destruct (seq_initialized st) eqn:Hi; cbn [negb].
  - destruct (estimate_roc st seq) as [r i]. destruct Ht as (Hr & -> & Hb). cbn [snd] in *.
    unfold fresh_index in F. apply andb_true_iff in F as [F1 F2]. bool_prop.
    apply bool_decide_eq_true in F1. destruct T as (T1 & T2 & T3).
    rewrite join_index by done. fold (highest_index st).
    destruct (Z.ltb_spec (highest_index st) (r * 65536 + seq)).
    + eexists. split; [done |]. split; [split |].
      * unfold typed_stream. destruct st; cbn in *. unfold_ints. lia.
      * replace (seq_initialized _) with true by (by destruct st).
        pose proof (window_advance_ok A _ _ _ W H). by destruct st.
      * rewrite Z.max_r by lia. by destruct st.
    + destruct (Z.leb_spec 64 (highest_index st - (r * 65536 + seq))); [lia |].
      rewrite (window_seen_spec A _ _ _ W) by lia.
      replace (highest_index st - (highest_index st - (r * 65536 + seq)))
        with (r * 65536 + seq) by lia.
      rewrite bool_decide_false by done. eexists. split; [done |]. split; [split |].
      * unfold typed_stream. destruct st; cbn in *. unfold_ints. lia.
      * replace (seq_initialized _) with true by (by destruct st).
        pose proof (window_mark_ok A _ _ (r * 65536 + seq) W ltac:(lia) ltac:(lia)). by destruct st.
      * rewrite Z.max_l by lia. by destruct st.
  - destruct W as [W0 ->]. unfold estimate_roc in *. rewrite Hi. cbn [negb snd].
    eexists. split; [done |]. rewrite union_empty_r_L. destruct T as (T1 & T2 & T3).
    destruct st; cbn in *; subst. split; [split | split_and!; done].
    + unfold typed_stream. cbn. unfold_ints. lia.
    + cbn. apply window_first.
Qed.

Lemma check_replay_rejects st A seq :
  recv_ok st A -> is_u16 seq -> fresh st A (estimate_roc st seq).2 = false ->
  check_replay st seq =
    (st, Err (if (highest_index st - 64 <? (estimate_roc st seq).2)
              then ReplayDuplicate else ReplayTooOld)).
Proof.
  intros [T W] Hs F. pose proof (estimate_typed st seq T Hs) as Ht. unfold check_replay, fresh in *.
  destruct (seq_initialized st) eqn:Hi; cbn [negb]; [| done].
  destruct (estimate_roc st seq) as [r i]. destruct Ht as (Hr & -> & Hb). cbn [snd] in *.
  destruct T as (T1 & T2 & T3). rewrite join_index by done. fold (highest_index st).
  unfold fresh_index in F.
  destruct (Z.ltb_spec (highest_index st) (r * 65536 + seq)) as [Hlt | Hge].
  - destruct W as (_ & Wmax & _).
    rewrite bool_decide_true in F by (intros Ha; specialize (Wmax _ Ha); lia).
    rewrite (proj2 (Z.ltb_lt _ _)) in F by lia. done.
  - destruct (Z.leb_spec 64 (highest_index st - (r * 65536 + seq))).
    + destruct (Z.ltb_spec (highest_index st - 64) (r * 65536 + seq)); [lia | done].
    + rewrite (proj2 (Z.ltb_lt _ _)) in * by lia. rewrite andb_true_r in F.
      apply bool_decide_eq_false in F. rewrite (window_seen_spec A _ _ _ W) by lia.
      replace (highest_index st - (highest_index st - (r * 65536 + seq)))
        with (r * 65536 + seq) by lia.
      rewrite bool_decide_true; [done |]. by destruct (decide (r * 65536 + seq ∈ A)).
Qed.

(** C3: the 64-bit sliding replay window decides exactly as if every accepted
    index were remembered for ever: a packet is accepted iff its index has
    never been accepted and is less than 64 behind the highest one; accepting
    it adds its index, and a rejected packet, reported as a duplicate exactly
    when it is inside the window, leaves the stream as it was. *)
Theorem replay_window_refines_set st A seq
  (inv : recv_ok st A) (Hseq : is_u16 seq) :
  let i := (estimate_roc st seq).2 in
  if fresh st A i then
    exists st', check_replay st seq = (st', Ok (estimate_roc st seq)) /\ recv_ok st' ({[i]} ∪ A)
  else
    check_replay st seq =
      (st, Err (if highest_index st - 64 <? i then ReplayDuplicate else ReplayTooOld)).
Proof.
  intros i. destruct (fresh st A i) eqn:F.
  - destruct (check_replay_accepts st A seq inv Hseq F) as (st' & E & R & _). by exists st'.
  - by apply (check_replay_rejects st A).
Qed.

(** After 65535 and 0 (of the next cycle) were accepted, 65535 is a duplicate. *)
Lemma replay_window_refines_set_witness :
  let st := (check_replay (check_replay default_stream 65535).1 0).1 in
  recv_ok st {[65535; 65536]} /\ check_replay st 65535 = (st, Err ReplayDuplicate).
Proof.
  intros st.
  assert (R : recv_ok st ({[65536]} ∪ ({[65535]} ∪ ∅))).
  { pose proof (replay_window_refines_set default_stream ∅ 65535 recv_ok_default
      ltac:(unfold is_u16; lia)) as (st1 & E1 & R1).
    assert (st1 = (check_replay default_stream 65535).1) as -> by (by rewrite E1).
    pose proof (replay_window_refines_set _ _ 0 R1 ltac:(unfold is_u16; lia)) as H.
    cbn zeta in H. replace (fresh _ _ _) with true in H by (by vm_compute).
    destruct H as (st2 & E2 & R2).
    assert (st = st2) as -> by (unfold st; by rewrite E2). exact R2. }
  rewrite union_empty_r_L in R. rewrite (union_comm_L {[65536]}) in R.
  split; [exact R |].
  pose proof (replay_window_refines_set st _ 65535 R ltac:(unfold is_u16; lia)) as H.
  cbn zeta in H. replace (fresh _ _ _) with false in H by (by vm_compute). exact H.
Defined.

(** ** What [unprotect] does on any datagram *)

Section receiving.
Context {C : Crypto}.

Definition authenticated (c : SrtpContext) (p : bytes) : Prop :=
  let n := len p - SRTP_AUTH_TAG_LEN in
  let est := match streams c !! be32_at p 8 with
             | Some st => (estimate_roc st (be16_at p 2)).1
             | None => 0
             end in
  tag_of (auth_key c) (take (Z.to_nat n) p ++ to_be 4 est) = drop (Z.to_nat n) p.

Lemma estimate_entry c ssrc seq :
  match streams c !! ssrc with Some st => (estimate_roc st seq).1 | None => 0 end
  = (estimate_roc (entry c ssrc) seq).1.
Proof. unfold entry. by destruct (streams c !! ssrc). Qed.

(** The ways [unprotect] returns. *)
Inductive unprotected (c : SrtpContext) (p : bytes) : SrtpContext -> result srtp_error bytes -> Prop :=
| Unchanged e :
    e = PacketTooShort \/ e = AuthTagMismatch \/ e = TooManySsrcs -> unprotected c p c (Err e)
| Exhausted ssrc :
    authenticated c p -> ssrc = be32_at p 8 -> over_cap c ssrc MAX_RECV_SSRCS = false ->
    packet_lifetime c <= accepted_packets (entry c ssrc) ->
    unprotected c p (put c ssrc (entry c ssrc)) (Err LifetimeExhausted)
| Replayed ssrc st e :
    authenticated c p -> ssrc = be32_at p 8 -> over_cap c ssrc MAX_RECV_SSRCS = false ->
    check_replay (entry c ssrc) (be16_at p 2) = (st, Err e) ->
    unprotected c p (put c ssrc st) (Err e)
| BadHeader ssrc st ri :
    authenticated c p -> ssrc = be32_at p 8 -> over_cap c ssrc MAX_RECV_SSRCS = false ->
    check_replay (entry c ssrc) (be16_at p 2) = (st, Ok ri) ->
    unprotected c p (put c ssrc st) (Err HeaderTooShort)
| Accepted ssrc st r i hl :
    authenticated c p -> ssrc = be32_at p 8 -> over_cap c ssrc MAX_RECV_SSRCS = false ->
    accepted_packets (entry c ssrc) < packet_lifetime c ->
    check_replay (entry c ssrc) (be16_at p 2) = (st, Ok (r, i)) ->
    let portion := take (Z.to_nat (len p - SRTP_AUTH_TAG_LEN)) p in
    rtp_header_len portion = Val (Some hl) -> 12 <= hl <= len portion ->
    unprotected c p (put c ssrc (st {{ accepted_packets := wrap64 (accepted_packets st + 1) }}))
      (Ok (take (Z.to_nat hl) portion ++
           apply_keystream (cipher_key c) (compute_iv (cipher_salt c) ssrc i)
             (drop (Z.to_nat hl) portion))).

Lemma unprotect_cases c p :
  are_bytes p -> exists c' r, unprotect c p = Val (c', r) /\ unprotected c p c' r.
Proof.
  intros Hp. unfold unprotect. unfold SRTP_AUTH_TAG_LEN.
  destruct (Z.ltb_spec (len p) (12 + 10)).
  { do 2 eexists. split; [done |]. constructor. by left. }
  reads. destruct (bool_decide _) eqn:A; cbn [negb].
  2:{ do 2 eexists. split; [done |]. constructor. by right; left. }
  apply bool_decide_eq_true in A.
  destruct (over_cap _ _ _) eqn:O.
  { do 2 eexists. split; [done |]. constructor. by right; right. }
  destruct (Z.leb_spec (packet_lifetime c) (accepted_packets (entry c (be32_at p 8)))).
  { do 2 eexists. split; [done |]. by apply Exhausted. }
  destruct (check_replay (entry c (be32_at p 8)) (be16_at p 2)) as [st [[r i] | e]] eqn:R.
  2:{ do 2 eexists. split; [done |]. by eapply Replayed. }
  destruct (rtp_header_len_val (take (Z.to_nat (len p - 10)) p)) as [E | (l & E & Hl)];
    [auto with rtp | |]; rewrite E; cbn [obind].
  { do 2 eexists. split; [done |]. by eapply BadHeader. }
  rewrite slice_to_val, slice_from_val by lia. cbn [obind].
  do 2 eexists. split; [done |]. by eapply Accepted.
Qed.

Lemma unprotect_inv c p c' r : are_bytes p -> unprotect c p = Val (c', r) -> unprotected c p c' r.
Proof. intros Hp E. destruct (unprotect_cases c p Hp) as (c2 & r2 & E2 & U). rewrite E in E2. by injection E2 as -> ->. Qed.

Lemma unprotect_verdict c p :
  are_bytes p ->
  exists c' r, unprotect c p = Val (c', r) /\ (c' = c /\ (exists e, r = Err e) \/ authenticated c p) /\
    forall d, r = Ok d -> are_bytes d.
Proof.
  intros Hp. destruct (unprotect_cases c p Hp) as (c' & r & E & U). exists c', r. split; [done |].
  destruct U; split; try done; try (by right); [left; by eauto |].
  intros d [= <-]. assert (are_bytes portion) by by apply Forall_take.
  apply Forall_app. split; [by apply Forall_take | by apply apply_keystream_bytes, Forall_drop].
Qed.

(** C4: on any datagram whatever [unprotect] returns without panicking, and a
    datagram can change the context or be returned to the caller only if its
    tag is the HMAC of its contents under the estimated rollover counter:
    forged traffic can neither poison the replay state nor fill the table of
    sources. *)
Theorem only_authentic_packets_matter c p (Hp : are_bytes p) :
  exists c' r, unprotect c p = Val (c', r) /\
    (c' <> c \/ (exists out, r = Ok out) -> authenticated c p).
Proof.
  destruct (unprotect_cases c p Hp) as (c' & r & E & U). exists c', r. split; [done |].
  intros H. destruct U; try done. destruct H as [? | [? ?]]; done.
Qed.

(** ** No index is accepted twice *)

Definition recv_inv (c : SrtpContext) (A : Z -> gset Z) : Prop :=
  forall ssrc, recv_ok (entry c ssrc) (A ssrc).

Definition add_index (A : Z -> gset Z) (ssrc i : Z) : Z -> gset Z :=
  fun s => if bool_decide (s = ssrc) then {[i]} ∪ A s else A s.

(** The SSRC and index under which a packet is processed. *)
Definition index_in (c : SrtpContext) (p : bytes) : Z * Z :=
  (be32_at p 8, (estimate_roc (entry c (be32_at p 8)) (be16_at p 2)).2).

Lemma entry_put c ssrc st s : entry (put c ssrc st) s = if bool_decide (s = ssrc) then st else entry c s.
Proof.
  unfold entry, put. destruct c; cbn. case_bool_decide; subst.
  - by rewrite lookup_insert_eq.
  - by rewrite lookup_insert_ne by done.
Qed.

Lemma recv_inv_put c A ssrc st :
  recv_inv c A -> recv_ok st (A ssrc) -> recv_inv (put c ssrc st) A.
Proof. intros I R s. rewrite entry_put. case_bool_decide; subst; [done | apply I]. Qed.

Lemma recv_inv_add c A ssrc i st :
  recv_inv c A -> recv_ok st ({[i]} ∪ A ssrc) -> recv_inv (put c ssrc st) (add_index A ssrc i).
Proof.
  intros I R s. rewrite entry_put. unfold add_index. case_bool_decide; subst; [done | apply I].
Qed.

Lemma check_replay_ok_inv st A seq st' r i :
  recv_ok st A -> is_u16 seq -> check_replay st seq = (st', Ok (r, i)) ->
  i = (estimate_roc st seq).2 /\ i ∉ A /\ recv_ok st' ({[i]} ∪ A) /\
  accepted_packets st' = accepted_packets st.
Proof.
  intros R Hs E. destruct (fresh st A (estimate_roc st seq).2) eqn:F.
  - destruct (check_replay_accepts st A seq R Hs F) as (st2 & E2 & R2 & _ & _ & Ha).
    rewrite E in E2. injection E2 as -> E2. rewrite <- E2 in *. split; [done |]. split; [| done].
    cbn [snd] in F. unfold fresh, fresh_index in F. destruct R as [_ R].
    destruct (seq_initialized st).
    + apply andb_true_iff in F as [F _]. by apply bool_decide_eq_true in F.
    + destruct R as [_ ->]. set_solver.
  - rewrite (check_replay_rejects st A) in E by done. done.
Qed.

Lemma recv_ok_count st A n : 0 <= n -> recv_ok st A -> recv_ok (st {{ accepted_packets := n }}) A.
Proof. intros Hn [(?&?&?&?) W]. destruct st. split; [by unfold typed_stream; cbn in *; split_and! | done]. Qed.

(** Every outcome of [unprotect] keeps the invariant; an accepted packet has a
    fresh index. *)
Lemma unprotected_inv c p c' r A :
  are_bytes p -> recv_inv c A -> unprotected c p c' r ->
  match r with
  | Ok _ => (index_in c p).2 ∉ A (index_in c p).1 /\
            recv_inv c' (add_index A (index_in c p).1 (index_in c p).2)
  | Err _ => exists A', recv_inv c' A' /\ forall s, A s ⊆ A' s
  end.
Proof.
  intros Hp I U. pose proof (be16_at_u16 p 2 Hp) as Hs.
  destruct U as [e He | ssrc Ha -> Ho Hl | ssrc st e Ha -> Ho R | ssrc st [r i] Ha -> Ho R
    | ssrc st r i hl Ha -> Ho Hc R portion Eh Hl].
  - by exists A.
  - exists A. split; [| done]. apply recv_inv_put; [done | apply I].
  - exists A. split; [| done]. apply recv_inv_put; [done |].
    destruct (fresh (entry c (be32_at p 8)) (A (be32_at p 8))
      (estimate_roc (entry c (be32_at p 8)) (be16_at p 2)).2) eqn:F.
    + destruct (check_replay_accepts _ _ _ (I _) Hs F) as (? & E & _). by rewrite R in E.
    + rewrite (check_replay_rejects _ _ _ (I _) Hs F) in R. injection R as <- _. apply I.
  - destruct (check_replay_ok_inv _ _ _ _ _ _ (I _) Hs R) as (_ & _ & R' & _).
    exists (add_index A (be32_at p 8) i). split; [by apply recv_inv_add |].
    intros s. unfold add_index. case_bool_decide; set_solver.
  - destruct (check_replay_ok_inv _ _ _ _ _ _ (I _) Hs R) as (Ei & Hn & R' & _).
    unfold index_in. cbn [fst snd]. rewrite <- Ei. split; [done |]. apply recv_inv_add; [done |].
    apply recv_ok_count; [mlia | done].
Qed.

(** The indices accepted over a run of datagrams. *)
Fixpoint accepted (c : SrtpContext) (ps : list bytes) : list (Z * Z) :=
  match ps with
  | [] => []
  | p :: ps =>
      match unprotect c p with
      | Val (c', Ok _) => index_in c p :: accepted c' ps
      | Val (c', Err _) => accepted c' ps
      | Panic => []
      end
  end.

Lemma accepted_fresh ps c A :
  Forall are_bytes ps -> recv_inv c A ->
  NoDup (accepted c ps) /\ forall s i, (s, i) ∈ accepted c ps -> i ∉ A s.
Proof.
  intros Hps. revert c A. induction Hps as [| p ps Hp _ IH]; intros c A I; cbn [accepted].
  - split; [constructor | intros s i H; by apply elem_of_nil in H].
  - destruct (unprotect_cases c p Hp) as (c' & r & -> & U).
    pose proof (unprotected_inv c p c' r A Hp I U) as H. destruct r as [out | e].
    + destruct H as [Hn I']. destruct (IH c' _ I') as [ND Hf].
      destruct (index_in c p) as [ssrc j]. cbn [fst snd] in *. split.
      * constructor; [| done]. intros Hin. specialize (Hf _ _ Hin). unfold add_index in Hf.
        rewrite bool_decide_true in Hf by done. set_solver.
      * intros s i [[= -> ->] | Hin]%elem_of_cons; [done |]. specialize (Hf _ _ Hin).
        unfold add_index in Hf. case_bool_decide; set_solver.
    + destruct H as (A' & I' & Sub). destruct (IH c' _ I') as [ND Hf]. split; [done |].
      intros s i Hin Ha. exact (Hf _ _ Hin (Sub s i Ha)).
Qed.

(** C2: replay protection over a whole session: from a fresh context, in any
    sequence of datagrams (reordered, duplicated, forged, from any number of
    sources), no two accepted packets have the same SSRC and packet index. *)
Theorem no_index_accepted_twice c ps
  (fresh_context : streams c = ∅) (Hps : Forall are_bytes ps) :
  NoDup (accepted c ps).
Proof.
  apply (accepted_fresh ps c (fun _ => ∅)); [done |].
  intros ssrc. unfold entry. rewrite fresh_context, lookup_empty. apply recv_ok_default.
Qed.

End receiving.

(** ** The sender: every packet has its own index *)

Section sending.
Context {C : Crypto}.

(** The transmit state of a stream whose last packet had true index [j]. *)
Definition sent (st : SrtpStreamState) (j : Z) : Prop :=
  seq_initialized st = true /\ roc st = j / 65536 /\ highest_seq st = wrap16 j.

(** [j] may follow the packets sent so far: less than half the sequence space
    ahead of the last one, or in the first cycle when nothing was sent. *)
Definition next_index (last : option Z) (j : Z) : Prop :=
  match last with
  | None => 0 <= j < 65536
  | Some i => i < j <= i + 32767 /\ 0 <= j < 281474976710656
  end.

Definition send_state (st : SrtpStreamState) (last : option Z) : Prop :=
  match last with
  | None => seq_initialized st = false /\ roc st = 0
  | Some i => sent st i /\ 0 <= i
  end.

Lemma update_roc_index st last j :
  send_state st last -> next_index last j ->
  let st' := update_roc st (wrap16 j) in
  sent st' j /\ protected_packets st' = protected_packets st /\
  Z.lor (Z.shiftl (roc st') 16) (wrap16 j) = j.
Proof.
  intros S N st'.
  assert (G : sent st' j /\ protected_packets st' = protected_packets st).
  { unfold st', update_roc, send_state, sent, next_index in *. destruct last as [i |].
    - destruct S as [(Hi & Hr & Hh) H0]. rewrite Hi, Hh. cbn [negb].
      split_ifs; destruct st; cbn in *; split_and!; try done; try mlia.
    - destruct S as [Hi Hr]. rewrite Hi. cbn [negb].
      destruct st; cbn in *; split_and!; try done; mlia. }
  destruct G as [(Hi & Hr & Hh) Hc]. split_and!; try done.
  rewrite join_index, Hr by mlia. mlia.
Qed.

(** What the packet [p] of index [j] looks like on the wire. *)
Definition wire_body (c : SrtpContext) (hl j : Z) (p : bytes) : bytes :=
  take (Z.to_nat hl) p ++
  apply_keystream (cipher_key c) (compute_iv (cipher_salt c) (be32_at p 8) j) (drop (Z.to_nat hl) p).
Definition wire (c : SrtpContext) (hl j : Z) (p : bytes) : bytes :=
  wire_body c hl j p ++ tag_of (auth_key c) (wire_body c hl j p ++ to_be 4 (j / 65536)).

Lemma protect_wire c p hl last j :
  are_bytes p -> rtp_header_len p = Val (Some hl) -> 12 <= hl <= len p ->
  over_cap c (be32_at p 8) MAX_SEND_SSRCS = false ->
  protected_packets (entry c (be32_at p 8)) < packet_lifetime c ->
  send_state (entry c (be32_at p 8)) last -> next_index last j -> be16_at p 2 = wrap16 j ->
  exists st, sent st j /\
    protected_packets st = wrap64 (protected_packets (entry c (be32_at p 8)) + 1) /\
    protect c p = Val (put c (be32_at p 8) st, Ok (wire c hl j p)).
Proof.
  intros Hp Eh Hl Ho Hc S N Ej.
  destruct (update_roc_index _ last j S N) as (Hs & Hcount & Hidx).
  assert (Hroc : roc (update_roc (entry c (be32_at p 8)) (wrap16 j)) = j / 65536) by apply Hs.
  unfold protect. rewrite (proj2 (Z.ltb_ge _ _)) by lia. reads.
  rewrite Ho, (proj2 (Z.leb_gt _ _)) by done. rewrite Ej, Eh. cbn [obind].
  rewrite slice_to_val, slice_from_val by lia. cbn [obind].
  rewrite Hidx, Hcount, Hroc. eexists. split; [| split; [| done]].
  - destruct Hs as (?&?&?). by destruct (update_roc _ _).
  - by destruct (update_roc _ _).
Qed.

Lemma wire_body_len c hl j p : 0 <= hl <= len p -> len (wire_body c hl j p) = len p.
Proof.
  intros. unfold wire_body. rewrite len_app. unfold len at 2. rewrite apply_keystream_length.
  fold (len (drop (Z.to_nat hl) p)). rewrite len_take, len_drop by lia. lia.
Qed.

Lemma wire_body_head c hl j p i : 0 <= i < hl -> hl <= len p ->
  byte_at (wire_body c hl j p) i = byte_at p i.
Proof.
  intros Hi Hl. unfold wire_body. rewrite byte_at_app_l by (rewrite len_take by lia; lia).
  unfold byte_at. rewrite <- (take_drop (Z.to_nat hl) p) at 2. rewrite app_nth1; [done |].
  rewrite length_take. unfold len in Hl. lia.
Qed.

Lemma wire_len c hl j p : 0 <= hl <= len p -> len (wire c hl j p) = len p + 10.
Proof.
  intros. unfold wire. rewrite len_app, wire_body_len by done. unfold len at 2.
  rewrite tag_of_length. done.
Qed.

Lemma wire_head c hl j p i : 0 <= i < hl -> hl <= len p ->
  byte_at (wire c hl j p) i = byte_at p i.
Proof.
  intros. unfold wire. rewrite byte_at_app_l by (rewrite wire_body_len; lia).
  by apply wire_body_head.
Qed.

Lemma wire_fields c hl j p : 12 <= hl <= len p ->
  be16_at (wire c hl j p) 2 = be16_at p 2 /\ be32_at (wire c hl j p) 8 = be32_at p 8.
Proof. intros. unfold be16_at, be32_at. rewrite !wire_head by lia. done. Qed.

End sending.

(** ** End to end: protecting, losing, reordering, recovering *)

Section delivery.
Context {C : Crypto}.

Definition same_keys (s r : SrtpContext) : Prop :=
  cipher_key s = cipher_key r /\ cipher_salt s = cipher_salt r /\ auth_key s = auth_key r.

Lemma unprotect_wire s r hl j p A :
  same_keys s r -> are_bytes p -> rtp_header_len p = Val (Some hl) -> 12 <= hl <= len p ->
  be16_at p 2 = wrap16 j -> recv_ok (entry r (be32_at p 8)) A ->
  estimate_roc (entry r (be32_at p 8)) (wrap16 j) = (j / 65536, j) ->
  fresh (entry r (be32_at p 8)) A j = true ->
  over_cap r (be32_at p 8) MAX_RECV_SSRCS = false ->
  accepted_packets (entry r (be32_at p 8)) < packet_lifetime r ->
  exists st, unprotect r (wire s hl j p) = Val (put r (be32_at p 8) st, Ok p) /\
    recv_ok st ({[j]} ∪ A) /\ seq_initialized st = true /\
    highest_index st = (if seq_initialized (entry r (be32_at p 8))
                        then Z.max (highest_index (entry r (be32_at p 8))) j else wrap16 j) /\
    accepted_packets st = wrap64 (accepted_packets (entry r (be32_at p 8)) + 1).
Proof.
  intros (K1 & K2 & K3) Hp Eh Hl Ej R Est F Ho Hc.
  destruct (wire_fields s hl j p Hl) as [F2 F8].
  assert (Hlen := wire_len s hl j p ltac:(lia)). assert (Hbody := wire_body_len s hl j p ltac:(lia)).
  assert (Hb : length (wire_body s hl j p) = Z.to_nat (len p)) by (unfold len in *; lia).
  assert (T : take (Z.to_nat (len p)) (wire s hl j p) = wire_body s hl j p)
    by (unfold wire; apply take_app_length'; lia).
  assert (D : drop (Z.to_nat (len p)) (wire s hl j p)
              = tag_of (auth_key s) (wire_body s hl j p ++ to_be 4 (j / 65536)))
    by (unfold wire; apply drop_app_length'; lia).
  assert (H : rtp_header_len (wire_body s hl j p) = Val (Some hl))
    by (apply (rtp_header_len_same p); [done | done | done |]; intros; apply wire_body_head; lia).
  destruct (check_replay_accepts (entry r (be32_at p 8)) A (wrap16 j) R ltac:(mlia)
    ltac:(by rewrite Est)) as (st & Ec & Rs & Hi & Hh & Ha). rewrite Est in *. cbn [snd] in *.
  unfold unprotect, SRTP_AUTH_TAG_LEN. rewrite (proj2 (Z.ltb_ge _ _)) by lia. reads.
  rewrite Hlen, F2, F8, Ej, estimate_entry, Est. cbn [fst].
  replace (len p + 10 - 10) with (len p) by lia. rewrite T, D, K3, bool_decide_true by done.
  cbn [negb]. rewrite Ho, (proj2 (Z.leb_gt _ _)), Ec, H by done. cbn [obind].
  rewrite slice_to_val, slice_from_val by lia. cbn [obind].
  eexists. split; [do 3 f_equal |].
  - rewrite <- K1, <- K2. unfold wire_body.
    rewrite take_app_length', drop_app_length' by (rewrite length_take; unfold len in Hl; lia).
    rewrite apply_keystream_involutive. apply take_drop.
  - rewrite Ha. split; [apply recv_ok_count; [mlia | done] |].
    split_and!; by destruct st.
Qed.

(** Protecting a list of packets, and unprotecting a list of datagrams: [None]
    as soon as one is refused. *)
Fixpoint protect_all (c : SrtpContext) (ps : list bytes) : option (list bytes) :=
  match ps with
  | [] => Some []
  | p :: ps =>
      match protect c p with
      | Val (c', Ok w) => ws ← protect_all c' ps; Some (w :: ws)
      | _ => None
      end
  end.
Fixpoint unprotect_all (c : SrtpContext) (ws : list bytes) : option (list bytes) :=
  match ws with
  | [] => Some []
  | w :: ws =>
      match unprotect c w with
      | Val (c', Ok p) => ps ← unprotect_all c' ws; Some (p :: ps)
      | _ => None
      end
  end.

(** A packet of the stream [ssrc] with true index [j]. *)
Definition stream_packet (ssrc j : Z) (p : bytes) : Prop :=
  are_bytes p /\ be32_at p 8 = ssrc /\ be16_at p 2 = wrap16 j /\
  exists hl, rtp_header_len p = Val (Some hl) /\ 12 <= hl <= len p.

Fixpoint ascending (last : option Z) (js : list Z) : Prop :=
  match js with
  | [] => True
  | j :: js => next_index last j /\ ascending (Some j) js
  end.

(** The network may lose, duplicate in transit and reorder, as long as what
    reaches the receiver is new, less than 64 behind the highest index that
    reached it, and less than half the sequence space ahead. *)
Fixpoint deliverable (h : option Z) (A : gset Z) (js : list Z) : Prop :=
  match js with
  | [] => True
  | j :: js =>
      match h with
      | None => 0 <= j < 65536 /\ deliverable (Some j) {[j]} js
      | Some h => (h - 64 < j <= h + 32767 /\ 0 <= j < 281474976710656 /\ j ∉ A) /\
                  deliverable (Some (Z.max h j)) ({[j]} ∪ A) js
      end
  end.

(** The pairs of plain packet and datagram that a sender produces. *)
Definition wire_of (s : SrtpContext) (j : Z) (p w : bytes) : Prop :=
  exists hl, rtp_header_len p = Val (Some hl) /\ 12 <= hl <= len p /\ w = wire s hl j p.

Lemma over_cap_known c ssrc st cap : streams c !! ssrc = Some st -> over_cap c ssrc cap = false.
Proof. intros E. unfold over_cap. by rewrite E. Qed.

Lemma put_known c ssrc st : streams (put c ssrc st) !! ssrc = Some st.
Proof. destruct c; cbn. apply lookup_insert_eq. Qed.

Lemma wire_put s ssrc st hl j p : wire (put s ssrc st) hl j p = wire s hl j p.
Proof. by destruct s. Qed.

Lemma protect_all_wires s js ps : forall c last ssrc,
  (forall hl j p, wire c hl j p = wire s hl j p) ->
  Forall2 (stream_packet ssrc) js ps -> ascending last js ->
  send_state (entry c ssrc) last -> over_cap c ssrc MAX_SEND_SSRCS = false ->
  0 <= protected_packets (entry c ssrc) ->
  protected_packets (entry c ssrc) + len ps <= packet_lifetime c ->
  packet_lifetime c <= MAX_SRTP_PACKETS_PER_MASTER_KEY ->
  exists ws, protect_all c ps = Some ws /\
    Forall3 (fun j p w => stream_packet ssrc j p /\ wire_of s j p w) js ps ws.
Proof.
  unfold MAX_SRTP_PACKETS_PER_MASTER_KEY.
  intros c last ssrc Hw F. revert c last Hw.
  induction F as [| j p js ps Hp F IH]; intros c last Hw Hasc S Ho Hn Hlife Hmax.
  - exists []. split; [done | constructor].
  - destruct Hasc as [N Hasc]. rewrite len_cons in Hlife. pose proof (len_nonneg ps).
    assert (Hsp := Hp). destruct Hp as (Hb & <- & Ej & hl & Eh & Hhl).
    destruct (protect_wire c p hl last j Hb Eh Hhl Ho ltac:(lia) S N Ej) as (st & Hs & Hcnt & E).
    destruct (IH (put c (be32_at p 8) st) (Some j)) as (ws & E2 & G).
    + intros. rewrite wire_put. apply Hw.
    + done.
    + rewrite entry_put, bool_decide_true by done. split; [done |].
      unfold next_index in N. destruct last; lia.
    + by eapply over_cap_known, put_known.
    + rewrite entry_put, bool_decide_true by done. rewrite Hcnt. mlia.
    + rewrite entry_put, bool_decide_true by done. rewrite Hcnt.
      replace (packet_lifetime (put _ _ _)) with (packet_lifetime c) by (by destruct c). mlia.
    + by destruct c.
    + exists (wire c hl j p :: ws). cbn [protect_all]. rewrite E. cbv iota beta. rewrite E2.
      split; [done |]. constructor; [| done]. split; [done |]. exists hl. by rewrite Hw.
Qed.

(** The receiver's stream: nothing received yet, or highest index [h]. *)
Definition recv_state (st : SrtpStreamState) (h : option Z) (A : gset Z) : Prop :=
  recv_ok st A /\
  match h with
  | None => seq_initialized st = false
  | Some h => seq_initialized st = true /\ highest_index st = h
  end.

Lemma deliver_step s r ssrc h A j p w js :
  same_keys s r -> stream_packet ssrc j p -> wire_of s j p w ->
  recv_state (entry r ssrc) h A -> deliverable h A (j :: js) ->
  over_cap r ssrc MAX_RECV_SSRCS = false ->
  accepted_packets (entry r ssrc) < packet_lifetime r ->
  exists st h' A', unprotect r w = Val (put r ssrc st, Ok p) /\
    recv_state st h' A' /\ deliverable h' A' js /\
    accepted_packets st = wrap64 (accepted_packets (entry r ssrc) + 1).
Proof.
  intros K (Hb & <- & Ej & _) (hl & Eh & Hl & ->) [R Hh] D Ho Hc.
  destruct h as [h |]; cbn [deliverable] in D.
  - destruct Hh as [Hi <-]. destruct D as [(Dw & D48 & Dn) D].
    destruct (unprotect_wire s r hl j p A K Hb Eh Hl Ej R) as (st & E & R' & Hi' & Hh' & Ha).
    + apply estimate_exact; [apply R | done | lia | lia].
    + unfold fresh, fresh_index. rewrite Hi, bool_decide_true by done.
      rewrite (proj2 (Z.ltb_lt _ _)) by lia. done.
    + done.
    + done.
    + rewrite Hi in Hh'. by exists st, (Some (Z.max (highest_index (entry r (be32_at p 8))) j)),
        ({[j]} ∪ A).
  - destruct D as [Dj D].
    assert (wrap16 j = j) as Ew by mlia. assert (j / 65536 = 0) as Er by mlia.
    destruct (unprotect_wire s r hl j p A K Hb Eh Hl Ej R) as (st & E & R' & Hi' & Hh' & Ha).
    + unfold estimate_roc. rewrite Hh, Ew, Er. done.
    + unfold fresh. by rewrite Hh.
    + done.
    + done.
    + exists st, (Some j), {[j]}. destruct R as [_ R]. rewrite Hh in *. destruct R as [_ ->].
      rewrite union_empty_r_L in R'. split_and!; try done. split; [done |]. by rewrite Hh', Ew.
Qed.

Lemma unprotect_all_wires s ssrc js ps ws :
  Forall3 (fun j p w => stream_packet ssrc j p /\ wire_of s j p w) js ps ws ->
  forall r h A, same_keys s r -> recv_state (entry r ssrc) h A -> deliverable h A js ->
  over_cap r ssrc MAX_RECV_SSRCS = false -> 0 <= accepted_packets (entry r ssrc) ->
  accepted_packets (entry r ssrc) + len ps <= packet_lifetime r ->
  packet_lifetime r <= MAX_SRTP_PACKETS_PER_MASTER_KEY ->
  unprotect_all r ws = Some ps.
Proof.
  unfold MAX_SRTP_PACKETS_PER_MASTER_KEY.
  induction 1 as [| j p w js ps ws [Hp Hw] F IH]; intros r h A K R D Ho Hn Hlife Hmax; [done |].
  rewrite len_cons in Hlife. pose proof (len_nonneg ps).
  destruct (deliver_step s r ssrc h A j p w js K Hp Hw R D Ho ltac:(lia))
    as (st & h' & A' & E & R' & D' & Ha).
  cbn [unprotect_all]. rewrite E. cbv iota beta. rewrite (IH (put r ssrc st) h' A').
  - done.
  - destruct r; done.
  - by rewrite entry_put, bool_decide_true by done.
  - done.
  - by eapply over_cap_known, put_known.
  - rewrite entry_put, bool_decide_true, Ha by done. mlia.
  - rewrite entry_put, bool_decide_true, Ha by done. destruct r; cbn in *. mlia.
  - by destruct r.
Qed.

Lemma Forall3_omap {X Y W} (P : X -> Y -> W -> Prop) xs ys zs (order : list nat) :
  Forall3 P xs ys zs ->
  Forall3 P (omap (xs !!.) order) (omap (ys !!.) order) (omap (zs !!.) order).
Proof.
  intros F. pose proof (Forall3_length_lm _ _ _ _ F). pose proof (Forall3_length_lr _ _ _ _ F).
  induction order as [| k order IH]; [constructor |]. cbn.
  destruct (xs !! k) as [x |] eqn:Ex.
  - destruct (lookup_lt_is_Some_2 ys k) as [y Ey]; [apply lookup_lt_Some in Ex; lia |].
    destruct (lookup_lt_is_Some_2 zs k) as [z Ez]; [apply lookup_lt_Some in Ex; lia |].
    rewrite Ey, Ez. constructor; [| done]. exact (Forall3_lookup_lmr P _ _ _ _ _ _ _ F Ex Ey Ez).
  - apply lookup_ge_None in Ex.
    rewrite (lookup_ge_None_2 ys k), (lookup_ge_None_2 zs k) by lia. done.
Qed.

Lemma fresh_entry c ssrc : streams c = ∅ -> entry c ssrc = default_stream.
Proof. intros E. unfold entry. by rewrite E, lookup_empty. Qed.

Lemma fresh_over_cap c ssrc : streams c = ∅ -> over_cap c ssrc 64 = false.
Proof. intros E. unfold over_cap. by rewrite E, map_size_empty, andb_false_r. Qed.

(** C1: SRTP end to end, through rollovers of the 16-bit sequence number.  A
    sender protects a stream of packets whose true indices ascend by less than
    half the sequence space; the network delivers any of the datagrams in any
    order in which each one is new, less than 64 behind the highest delivered
    index and less than half the sequence space ahead.  Then every packet is
    protected, every delivered datagram is accepted, and the receiver obtains
    exactly the packets that were sent. *)
Theorem protected_stream_delivered s r ssrc js ps order
  (fresh_sender : streams s = ∅) (fresh_receiver : streams r = ∅) (keys : same_keys s r)
  (packets : Forall2 (stream_packet ssrc) js ps) (indices : ascending None js)
  (network : deliverable None ∅ (omap (js !!.) order))
  (send_life : len ps <= packet_lifetime s <= MAX_SRTP_PACKETS_PER_MASTER_KEY)
  (recv_life : len order <= packet_lifetime r <= MAX_SRTP_PACKETS_PER_MASTER_KEY) :
  exists ws, protect_all s ps = Some ws /\
    unprotect_all r (omap (ws !!.) order) = Some (omap (ps !!.) order).
Proof.
  destruct (protect_all_wires s js ps s None ssrc) as (ws & E & F);
    rewrite ?fresh_entry by done; try done; try (cbn; lia);
    [exact (fresh_over_cap s ssrc fresh_sender) |].
  exists ws. split; [done |].
  eapply (unprotect_all_wires s ssrc _ _ _ (Forall3_omap _ _ _ _ order F) r None ∅);
    rewrite ?fresh_entry by done; try done; try (cbn; lia).
  - exact (fresh_over_cap r ssrc fresh_receiver).
  - assert (L : len (omap (ps !!.) order) <= len order).
    { clear. unfold len. induction order as [| k o IH]; [done |]. cbn.
      destruct (ps !! k); cbn in *; lia. }
    cbn. lia.
Qed.

(** ** No keystream is used twice *)

Lemma protect_val c p : are_bytes p -> exists c' r, protect c p = Val (c', r).
Proof.
  intros Hp. unfold protect. destruct (Z.ltb_spec (len p) 12); [by do 2 eexists |]. reads.
  destruct (over_cap _ _ _); [by do 2 eexists |]. cbn zeta. split_if; [by do 2 eexists |].
  destruct (rtp_header_len_val p Hp) as [-> | (l & -> & Hl)]; cbn [obind]; [by do 2 eexists |].
  rewrite slice_to_val, slice_from_val by lia. by do 2 eexists.
Qed.

Lemma protect_ok_inv c p c' w :
  are_bytes p -> protect c p = Val (c', Ok w) ->
  12 <= len p /\ over_cap c (be32_at p 8) MAX_SEND_SSRCS = false /\
  protected_packets (entry c (be32_at p 8)) < packet_lifetime c /\
  c' = put c (be32_at p 8)
        (let st := update_roc (entry c (be32_at p 8)) (be16_at p 2) in
         st {{ protected_packets := wrap64 (protected_packets st + 1) }}).
Proof.
  intros Hp. unfold protect. destruct (Z.ltb_spec (len p) 12); [done |]. reads.
  destruct (over_cap _ _ _); [done |].
  destruct (Z.leb_spec (packet_lifetime c) (protected_packets (entry c (be32_at p 8)))); [done |].
  destruct (rtp_header_len_val p Hp) as [-> | (l & -> & Hl)]; cbn [obind]; [done |].
  rewrite slice_to_val, slice_from_val by lia. cbn [obind]. by intros [= <- <-].
Qed.

(** The IVs under which a context encrypts; it goes on after a refusal. *)
Fixpoint ivs_used (c : SrtpContext) (ps : list bytes) : list bytes :=
  match ps with
  | [] => []
  | p :: ps =>
      match protect c p with
      | Val (c', Ok _) =>
          compute_iv (cipher_salt c) (be32_at p 8)
            (Z.lor (Z.shiftl (roc (entry c' (be32_at p 8))) 16) (be16_at p 2))
          :: ivs_used c' ps
      | Val (c', Err _) => ivs_used c' ps
      | Panic => []
      end
  end.

(** Packets of any number of streams, interleaved; in each stream the true
    indices ascend by less than half the sequence space.  What is too short to
    have a sequence number is anything. *)
Definition set_last (last : Z -> option Z) (ssrc j : Z) : Z -> option Z :=
  fun s => if bool_decide (s = ssrc) then Some j else last s.
Fixpoint interleaved (last : Z -> option Z) (l : list (Z * bytes)) : Prop :=
  match l with
  | [] => True
  | (j, p) :: l =>
      are_bytes p /\
      if len p <? 12 then interleaved last l
      else be16_at p 2 = wrap16 j /\ next_index (last (be32_at p 8)) j /\
           interleaved (set_last last (be32_at p 8) j) l
  end.

Definition beyond (last : option Z) (j : Z) : Prop :=
  0 <= j < 281474976710656 /\ match last with Some i => i < j | None => True end.

Lemma next_beyond last j : next_index last j -> beyond last j.
Proof. unfold next_index, beyond. destruct last; lia. Qed.
Lemma beyond_set last j p s i :
  beyond (last (be32_at p 8)) j -> beyond (set_last last (be32_at p 8) j s) i -> beyond (last s) i.
Proof.
  intros [_ Hlast] [Hi Hlt]. split; [done |]. unfold set_last in Hlt.
  case_bool_decide; [subst | done]. destruct (last (be32_at p 8)); lia.
Qed.

(** A stream for which nothing will be encrypted any more. *)
Definition blocked (c : SrtpContext) (ssrc : Z) : Prop :=
  over_cap c ssrc MAX_SEND_SSRCS = true \/ packet_lifetime c <= protected_packets (entry c ssrc).

Lemma blocked_put c ssrc st s :
  over_cap c ssrc MAX_SEND_SSRCS = false ->
  (packet_lifetime c <= protected_packets (entry c ssrc) -> protected_packets st = protected_packets (entry c ssrc)) ->
  blocked c s -> blocked (put c ssrc st) s.
Proof.
  unfold blocked. intros O Hst. rewrite entry_put.
  replace (packet_lifetime (put c ssrc st)) with (packet_lifetime c) by (by destruct c). case_bool_decide as Es.
  - subst s. rewrite O. intros [? | L]; [done |]. right. by rewrite Hst.
  - intros [Os | L]; [left | by right]. revert O Os. unfold over_cap, put. destruct c as [k sl ak m l]; cbn.
    rewrite lookup_insert_ne by done. destruct (m !! ssrc) as [x |] eqn:Em.
    + by rewrite map_size_insert_Some by (by eexists).
    + rewrite bool_decide_true by done. cbn. intros -> F. by rewrite andb_false_r in F.
Qed.

(** What protecting a packet does to its stream, refused or not. *)
Lemma protect_effect c p c' r :
  are_bytes p -> protect c p = Val (c', r) ->
  cipher_salt c' = cipher_salt c /\ (forall s, blocked c s -> blocked c' s) /\
  (forall s, s <> be32_at p 8 -> entry c' s = entry c s) /\
  ((len p < 12 /\ c' = c \/ 12 <= len p /\ blocked c (be32_at p 8)) /\ (exists e, r = Err e) \/
   12 <= len p /\ forall j,
     sent (update_roc (entry c (be32_at p 8)) (be16_at p 2)) j -> sent (entry c' (be32_at p 8)) j).
Proof.
  intros Hp. unfold protect. destruct (Z.ltb_spec (len p) 12).
  { intros [= <- <-]. split_and!; try done. left. split; [auto | by eexists]. }
  reads. destruct (over_cap c (be32_at p 8) MAX_SEND_SSRCS) eqn:O.
  { intros [= <- <-]. split_and!; try done. left. split; [right; split; [done | by left] | by eexists]. }
  assert (P : forall st, (packet_lifetime c <= protected_packets (entry c (be32_at p 8)) ->
      protected_packets st = protected_packets (entry c (be32_at p 8))) ->
    cipher_salt (put c (be32_at p 8) st) = cipher_salt c /\
    (forall s, blocked c s -> blocked (put c (be32_at p 8) st) s) /\
    (forall s, s <> be32_at p 8 -> entry (put c (be32_at p 8) st) s = entry c s)).
  { intros st Hst. split; [by destruct c |]. split; [intros s; by apply blocked_put |].
    intros s Hs. by rewrite entry_put, bool_decide_false. }
  destruct (Z.leb_spec (packet_lifetime c) (protected_packets (entry c (be32_at p 8)))) as [L | L].
  { intros [= <- <-]. destruct (P (entry c (be32_at p 8))) as (P1 & P2 & P3); [done |]. split_and!; auto.
    left. split; [right; split; [done | by right] | by eexists]. }
  destruct (rtp_header_len_val p Hp) as [-> | (hl & -> & Hl)]; cbn [obind];
    [| rewrite slice_to_val, slice_from_val by lia; cbn [obind]]; intros [= <- <-];
    (edestruct P as (P1 & P2 & P3); [| split_and!; [exact P1 | exact P2 | exact P3 |]]; [lia |]); right;
    (split; [done |]); intros j Hj; rewrite entry_put, bool_decide_true by done; [done |].
  destruct Hj as (? & ? & ?). by destruct (update_roc _ _).
Qed.

(** Every stream is at its last index or will encrypt nothing. *)
Definition tracked (c : SrtpContext) (last : Z -> option Z) : Prop :=
  forall ssrc, send_state (entry c ssrc) (last ssrc) \/ blocked c ssrc.

Lemma protect_tracked c p c' r last j :
  are_bytes p -> protect c p = Val (c', r) -> tracked c last -> 12 <= len p ->
  be16_at p 2 = wrap16 j -> next_index (last (be32_at p 8)) j -> tracked c' (set_last last (be32_at p 8) j).
Proof.
  intros Hp E T Hl Ej N s. destruct (protect_effect c p c' r Hp E) as (_ & B & O & X).
  destruct (T s) as [S | S]; [| right; auto]. unfold set_last. case_bool_decide as Es.
  - subst s. destruct X as [[[[? _] | [_ X]] _] | [_ X]]; [lia | right; auto |]. left.
    split; [| by apply next_beyond in N as [? _]; lia]. apply X. rewrite Ej.
    by destruct (update_roc_index _ _ _ S N).
  - left. by rewrite O.
Qed.

Lemma ivs_used_distinct l : forall c last,
  length (cipher_salt c) = 14%nat -> interleaved last l -> tracked c last ->
  NoDup (ivs_used c l.*2) /\
  forall iv, iv ∈ ivs_used c l.*2 -> exists ssrc j, is_u32 ssrc /\ beyond (last ssrc) j /\
    iv = compute_iv (cipher_salt c) ssrc j.
Proof.
  induction l as [| [j p] l IH]; intros c last Hsalt Hl T; cbn [fmap list_fmap snd ivs_used].
  { split; [constructor | intros iv H; by apply elem_of_nil in H]. }
  destruct Hl as [Hb Hl]. destruct (protect_val c p Hb) as (c' & r & E). rewrite E.
  destruct (protect_effect c p c' r Hb E) as (Hkeys & _ & _ & X).
  destruct (Z.ltb_spec (len p) 12) as [Hs | Hs].
  { destruct X as [[[[_ ->] | [? _]] [e ->]] | [? _]]; [by apply IH | lia ..]. }
  destruct Hl as (Ej & N & Hl). pose proof (next_beyond _ _ N) as Hbey.
  destruct (IH c' (set_last last (be32_at p 8) j)) as [ND Hall];
    [by rewrite Hkeys | done | by eapply protect_tracked |].
  assert (Hall' : forall iv, iv ∈ ivs_used c' l.*2 -> exists ssrc i, is_u32 ssrc /\ beyond (last ssrc) i /\
    iv = compute_iv (cipher_salt c) ssrc i).
  { intros iv (s & i & Hsu & Hi & ->)%Hall. rewrite Hkeys. exists s, i. eauto using beyond_set. }
  destruct r as [w | e]; [| done].
  destruct (protect_ok_inv c p c' w Hb E) as (_ & Ho & Hc & Ec).
  destruct (T (be32_at p 8)) as [S | [S | S]]; [| congruence | lia].
  destruct (update_roc_index _ _ _ S N) as (_ & _ & Ei). rewrite <- Ej in Ei.
  assert (roc (entry c' (be32_at p 8)) = roc (update_roc (entry c (be32_at p 8)) (be16_at p 2))) as ->.
  { rewrite Ec, entry_put, bool_decide_true by done. by destruct (update_roc _ _). }
  rewrite Ei. pose proof (be32_at_u32 p 8 Hb) as Hu. assert (HB := Hbey). destruct HB as [Hj _]. split.
  - constructor; [| done]. intros Hin. destruct (Hall _ Hin) as (s & i & Hsu & [Hi Hlt] & Eiv). rewrite Hkeys in Eiv.
    destruct (compute_iv_inj _ _ _ _ _ Hsalt Hu Hsu Hj Hi Eiv) as [<- <-].
    unfold set_last in Hlt. rewrite bool_decide_true in Hlt by done. lia.
  - intros iv [-> | Hin]%elem_of_cons; [by exists (be32_at p 8), j | auto].
Qed.


End delivery.

(** ** Key lifetime and table bounds *)

Section lifetime.
Context {C : Crypto}.

Inductive call := Protect (p : bytes) | Unprotect (p : bytes).
Definition packet_of (o : call) : bytes := match o with Protect p | Unprotect p => p end.
Definition invoke (c : SrtpContext) (o : call) : outcome (SrtpContext * result srtp_error bytes) :=
  match o with Protect p => protect c p | Unprotect p => unprotect c p end.

(** The context after a run of calls, and the calls that succeeded. *)
Fixpoint calls (c : SrtpContext) (os : list call) : outcome (SrtpContext * list call) :=
  match os with
  | [] => Val (c, [])
  | o :: os =>
      let! cr := invoke c o in
      let! r := calls cr.1 os in
      Val (r.1, match cr.2 with Ok _ => o :: r.2 | Err _ => r.2 end)
  end.

Definition sent_on (ssrc : Z) (o : call) : Prop :=
  match o with Protect p => be32_at p 8 = ssrc | Unprotect _ => False end.
Definition received_on (ssrc : Z) (o : call) : Prop :=
  match o with Protect _ => False | Unprotect p => be32_at p 8 = ssrc end.
#[global] Instance sent_on_dec ssrc o : Decision (sent_on ssrc o).
Proof. destruct o; cbn; apply _. Defined.
#[global] Instance received_on_dec ssrc o : Decision (received_on ssrc o).
Proof. destruct o; cbn; apply _. Defined.

(** Counters within the lifetime, at most 64 streams. *)
Definition bounded (c : SrtpContext) : Prop :=
  0 <= packet_lifetime c <= MAX_SRTP_PACKETS_PER_MASTER_KEY /\
  Z.of_nat (size (streams c)) <= 64 /\
  forall ssrc, 0 <= protected_packets (entry c ssrc) <= packet_lifetime c /\
               0 <= accepted_packets (entry c ssrc) <= packet_lifetime c.

Lemma size_put c ssrc st :
  over_cap c ssrc 64 = false -> Z.of_nat (size (streams c)) <= 64 ->
  Z.of_nat (size (streams (put c ssrc st))) <= 64.
Proof.
  unfold over_cap. intros O Hs. destruct c as [k s a m l]; cbn in *.
  destruct (m !! ssrc) as [x |] eqn:E.
  - rewrite map_size_insert_Some; [done | by rewrite E].
  - rewrite map_size_insert_None by done. rewrite bool_decide_true in O by done.
    cbn [andb] in O. bool_prop. lia.
Qed.

Lemma bounded_put c ssrc st :
  bounded c -> over_cap c ssrc 64 = false ->
  0 <= protected_packets st <= packet_lifetime c -> 0 <= accepted_packets st <= packet_lifetime c ->
  bounded (put c ssrc st).
Proof.
  intros (H1 & H2 & H3) O Hp Ha.
  assert (L : packet_lifetime (put c ssrc st) = packet_lifetime c) by (by destruct c).
  split; [by rewrite L |]. split; [by apply size_put |].
  intros s. rewrite L, entry_put. case_bool_decide; [by split | apply H3].
Qed.

Lemma update_roc_counts st seq :
  protected_packets (update_roc st seq) = protected_packets st /\
  accepted_packets (update_roc st seq) = accepted_packets st.
Proof. unfold update_roc. split_ifs; by destruct st. Qed.

Lemma check_replay_counts st seq :
  protected_packets (check_replay st seq).1 = protected_packets st /\
  accepted_packets (check_replay st seq).1 = accepted_packets st.
Proof.
  unfold check_replay. destruct (estimate_roc st seq). split_ifs; by destruct st.
Qed.

(** One successful call counts once, on its own stream; a refused one does not. *)
Definition counted (c c' : SrtpContext) (o : call) (ok : bool) : Prop :=
  forall ssrc,
  protected_packets (entry c' ssrc) = protected_packets (entry c ssrc)
    + (if ok && bool_decide (sent_on ssrc o) then 1 else 0) /\
  accepted_packets (entry c' ssrc) = accepted_packets (entry c ssrc)
    + (if ok && bool_decide (received_on ssrc o) then 1 else 0).

Lemma counted_put_refused c ssrc st o :
  protected_packets st = protected_packets (entry c ssrc) ->
  accepted_packets st = accepted_packets (entry c ssrc) -> counted c (put c ssrc st) o false.
Proof. intros H1 H2 s. rewrite entry_put. cbn [andb]. case_bool_decide; subst; lia. Qed.

Lemma protect_bounded c p :
  are_bytes p -> bounded c -> exists c' r, protect c p = Val (c', r) /\ bounded c' /\
    packet_lifetime c' = packet_lifetime c /\
    counted c c' (Protect p) (match r with Ok _ => true | Err _ => false end).
Proof.
  intros Hp B. assert (B0 := B). destruct B0 as ((L0 & L1) & _ & B3).
  specialize (B3 (be32_at p 8)). unfold MAX_SRTP_PACKETS_PER_MASTER_KEY in L1.
  assert (Hself : counted c c (Protect p) false) by (intros s; cbn; lia).
  unfold protect. destruct (Z.ltb_spec (len p) 12); [by do 2 eexists |]. reads.
  destruct (over_cap _ _ _) eqn:O; [by do 2 eexists |]. unfold MAX_SEND_SSRCS in O.
  destruct (update_roc_counts (entry c (be32_at p 8)) (be16_at p 2)) as [U1 U2].
  set (st := update_roc _ _) in *.
  destruct (Z.leb_spec (packet_lifetime c) (protected_packets (entry c (be32_at p 8)))).
  { do 2 eexists. split; [done |]. split; [apply bounded_put; [done | done | apply B3 | apply B3] |].
    split; [by destruct c | by apply counted_put_refused]. }
  destruct (rtp_header_len_val p Hp) as [-> | (l & -> & Hl)]; cbn [obind].
  { do 2 eexists. split; [done |]. split; [apply bounded_put; rewrite ?U1, ?U2; [done | done | apply B3 | apply B3] |].
    split; [by destruct c | by apply counted_put_refused]. }
  rewrite slice_to_val, slice_from_val by lia. cbn [obind]. do 2 eexists. split; [done |].
  assert (W : wrap64 (protected_packets st + 1) = protected_packets (entry c (be32_at p 8)) + 1)
    by (rewrite U1; mlia).
  split; [apply bounded_put; [done | done | |]; destruct st; cbn in *; lia |].
  split; [by destruct c |]. intros s. rewrite entry_put. cbn [andb]. unfold sent_on, received_on.
  rewrite (bool_decide_false False) by tauto.
  repeat case_bool_decide; subst; try done; destruct st; cbn in *; lia.
Qed.

Lemma unprotect_bounded c p :
  are_bytes p -> bounded c -> exists c' r, unprotect c p = Val (c', r) /\ bounded c' /\
    packet_lifetime c' = packet_lifetime c /\
    counted c c' (Unprotect p) (match r with Ok _ => true | Err _ => false end).
Proof.
  intros Hp B. assert (B0 := B). destruct B0 as ((L0 & L1) & _ & B3).
  unfold MAX_SRTP_PACKETS_PER_MASTER_KEY in L1.
  assert (Hself : forall e : srtp_error, counted c c (Unprotect p) false) by (intros _ s; cbn; lia).
  destruct (unprotect_cases c p Hp) as (c' & r & E & U). exists c', r. split; [done |].
  destruct U as [e He | ssrc Ha Es Ho Hl | ssrc st e Ha Es Ho R | ssrc st ri Ha Es Ho R
    | ssrc st r i hl Ha Es Ho Hc R portion Eh Hl]; [by auto | ..]; specialize (B3 ssrc).
  - split; [apply bounded_put; [done | done | apply B3 | apply B3] |]. split; [by destruct c | by apply counted_put_refused].
  - destruct (check_replay_counts (entry c ssrc) (be16_at p 2)) as [U1 U2]. rewrite R in *. cbn in *.
    split; [apply bounded_put; rewrite ?U1, ?U2; [done | done | apply B3 | apply B3] |].
    split; [by destruct c | by apply counted_put_refused].
  - destruct (check_replay_counts (entry c ssrc) (be16_at p 2)) as [U1 U2]. rewrite R in *. cbn in *.
    split; [apply bounded_put; rewrite ?U1, ?U2; [done | done | apply B3 | apply B3] |].
    split; [by destruct c | by apply counted_put_refused].
  - destruct (check_replay_counts (entry c ssrc) (be16_at p 2)) as [U1 U2]. rewrite R in *.
    cbn [fst] in *.
    assert (W : wrap64 (accepted_packets st + 1) = accepted_packets (entry c ssrc) + 1)
      by (rewrite U2; mlia).
    split; [apply bounded_put; [done | done | |]; destruct st; cbn in *; lia |].
    split; [by destruct c |]. intros s. rewrite entry_put. cbn [andb]. unfold sent_on, received_on.
    rewrite (bool_decide_false False) by tauto.
    repeat case_bool_decide; subst; try done; destruct st; cbn in *; lia.
Qed.

Lemma calls_bounded os : forall c,
  Forall (fun o => are_bytes (packet_of o)) os -> bounded c ->
  exists c' oks, calls c os = Val (c', oks) /\ bounded c' /\
    packet_lifetime c' = packet_lifetime c /\
    forall ssrc,
    protected_packets (entry c' ssrc)
      = protected_packets (entry c ssrc) + len (filter (sent_on ssrc) oks) /\
    accepted_packets (entry c' ssrc)
      = accepted_packets (entry c ssrc) + len (filter (received_on ssrc) oks).
Proof.
  induction os as [| o os IH]; intros c F B.
  { exists c, []. split; [done |]. split; [done |]. split; [done |]. intros ssrc. cbn.
    rewrite !len_nil. lia. }
  apply Forall_cons in F as [Hp F].
  assert (S : exists c1 r, invoke c o = Val (c1, r) /\ bounded c1 /\
    packet_lifetime c1 = packet_lifetime c /\
    counted c c1 o (match r with Ok _ => true | Err _ => false end))
    by (destruct o; [by apply protect_bounded | by apply unprotect_bounded]).
  destruct S as (c1 & r & E & B1 & L1 & K). destruct (IH c1 F B1) as (c' & oks & E' & B' & L' & K').
  exists c', (match r with Ok _ => o :: oks | Err _ => oks end).
  cbn [calls]. rewrite E. cbn [obind fst snd]. rewrite E'. cbn [obind fst snd].
  split; [by destruct r |]. split; [done |]. split; [congruence |].
  intros ssrc. specialize (K ssrc). destruct (K' ssrc) as [-> ->]. destruct K as [-> ->].
  destruct r; cbn [andb]; [| lia]. rewrite !filter_cons.
  split; case_bool_decide as Hd; [rewrite decide_True | rewrite decide_False
    | rewrite decide_True | rewrite decide_False]; rewrite ?len_cons; try done; lia.
Qed.

(** C18: key lifetime (RFC 3711): whatever packets a context is asked to protect
    and unprotect, it never panics, keeps state for at most 64 streams, and on
    each stream no more packets succeed, in either direction, than the
    negotiated lifetime allows. *)
Theorem key_limits_enforced c os
  (fresh_context : streams c = ∅)
  (lifetime : 0 <= packet_lifetime c <= MAX_SRTP_PACKETS_PER_MASTER_KEY)
  (Hos : Forall (fun o => are_bytes (packet_of o)) os) :
  exists c' oks, calls c os = Val (c', oks) /\
    Z.of_nat (size (streams c')) <= 64 /\
    forall ssrc, len (filter (sent_on ssrc) oks) <= packet_lifetime c /\
                 len (filter (received_on ssrc) oks) <= packet_lifetime c.
Proof.
  assert (B : bounded c).
  { split; [done |]. split; [rewrite fresh_context, map_size_empty; lia |].
    intros ssrc. rewrite fresh_entry by done. cbn. lia. }
  destruct (calls_bounded os c Hos B) as (c' & oks & E & (_ & Hs & Hb) & L & K).
  exists c', oks. split; [done |]. split; [done |]. intros ssrc.
  specialize (Hb ssrc). specialize (K ssrc). rewrite L in Hb.
  rewrite (fresh_entry c) in K by done.
  cbn in K. lia.
Qed.

(** An SDES key gives a context iff its lifetime is in range and it decodes
    to 30 bytes; the session keys then have the lengths the ciphers need and no
    stream has any state. *)
Theorem from_sdes_key_spec key lifetime (Hl : 0 <= lifetime) :
  match from_sdes_key_with_lifetime key lifetime with
  | Ok c =>
      1 <= lifetime <= MAX_SRTP_PACKETS_PER_MASTER_KEY /\
      (exists m, base64_decode key = Some m /\ len m = 30) /\
      length (cipher_key c) = 16%nat /\ length (cipher_salt c) = 14%nat /\
      length (auth_key c) = 20%nat /\ streams c = ∅ /\ packet_lifetime c = lifetime
  | Err BadLifetime => lifetime = 0 \/ MAX_SRTP_PACKETS_PER_MASTER_KEY < lifetime
  | Err BadBase64 => base64_decode key = None
  | Err BadKeyLength => exists m, base64_decode key = Some m /\ len m <> 30
  | Err _ => False
  end.
Proof.
  unfold from_sdes_key_with_lifetime.
  destruct (Z.eqb_spec lifetime 0); cbn [orb]; [by left |].
  destruct (Z.ltb_spec MAX_SRTP_PACKETS_PER_MASTER_KEY lifetime); [by right |].
  destruct (base64_decode key) as [m |] eqn:E; [| done].
  change (SRTP_MASTER_KEY_LEN + SRTP_MASTER_SALT_LEN) with 30.
  destruct (Z.eqb_spec (len m) 30); cbn [negb]; [| by exists m].
  cbn [cipher_key cipher_salt auth_key streams packet_lifetime]. rewrite !srtp_kdf_length. split_and!; try done; try lia; by exists m.
Qed.

End lifetime.

(** ** Concrete instances of the theorems *)

Module Examples.
#[local] Existing Instance sample_crypto.

Definition key : bytes := seqZ 1 30.
Definition context : SrtpContext :=
  match from_sdes_key key with Ok c => c | Err _ => mkContext [] [] [] ∅ 0 end.
(** A packet of SSRC 7 with index [j] and a payload. *)
Definition packet (j : Z) (payload : bytes) : bytes :=
  [128; 0] ++ to_be 2 j ++ [0; 0; 0; 1; 0; 0; 0; 7] ++ payload.
Definition plain : list bytes :=
  [packet 65534 [1; 2; 3]; packet 65535 [4]; packet 65536 [5; 6]; packet 65538 []].
Definition sealed : list bytes := default [] (protect_all context plain).

Lemma bytes_check l : forallb (fun b => (0 <=? b) && (b <? 256)) l = true -> are_bytes l.
Proof.
  intros E. apply List.Forall_forall. intros x Hx. rewrite forallb_forall in E.
  specialize (E x Hx). apply andb_true_iff in E. unfold is_u8. lia.
Qed.

End Examples.
Import Examples.

(** A sealed packet is accepted; with one bit of the tag changed it is not. *)
Lemma only_authentic_packets_matter_witness :
  exists c' r, unprotect (C := sample_crypto) context (nth 0 sealed []) = Val (c', r) /\
    r = Ok (packet 65534 [1; 2; 3]) /\
    authenticated (C := sample_crypto) context (nth 0 sealed []).
Proof.
  destruct (only_authentic_packets_matter (C := sample_crypto) context (nth 0 sealed []))
    as (c' & r & E & H); [by apply bytes_check; vm_compute |].
  assert (R : r = Ok (packet 65534 [1; 2; 3])).
  { assert (unprotect (C := sample_crypto) context (nth 0 sealed []) =
      Val (put context 7 (mkStream 0 65534 true 1 0 1), Ok (packet 65534 [1; 2; 3])))
      as E' by (by vm_compute). rewrite E in E'. by injection E'. }
  exists c', r. split; [exact E |]. split; [exact R |]. apply H. right. by exists (packet 65534 [1; 2; 3]).
Defined.

(** Four sealed packets, two of them replayed. *)
Lemma no_index_accepted_twice_witness :
  let ps := sealed ++ [nth 1 sealed []; nth 3 sealed []] in
  length (accepted (C := sample_crypto) context ps) = 4%nat /\
  NoDup (accepted (C := sample_crypto) context ps).
Proof.
  intros ps. split; [by vm_compute |].
  apply (no_index_accepted_twice (C := sample_crypto)); [by vm_compute |].
  repeat (apply Forall_cons; split; [by apply bytes_check; vm_compute |]). constructor.
Defined.

(** Across the rollover the third packet overtakes the second; the last is lost. *)
Lemma protected_stream_delivered_witness :
  exists ws, protect_all (C := sample_crypto) context plain = Some ws /\
    unprotect_all (C := sample_crypto) context (omap (ws !!.) [0; 2; 1]%nat)
      = Some [packet 65534 [1; 2; 3]; packet 65536 [5; 6]; packet 65535 [4]].
Proof.
  destruct (protected_stream_delivered (C := sample_crypto) context context 7
    [65534; 65535; 65536; 65538] plain [0; 2; 1]%nat) as (ws & E & H).
  - by vm_compute.
  - by vm_compute.
  - done.
  - do 4 (constructor; [split; [by apply bytes_check; vm_compute |]; split; [by vm_compute |];
      split; [by vm_compute |]; exists 12; split; [by vm_compute | split; by vm_compute] |]).
    constructor.
  - cbn. lia.
  - cbn. split; [lia |]. split; [split; [lia |]; split; [lia |]; set_solver |].
    split; [split; [lia |]; split; [lia |] | done].
    rewrite elem_of_union, !elem_of_singleton. lia.
  - split; by vm_compute.
  - split; by vm_compute.
  - exists ws. split; [exact E | exact H].
Defined.


(** With a lifetime of two, two of four packets are sent. *)
Lemma key_limits_enforced_witness :
  exists c' oks, calls (C := sample_crypto) (tighten_packet_lifetime context 2) (Protect <$> plain)
    = Val (c', oks) /\ len (filter (sent_on 7) oks) <= 2.
Proof.
  destruct (key_limits_enforced (C := sample_crypto) (tighten_packet_lifetime context 2)
    (Protect <$> plain)) as (c' & oks & E & _ & H).
  - by vm_compute.
  - split; by vm_compute.
  - repeat (apply Forall_cons; split; [by apply bytes_check; vm_compute |]). constructor.
  - exists c', oks. split; [exact E | apply (H 7)].
Defined.

Lemma from_sdes_key_spec_witness :
  match from_sdes_key_with_lifetime (C := sample_crypto) key 5 with
  | Ok c => packet_lifetime c = 5
  | Err _ => False
  end.
Proof.
  pose proof (from_sdes_key_spec (C := sample_crypto) key 5 ltac:(lia)) as H.
  destruct (from_sdes_key_with_lifetime (C := sample_crypto) key 5) as [c | e] eqn:E; [tauto |].
  by vm_compute in E.
Defined.

End Srtp.
