(* ===== verification/Srtcp.v ===== *)
(** SRTCP ([media/srtp.rs], [SrtcpContext]): the explicit 31-bit index, the
    per-sender replay window, [protect_rtcp] and [unprotect_rtcp], with the
    uniqueness of the indices a context sends and the end-to-end delivery
    theorem. *)

From S2P Require Import Prelude SrtpBase.

Module Srtcp.

Record SrtcpRecvState := mkRecv {
  highest_recv_index : Z;
  recv_index_initialized : bool;
  replay_window : Z;
  accepted_packets : Z;
}.

Definition default_recv : SrtcpRecvState := mkRecv 0 false 0 0.

Definition check_replay (st : SrtcpRecvState) (index : Z)
    : SrtcpRecvState * result srtp_error unit :=
  if negb (recv_index_initialized st) then
    (st {{ highest_recv_index := index; recv_index_initialized := true; replay_window := 1 }}, Ok tt)
  else if highest_recv_index st <? index then
    (st {{ replay_window := window_advance (replay_window st) (index - highest_recv_index st);
           highest_recv_index := index }}, Ok tt)
  else
    let delta := highest_recv_index st - index in
    if 64 <=? delta then (st, Err ReplayTooOld)
    else if window_seen (replay_window st) delta then (st, Err ReplayDuplicate)
    else (st {{ replay_window := window_mark (replay_window st) delta }}, Ok tt).

Record SrtcpContext := mkContext {
  cipher_key : bytes;
  cipher_salt : bytes;
  auth_key : bytes;
  srtcp_index : Z;
  recv_streams : gmap Z SrtcpRecvState;
  send_streams : gmap Z Z;
  protected_packets_total : Z;
  packet_lifetime : Z;
}.

Definition tighten_packet_lifetime (c : SrtcpContext) (l : Z) : SrtcpContext :=
  c {{ packet_lifetime := Z.min l MAX_SRTCP_PACKETS_PER_MASTER_KEY }}.

Definition recv_entry (c : SrtcpContext) (ssrc : Z) : SrtcpRecvState :=
  default default_recv (recv_streams c !! ssrc).
Definition put_recv (c : SrtcpContext) (ssrc : Z) (st : SrtcpRecvState) : SrtcpContext :=
  c {{ recv_streams := <[ssrc := st]> (recv_streams c) }}.
Definition send_entry (c : SrtcpContext) (ssrc : Z) : Z := default 0 (send_streams c !! ssrc).
Definition put_send (c : SrtcpContext) (ssrc n : Z) : SrtcpContext :=
  c {{ send_streams := <[ssrc := n]> (send_streams c) }}.

Definition over_cap {V} (m : gmap Z V) (ssrc cap : Z) : bool :=
  bool_decide (m !! ssrc = None) && (cap <=? Z.of_nat (size m)).

Section with_crypto.
Context {C : Crypto}.

Definition from_sdes_key_with_lifetime (key_b64 : bytes) (lifetime : Z)
    : result srtp_error SrtcpContext :=
  if (lifetime =? 0) || (MAX_SRTP_PACKETS_PER_MASTER_KEY <? lifetime) then Err BadLifetime
  else
    match base64_decode key_b64 with
    | None => Err BadBase64
    | Some key_material =>
        if negb (len key_material =? SRTP_MASTER_KEY_LEN + SRTP_MASTER_SALT_LEN)
        then Err BadKeyLength
        else
          let master_key := take 16 key_material in
          let master_salt := take 14 (drop 16 key_material) in
          Ok (mkContext (srtp_kdf master_key master_salt 3 16)
                (srtp_kdf master_key master_salt 5 14)
                (srtp_kdf master_key master_salt 4 20) 0 ∅ ∅ 0
                (Z.min lifetime MAX_SRTCP_PACKETS_PER_MASTER_KEY))
    end.

Definition from_sdes_key (key_b64 : bytes) : result srtp_error SrtcpContext :=
  from_sdes_key_with_lifetime key_b64 MAX_SRTCP_PACKETS_PER_MASTER_KEY.

(** The encryption of everything after the first eight bytes. *)
Definition crypt (c : SrtcpContext) (ssrc index : Z) (packet : bytes) : outcome bytes :=
  if 8 <? len packet then
    let! head := slice_to packet 8 in
    let! body := slice_from packet 8 in
    Val (head ++ apply_keystream (cipher_key c) (compute_srtcp_iv (cipher_salt c) ssrc index) body)
  else Val packet.

Definition protect_rtcp (c : SrtcpContext) (rtcp_packet : bytes)
    : outcome (SrtcpContext * result srtp_error bytes) :=
  if len rtcp_packet <? 8 then Val (c, Err PacketTooShort)
  else if MAX_SRTCP_PACKETS_PER_MASTER_KEY <=? protected_packets_total c
  then Val (c, Err IndexExhausted)
  else
    let! ssrc := get32 rtcp_packet 4 in
    if over_cap (send_streams c) ssrc MAX_SEND_SSRCS then Val (c, Err TooManySsrcs)
    else
      let protected_packets := send_entry c ssrc in
      if packet_lifetime c <=? protected_packets
      then Val (put_send c ssrc protected_packets, Err LifetimeExhausted)
      else
        let index := srtcp_index c in
        let! output := crypt c ssrc index rtcp_packet in
        let e_and_index := Z.lor 2147483648 index in
        let output := output ++ to_be 4 e_and_index in
        let tag := tag_of (auth_key c) output in
        Val ((put_send c ssrc (wrap64 (protected_packets + 1)))
               {{ srtcp_index := Z.land (wrap32 (index + 1)) 2147483647;
                  protected_packets_total := wrap64 (protected_packets_total c + 1) }},
             Ok (output ++ tag)).

Definition unprotect_rtcp (c : SrtcpContext) (srtcp_packet : bytes)
    : outcome (SrtcpContext * result srtp_error bytes) :=
  if len srtcp_packet <? 22 then Val (c, Err PacketTooShort)
  else
    let auth_start := len srtcp_packet - SRTP_AUTH_TAG_LEN in
    let index_start := auth_start - 4 in
    let! received_tag := slice_from srtcp_packet auth_start in
    let! auth_portion := slice_to srtcp_packet auth_start in
    if negb (bool_decide (tag_of (auth_key c) auth_portion = received_tag))
    then Val (c, Err AuthTagMismatch)
    else
      let! e_and_index := get32 srtcp_packet index_start in
      let encrypted := negb (Z.land e_and_index 2147483648 =? 0) in
      let recv_index := Z.land e_and_index 2147483647 in
      let! ssrc := get32 srtcp_packet 4 in
      if over_cap (recv_streams c) ssrc MAX_RECV_SSRCS then Val (c, Err TooManySsrcs)
      else
        let st := recv_entry c ssrc in
        if packet_lifetime c <=? accepted_packets st
        then Val (put_recv c ssrc st, Err LifetimeExhausted)
        else
          let '(st, r) := check_replay st recv_index in
          match r with
          | Err e => Val (put_recv c ssrc st, Err e)
          | Ok _ =>
              let! output := slice_to srtcp_packet index_start in
              let! output := (if encrypted then crypt c ssrc recv_index output else Val output) in
              Val (put_recv c ssrc (st {{ accepted_packets := wrap64 (accepted_packets st + 1) }}),
                   Ok output)
          end.

End with_crypto.

(** ** Replay protection *)

Definition recv_ok (st : SrtcpRecvState) (A : gset Z) : Prop :=
  if recv_index_initialized st then window_ok A (highest_recv_index st) (replay_window st)
  else A = ∅.

Definition fresh (st : SrtcpRecvState) (A : gset Z) (i : Z) : bool :=
  if recv_index_initialized st then fresh_index A (highest_recv_index st) i else true.

Lemma check_replay_spec st A i :
  recv_ok st A ->
  if fresh st A i then
    exists st', check_replay st i = (st', Ok tt) /\ recv_ok st' ({[i]} ∪ A) /\
      recv_index_initialized st' = true /\ accepted_packets st' = accepted_packets st /\
      highest_recv_index st' =
        (if recv_index_initialized st then Z.max (highest_recv_index st) i else i)
  else exists e, check_replay st i = (st, Err e).
Proof.
  unfold recv_ok, fresh, check_replay, fresh_index.
  destruct (recv_index_initialized st) eqn:Hi; cbn [negb]; intros W.
  - destruct (Z.ltb_spec (highest_recv_index st) i) as [Hlt | Hge].
    + assert (Hn : i ∉ A) by (intros Ha; destruct W as (_ & Wm & _); specialize (Wm _ Ha); lia).
      rewrite bool_decide_true by done. rewrite (proj2 (Z.ltb_lt _ _)) by lia. cbn [andb].
      pose proof (window_advance_ok A _ _ _ W Hlt). rewrite Z.max_r by lia.
      eexists. split; [done |]. by destruct st; cbn in *; subst.
    + destruct (Z.leb_spec 64 (highest_recv_index st - i)).
      * rewrite (proj2 (Z.ltb_ge _ _)), andb_false_r by lia. by eexists.
      * rewrite (proj2 (Z.ltb_lt _ _)), andb_true_r, (window_seen_spec A _ _ _ W) by lia.
        replace (highest_recv_index st - (highest_recv_index st - i)) with i by lia.
        destruct (decide (i ∈ A)) as [Ha | Hn].
        -- rewrite bool_decide_false by (by intros ?). rewrite bool_decide_true by done. by eexists.
        -- rewrite bool_decide_true by done. rewrite (bool_decide_false (i ∈ A)) by done.
           pose proof (window_mark_ok A _ _ i W ltac:(lia) ltac:(lia)). rewrite Z.max_l by lia.
           eexists. split; [done |]. by destruct st; cbn in *; subst.
  - subst. eexists. split; [done |]. rewrite union_empty_r_L. destruct st; cbn in *.
    split_and!; try done. apply window_first.
Qed.

(** ** The indices a context sends *)

Section sending.
Context {C : Crypto}.

(** The E flag and index of a datagram. *)
Definition trailer (w : bytes) : Z := be32_at w (len w - 14).

(** The datagrams a context produces for a list of packets; refused packets
    produce none. *)
Fixpoint sent (c : SrtcpContext) (ps : list bytes) : list bytes :=
  match ps with
  | [] => []
  | p :: ps =>
      match protect_rtcp c p with
      | Val (c', Ok w) => w :: sent c' ps
      | Val (c', Err _) => sent c' ps
      | Panic => []
      end
  end.

(** What the packet [p] with index [i] looks like on the wire. *)
Definition body (c : SrtcpContext) (i : Z) (p : bytes) : bytes :=
  take 8 p ++ apply_keystream (cipher_key c)
                (compute_srtcp_iv (cipher_salt c) (be32_at p 4) i) (drop 8 p).
Definition wire (c : SrtcpContext) (i : Z) (p : bytes) : bytes :=
  let out := body c i p ++ to_be 4 (2147483648 + i) in out ++ tag_of (auth_key c) out.

Definition counts_ok (c : SrtcpContext) : Prop :=
  0 <= protected_packets_total c <= 2147483648 /\
  srtcp_index c = protected_packets_total c mod 2147483648.

Lemma crypt_body c i p : 8 <= len p -> crypt c (be32_at p 4) i p = Val (body c i p).
Proof.
  intros H. unfold crypt, body. change 8%nat with (Z.to_nat 8).
  destruct (Z.ltb_spec 8 (len p)); [by reads |].
  assert (length p = 8%nat) by (unfold len in *; lia).
  rewrite take_ge, drop_ge by lia. cbn. by rewrite app_nil_r.
Qed.

Lemma index_flag i : 0 <= i < 2147483648 -> Z.lor 2147483648 i = 2147483648 + i.
Proof. intros. exact (lor_add 1 i 31 ltac:(lia) ltac:(lia)). Qed.

(** Building a datagram never panics. *)
Lemma protect_rtcp_val c p : exists c' r, protect_rtcp c p = Val (c', r).
Proof.
  unfold protect_rtcp. destruct (Z.ltb_spec (len p) 8); [by do 2 eexists |].
  split_if; [by do 2 eexists |]. reads. destruct (over_cap _ _ _); [by do 2 eexists |].
  cbn zeta. split_if; [by do 2 eexists |]. rewrite crypt_body by done. by do 2 eexists.
Qed.

Inductive protected (c : SrtcpContext) (p : bytes) : SrtcpContext -> result srtp_error bytes -> Prop :=
| Refused e : protected c p c (Err e)
| Exhausted ssrc :
    ssrc = be32_at p 4 -> protected c p (put_send c ssrc (send_entry c ssrc)) (Err LifetimeExhausted)
| Sealed ssrc :
    ssrc = be32_at p 4 -> 8 <= len p -> protected_packets_total c < 2147483648 ->
    send_entry c ssrc < packet_lifetime c ->
    protected c p
      ((put_send c ssrc (wrap64 (send_entry c ssrc + 1)))
         {{ srtcp_index := (srtcp_index c + 1) mod 2147483648;
            protected_packets_total := protected_packets_total c + 1 }})
      (Ok (wire c (srtcp_index c) p)).

Lemma protect_rtcp_cases c p :
  counts_ok c -> exists c' r, protect_rtcp c p = Val (c', r) /\ protected c p c' r.
Proof.
  intros [H1 H2]. unfold protect_rtcp, MAX_SRTCP_PACKETS_PER_MASTER_KEY.
  destruct (Z.ltb_spec (len p) 8); [do 2 eexists; split; [done | constructor] |].
  destruct (Z.leb_spec 2147483648 (protected_packets_total c));
    [do 2 eexists; split; [done | constructor] |].
  reads. destruct (over_cap _ _ _); [do 2 eexists; split; [done | constructor] |].
  destruct (Z.leb_spec (packet_lifetime c) (send_entry c (be32_at p 4)));
    [do 2 eexists; split; [done | by constructor] |].
  rewrite crypt_body by done. cbn [obind].
  rewrite index_flag, land_7fffffff by mlia.
  replace (wrap32 (srtcp_index c + 1)) with (srtcp_index c + 1) by mlia.
  replace (wrap64 (protected_packets_total c + 1)) with (protected_packets_total c + 1) by mlia.
  do 2 eexists. split; [done |]. by apply Sealed.
Qed.

Lemma protected_counts c p c' r :
  counts_ok c -> protected c p c' r -> counts_ok c' /\
  protected_packets_total c' = protected_packets_total c + match r with Ok _ => 1 | Err _ => 0 end.
Proof.
  intros [H1 H2] P. unfold counts_ok. destruct P; destruct c; cbn in *; [lia | lia |].
  split; [split; [lia |] | done]. mlia.
Qed.

Lemma body_length c i p : 8 <= len p -> len (body c i p) = len p.
Proof.
  intros. unfold body. rewrite len_app. unfold len at 2. rewrite apply_keystream_length.
  fold (len (drop 8 p)). change 8%nat with (Z.to_nat 8). rewrite len_take, len_drop by lia. lia.
Qed.

Lemma wire_length c i p : 8 <= len p -> len (wire c i p) = len p + 14.
Proof.
  intros. unfold wire. rewrite !len_app, body_length, len_to_be by done. unfold len at 2.
  rewrite tag_of_length. lia.
Qed.

Lemma wire_trailer c i p : 8 <= len p -> 0 <= i < 2147483648 -> trailer (wire c i p) = 2147483648 + i.
Proof.
  intros H Hi. unfold trailer. rewrite wire_length by done.
  replace (len p + 14 - 14) with (len (body c i p)) by (rewrite body_length by done; lia).
  unfold wire. rewrite <- app_assoc, be32_at_app. mlia.
Qed.

Lemma sent_trailers ps : forall c,
  counts_ok c ->
  exists n, 0 <= n /\ protected_packets_total c + n <= 2147483648 /\
    trailer <$> sent c ps = seqZ (2147483648 + protected_packets_total c) n.
Proof.
  induction ps as [| p ps IH]; intros c H.
  { exists 0. destruct H. split; [lia |]. split; [lia | done]. }
  destruct (protect_rtcp_cases c p H) as (c' & r & E & P).
  destruct (protected_counts c p c' r H P) as [H' T]. destruct (IH c' H') as (n & Hn & Hb & G).
  cbn [sent]. rewrite E. destruct r as [w | e].
  - exists (1 + n). inversion P as [| | ssrc Es Hl Ht Hs Ec Ew]; subst w.
    split; [lia |]. split; [lia |]. destruct H as [H1 H2]. rewrite fmap_cons.
    rewrite Ec, wire_trailer, G, T by mlia.
    rewrite (seqZ_cons (_ + protected_packets_total c)) by lia. f_equal; [mlia |]. f_equal; lia.
  - exists n. rewrite T, Z.add_0_r in *. done.
Qed.

(** An SRTCP context never reuses an index under its key, whatever it is
    asked to send and on however many SSRCs: the datagrams it produces carry
    the encryption flag and the indices 0, 1, 2, ... in order, and it refuses
    to send before the 31-bit index would wrap. *)
Theorem srtcp_indices_never_repeat c ps
  (fresh_context : srtcp_index c = 0 /\ protected_packets_total c = 0) :
  exists n, n <= 2147483648 /\ trailer <$> sent c ps = seqZ 2147483648 n.
Proof.
  destruct fresh_context as [H1 H2].
  destruct (sent_trailers ps c) as (n & Hn & Hb & G); [split; [lia | by rewrite H1, H2] |].
  exists n. rewrite H2, Z.add_0_r in *. split; [lia | done].
Qed.

End sending.

(** ** Receiving *)

Section receiving.
Context {C : Crypto}.

(** Whatever arrives, the context returns a verdict, and it is neither changed
    nor returns a packet unless the tag authenticates the datagram. *)
Definition authenticated (c : SrtcpContext) (p : bytes) : Prop :=
  let n := len p - SRTP_AUTH_TAG_LEN in
  tag_of (auth_key c) (take (Z.to_nat n) p) = drop (Z.to_nat n) p.

Lemma crypt_val c ssrc i p :
  are_bytes p -> exists out, crypt c ssrc i p = Val out /\ are_bytes out.
Proof.
  intros Hp. unfold crypt. destruct (Z.ltb_spec 8 (len p)); [| by exists p].
  reads. eexists. split; [done |]. apply Forall_app. split; [by apply Forall_take |].
  by apply apply_keystream_bytes, Forall_drop.
Qed.

Lemma unprotect_rtcp_cases c p :
  are_bytes p ->
  exists c' r, unprotect_rtcp c p = Val (c', r) /\ (c' = c /\ (exists e, r = Err e) \/ authenticated c p) /\
    forall d, r = Ok d -> are_bytes d.
Proof.
  intros Hp. unfold unprotect_rtcp, authenticated, SRTP_AUTH_TAG_LEN.
  destruct (Z.ltb_spec (len p) 22); [do 2 eexists; split_and!; [done | left; by eauto | done] |].
  reads. case_bool_decide as A; cbn [negb];
    [| do 2 eexists; split_and!; [done | left; by eauto | done]].
  reads. destruct (over_cap _ _ _); [do 2 eexists; split_and!; [done | by right | done] |].
  split_if; [do 2 eexists; split_and!; [done | by right | done] |].
  destruct (check_replay _ _) as [st [u | e]]; [| do 2 eexists; split_and!; [done | by right | done]].
  reads.
  assert (B : are_bytes (take (Z.to_nat (len p - 10 - 4)) p)) by by apply Forall_take.
  destruct (negb _).
  - destruct (crypt_val c (be32_at p 4) (Z.land (be32_at p (len p - 10 - 4)) 2147483647) _ B)
      as (out & -> & Hout).
    cbn [obind]. do 2 eexists. split_and!; [done | by right |]. by intros d [= <-].
  - cbn [obind]. do 2 eexists. split_and!; [done | by right |]. by intros d [= <-].
Qed.

Definition same_keys (s r : SrtcpContext) : Prop :=
  cipher_key s = cipher_key r /\ cipher_salt s = cipher_salt r /\ auth_key s = auth_key r.

Lemma recv_entry_put c ssrc st : recv_entry (put_recv c ssrc st) ssrc = st.
Proof. unfold recv_entry. destruct c; cbn. by rewrite lookup_insert_eq. Qed.

Lemma be32_at_agree p q i : (forall k, i <= k < i + 4 -> byte_at p k = byte_at q k) ->
  be32_at p i = be32_at q i.
Proof. intros H. unfold be32_at. by rewrite !H by lia. Qed.

Lemma body_head c i p k : 8 <= len p -> 0 <= k < 8 -> byte_at (body c i p) k = byte_at p k.
Proof.
  intros H Hk. unfold body. rewrite byte_at_app_l by (change 8%nat with (Z.to_nat 8);
    rewrite len_take by lia; lia).
  unfold byte_at. rewrite <- (take_drop 8 p) at 2. rewrite app_nth1; [done |].
  rewrite length_take. unfold len in H. lia.
Qed.

Lemma unprotect_rtcp_wire s r i p A :
  same_keys s r -> 8 <= len p -> 0 <= i < 2147483648 ->
  recv_ok (recv_entry r (be32_at p 4)) A -> fresh (recv_entry r (be32_at p 4)) A i = true ->
  over_cap (recv_streams r) (be32_at p 4) MAX_RECV_SSRCS = false ->
  accepted_packets (recv_entry r (be32_at p 4)) < packet_lifetime r ->
  exists st, unprotect_rtcp r (wire s i p) = Val (put_recv r (be32_at p 4) st, Ok p) /\
    recv_ok st ({[i]} ∪ A) /\ recv_index_initialized st = true /\
    highest_recv_index st = (if recv_index_initialized (recv_entry r (be32_at p 4))
      then Z.max (highest_recv_index (recv_entry r (be32_at p 4))) i else i) /\
    accepted_packets st = wrap64 (accepted_packets (recv_entry r (be32_at p 4)) + 1).
Proof.
  intros (K1 & K2 & K3) Hp Hi R F Ho Hc.
  pose proof (wire_length s i p Hp) as Hl. pose proof (body_length s i p Hp) as Hb.
  pose proof (wire_trailer s i p Hp Hi) as Ht. unfold trailer in Ht.
  rewrite Hl in Ht. replace (len p + 14 - 14) with (len p) in Ht by lia.
  set (out := body s i p ++ to_be 4 (2147483648 + i)).
  assert (Lout : length out = Z.to_nat (len p + 4))
    by (unfold out; rewrite length_app, length_to_be; unfold len in *; lia).
  assert (T : take (Z.to_nat (len p + 4)) (wire s i p) = out) by (apply take_app_length'; done).
  assert (D : drop (Z.to_nat (len p + 4)) (wire s i p) = tag_of (auth_key s) out)
    by (apply drop_app_length'; done).
  assert (T2 : take (Z.to_nat (len p)) (wire s i p) = body s i p).
  { unfold wire. rewrite <- app_assoc. apply take_app_length'. unfold len in *. lia. }
  assert (E4 : be32_at (wire s i p) 4 = be32_at p 4).
  { apply be32_at_agree. intros k Hk. unfold wire. rewrite <- app_assoc.
    rewrite byte_at_app_l by lia. apply body_head; lia. }
  pose proof (check_replay_spec _ A i R) as S. rewrite F in S.
  destruct S as (st & Ec & Rs & Hin & Hac & Hhi).
  unfold unprotect_rtcp, SRTP_AUTH_TAG_LEN. rewrite (proj2 (Z.ltb_ge _ _)) by lia. reads.
  rewrite Hl. replace (len p + 14 - 10) with (len p + 4) by lia.
  replace (len p + 4 - 4) with (len p) by lia.
  rewrite T, D, K3, bool_decide_true by done. cbn [negb]. rewrite Ht, E4.
  assert (Eflag : negb (Z.land (2147483648 + i) 2147483648 =? 0) = true).
  { rewrite <- index_flag by lia. apply negb_true_iff, Z.eqb_neq. intros Z0.
    assert (B : Z.testbit (Z.land (Z.lor 2147483648 i) 2147483648) 31 = true)
      by (rewrite Z.land_spec, Z.lor_spec; done).
    by rewrite Z0 in B. }
  assert (Eidx : Z.land (2147483648 + i) 2147483647 = i) by (rewrite land_7fffffff; mlia).
  rewrite Ho, (proj2 (Z.leb_gt _ _)), Eflag, Eidx, Ec, T2 by done. cbn [obind].
  assert (Eb : be32_at (body s i p) 4 = be32_at p 4)
    by (apply be32_at_agree; intros k Hk; apply body_head; lia).
  assert (Ecr : crypt r (be32_at p 4) i (body s i p) = Val (body r i (body s i p)))
    by (rewrite <- Eb; apply crypt_body; lia).
  rewrite Ecr. cbn [obind].
  eexists. split; [do 3 f_equal |].
  - unfold body at 1. rewrite Eb, <- K1, <- K2. unfold body.
    rewrite take_app_length', drop_app_length' by (rewrite length_take; unfold len in Hp; lia).
    rewrite apply_keystream_involutive. apply take_drop.
  - rewrite Hac. unfold recv_ok in *. destruct st; cbn in *; subst. split_and!; done.
Qed.

Fixpoint unprotect_all (c : SrtcpContext) (ws : list bytes) : option (list bytes) :=
  match ws with
  | [] => Some []
  | w :: ws =>
      match unprotect_rtcp c w with
      | Val (c', Ok p) => ps ← unprotect_all c' ws; Some (p :: ps)
      | _ => None
      end
  end.

(** Delivered indices: new, and less than 64 behind the highest delivered. *)
Fixpoint deliverable (h : option Z) (A : gset Z) (js : list Z) : Prop :=
  match js with
  | [] => True
  | j :: js =>
      match h with
      | None => deliverable (Some j) {[j]} js
      | Some h => (h - 64 < j /\ j ∉ A) /\ deliverable (Some (Z.max h j)) ({[j]} ∪ A) js
      end
  end.

Definition recv_state (st : SrtcpRecvState) (h : option Z) (A : gset Z) : Prop :=
  recv_ok st A /\
  match h with
  | None => recv_index_initialized st = false
  | Some h => recv_index_initialized st = true /\ highest_recv_index st = h
  end.

Lemma unprotect_reports s ssrc (ips : list (Z * bytes)) : forall r h A,
  Forall (fun '(i, p) => 0 <= i < 2147483648 /\ 8 <= len p /\ be32_at p 4 = ssrc) ips ->
  same_keys s r -> recv_state (recv_entry r ssrc) h A -> deliverable h A ips.*1 ->
  over_cap (recv_streams r) ssrc MAX_RECV_SSRCS = false ->
  0 <= accepted_packets (recv_entry r ssrc) ->
  accepted_packets (recv_entry r ssrc) + len ips <= packet_lifetime r <= 2147483648 ->
  unprotect_all r ((fun ip => wire s ip.1 ip.2) <$> ips) = Some ips.*2.
Proof.
  induction ips as [| [i p] ips IH]; intros r h A F K [R Hh] D Ho Hn Hl; [done |].
  apply Forall_cons in F as [(Hi & Hp & <-) F]. rewrite len_cons in Hl. pose proof (len_nonneg ips).
  assert (Hf : fresh (recv_entry r (be32_at p 4)) A i = true).
  { unfold fresh, fresh_index. cbn [fmap list_fmap deliverable] in D. destruct h as [h |].
    - destruct Hh as [-> ->]. destruct D as [[D1 D2] _].
      by rewrite bool_decide_true, (proj2 (Z.ltb_lt _ _)) by (done || lia).
    - by rewrite Hh. }
  destruct (unprotect_rtcp_wire s r i p A K Hp Hi R Hf Ho ltac:(lia)) as (st & E & R' & Hin & Hhi & Ha).
  rewrite !fmap_cons. cbn [unprotect_all fst snd]. rewrite E. cbv iota beta.
  rewrite (IH (put_recv r (be32_at p 4) st) (Some (highest_recv_index st)) ({[i]} ∪ A)); [done | ..].
  - done.
  - by destruct r.
  - rewrite recv_entry_put. done.
  - rewrite fmap_cons in D. cbn [deliverable fst] in D. rewrite Hhi. destruct h as [h |].
    + destruct Hh as [-> ->]. apply D.
    + unfold recv_ok in R. rewrite Hh in *. subst A. by rewrite union_empty_r_L.
  - unfold over_cap. destruct r; cbn. by rewrite lookup_insert_eq.
  - rewrite recv_entry_put, Ha. mlia.
  - rewrite recv_entry_put, Ha. destruct r; cbn in *. mlia.
Qed.

Lemma protect_rtcp_wire c p n :
  8 <= len p -> srtcp_index c = n -> protected_packets_total c = n -> 0 <= n < 2147483648 ->
  over_cap (send_streams c) (be32_at p 4) MAX_SEND_SSRCS = false ->
  0 <= send_entry c (be32_at p 4) < packet_lifetime c -> packet_lifetime c <= 2147483648 ->
  exists c', protect_rtcp c p = Val (c', Ok (wire c n p)) /\
    (n + 1 < 2147483648 -> srtcp_index c' = n + 1) /\ protected_packets_total c' = n + 1 /\
    send_entry c' (be32_at p 4) = send_entry c (be32_at p 4) + 1 /\
    over_cap (send_streams c') (be32_at p 4) MAX_SEND_SSRCS = false /\
    packet_lifetime c' = packet_lifetime c /\ (forall i q, wire c' i q = wire c i q).
Proof.
  intros Hp Hi Ht Hn Ho Hs Hl. unfold protect_rtcp, MAX_SRTCP_PACKETS_PER_MASTER_KEY.
  rewrite (proj2 (Z.ltb_ge _ _)), Ht, (proj2 (Z.leb_gt _ _)) by lia. reads.
  rewrite Ho, (proj2 (Z.leb_gt _ _)) by lia. rewrite Hi, crypt_body by done. cbn [obind].
  rewrite index_flag by lia. eexists. split; [done |].
  rewrite land_7fffffff. unfold send_entry, over_cap. destruct c; cbn in *. rewrite lookup_insert_eq.
  unfold send_entry in Hs. cbn in *. split_and!; try done; mlia.
Qed.

Lemma sent_wires s ssrc ps : forall c n,
  Forall (fun p => 8 <= len p /\ be32_at p 4 = ssrc) ps ->
  (forall i q, wire c i q = wire s i q) -> 0 <= n -> n + len ps <= 2147483648 ->
  (n < 2147483648 -> srtcp_index c = n) -> protected_packets_total c = n ->
  over_cap (send_streams c) ssrc MAX_SEND_SSRCS = false ->
  0 <= send_entry c ssrc -> send_entry c ssrc + len ps <= packet_lifetime c <= 2147483648 ->
  sent c ps = imap (fun k p => wire s (n + Z.of_nat k) p) ps.
Proof.
  induction ps as [| p ps IH]; intros c n F Hw Hn Hb Hi Ht Ho H0 Hl; [done |].
  apply Forall_cons in F as [(Hp & <-) F]. rewrite len_cons in *. pose proof (len_nonneg ps).
  destruct (protect_rtcp_wire c p n) as (c' & E & Hi' & Ht' & He & Ho' & Hlf & Hw'); try done; try lia.
  cbn [sent imap]. rewrite E, Z.add_0_r, Hw. f_equal.
  rewrite (IH c' (n + 1)); [| done | intros; by rewrite Hw' | lia | lia | done | done | done | lia | lia].
  apply imap_ext. intros k q _. cbn. f_equal. lia.
Qed.

(** C17: SRTCP end to end: the reports a context protects on one SSRC are all
    recovered by a receiver with the same keys, whichever of them the network
    delivers and in whatever order, as long as none is delivered twice or after
    one 64 or more indices ahead of it. *)
Theorem protected_reports_delivered s r ssrc ps (order : list nat)
  (fresh_sender : srtcp_index s = 0 /\ protected_packets_total s = 0 /\ send_streams s = ∅)
  (fresh_receiver : recv_streams r = ∅) (keys : same_keys s r)
  (packets : Forall (fun p => 8 <= len p /\ be32_at p 4 = ssrc) ps)
  (network : deliverable None ∅ (Z.of_nat <$> order))
  (positions : Forall (fun k => (k < length ps)%nat) order)
  (send_life : len ps <= packet_lifetime s <= 2147483648)
  (recv_life : len order <= packet_lifetime r <= 2147483648) :
  unprotect_all r (omap (sent s ps !!.) order) = Some (omap (ps !!.) order).
Proof.
  destruct fresh_sender as (S1 & S2 & S3).
  rewrite (sent_wires s ssrc ps s 0); try done; try lia;
    [| by unfold over_cap; rewrite S3, map_size_empty, andb_false_r
     | by unfold send_entry; rewrite S3, lookup_empty
     | by unfold send_entry; rewrite S3, lookup_empty; cbn; lia].
  set (ips := omap (fun k => p ← ps !! k; Some (Z.of_nat k, p)) order).
  assert (E : omap (imap (fun k p => wire s (0 + Z.of_nat k) p) ps !!.) order
              = (fun ip => wire s ip.1 ip.2) <$> ips /\
              omap (ps !!.) order = ips.*2 /\ ips.*1 = Z.of_nat <$> order /\
              len ips = len order /\
              Forall (fun '(i, p) => 0 <= i < 2147483648 /\ 8 <= len p /\ be32_at p 4 = ssrc) ips).
  { unfold ips. clear network recv_life ips. induction positions as [| k order Hk _ IH]; [done |].
    destruct (lookup_lt_is_Some_2 ps k Hk) as [p Ep]. destruct IH as (IH1 & IH2 & IH3 & IH4 & IH5).
    cbn [omap list_omap]. rewrite list_lookup_imap, Ep. cbn.
    rewrite IH1, IH2, IH3. split_and!; try done; [rewrite !len_cons; lia |].
    constructor; [| done]. unfold len in send_life.
    split; [lia |]. exact (proj1 (Forall_lookup _ ps) packets k p Ep). }
  destruct E as (-> & -> & E1 & E2 & F).
  eapply (unprotect_reports s ssrc ips r None ∅); try done.
  - by unfold recv_state, recv_entry, recv_ok; rewrite fresh_receiver, lookup_empty.
  - by rewrite E1.
  - by unfold over_cap; rewrite fresh_receiver, map_size_empty, andb_false_r.
  - by unfold recv_entry; rewrite fresh_receiver, lookup_empty.
  - unfold recv_entry; rewrite fresh_receiver, lookup_empty. cbn. lia.
Qed.

End receiving.

Module Examples.
Definition context : SrtcpContext :=
  match from_sdes_key (C := sample_crypto) (seqZ 1 30) with
  | Ok c => c | Err _ => mkContext [] [] [] 0 ∅ ∅ 0 0
  end.
(** Empty receiver reports of SSRC 9 followed by a byte of data. *)
Definition reports : list bytes :=
  [[128; 201; 0; 1; 0; 0; 0; 9]; [128; 201; 0; 1; 0; 0; 0; 9; 5]; [128; 201; 0; 1; 0; 0; 0; 9; 6]].
End Examples.
Import Examples.

Lemma srtcp_indices_never_repeat_witness :
  exists n, n <= 2147483648 /\ trailer <$> sent (C := sample_crypto) context reports = seqZ 2147483648 n.
Proof.
  apply (srtcp_indices_never_repeat (C := sample_crypto) context reports). split; by vm_compute.
Defined.

Lemma protected_reports_delivered_witness :
  unprotect_all (C := sample_crypto) context
    (omap (sent (C := sample_crypto) context reports !!.) [2; 0]%nat)
  = Some [[128; 201; 0; 1; 0; 0; 0; 9; 6]; [128; 201; 0; 1; 0; 0; 0; 9]].
Proof.
  apply (protected_reports_delivered (C := sample_crypto) context context 9 reports [2; 0]%nat).
  - split_and!; by vm_compute.
  - by vm_compute.
  - by split_and!.
  - repeat (apply Forall_cons; split; [split; by vm_compute |]). constructor.
  - cbn. split; [| done]. split; [lia |]. rewrite elem_of_singleton. lia.
  - repeat constructor; cbn; lia.
  - split; by vm_compute.
  - split; by vm_compute.
Defined.

End Srtcp.
