(* ===== verification/Media.v ===== *)
(** Shared media types: codecs ([media/codec.rs]), the routed packet
    ([session/endpoint.rs]), the raw PCM codec and the 20 ms reframer
    ([media/pcm_frames.rs]). *)

From stdpp Require Import strings.
From Stdlib Require Import Ascii.
From S2P Require Import Prelude.
#[local] Open Scope Z_scope.

Module Codec.

Inductive AudioCodec :=
| Pcmu
| G722
| Opus
| L16 (sample_rate : Z).

#[global] Instance AudioCodec_eq_dec : EqDecision AudioCodec.
Proof. solve_decision. Defined.

Definition sample_rate (c : AudioCodec) : Z :=
  match c with Pcmu => 8000 | G722 => 16000 | Opus => 48000 | L16 r => r end.

Definition rtp_clock_rate (c : AudioCodec) : Z :=
  match c with Pcmu => 8000 | G722 => 8000 | Opus => 48000 | L16 r => r end.

Definition ptime_samples (c : AudioCodec) : Z := sample_rate c / 50.

(** [str::to_lowercase] on ASCII letters; the other letters whose lower case is
    an ASCII letter do not occur in a codec name. *)
Definition lower_ascii (a : ascii) : ascii :=
  let n := nat_of_ascii a in
  if ((65 <=? n) && (n <=? 90))%nat then ascii_of_nat (n + 32) else a.
Fixpoint to_lowercase (s : string) : string :=
  match s with
  | EmptyString => EmptyString
  | String a s => String (lower_ascii a) (to_lowercase s)
  end.

Definition from_name (name : string) : option AudioCodec :=
  let n := to_lowercase name in
  if bool_decide (n = "pcmu"%string \/ n = "g711"%string \/ n = "g.711"%string) then Some Pcmu
  else if bool_decide (n = "g722"%string \/ n = "g.722"%string) then Some G722
  else if bool_decide (n = "opus"%string) then Some Opus
  else None.

(** ** Raw PCM: little-endian 16-bit samples *)

Definition is_i16 (x : Z) : Prop := -32768 <= x < 32768.

Definition i16_from_le (lo hi : Z) : Z :=
  let u := hi * 256 + lo in if u <? 32768 then u else u - 65536.
Definition i16_to_le (x : Z) : bytes := [wrap16 x mod 256; wrap16 x / 256].

(** [chunks_exact(2)] drops an odd trailing byte. *)
Fixpoint l16_decode (encoded : bytes) : list Z :=
  match encoded with
  | lo :: hi :: rest => i16_from_le lo hi :: l16_decode rest
  | _ => []
  end.
Definition l16_encode (pcm_in : list Z) : bytes := flat_map i16_to_le pcm_in.

(** Raw PCM comes back sample by sample. *)
Lemma l16_roundtrip pcm : Forall is_i16 pcm -> l16_decode (l16_encode pcm) = pcm.
Proof.
  induction 1 as [| x pcm Hx _ IH]; [done |].
  unfold l16_encode in *. cbn [flat_map app i16_to_le l16_decode]. rewrite IH. f_equal.
  unfold i16_from_le, is_i16 in *. split_if; mlia.
Qed.

Lemma l16_encode_bytes pcm : are_bytes (l16_encode pcm).
Proof.
  induction pcm as [| x pcm IH]; [constructor |].
  unfold l16_encode in *. cbn. repeat constructor; try done; mlia.
Qed.

End Codec.

(** ** The packet routed between endpoints *)

Definition EndpointId : Type := Z.

Record RoutedRtpPacket := mkPacket {
  source_endpoint_id : EndpointId;
  payload_type : Z;
  sequence_number : Z;
  timestamp : Z;
  ssrc : Z;
  marker : bool;
  payload : bytes;
}.

(** ** 20 ms reframing *)

Module PcmFrames.

Record t := mk { samples : list Z; frame : nat }.

Definition new (rate : Z) : t := mk [] (Z.to_nat (rate / 50)).
Definition clear (f : t) : t := f {{ samples := [] }}.
Definition is_empty (f : t) : bool := bool_decide (samples f = []).

(** The [while] loop: complete frames, and the samples that remain.  Each round
    removes at least one sample, so the number of samples is fuel enough. *)
Fixpoint split_frames (fuel : nat) (n : nat) (l : list Z) : list (list Z) * list Z :=
  match fuel with
  | O => ([], l)
  | S fuel =>
      if (n <=? length l)%nat then
        let '(fs, rest) := split_frames fuel n (drop n l) in (take n l :: fs, rest)
      else ([], l)
  end.

(** [None] is the [ensure!] failure. *)
Definition push (f : t) (pcm : list Z) : t * option (list (list Z)) :=
  if (0 <? frame f)%nat && (length pcm <=? frame f * 6)%nat then
    let all := samples f ++ pcm in
    let '(fs, rest) := split_frames (length all) (frame f) all in
    (f {{ samples := rest }}, Some fs)
  else (f, None).

Lemma split_frames_spec fuel n l :
  (0 < n)%nat -> (length l <= fuel)%nat ->
  let '(fs, rest) := split_frames fuel n l in
  concat fs ++ rest = l /\ Forall (fun f => length f = n) fs /\ (length rest < n)%nat.
Proof.
  intros Hn. revert l. induction fuel as [| fuel IH]; intros l Hl; cbn [split_frames].
  - destruct l; cbn in *; [| lia]. by split_and!.
  - destruct (Nat.leb_spec n (length l)) as [Hle | Hlt]; [| split_and!; done].
    specialize (IH (drop n l)). destruct (split_frames fuel n (drop n l)) as [fs rest].
    destruct IH as (E & F & R); [rewrite length_drop; lia |]. cbn. split_and!; [| | done].
    + by rewrite <- app_assoc, E, take_drop.
    + constructor; [rewrite length_take; lia | done].
Qed.

(** All the samples of a run of pushes, frames and remainder. *)
Fixpoint push_all (f : t) (packets : list (list Z)) : option (t * list (list Z)) :=
  match packets with
  | [] => Some (f, [])
  | p :: ps =>
      match push f p with
      | (f', Some fs) => r ← push_all f' ps; Some (r.1, fs ++ r.2)
      | (_, None) => None
      end
  end.

(** Reframing loses, invents and reorders no sample: for any packets of at
    most 120 ms, the frames produced, each exactly 20 ms, followed by the
    retained tail, shorter than a frame, are the samples that were pushed. *)
Theorem every_sample_survives rate packets
  (Hrate : 50 <= rate)
  (short : Forall (fun p => length p <= Z.to_nat (rate / 50) * 6)%nat packets) :
  exists f frames, push_all (new rate) packets = Some (f, frames) /\
    concat frames ++ samples f = concat packets /\
    Forall (fun x => length x = Z.to_nat (rate / 50)) frames /\
    (length (samples f) < Z.to_nat (rate / 50))%nat.
Proof.
  set (n := Z.to_nat (rate / 50)) in *.
  assert (Hn : (0 < n)%nat) by (unfold n; mlia).
  assert (G : forall f, frame f = n -> (length (samples f) < n)%nat ->
    exists f' frames, push_all f packets = Some (f', frames) /\
    concat frames ++ samples f' = samples f ++ concat packets /\
    Forall (fun x => length x = n) frames /\ (length (samples f') < n)%nat).
  { induction short as [| p ps Hp _ IH]; intros f Hf Ht.
    - exists f, []. cbn. rewrite app_nil_r. by split_and!.
    - unfold push_all; fold push_all. unfold push. rewrite Hf.
      rewrite (proj2 (Nat.ltb_lt 0 n)), (proj2 (Nat.leb_le _ _)) by done. cbn [andb].
      pose proof (split_frames_spec (length (samples f ++ p)) n (samples f ++ p) Hn (le_n _)) as S.
      destruct (split_frames _ n _) as [fs rest]. destruct S as (E & F & R).
      destruct (IH (f {{ samples := rest }})) as (f' & frames & E' & C' & F' & R');
        [by destruct f | by destruct f |].
      exists f', (fs ++ frames). rewrite E'. cbn. split_and!; try done.
      + rewrite concat_app, <- app_assoc, C'. destruct f; cbn in *.
        rewrite !app_assoc. by rewrite E.
      + by apply Forall_app. }
  exact (G (new rate) eq_refl ltac:(cbn; done)).
Qed.

Lemma every_sample_survives_witness :
  exists f frames, push_all (new 200) [[1; 2; 3]; [4; 5; 6]] = Some (f, frames) /\
    concat frames ++ samples f = [1; 2; 3; 4; 5; 6].
Proof.
  destruct (every_sample_survives 200 [[1; 2; 3]; [4; 5; 6]]) as (f & frames & E & C & _);
    [lia | repeat constructor |].
  exists f, frames. split; [exact E | exact C].
Defined.

End PcmFrames.
