(* ===== verification/Playout.v ===== *)
(** Per-source playout buffers ([session/playout.rs]).  [Synth] paces a source
    that has no clock of its own; [Tracked] reorders and paces a network source;
    [Buffer] is the sum of the two as the session uses it. *)

From S2P Require Import Prelude Media.

Definition L16_PT : Z := 127.
Definition FRAME : Z := 20 * ns_per_ms.
Definition SYNTH_TARGET_FRAMES : Z := 3.
Definition SYNTH_MAX_TARGET_FRAMES : Z := 7.
Definition SYNTH_IDLE_TICKS : Z := 10.
Definition SYNTH_MAX_FRAMES : Z := 14.
Definition TRACKED_SHALLOW_MS : Z := 40.
Definition TRACKED_MIXER_TARGET_MS : Z := 60.
Definition TRACKED_MIXER_MAX_MS : Z := 200.
Definition TRACKED_MAX_FRAMES : Z := 16.
Definition REORDER_MAX_FRAMES : Z := 256.
Definition REORDER_DEPTH : Z := 3.
Definition TRACKED_GAP_RESET : Z := 200 * ns_per_ms.

Record PlayoutCounters := mkCounters {
  overflow_drops : Z;
  underflow_fills : Z;
  late_drops : Z;
}.
Definition no_counters : PlayoutCounters := mkCounters 0 0 0.

(** ** Clockless sources *)

Module Synth.

Inductive SynthState := Idle | Prebuffering | Active.

Record SynthClock := mkSynth {
  source_id : EndpointId;
  seq : Z;
  ts : Z;
  synth_ssrc : Z;
  ts_step : Z;
  silence : bytes;
  queue : list bytes;
  state : SynthState;
  pending_marker : bool;
  prebuffer_ticks : Z;
  underflow_ticks : Z;
  target_frames : Z;
  underran_this_spurt : bool;
  counters : PlayoutCounters;
}.

Definition synth (source_id : EndpointId) (clock_rate ssrc seq ts : Z) : SynthClock :=
  let samples := clock_rate / 50 in
  mkSynth source_id seq ts ssrc (clock_rate / 50) (replicate (Z.to_nat (samples * 2)) 0) []
    Idle false 0 0 SYNTH_TARGET_FRAMES false no_counters.

(** Drop the oldest frames over the cap, counting them. *)
Fixpoint trim (q : list bytes) (drops : Z) : list bytes * Z :=
  if SYNTH_MAX_FRAMES <? len q then
    match q with
    | [] => (q, drops)
    | _ :: q => trim q (wrap64 (drops + 1))
    end
  else (q, drops).

Definition push (c : SynthClock) (payload : bytes) : SynthClock :=
  let c :=
    match state c with
    | Idle => c {{ state := Prebuffering; prebuffer_ticks := 0; pending_marker := true;
                   underran_this_spurt := false }}
    | _ => c
    end in
  let '(q, drops) := trim (queue c ++ [payload]) (overflow_drops (counters c)) in
  let c := c {{ queue := q; counters := (counters c) {{ overflow_drops := drops }} }} in
  match state c with
  | Prebuffering => if target_frames c <=? len (queue c) then c {{ state := Active }} else c
  | _ => c
  end.

Definition emit (c : SynthClock) (payload : bytes) (is_silence : bool)
    : SynthClock * RoutedRtpPacket :=
  let marker := pending_marker c && negb is_silence in
  let c := if marker then c {{ pending_marker := false }} else c in
  let pkt := mkPacket (source_id c) L16_PT (seq c) (ts c) (synth_ssrc c) marker payload in
  (c {{ seq := wrap16 (seq c + 1); ts := wrap32 (ts c + ts_step c) }}, pkt).

Definition emit_active (c : SynthClock) : SynthClock * option RoutedRtpPacket :=
  match queue c with
  | payload :: q =>
      let c := c {{ queue := q }} in
      let c :=
        if 0 <? underflow_ticks c then
          let c := if negb (underran_this_spurt c) && (target_frames c <? SYNTH_MAX_TARGET_FRAMES)
                   then c {{ target_frames := target_frames c + 1 }} else c in
          c {{ underran_this_spurt := true }}
        else c in
      let c := c {{ underflow_ticks := 0 }} in
      let '(c, pkt) := emit c payload false in (c, Some pkt)
  | [] =>
      let c := c {{ underflow_ticks := wrap32 (underflow_ticks c + 1) }} in
      if SYNTH_IDLE_TICKS <? underflow_ticks c then
        let c := if negb (underran_this_spurt c) && (SYNTH_TARGET_FRAMES <? target_frames c)
                 then c {{ target_frames := target_frames c - 1 }} else c in
        (c {{ state := Idle; underflow_ticks := 0 }}, None)
      else
        let c := c {{ counters := (counters c)
                        {{ underflow_fills := wrap64 (underflow_fills (counters c) + 1) }} }} in
        let '(c, pkt) := emit c (silence c) true in (c, Some pkt)
  end.

Definition drain_tick (c : SynthClock) : SynthClock * option RoutedRtpPacket :=
  match state c with
  | Idle => (c, None)
  | Prebuffering =>
      let c := c {{ prebuffer_ticks := wrap32 (prebuffer_ticks c + 1) }} in
      if (target_frames c <=? len (queue c)) || (target_frames c <=? prebuffer_ticks c)
      then emit_active (c {{ state := Active }})
      else (c, None)
  | Active => emit_active c
  end.

(** *** Bounds *)

Definition wf (c : SynthClock) : Prop :=
  len (queue c) <= SYNTH_MAX_FRAMES /\
  SYNTH_TARGET_FRAMES <= target_frames c <= SYNTH_MAX_TARGET_FRAMES /\
  0 <= underflow_ticks c <= SYNTH_IDLE_TICKS /\
  match state c with
  | Idle => queue c = [] /\ underflow_ticks c = 0
  | Prebuffering =>
      0 < len (queue c) < target_frames c /\ 0 <= prebuffer_ticks c < target_frames c /\
      pending_marker c = true
  | Active => True
  end.

Ltac unfold_consts := unfold SYNTH_MAX_FRAMES, SYNTH_TARGET_FRAMES, SYNTH_MAX_TARGET_FRAMES,
  SYNTH_IDLE_TICKS in *.

Lemma trim_spec q n :
  is_u64 n ->
  exists k, trim q n = (drop k q, wrap64 (n + Z.of_nat k)) /\
    Z.of_nat k = Z.max 0 (len q - SYNTH_MAX_FRAMES).
Proof.
  unfold_consts. revert n. induction q as [| x q IH]; intros n Hn.
  - exists 0%nat. cbn. split; [f_equal; mlia | done].
  - cbn [trim]. unfold SYNTH_MAX_FRAMES in *. rewrite len_cons. pose proof (len_nonneg q).
    destruct (Z.ltb_spec 14 (1 + len q)) as [H1 | H1].
    + destruct (IH (wrap64 (n + 1))) as (k & E & K); [mlia |]. rewrite E. exists (S k).
      split; [f_equal; mlia | lia].
    + exists 0%nat. split; [f_equal; mlia | lia].
Qed.

Definition counts_wf (c : SynthClock) : Prop := is_u64 (overflow_drops (counters c)).

Lemma push_wf c p : wf c -> counts_wf c -> wf (push c p) /\ counts_wf (push c p).
Proof.
  intros (Hq & Ht & Hu & Hs) Hc. unfold push, counts_wf, wf in *. unfold_consts.
  pose proof (len_nonneg (queue c)).
  destruct (trim_spec (queue c ++ [p]) (overflow_drops (counters c)) Hc) as (k & E & K).
  unfold SYNTH_MAX_FRAMES in K.
  assert (L0 : len (queue c ++ [p]) = len (queue c) + 1) by (by rewrite len_app).
  assert (L : len (drop k (queue c ++ [p])) = Z.min 14 (len (queue c) + 1)).
  { unfold len in *. rewrite length_drop, length_app. cbn [length]. lia. }
  destruct c as [id sq t ss step sil q st pm pt ut tf ur [ov uf ld]]; cbn in *.
  destruct st; cbn; rewrite E; cbn; rewrite ?L.
  - destruct Hs as [-> ->]. cbn in *. split_if; cbn; rewrite ?L; (split; [| mlia]);
      split_and!; try done; lia.
  - destruct Hs as (? & ? & ?). split_if; cbn; rewrite ?L; (split; [| mlia]); split_and!; try done; lia.
  - split; [| mlia]. split_and!; try done; lia.
Qed.

Lemma emit_fields c p sil :
  let '(c', pkt) := emit c p sil in
  queue c' = queue c /\ target_frames c' = target_frames c /\
  underflow_ticks c' = underflow_ticks c /\ state c' = state c /\ counters c' = counters c /\
  seq c' = wrap16 (seq c + 1) /\ ts c' = wrap32 (ts c + ts_step c) /\
  synth_ssrc c' = synth_ssrc c /\ ts_step c' = ts_step c /\ source_id c' = source_id c /\
  pkt = mkPacket (source_id c) L16_PT (seq c) (ts c) (synth_ssrc c)
          (pending_marker c && negb sil) p.
Proof. unfold emit. destruct (pending_marker c && negb sil); destruct c; cbn; by split_and!. Qed.

(** A tick on a well-formed clock: what it takes from the queue, what it emits,
    and how much closer to idle it gets. *)
Definition remaining (c : SynthClock) : Z :=
  match state c with
  | Idle => 0
  | Prebuffering => target_frames c - prebuffer_ticks c + len (queue c) + 11
  | Active => if len (queue c) =? 0 then 11 - underflow_ticks c else len (queue c) + 11
  end.

(** The frame a tick took from the queue, if any. *)
Definition taken (c c' : SynthClock) (out : option RoutedRtpPacket) : list bytes :=
  if len (queue c') <? len (queue c) then match out with Some p => [payload p] | None => [] end
  else [].

Definition stamped (c : SynthClock) (p : RoutedRtpPacket) : Prop :=
  source_endpoint_id p = source_id c /\ payload_type p = L16_PT /\
  sequence_number p = seq c /\ timestamp p = ts c /\ ssrc p = synth_ssrc c.

Definition tick_spec (c : SynthClock) (r : SynthClock * option RoutedRtpPacket) : Prop :=
  let '(c', out) := r in
  wf c' /\ overflow_drops (counters c') = overflow_drops (counters c) /\
  taken c c' out ++ queue c' = queue c /\
  (remaining c' = 0 \/ remaining c' < remaining c) /\
  synth_ssrc c' = synth_ssrc c /\ ts_step c' = ts_step c /\ source_id c' = source_id c /\
  match out with
  | Some p => stamped c p /\ seq c' = wrap16 (seq c + 1) /\ ts c' = wrap32 (ts c + ts_step c)
  | None => seq c' = seq c /\ ts c' = ts c
  end.

Lemma emit_active_spec c : wf c -> state c = Active -> tick_spec c (emit_active c).
Proof.
  intros (Hq & Ht & Hu & _) Hs. unfold emit_active, tick_spec, wf, remaining, taken, stamped in *.
  unfold_consts. destruct c as [id sq t ss step sil q st pm pt ut tf ur ct]; cbn in *. subst st.
  destruct q as [| x q]; cbn in *.
  - rewrite len_nil in *. assert (Ew : wrap32 (ut + 1) = ut + 1) by mlia. rewrite Ew.
    destruct (Z.ltb_spec 10 (ut + 1)); cbn.
    + destruct (_ && _) eqn:B; cbn; bool_prop; rewrite ?len_nil; cbn; split_and!; try done; try lia;
        by left.
    + unfold emit; cbn. rewrite andb_false_r; cbn. rewrite !len_nil; cbn.
      split_and!; try done; try lia.
  - rewrite len_cons in *. pose proof (len_nonneg q).
    unfold emit; cbn.
    assert (G : forall b : bool, (if b then 11 - 0 else len q + 11) < 1 + len q + 11)
      by (intros []; lia).
    destruct (Z.ltb_spec 0 ut); cbn;
      [destruct (negb ur && (tf <? 7)) eqn:B; cbn; bool_prop |];
      destruct (pm && true); cbn;
      rewrite (proj2 (Z.ltb_lt (len q) (1 + len q))), (proj2 (Z.eqb_neq (1 + len q) 0)) by lia; cbn;
      split_and!; try done; try lia; right; apply G.
Qed.

Lemma drain_tick_spec c : wf c -> tick_spec c (drain_tick c).
Proof.
  intros W. assert (W0 := W). destruct W as (Hq & Ht & Hu & Hs). unfold drain_tick.
  destruct (state c) eqn:Es.
  - unfold tick_spec, remaining, taken. rewrite Es, Z.ltb_irrefl. split_and!; try done. by left.
  - destruct Hs as (Hl & Hp & Hm). unfold_consts.
    set (c1 := c {{ prebuffer_ticks := wrap32 (prebuffer_ticks c + 1) }}).
    assert (F : queue c1 = queue c /\ target_frames c1 = target_frames c /\
      prebuffer_ticks c1 = prebuffer_ticks c + 1 /\ underflow_ticks c1 = underflow_ticks c /\
      state c1 = Prebuffering /\ seq c1 = seq c /\ ts c1 = ts c /\ synth_ssrc c1 = synth_ssrc c /\
      ts_step c1 = ts_step c /\ source_id c1 = source_id c /\ counters c1 = counters c /\
      pending_marker c1 = pending_marker c)
      by (unfold c1; destruct c; cbn in *; split_and!; try done; mlia).
    destruct F as (F1 & F2 & F3 & F4 & F5 & F6 & F7 & F8 & F9 & F10 & F11 & F12).
    destruct ((target_frames c1 <=? len (queue c1)) || (target_frames c1 <=? prebuffer_ticks c1)) eqn:B.
    + assert (S : tick_spec (c1 {{ state := Active }}) (emit_active (c1 {{ state := Active }}))).
      { apply emit_active_spec; [| by destruct c1]. unfold wf. unfold_consts.
        destruct c1; cbn in *. rewrite F1, F2, F4. split_and!; try done; lia. }
      assert (R : remaining (c1 {{ state := Active }}) < remaining c).
      { unfold remaining. rewrite Es. destruct c1; cbn in *. subst.
        destruct (Z.eqb_spec (len (queue c)) 0); lia. }
      unfold tick_spec, taken, stamped in *. destruct (emit_active _) as [c' out].
      destruct S as (S1 & S2 & S3 & S4 & S5 & S6 & S7 & S8).
      destruct c1; cbn in *; subst. split_and!; try done. lia.
    + apply orb_false_iff in B as [B1 B2]. bool_prop. unfold tick_spec, taken.
      rewrite F1, Z.ltb_irrefl. unfold wf, remaining. rewrite F1, F2, F3, F4, F5, F6, F7, F8, F9, F10,
        F11, F12, Es. unfold_consts. split_and!; try done; lia.
  - by apply emit_active_spec.
Qed.

(** *** Histories of arrivals and grid ticks *)

Inductive op := Push (p : bytes) | Tick.

(** The clock, the packets emitted and the queued frames that were played. *)
Fixpoint run (c : SynthClock) (ops : list op) : SynthClock * list RoutedRtpPacket * list bytes :=
  match ops with
  | [] => (c, [], [])
  | Push p :: ops => run (push c p) ops
  | Tick :: ops =>
      let '(c1, out) := drain_tick c in
      let '(c2, outs, heard) := run c1 ops in
      (c2, option_list out ++ outs, taken c c1 out ++ heard)
  end.

Definition pushed (ops : list op) : list bytes :=
  omap (fun o => match o with Push p => Some p | Tick => None end) ops.

Lemma push_fields c p :
  seq (push c p) = seq c /\ ts (push c p) = ts c /\ ts_step (push c p) = ts_step c /\
  synth_ssrc (push c p) = synth_ssrc c /\ source_id (push c p) = source_id c.
Proof.
  unfold push. destruct c as [id sq t ss step sil q st pm pt ut tf ur ct]; cbn.
  destruct st; cbn; destruct (trim _ _); cbn; [split_if | split_if |]; by split_and!.
Qed.

Lemma push_queue c p :
  counts_wf c -> exists k,
    queue (push c p) = drop k (queue c ++ [p]) /\
    Z.of_nat k = Z.max 0 (len (queue c) + 1 - SYNTH_MAX_FRAMES) /\
    overflow_drops (counters (push c p)) = wrap64 (overflow_drops (counters c) + Z.of_nat k).
Proof.
  intros H. destruct (trim_spec (queue c ++ [p]) _ H) as (k & E & K). exists k.
  rewrite len_app in K. split; [| split; [exact K |]];
    unfold push; destruct c as [id sq t ss step sil q st pm pt ut tf ur ct]; cbn in *;
    destruct st; cbn; rewrite E; cbn; try split_if; done.
Qed.

Lemma synth_wf id rate ss sq t : wf (synth id rate ss sq t) /\ counts_wf (synth id rate ss sq t).
Proof.
  unfold wf, counts_wf, synth. unfold_consts. cbn. rewrite len_nil.
  split; [| mlia]. split_and!; try done; lia.
Qed.

Lemma run_wf ops : forall c, wf c -> counts_wf c ->
  wf (run c ops).1.1 /\ counts_wf (run c ops).1.1.
Proof.
  induction ops as [| [p |] ops IH]; intros c W K; cbn [run]; [done | |].
  - destruct (push_wf c p W K). by apply IH.
  - pose proof (drain_tick_spec c W) as S. destruct (drain_tick c) as [c1 out].
    destruct S as (W1 & D & _). destruct (IH c1) as [G1 G2]; [done | by unfold counts_wf; rewrite D |].
    by destruct (run c1 ops) as [[c2 outs] heard].
Qed.

(** Whatever the arrivals, a clockless source's buffer holds at most 14
    frames (280 ms), its adaptive cushion stays between 3 and 7 frames, and it
    is never idle with audio queued. *)
Theorem synth_bounded id rate ss sq t ops :
  let c := (run (synth id rate ss sq t) ops).1.1 in
  len (queue c) <= SYNTH_MAX_FRAMES /\
  SYNTH_TARGET_FRAMES <= target_frames c <= SYNTH_MAX_TARGET_FRAMES /\
  (state c = Idle -> queue c = []).
Proof.
  destruct (synth_wf id rate ss sq t) as [W K].
  destruct (run_wf ops _ W K) as [(Hq & Ht & _ & Hs) _]. cbn zeta.
  split; [done |]. split; [done |]. intros E. rewrite E in Hs. apply Hs.
Qed.

Lemma run_timeline ops : forall c, wf c -> counts_wf c ->
  forall k p, (run c ops).1.2 !! k = Some p ->
  sequence_number p = (if decide (k = 0%nat) then seq c else wrap16 (seq c + Z.of_nat k)) /\
  timestamp p = (if decide (k = 0%nat) then ts c else wrap32 (ts c + Z.of_nat k * ts_step c)) /\
  ssrc p = synth_ssrc c /\ payload_type p = L16_PT /\ source_endpoint_id p = source_id c.
Proof.
  induction ops as [| [x |] ops IH]; intros c W K k p Hk; cbn [run] in Hk; [done | |].
  - destruct (push_wf c x W K) as [W1 K1]. destruct (push_fields c x) as (<- & <- & <- & <- & <-).
    exact (IH _ W1 K1 k p Hk).
  - pose proof (drain_tick_spec c W) as S. destruct (drain_tick c) as [c1 out].
    destruct S as (W1 & D & _ & _ & S1 & S2 & S3 & S4).
    assert (K1 : counts_wf c1) by (by unfold counts_wf; rewrite D).
    specialize (IH c1 W1 K1). destruct (run c1 ops) as [[c2 outs] heard]. cbn in Hk, IH.
    rewrite S1, S2, S3 in IH. destruct out as [q |]; cbn in Hk.
    + destruct S4 as ((Q1 & Q2 & Q3 & Q4 & Q5) & Es & Et). destruct k as [| k]; cbn in Hk.
      * injection Hk as <-. by split_and!.
      * destruct (IH k p Hk) as (I1 & I2 & I3 & I4 & I5). rewrite I1, I2, Es, Et.
        destruct (decide (k = 0%nat)) as [-> |]; cbn; split_and!; try done; try (f_equal; lia);
          unfold wrap16, wrap32; rewrite Zplus_mod_idemp_l; f_equal; lia.
    + destruct S4 as [<- <-]. exact (IH k p Hk).
Qed.

(** A clockless source's output is one contiguous RTP stream: over any
    history of arrivals and ticks, through silence fills, drops and idle
    periods, the [k]-th packet carries sequence number [seq + k] and timestamp
    [ts + k * 20 ms], modulo their widths, with constant SSRC and payload type. *)
Theorem synth_timeline id rate ss sq t ops k p
  (Hsq : is_u16 sq) (Ht : is_u32 t)
  (emitted : (run (synth id rate ss sq t) ops).1.2 !! k = Some p) :
  sequence_number p = wrap16 (sq + Z.of_nat k) /\
  timestamp p = wrap32 (t + Z.of_nat k * (rate / 50)) /\
  ssrc p = ss /\ payload_type p = L16_PT /\ source_endpoint_id p = id.
Proof.
  destruct (synth_wf id rate ss sq t) as [W K].
  destruct (run_timeline ops _ W K k p emitted) as (H1 & H2 & H3 & H4 & H5). cbn in *.
  rewrite H1, H2. destruct (decide (k = 0%nat)) as [-> |]; split_and!; try done; mlia.
Qed.

Lemma synth_timeline_witness :
  let c := synth 1 16000 9 65535 100 in
  let outs := (run c [Push [1]; Push [2]; Push [3]; Tick; Tick]).1.2 in
  exists p, outs !! 1%nat = Some p /\ sequence_number p = 0 /\ timestamp p = 420.
Proof.
  intros c outs. destruct (outs !! 1%nat) as [p |] eqn:E; [| by vm_compute in E].
  exists p. split; [done |].
  destruct (synth_timeline 1 16000 9 65535 100 _ 1 p ltac:(unfold is_u16; lia)
    ltac:(unfold is_u32; lia) E) as (H1 & H2 & _). split; [exact H1 | exact H2].
Defined.

Lemma sublist_same_length {A} (l k : list A) : sublist l k -> length k = length l -> l = k.
Proof.
  induction 1 as [| x l k _ IH | x l k S IH]; cbn; intros E; [done | f_equal; apply IH; lia |].
  apply sublist_length in S. lia.
Qed.

Lemma run_fifo ops : forall c past, wf c -> counts_wf c ->
  sublist (queue c) past ->
  let '(c', _, heard) := run c ops in
  sublist (heard ++ queue c') (past ++ pushed ops) /\
  exists drops, 0 <= drops /\ len (queue c) + len (pushed ops) = len heard + len (queue c') + drops /\
    overflow_drops (counters c') = wrap64 (overflow_drops (counters c) + drops).
Proof.
  induction ops as [| [p |] ops IH]; intros c past W K Sub; cbn [run].
  - cbn [pushed omap list_omap app]. rewrite app_nil_r. split; [done |]. exists 0.
    unfold counts_wf in K. split; [lia |]. split; [unfold len; cbn; lia | mlia].
  - destruct (push_wf c p W K) as [W1 K1]. destruct (push_queue c p K) as (k & Eq & Ek & Eo).
    specialize (IH (push c p) (past ++ [p]) W1 K1). destruct (run (push c p) ops) as [[c' outs] heard].
    destruct IH as (S & d & Hd & Hl & Ho).
    + rewrite Eq. trans (queue c ++ [p]); [apply sublist_drop | by apply sublist_app; [| reflexivity]].
    + split; [by rewrite <- app_assoc in S |]. exists (d + Z.of_nat k). cbn [pushed omap list_omap].
      fold (pushed ops). rewrite len_cons, Eq, Ho, Eo in *.
      assert (L : len (drop k (queue c ++ [p])) = len (queue c) + 1 - Z.of_nat k).
      { unfold len in *. rewrite length_drop, length_app. cbn [length]. destruct W. unfold_consts.
        lia. }
      split; [lia |]. split; [lia |]. unfold wrap64. rewrite Zplus_mod_idemp_l. f_equal. lia.
  - pose proof (drain_tick_spec c W) as T. destruct (drain_tick c) as [c1 out].
    destruct T as (W1 & D & Tq & _). assert (K1 : counts_wf c1) by (by unfold counts_wf; rewrite D).
    rewrite <- Tq in Sub. revert Sub. rewrite <- Tq. generalize (taken c c1 out). intros tk Sub.
    apply sublist_app_l in Sub as (p1 & p2 & -> & Sub1 & Sub2).
    specialize (IH c1 p2 W1 K1 Sub2). destruct (run c1 ops) as [[c' outs] heard].
    destruct IH as (S & d & Hd & Hl & Ho). split.
    + rewrite <- !app_assoc. by apply sublist_app.
    + exists d. rewrite !len_app. cbn [pushed omap list_omap]. fold (pushed ops).
      rewrite D in Ho. split; [lia |]. split; [lia | done].
Qed.

(** The queue of a clockless source is first-in first-out and every frame
    is accounted for: what has been played followed by what is still queued is
    a subsequence of what arrived, in order, and the difference is exactly the
    number of overflow drops that were counted; with no overflow nothing is
    missing. *)
Theorem synth_fifo id rate ss sq t ops
  (short : len (pushed ops) < u64_max) :
  let '(c, _, heard) := run (synth id rate ss sq t) ops in
  sublist (heard ++ queue c) (pushed ops) /\
  len (pushed ops) = len heard + len (queue c) + overflow_drops (counters c) /\
  (overflow_drops (counters c) = 0 -> heard ++ queue c = pushed ops).
Proof.
  destruct (synth_wf id rate ss sq t) as [W K].
  pose proof (run_fifo ops _ [] W K (sublist_nil_l _)) as H.
  destruct (run (synth id rate ss sq t) ops) as [[c outs] heard].
  destruct H as (S & d & Hd & Hl & Ho). cbn in S, Hl, Ho. rewrite len_nil in Hl.
  pose proof (len_nonneg heard). pose proof (len_nonneg (queue c)).
  assert (E : overflow_drops (counters c) = d) by mlia.
  split; [done |]. split; [lia |]. intros E0.
  assert (L : length (pushed ops) = length (heard ++ queue c))
    by (rewrite length_app; unfold len in *; lia).
  by apply sublist_same_length.
Qed.

Lemma synth_fifo_witness :
  let ops := [Push [1]; Push [2]; Push [3]; Tick; Tick; Push [4]] in
  let '(c, _, heard) := run (synth 1 16000 9 0 0) ops in heard ++ queue c = [[1]; [2]; [3]; [4]].
Proof.
  pose proof (synth_fifo 1 16000 9 0 0 [Push [1]; Push [2]; Push [3]; Tick; Tick; Push [4]]
    ltac:(by vm_compute)) as H.
  cbn zeta. destruct (run _ _) as [[c outs] heard] eqn:E. destruct H as (_ & H1 & H2).
  apply H2. vm_compute in E. by injection E as <- _ _.
Defined.

Lemma run_ticks n : forall c, wf c -> remaining c <= Z.of_nat n ->
  let '(c', _, heard) := run c (replicate n Tick) in
  state c' = Idle /\ queue c' = [] /\ heard = queue c.
Proof.
  assert (Z0 : forall c, wf c -> remaining c <= 0 -> state c = Idle /\ queue c = []).
  { intros c (Hq & Ht & Hu & Hs) R. unfold remaining in R. unfold_consts.
    pose proof (len_nonneg (queue c)).
    destruct (state c); [by destruct Hs | lia |]. destruct (len (queue c) =? 0); lia. }
  induction n as [| n IH]; intros c W R; cbn [replicate run].
  - destruct (Z0 c W ltac:(lia)) as [-> ->]. done.
  - pose proof (drain_tick_spec c W) as T. destruct (drain_tick c) as [c1 out].
    destruct T as (W1 & _ & Tq & Tr & _).
    specialize (IH c1 W1 ltac:(lia)). destruct (run c1 (replicate n Tick)) as [[c' outs] heard].
    destruct IH as (I1 & I2 & ->). split_and!; done.
Qed.

(** C24: queued audio is never stuck and a source that stops does go idle: from
    any reachable state, 32 grid ticks (640 ms) without arrivals play every
    queued frame, in order, and leave the source idle with an empty queue. *)
Theorem synth_settles id rate ss sq t ops :
  let c := (run (synth id rate ss sq t) ops).1.1 in
  let '(c', _, heard) := run c (replicate 32 Tick) in
  state c' = Idle /\ queue c' = [] /\ heard = queue c.
Proof.
  intros c. destruct (synth_wf id rate ss sq t) as [W K].
  destruct (run_wf ops _ W K) as [W' _]. fold c in W'.
  apply run_ticks; [done |]. destruct W' as (Hq & Ht & Hu & Hs). unfold remaining. unfold_consts.
  destruct (state c); [lia | lia |]. destruct (len (queue c) =? 0); lia.
Qed.

End Synth.

(** ** Ordered maps: a [BTreeMap] as its list of entries in key order *)

Module BTree.
Section btree.
Context {V : Type}.

Fixpoint insert (k : Z) (v : V) (l : list (Z * V)) : list (Z * V) :=
  match l with
  | [] => [(k, v)]
  | (k', v') :: rest =>
      if k <? k' then (k, v) :: l
      else if k =? k' then (k, v) :: rest
      else (k', v') :: insert k v rest
  end.

(** [remove]: the value, if there, and the map without the key. *)
Fixpoint remove (k : Z) (l : list (Z * V)) : option V * list (Z * V) :=
  match l with
  | [] => (None, [])
  | (k', v') :: rest =>
      if k =? k' then (Some v', rest)
      else let '(r, rest) := remove k rest in (r, (k', v') :: rest)
  end.

(** All keys above [lo], ascending. *)
Fixpoint above (lo : Z) (l : list (Z * V)) : Prop :=
  match l with
  | [] => True
  | (k, _) :: rest => lo < k /\ above k rest
  end.

Lemma above_weaken lo lo' l : lo' <= lo -> above lo l -> above lo' l.
Proof. destruct l as [| [k v] l]; cbn; [done |]. intros ? [? ?]. split; [lia | done]. Qed.

Lemma insert_above lo k v l : lo < k -> above lo l -> above lo (insert k v l).
Proof.
  revert lo. induction l as [| [k' v'] l IH]; intros lo Hk H; cbn [insert]; [by split |].
  destruct H as [H1 H2]. split_ifs; [by split | subst; by split | split; [done |]].
  apply IH; [lia | done].
Qed.

Lemma insert_elem k v l k' v' :
  (k', v') ∈ insert k v l -> (k', v') = (k, v) \/ ((k', v') ∈ l).
Proof.
  induction l as [| [x y] l IH]; cbn [insert]; [rewrite list_elem_of_singleton; by left |].
  split_ifs; rewrite ?elem_of_cons; intros H; [tauto | tauto |].
  destruct H as [H | H]; [tauto |]. destruct (IH H); tauto.
Qed.

Lemma insert_length_le k v l : len l <= len (insert k v l) <= len l + 1.
Proof.
  induction l as [| [x y] l IH]; cbn [insert]; [done |].
  split_ifs; rewrite ?len_cons in *; lia.
Qed.

Lemma remove_head k v l : remove k ((k, v) :: l) = (Some v, l).
Proof. cbn. by rewrite Z.eqb_refl. Qed.

End btree.
End BTree.

(** ** Network sources *)

Module Tracked.

Record TrackedClock := mkTracked {
  format : option (Codec.AudioCodec * Z);
  source_id : EndpointId;
  clock_rate : Z;
  cur_ssrc : option Z;
  roc : Z;
  max_seq : Z;
  seen_any : bool;
  last_emitted_ext : option Z;
  last_arrival : option Z;
  anchor : option (Z * Z);
  target_delay : Z;
  max_delay : Z;
  mixer_fed : bool;
  max_frames : Z;
  queue : list (Z * RoutedRtpPacket);
  pending_marker : bool;
  underflow_run : Z;
  counters : PlayoutCounters;
}.

Definition tracked (source_id : EndpointId) (rate : Z) (mixer_fed : bool) : TrackedClock :=
  mkTracked None source_id (Z.max rate 1) None 0 0 false None None None
    ((if mixer_fed then TRACKED_MIXER_TARGET_MS else TRACKED_SHALLOW_MS) * ns_per_ms)
    ((if mixer_fed then TRACKED_MIXER_MAX_MS else TRACKED_SHALLOW_MS) * ns_per_ms)
    mixer_fed (if mixer_fed then TRACKED_MAX_FRAMES else REORDER_MAX_FRAMES)
    [] true 0 no_counters.

Definition reset (c : TrackedClock) (s : Z) : TrackedClock :=
  c {{ cur_ssrc := Some s; roc := 0; seen_any := false; last_emitted_ext := None;
       last_arrival := None; anchor := None; queue := []; pending_marker := true;
       underflow_run := 0 }}.

Definition extend_seq (c : TrackedClock) (seq : Z) : TrackedClock * option Z :=
  if negb (seen_any c) then
    (c {{ seen_any := true; max_seq := seq }}, Some (Z.lor (Z.shiftl (roc c) 16) seq))
  else
    let forward := wrap16 (seq - max_seq c) in
    if forward <? 32768 then
      let c := if seq <? max_seq c then c {{ roc := wrap32 (roc c + 1) }} else c in
      let c := c {{ max_seq := seq }} in
      (c, Some (Z.lor (Z.shiftl (roc c) 16) seq))
    else if max_seq c <? seq then
      if roc c =? 0 then (c, None)
      else (c, Some (Z.lor (Z.shiftl (roc c - 1) 16) seq))
    else (c, Some (Z.lor (Z.shiftl (roc c) 16) seq)).

Definition count_late (c : TrackedClock) : TrackedClock :=
  c {{ counters := (counters c) {{ late_drops := wrap64 (late_drops (counters c) + 1) }} }}.

(** The overflow loop sheds the oldest entries; it also says whether it did. *)
Fixpoint shed (q : list (Z * RoutedRtpPacket)) (c : TrackedClock) (dropped : bool)
    : TrackedClock * bool :=
  if max_frames c <? len q then
    match q with
    | (oldest, _) :: rest =>
        shed rest (c {{ queue := rest; last_emitted_ext := Some oldest;
                        counters := (counters c)
                          {{ overflow_drops := wrap64 (overflow_drops (counters c) + 1) }} }}) true
    | [] => (c, dropped)
    end
  else (c, dropped).

(** The part of [push] before the sequence number is extended. *)
Definition push_source (c : TrackedClock) (pkt : RoutedRtpPacket) (arrival : Z) : TrackedClock :=
  let c :=
    match cur_ssrc c with
    | Some cur => if cur =? ssrc pkt then c else reset c (ssrc pkt)
    | None => c {{ cur_ssrc := Some (ssrc pkt) }}
    end in
  let c :=
    match queue c, last_arrival c with
    | [], Some last =>
        if TRACKED_GAP_RESET <? duration_since arrival last
        then c {{ anchor := None; pending_marker := true; underflow_run := 0 }} else c
    | _, _ => c
    end in
  c {{ last_arrival := Some arrival }}.

(** Queueing an accepted packet, with the overflow loop and the re-anchoring. *)
Definition enqueue (c : TrackedClock) (ext : Z) (pkt : RoutedRtpPacket) (arrival : Z)
    : TrackedClock :=
  let c :=
    match anchor c with
    | None => c {{ anchor := Some (timestamp pkt, arrival + target_delay c) }}
    | Some _ => c
    end in
  let c := c {{ queue := BTree.insert ext pkt (queue c) }} in
  let '(c, dropped) := shed (queue c) c false in
  match dropped, queue c with
  | true, (_, head) :: _ => c {{ anchor := Some (timestamp head, arrival + target_delay c) }}
  | _, _ => c
  end.

Definition push (c : TrackedClock) (pkt : RoutedRtpPacket) (arrival : Z) : TrackedClock :=
  let c := push_source c pkt arrival in
  let '(c, ext) := extend_seq c (sequence_number pkt) in
  match ext with
  | None => count_late c
  | Some ext =>
      match last_emitted_ext c with
      | Some last => if ext <=? last then count_late c else enqueue c ext pkt arrival
      | None => enqueue c ext pkt arrival
      end
  end.

Definition play_time (c : TrackedClock) (ts anchor_ts anchor_play : Z) : Z :=
  let fwd := wrap32 (ts - anchor_ts) in
  if fwd <? 2147483648 then
    anchor_play + sat_mul64 fwd 1000000 / clock_rate c * ns_per_us
  else
    let back := wrap32 (anchor_ts - ts) in
    default anchor_play
      (instant_checked_sub anchor_play (sat_mul64 back 1000000 / clock_rate c * ns_per_us)).

(** [expect] on a missing head is a panic. *)
Definition take_head (c : TrackedClock) (ext : Z) : outcome (TrackedClock * RoutedRtpPacket) :=
  match BTree.remove ext (queue c) with
  | (None, _) => Panic
  | (Some pkt, q) =>
      let c := c {{ queue := q; last_emitted_ext := Some ext }} in
      let '(c, pkt) := if pending_marker c
                       then (c {{ pending_marker := false }}, pkt {{ marker := true }})
                       else (c, pkt) in
      Val (c, pkt {{ source_endpoint_id := source_id c }})
  end.

Fixpoint paced_loop (fuel : nat) (c : TrackedClock) (anchor_ts anchor_play grid_now : Z)
    : outcome (TrackedClock * option RoutedRtpPacket) :=
  match fuel with
  | O => Panic
  | S fuel =>
      match queue c with
      | [] =>
          let c := c {{ underflow_run := wrap32 (underflow_run c + 1) }} in
          let c := if (3 <=? underflow_run c) && (target_delay c <? max_delay c)
                   then c {{ target_delay := Z.min (target_delay c + FRAME) (max_delay c);
                             underflow_run := 0 }} else c in
          Val (c, None)
      | (head_ext, head) :: _ =>
          let play := play_time c (timestamp head) anchor_ts anchor_play in
          if grid_now <? play then Val (c, None)
          else if max_delay c <? duration_since grid_now play then
            let c := c {{ queue := (BTree.remove head_ext (queue c)).2;
                          last_emitted_ext := Some head_ext }} in
            paced_loop fuel (count_late c) anchor_ts anchor_play grid_now
          else
            let! r := take_head (c {{ underflow_run := 0 }}) head_ext in
            Val (r.1, Some r.2)
      end
  end.

Definition drain_paced (c : TrackedClock) (grid_now : Z)
    : outcome (TrackedClock * option RoutedRtpPacket) :=
  match anchor c with
  | None => Val (c, None)
  | Some (anchor_ts, anchor_play) =>
      paced_loop (S (length (queue c))) c anchor_ts anchor_play grid_now
  end.

Definition drain_reorder (c : TrackedClock) : outcome (TrackedClock * option RoutedRtpPacket) :=
  match queue c with
  | [] => Val (c, None)
  | (head_ext, _) :: _ =>
      let releasable :=
        match last_emitted_ext c with
        | None => true
        | Some last => (head_ext =? wrap64 (last + 1)) || (REORDER_DEPTH <=? len (queue c))
        end in
      if releasable then let! r := take_head c head_ext in Val (r.1, Some r.2)
      else Val (c, None)
  end.

Definition drain_tick (c : TrackedClock) (grid_now : Z)
    : outcome (TrackedClock * option RoutedRtpPacket) :=
  if mixer_fed c then drain_paced c grid_now else drain_reorder c.

(** *** Invariant *)

Definition floor_ext (c : TrackedClock) : Z := default (-1) (last_emitted_ext c).

Record inv (c : TrackedClock) : Prop := {
  inv_sorted : BTree.above (floor_ext c) (queue c);
  inv_floor : -1 <= floor_ext c;
  inv_cap : len (queue c) <= max_frames c;
  inv_frames : 1 <= max_frames c;
  inv_anchor : queue c <> [] -> anchor c <> None;
  inv_delay : target_delay c <= max_delay c;
  inv_roc : is_u32 (roc c);
  inv_max : is_u16 (max_seq c);
  inv_seq : Forall (fun ep => sequence_number ep.2 = wrap16 ep.1) (queue c);
  inv_ssrc : Forall (fun ep => Some (ssrc ep.2) = cur_ssrc c) (queue c);
}.

Lemma tracked_inv id rate mf : inv (tracked id rate mf).
Proof. destruct mf; constructor; cbn; try done; unfold is_u32, is_u16; lia. Qed.

(** The fields that draining does not change. *)
Definition same_source (c c' : TrackedClock) : Prop :=
  cur_ssrc c' = cur_ssrc c /\ roc c' = roc c /\ max_seq c' = max_seq c /\
  seen_any c' = seen_any c /\ max_frames c' = max_frames c /\ max_delay c' = max_delay c /\
  mixer_fed c' = mixer_fed c /\ overflow_drops (counters c') = overflow_drops (counters c).

(** An emitted packet is a queued one, up to marker and source id. *)
Definition emits (pkt p : RoutedRtpPacket) : Prop :=
  exists m s, p = pkt {{ marker := m; source_endpoint_id := s }}.

(** Draining takes stale packets and at most one emitted packet off the head. *)
Definition drained (c c' : TrackedClock) (out : option RoutedRtpPacket) : Prop :=
  exists stale,
    same_source c c' /\
    late_drops (counters c') = wrap64 (late_drops (counters c) + len stale) /\
    match out with
    | None => queue c = stale ++ queue c' /\ floor_ext c <= floor_ext c'
    | Some p => exists e pkt, queue c = stale ++ (e, pkt) :: queue c' /\
                  last_emitted_ext c' = Some e /\ emits pkt p
    end.

Lemma same_source_refl c : same_source c c.
Proof. by unfold same_source. Qed.

Lemma above_app_r {V} lo (l1 l2 : list (Z * V)) x :
  BTree.above lo (l1 ++ x :: l2) -> BTree.above x.1 l2.
Proof.
  revert lo. induction l1 as [| [k v] l1 IH]; intros lo; cbn.
  - destruct x. by intros [_ H].
  - intros [_ H]. by eapply IH.
Qed.

Lemma above_elem {V} lo (l : list (Z * V)) x : BTree.above lo l -> x ∈ l -> lo < x.1.
Proof.
  revert lo. induction l as [| [k v] l IH]; intros lo; cbn; [by intros _ ?%elem_of_nil |].
  intros [H1 H2] [-> | Hx]%elem_of_cons; [done |]. specialize (IH k H2 Hx). lia.
Qed.

(** Moving the floor up to the head keeps the invariant. *)
Lemma inv_pop c c' e pkt q :
  inv c -> queue c = (e, pkt) :: q -> queue c' = q -> last_emitted_ext c' = Some e ->
  same_source c c' -> anchor c' = anchor c -> target_delay c' = target_delay c -> inv c'.
Proof.
  intros [I1 I2 I3 I4 I5 I6 I7 I8 I9 I10] Eq Eq' El (S1&S2&S3&S4&S5&S6&S7&S8) Ea Et.
  rewrite Eq in *. cbn in I1. destruct I1 as [I1 I1'].
  apply Forall_cons in I9 as [_ I9], I10 as [_ I10]. rewrite len_cons in I3.
  constructor; unfold floor_ext; rewrite ?El, ?Eq', ?S1, ?S2, ?S3, ?S5, ?S6, ?Ea, ?Et; cbn;
    try done; try lia. intros _. by apply I5.
Qed.

Lemma take_head_spec c e pkt q :
  inv c -> queue c = (e, pkt) :: q ->
  exists c' p, take_head c e = Val (c', p) /\ inv c' /\ same_source c c' /\ queue c' = q /\
    late_drops (counters c') = late_drops (counters c) /\
    last_emitted_ext c' = Some e /\ emits pkt p.
Proof.
  intros I Eq. unfold take_head. rewrite Eq, BTree.remove_head.
  destruct (pending_marker _) eqn:Pm.
  - eexists _, _. split; [done |].
    split; [eapply (inv_pop c); try done; destruct c; done |].
    split; [by destruct c |]. split_and!; try (by destruct c).
    exists true, (source_id c). destruct c, pkt; done.
  - eexists _, _. split; [done |].
    split; [eapply (inv_pop c); try done; destruct c; done |].
    split; [by destruct c |]. split_and!; try (by destruct c).
    exists (marker pkt), (source_id c). destruct c, pkt; done.
Qed.

Lemma drained_none c : is_u64 (late_drops (counters c)) -> drained c c None.
Proof.
  intros H. exists []. split; [apply same_source_refl |]. rewrite len_nil.
  split; [mlia |]. split; [done | lia].
Qed.

Lemma paced_loop_spec fuel : forall c at_ ap now,
  inv c -> is_u64 (late_drops (counters c)) -> (length (queue c) < fuel)%nat ->
  exists c' out, paced_loop fuel c at_ ap now = Val (c', out) /\ inv c' /\ drained c c' out.
Proof.
  induction fuel as [| fuel IH]; intros c at_ ap now I L Hf; [lia |]. cbn [paced_loop].
  destruct (queue c) as [| [e pkt] q] eqn:Eq.
  - eexists _, _. split; [done |]. destruct I as [I1 I2 I3 I4 I5 I6 I7 I8 I9 I10].
    assert (D : drained c c None) by (by apply drained_none).
    assert (HF : 0 <= FRAME) by done.
    destruct ((3 <=? _) && _) eqn:B.
    + apply andb_true_iff in B as [_ B]. bool_prop.
      split; [constructor; unfold floor_ext in *; destruct c; cbn in *; try done; lia |].
      unfold drained, same_source in *. destruct c; cbn in *; exact D.
    + split; [constructor; unfold floor_ext in *; destruct c; cbn in *; done |].
      unfold drained, same_source in *. destruct c; cbn in *; exact D.
  - destruct (now <? _); [eexists _, _; split; [done |]; split; [done | by apply drained_none] |].
    destruct (max_delay c <? _).
    + set (c1 := count_late _).
      assert (S1 : same_source c c1) by (unfold c1; by destruct c).
      assert (Q1 : queue c1 = q).
      { unfold c1. rewrite BTree.remove_head. by destruct c. }
      assert (E1 : last_emitted_ext c1 = Some e) by (unfold c1; by destruct c).
      assert (L1 : late_drops (counters c1) = wrap64 (late_drops (counters c) + 1))
        by (unfold c1; by destruct c as [? ? ? ? ? ? ? ? ? ? ? ? ? ? ? ? ? []]).
      assert (I1 : inv c1) by (eapply (inv_pop c); try done; unfold c1; by destruct c).
      destruct (IH c1 at_ ap now I1) as (c' & out & E & I' & (st & SS & Hl & Ho)).
      { rewrite L1. mlia. }
      { rewrite Q1. cbn in Hf. lia. }
      exists c', out. split; [done |]. split; [done |]. exists ((e, pkt) :: st).
      split; [destruct S1 as (?&?&?&?&?&?&?&?), SS as (?&?&?&?&?&?&?&?); unfold same_source;
              split_and!; congruence |].
      split; [rewrite Hl, L1, len_cons; unfold wrap64; rewrite Zplus_mod_idemp_l; f_equal; lia |].
      rewrite Eq. destruct out as [p |].
      * destruct Ho as (e' & pkt' & H1 & H2 & H3). exists e', pkt'. rewrite <- Q1, H1. done.
      * destruct Ho as [H1 H2]. rewrite <- Q1, H1. split; [done |].
        pose proof (inv_sorted c I) as Hs. rewrite Eq in Hs. destruct Hs as [Hs _].
        unfold floor_ext in *. rewrite E1 in H2. cbn in H2. lia.
    + assert (Iu : inv (c {{ underflow_run := 0 }})).
      { destruct I as [I1 I2 I3 I4 I5 I6 I7 I8 I9 I10].
        constructor; unfold floor_ext in *; destruct c; cbn in *; done. }
      destruct (take_head_spec (c {{ underflow_run := 0 }}) e pkt q Iu) as
        (c' & p & E & I' & S' & Q' & L' & El & Em); [by destruct c |].
      rewrite E. cbn [obind fst snd]. eexists _, _. split; [done |]. split; [done |]. exists [].
      split; [by destruct c |]. rewrite len_nil. split; [rewrite L'; destruct c; cbn in *; mlia |].
      exists e, pkt. by rewrite Eq, Q'.
Qed.

Lemma drain_tick_spec_tracked c now :
  inv c -> is_u64 (late_drops (counters c)) ->
  exists c' out, drain_tick c now = Val (c', out) /\ inv c' /\ drained c c' out.
Proof.
  intros I L. unfold drain_tick. destruct (mixer_fed c).
  - unfold drain_paced. destruct (anchor c) as [[at_ ap] |].
    + apply paced_loop_spec; [done | done | lia].
    + eexists _, _. split; [done |]. split; [done | by apply drained_none].
  - unfold drain_reorder. destruct (queue c) as [| [e pkt] q] eqn:Eq.
    { eexists _, _. split; [done |]. split; [done | by apply drained_none]. }
    match goal with |- context [if ?b then _ else _] => destruct b end.
    + destruct (take_head_spec c e pkt q I Eq) as (c' & p & E & I' & S' & Q' & L' & El & Em).
      rewrite E. cbn [obind fst snd]. eexists _, _. split; [done |]. split; [done |]. exists [].
      split; [done |]. rewrite len_nil. split; [rewrite L'; mlia |]. exists e, pkt. by rewrite Eq, Q'.
    + eexists _, _. split; [done |]. split; [done | by apply drained_none].
Qed.

(** *** Arrivals *)

(** The true index of the highest packet seen in this generation. *)
Definition position (c : TrackedClock) (m : option Z) : Prop :=
  match m with
  | None => seen_any c = false /\ roc c = 0
  | Some m => seen_any c = true /\ roc c * 65536 + max_seq c = m
  end.

(** Within half the sequence space of it; the first packet sets the origin. *)
Definition near (m : option Z) (i : Z) : Prop :=
  match m with
  | None => 0 <= i < 65536
  | Some m => -32768 <= i - m <= 32767 /\ i < 281474976710656
  end.

Definition advance (m : option Z) (i : Z) : Z := match m with None => i | Some m => Z.max m i end.

Definition only_position (c c' : TrackedClock) : Prop :=
  cur_ssrc c' = cur_ssrc c /\ last_emitted_ext c' = last_emitted_ext c /\ queue c' = queue c /\
  anchor c' = anchor c /\ target_delay c' = target_delay c /\ max_delay c' = max_delay c /\
  max_frames c' = max_frames c /\ counters c' = counters c /\ mixer_fed c' = mixer_fed c /\
  last_arrival c' = last_arrival c.

Lemma join_ext r s : is_u16 s -> Z.lor (Z.shiftl r 16) s = r * 65536 + s.
Proof. intros. rewrite shiftl_mul by lia. by apply lor_add. Qed.

Lemma extend_seq_typed c seq :
  is_u32 (roc c) -> is_u16 (max_seq c) -> is_u16 seq ->
  let '(c', ext) := extend_seq c seq in
  only_position c c' /\ is_u32 (roc c') /\ is_u16 (max_seq c') /\
  match ext with Some e => 0 <= e /\ wrap16 e = seq | None => True end.
Proof.
  intros Hr Hm Hs. unfold extend_seq, only_position. rewrite !join_ext by done.
  split_ifs; rewrite ?join_ext by done; destruct c; cbn in *; split_and!; try done; mlia.
Qed.

Lemma extend_seq_exact c m i :
  is_u32 (roc c) -> is_u16 (max_seq c) -> position c m -> near m i ->
  let '(c', ext) := extend_seq c (wrap16 i) in
  position c' (Some (advance m i)) /\ ext = (if i <? 0 then None else Some i).
Proof.
  intros Hr Hm P N. unfold extend_seq, position, near, advance in *. destruct m as [m |].
  - destruct P as [P1 P2], N as [N1 N2]. rewrite P1. cbn [negb].
    rewrite !join_ext by mlia.
    split_ifs; rewrite ?join_ext by mlia; destruct c; cbn in *; split_and!; try done; try mlia;
      f_equal; mlia.
  - destruct P as [P1 P2]. rewrite P1, P2. cbn [negb]. rewrite join_ext by mlia.
    rewrite (proj2 (Z.ltb_ge i 0)) by lia. destruct c; cbn in *.
    split; [split; [done | subst; mlia] | f_equal; mlia].
Qed.

Definition shed_fields (c c' : TrackedClock) : Prop :=
  cur_ssrc c' = cur_ssrc c /\ roc c' = roc c /\ max_seq c' = max_seq c /\
  seen_any c' = seen_any c /\ max_frames c' = max_frames c /\ max_delay c' = max_delay c /\
  mixer_fed c' = mixer_fed c /\ target_delay c' = target_delay c /\ anchor c' = anchor c /\
  late_drops (counters c') = late_drops (counters c).

Lemma shed_spec q : forall c d,
  queue c = q -> BTree.above (floor_ext c) q -> 1 <= max_frames c ->
  is_u64 (overflow_drops (counters c)) ->
  let '(c', b) := shed q c d in
  shed_fields c c' /\ len (queue c') <= max_frames c /\
  BTree.above (floor_ext c') (queue c') /\ floor_ext c <= floor_ext c' /\
  exists dr, q = dr ++ queue c' /\
    overflow_drops (counters c') = wrap64 (overflow_drops (counters c) + len dr).
Proof.
  induction q as [| [e p] q IH]; intros c d Eq Ab Hm Ho; cbn [shed].
  - rewrite len_nil, (proj2 (Z.ltb_ge _ _)) by lia.
    split; [by destruct c |]. rewrite Eq. split; [unfold len; cbn; lia |]. split; [done |].
    split; [lia |]. exists []. rewrite len_nil. split; [done | mlia].
  - destruct (Z.ltb_spec (max_frames c) (len ((e, p) :: q))) as [H | H].
    + destruct Ab as [A1 A2].
      match goal with |- context [shed q ?x true] => set (c1 := x) end.
      specialize (IH c1 true). destruct (shed q c1 true) as [c' b].
      destruct IH as (F & L & A & Fl & dr & E & O).
      { unfold c1. by destruct c. }
      { unfold floor_ext, c1. destruct c; cbn. done. }
      { unfold c1. by destruct c. }
      { unfold c1. destruct c as [? ? ? ? ? ? ? ? ? ? ? ? ? ? ? ? ? []]; cbn in *. mlia. }
      assert (M : max_frames c1 = max_frames c) by (unfold c1; by destruct c).
      split; [destruct F as (?&?&?&?&?&?&?&?&?&?); unfold shed_fields, c1 in *;
              destruct c as [? ? ? ? ? ? ? ? ? ? ? ? ? ? ? ? ? []]; cbn in *;
              split_and!; congruence |].
      split; [by rewrite <- M |]. split; [done |].
      split; [unfold floor_ext, c1 in *; destruct c; cbn in *; lia |].
      exists ((e, p) :: dr). split; [by rewrite E |].
      rewrite O, len_cons. unfold c1. destruct c as [? ? ? ? ? ? ? ? ? ? ? ? ? ? ? ? ? []]; cbn.
      unfold wrap64. rewrite Zplus_mod_idemp_l. f_equal. lia.
    + split; [by destruct c |]. rewrite Eq. split; [done |]. split; [done |]. split; [lia |].
      exists []. rewrite len_nil. split; [done | mlia].
Qed.

Lemma enqueue_spec c ext pkt a :
  inv c -> floor_ext c < ext -> sequence_number pkt = wrap16 ext -> Some (ssrc pkt) = cur_ssrc c ->
  is_u64 (overflow_drops (counters c)) ->
  let c' := enqueue c ext pkt a in
  inv c' /\ floor_ext c <= floor_ext c' /\
  roc c' = roc c /\ max_seq c' = max_seq c /\ seen_any c' = seen_any c /\ cur_ssrc c' = cur_ssrc c /\
  late_drops (counters c') = late_drops (counters c) /\
  exists dr, BTree.insert ext pkt (queue c) = dr ++ queue c' /\
    overflow_drops (counters c') = wrap64 (overflow_drops (counters c) + len dr).
Proof.
  intros I Hf Hseq Hss Ho c'. unfold c', enqueue.
  set (c1 := match anchor c with
             | Some _ => c
             | None => c {{ anchor := Some (timestamp pkt, a + target_delay c) }} end).
  set (c2 := c1 {{ queue := BTree.insert ext pkt (queue c1) }}).
  assert (Q1 : queue c1 = queue c) by (unfold c1; destruct (anchor c); by destruct c).
  assert (F2 : queue c2 = BTree.insert ext pkt (queue c) /\ floor_ext c2 = floor_ext c /\
    max_frames c2 = max_frames c /\ counters c2 = counters c /\ anchor c2 <> None /\
    target_delay c2 = target_delay c /\ max_delay c2 = max_delay c /\ roc c2 = roc c /\
    max_seq c2 = max_seq c /\ seen_any c2 = seen_any c /\ cur_ssrc c2 = cur_ssrc c).
  { unfold c2. rewrite <- Q1. unfold floor_ext, c1. destruct (anchor c) eqn:Ea; destruct c; cbn in *;
      split_and!; try done; congruence. }
  destruct F2 as (G1 & G2 & G3 & G4 & G5 & G6 & G7 & G8 & G9 & G10 & G11).
  destruct I as [I1 I2 I3 I4 I5 I6 I7 I8 I9 I10].
  pose proof (shed_spec (queue c2) c2 false eq_refl) as S.
  destruct (shed (queue c2) c2 false) as [c3 b].
  destruct S as ((S1&S2&S3&S4&S5&S6&S7&S8&S9&S10) & L & A & Fl & dr & E & O).
  { rewrite G1, G2. by apply BTree.insert_above. }
  { by rewrite G3. }
  { by rewrite G4. }
  rewrite G1 in E. rewrite G4 in *. rewrite G2 in Fl.
  assert (Sub : forall x, x ∈ queue c3 -> x = (ext, pkt) \/ x ∈ queue c).
  { intros [k v] Hx. apply (BTree.insert_elem ext pkt). rewrite E. apply elem_of_app. by right. }
  assert (I3' : inv c3).
  { constructor; unfold is_u32, is_u16 in *; rewrite ?S1, ?S2, ?S3, ?S5, ?S6, ?S8, ?S9, ?G3, ?G6, ?G7,
      ?G8, ?G9, ?G11; try done; try lia.
    - apply Forall_forall. intros x [-> | Hx]%Sub; [done |]. by apply (proj1 (Forall_forall _ _) I9).
    - apply Forall_forall. intros x [-> | Hx]%Sub; [done |]. by apply (proj1 (Forall_forall _ _) I10). }
  assert (R : inv c3 /\ floor_ext c <= floor_ext c3 /\ roc c3 = roc c /\ max_seq c3 = max_seq c /\
    seen_any c3 = seen_any c /\ cur_ssrc c3 = cur_ssrc c /\
    late_drops (counters c3) = late_drops (counters c) /\
    exists dr, BTree.insert ext pkt (queue c) = dr ++ queue c3 /\
      overflow_drops (counters c3) = wrap64 (overflow_drops (counters c) + len dr))
    by (split_and!; try done; try congruence; by exists dr).
  destruct b; [| exact R]. destruct (queue c3) as [| [k h] q3] eqn:Eq3; [by rewrite Eq3 |].
  destruct R as ([J1 J2 J3 J4 J5 J6 J7 J8 J9 J10] & R).
  split; [constructor; unfold floor_ext in *; destruct c3; cbn in *; done |].
  rewrite <- Eq3 in R. unfold floor_ext in *. destruct c3; cbn in *. exact R.
Qed.

Lemma push_source_spec c pkt a :
  inv c ->
  let c1 := push_source c pkt a in
  inv c1 /\ cur_ssrc c1 = Some (ssrc pkt) /\ counters c1 = counters c /\
  max_frames c1 = max_frames c /\
  (cur_ssrc c = None \/ cur_ssrc c = Some (ssrc pkt) ->
   queue c1 = queue c /\ last_emitted_ext c1 = last_emitted_ext c /\
   roc c1 = roc c /\ max_seq c1 = max_seq c /\ seen_any c1 = seen_any c).
Proof.
  intros I c1. unfold c1, push_source.
  set (ca := match cur_ssrc c with
             | Some cur => if cur =? ssrc pkt then c else reset c (ssrc pkt)
             | None => c {{ cur_ssrc := Some (ssrc pkt) }} end).
  assert (A : inv ca /\ cur_ssrc ca = Some (ssrc pkt) /\ counters ca = counters c /\
    max_frames ca = max_frames c /\
    (cur_ssrc c = None \/ cur_ssrc c = Some (ssrc pkt) ->
     queue ca = queue c /\ last_emitted_ext ca = last_emitted_ext c /\
     roc ca = roc c /\ max_seq ca = max_seq c /\ seen_any ca = seen_any c)).
  { destruct I as [I1 I2 I3 I4 I5 I6 I7 I8 I9 I10]. unfold ca.
    destruct (cur_ssrc c) as [cur |] eqn:Ec.
    - destruct (Z.eqb_spec cur (ssrc pkt)) as [-> | Hn].
      + split; [constructor; by rewrite ?Ec |]. by split_and!.
      + split; [constructor; unfold floor_ext in *; destruct c; cbn in *; try done; rewrite ?len_nil; mlia |].
        split_and!; try (by destruct c). intros [? | [= ->]]; done.
    - assert (queue c = []) as Eq.
      { destruct (queue c) as [| x q]; [done |]. apply Forall_cons in I10 as [? _]. done. }
      split; [constructor; unfold floor_ext in *; destruct c; cbn in *; subst; done |].
      split_and!; by destruct c. }
  clearbody ca. destruct A as ([I1 I2 I3 I4 I5 I6 I7 I8 I9 I10] & A1 & A2 & A3 & A4).
  destruct (queue ca) as [| x q] eqn:Eq; [destruct (last_arrival ca); [destruct (_ <? _) |] |];
    (split; [constructor; unfold floor_ext in *; destruct ca; cbn in *; subst; done |];
     destruct ca; cbn in *; subst; by split_and!).
Qed.

Definition counts_u64 (c : TrackedClock) : Prop :=
  is_u64 (late_drops (counters c)) /\ is_u64 (overflow_drops (counters c)).

Lemma count_late_spec c :
  counts_u64 c -> inv c ->
  inv (count_late c) /\ counts_u64 (count_late c) /\ queue (count_late c) = queue c /\
  floor_ext (count_late c) = floor_ext c /\ cur_ssrc (count_late c) = cur_ssrc c /\
  (forall m, position c m -> position (count_late c) m) /\
  late_drops (counters (count_late c)) = wrap64 (late_drops (counters c) + 1) /\
  overflow_drops (counters (count_late c)) = overflow_drops (counters c).
Proof.
  intros [U1 U2] [I1 I2 I3 I4 I5 I6 I7 I8 I9 I10].
  split; [constructor; unfold floor_ext in *; destruct c; done |].
  unfold counts_u64. destruct c as [? ? ? ? ? ? ? ? ? ? ? ? ? ? ? ? ? []]; cbn in *.
  split; [split; [mlia | done] |]. by split_and!.
Qed.

(** What [push] does once the source is settled and the sequence extended. *)
Lemma push_cases c pkt a :
  inv c -> counts_u64 c -> is_u16 (sequence_number pkt) ->
  let c1 := push_source c pkt a in
  let '(c2, ext) := extend_seq c1 (sequence_number pkt) in
  inv c2 /\ counts_u64 c2 /\ cur_ssrc c2 = Some (ssrc pkt) /\ only_position c1 c2 /\
  (match ext with
   | None => push c pkt a = count_late c2
   | Some e => 0 <= e /\ wrap16 e = sequence_number pkt /\
       ((e <= floor_ext c2 /\ push c pkt a = count_late c2) \/
        (floor_ext c2 < e /\ push c pkt a = enqueue c2 e pkt a))
   end).
Proof.
  intros I U Hs c1. destruct (push_source_spec c pkt a I) as (I1 & Ec & Ek & Em & _). fold c1 in I1, Ec, Ek, Em.
  pose proof (extend_seq_typed c1 (sequence_number pkt) (inv_roc _ I1) (inv_max _ I1) Hs) as T.
  unfold push. fold c1. destruct (extend_seq c1 (sequence_number pkt)) as [c2 ext].
  destruct T as (P & Tr & Tm & Te). assert (P0 := P). destruct P as (P1&P2&P3&P4&P5&P6&P7&P8&P9&P10).
  destruct I1 as [J1 J2 J3 J4 J5 J6 J7 J8 J9 J10].
  split; [constructor; unfold floor_ext in *; rewrite ?P1, ?P2, ?P3, ?P4, ?P5, ?P6, ?P7; done |].
  split; [unfold counts_u64; by rewrite P8, Ek |]. split; [by rewrite P1 |]. split; [done |].
  destruct ext as [e |]; [| done]. destruct Te as [T1 T2]. split; [done |]. split; [done |].
  unfold floor_ext. destruct (last_emitted_ext c2) as [last |]; cbn.
  - destruct (Z.leb_spec e last); [by left | by right].
  - right. split; [lia | done].
Qed.

Lemma push_inv c pkt a :
  inv c -> counts_u64 c -> is_u16 (sequence_number pkt) ->
  inv (push c pkt a) /\ counts_u64 (push c pkt a).
Proof.
  intros I U Hs. pose proof (push_cases c pkt a I U Hs) as H. cbn zeta in H.
  destruct (extend_seq _ _) as [c2 ext]. destruct H as (I2 & U2 & Ec & _ & H).
  destruct (count_late_spec c2 U2 I2) as (L1 & L2 & _).
  destruct ext as [e |]; [| by rewrite H]. destruct H as (H0 & Hw & [[_ ->] | [Hf ->]]); [done |].
  destruct (enqueue_spec c2 e pkt a I2 Hf (eq_sym Hw) (eq_sym Ec) (proj2 U2))
    as (R1 & _ & _ & _ & _ & _ & Rl & dr & _ & Ro).
  split; [done |]. unfold counts_u64. rewrite Rl, Ro. split; [apply U2 | mlia].
Qed.

(** Pushing the packet of true index [i]. *)
Lemma push_indexed c pkt a m i :
  inv c -> counts_u64 c -> cur_ssrc c = None \/ cur_ssrc c = Some (ssrc pkt) ->
  position c m -> near m i -> sequence_number pkt = wrap16 i ->
  let c' := push c pkt a in
  inv c' /\ counts_u64 c' /\ cur_ssrc c' = Some (ssrc pkt) /\ position c' (Some (advance m i)) /\
  floor_ext c <= floor_ext c' /\
  ((queue c' = queue c /\ overflow_drops (counters c') = overflow_drops (counters c) /\
    late_drops (counters c') = wrap64 (late_drops (counters c) + 1)) \/
   (exists dr, BTree.insert i pkt (queue c) = dr ++ queue c' /\
    overflow_drops (counters c') = wrap64 (overflow_drops (counters c) + len dr) /\
    late_drops (counters c') = late_drops (counters c))).
Proof.
  intros I U Hc P N Hs c'. assert (Hs16 : is_u16 (sequence_number pkt)) by (rewrite Hs; mlia).
  destruct (push_inv c pkt a I U Hs16) as [I' U']. split; [done |]. split; [done |].
  destruct (push_source_spec c pkt a I) as (I1 & _ & Ek & _ & Same). specialize (Same Hc).
  destruct Same as (Sq & Sl & Sr & Sm & Sa).
  pose proof (push_cases c pkt a I U Hs16) as H. cbn zeta in H. rewrite Hs in H.
  assert (P1 : position (push_source c pkt a) m)
    by (unfold position in *; by rewrite Sr, Sm, Sa).
  pose proof (extend_seq_exact _ m i (inv_roc _ I1) (inv_max _ I1) P1 N) as X.
  destruct (extend_seq _ _) as [c2 ext]. destruct X as [X1 ->].
  destruct H as (I2 & U2 & Ec & (O1&O2&O3&O4&O5&O6&O7&O8&O9&O10) & H).
  assert (F : floor_ext c2 = floor_ext c) by (unfold floor_ext; by rewrite O2, Sl).
  destruct (count_late_spec c2 U2 I2) as (L1 & L2 & L3 & L4 & L5 & L6 & L7 & L8).
  assert (Late : push c pkt a = count_late c2 -> cur_ssrc c' = Some (ssrc pkt) /\
    position c' (Some (advance m i)) /\ floor_ext c <= floor_ext c' /\ queue c' = queue c /\
    overflow_drops (counters c') = overflow_drops (counters c) /\
    late_drops (counters c') = wrap64 (late_drops (counters c) + 1)).
  { intros E. unfold c'. rewrite E, L3, L4, L5, L7, L8, O3, O8, Ek, Sq, F.
    split_and!; try done; by apply L6. }
  destruct (i <? 0).
  - destruct (Late H) as (?&?&?&?&?&?). split_and!; try done. by left.
  - destruct H as (_ & _ & [[_ H] | [Hf H]]).
    + destruct (Late H) as (?&?&?&?&?&?). split_and!; try done. by left.
    + destruct (enqueue_spec c2 i pkt a I2 Hf Hs (eq_sym Ec) (proj2 U2))
        as (R1 & R2 & R3 & R4 & R5 & R6 & Rl & dr & Rq & Ro).
      unfold c'. rewrite H. split; [congruence |].
      split; [unfold position in *; by rewrite R3, R4, R5 |]. split; [lia |]. right. exists dr.
      rewrite Rl, Ro, O8, Ek. rewrite <- Sq, <- O3. done.
Qed.

(** *** Histories of arrivals and grid ticks *)

(** An arrival carries, besides the packet, the true index its sender gave it;
    the buffer sees only the low 16 bits, in the packet. *)
Inductive op := Push (i : Z) (pkt : RoutedRtpPacket) (arrival : Z) | Drain (grid_now : Z).

(** The buffer after a history, and what it emitted, each packet with the
    extended sequence number it was queued under. *)
Fixpoint run (c : TrackedClock) (ops : list op) : outcome (TrackedClock * list (Z * RoutedRtpPacket)) :=
  match ops with
  | [] => Val (c, [])
  | Push _ pkt arrival :: ops => run (push c pkt arrival) ops
  | Drain grid_now :: ops =>
      let! r := drain_tick c grid_now in
      let! r' := run r.1 ops in
      Val (r'.1, match r.2 with
                 | Some p => (floor_ext r.1, p) :: r'.2
                 | None => r'.2
                 end)
  end.

Definition indices (ops : list op) : list Z :=
  omap (fun o => match o with Push i _ _ => Some i | Drain _ => None end) ops.

Definition typed_op (o : op) : Prop :=
  match o with Push _ pkt _ => is_u16 (sequence_number pkt) | Drain _ => True end.

Lemma drain_counts c c' out : counts_u64 c -> drained c c' out -> counts_u64 c'.
Proof.
  intros [U1 U2] (st & (_&_&_&_&_&_&_&S) & L & _). unfold counts_u64. rewrite L, S. split; [mlia | done].
Qed.

(** All arrivals of one source, each within half the sequence space of the
    highest index so far, with the low bits of its index in the packet. *)
Fixpoint arrivals_ok (s : Z) (m : option Z) (ops : list op) : Prop :=
  match ops with
  | [] => True
  | Push i pkt _ :: ops =>
      (ssrc pkt = s /\ sequence_number pkt = wrap16 i /\ near m i) /\
      arrivals_ok s (Some (advance m i)) ops
  | Drain _ :: ops => arrivals_ok s m ops
  end.

Lemma insert_fresh_length {V} k (v : V) l :
  k ∉ l.*1 -> len (BTree.insert k v l) = len l + 1.
Proof.
  induction l as [| [x y] l IH]; cbn [BTree.insert fmap list_fmap fst]; [done |].
  rewrite not_elem_of_cons. intros [H1 H2]. split_ifs; rewrite ?len_cons; [lia | done |].
  rewrite IH by done. lia.
Qed.

Lemma suffix_keys {V} (l1 l2 : list (Z * V)) k v (q : list (Z * V)) x :
  BTree.insert k v q = l1 ++ l2 -> x ∈ l2.*1 -> x = k \/ x ∈ q.*1.
Proof.
  intros E (y & -> & Hy)%list_elem_of_fmap. destruct y as [a b].
  destruct (BTree.insert_elem k v q a b) as [[= -> ->] | H].
  - rewrite E. apply elem_of_app. by right.
  - by left.
  - right. apply list_elem_of_fmap. by exists (a, b).
Qed.

(** The accounting of a history with distinct indices. *)
Definition accounted (c c' : TrackedClock) (em : list (Z * RoutedRtpPacket)) (n : Z) : Prop :=
  exists l o, 0 <= l /\ 0 <= o /\
    late_drops (counters c') = wrap64 (late_drops (counters c) + l) /\
    overflow_drops (counters c') = wrap64 (overflow_drops (counters c) + o) /\
    len (queue c) + n = len em + len (queue c') + l + o.

Lemma run_spec s (K : Z -> RoutedRtpPacket -> Prop) ops : forall c m,
  inv c -> counts_u64 c -> cur_ssrc c = None \/ cur_ssrc c = Some s -> position c m ->
  arrivals_ok s m ops ->
  (forall e p, (e, p) ∈ queue c -> K e p) -> (forall i p a, Push i p a ∈ ops -> K i p) ->
  exists c' em, run c ops = Val (c', em) /\ inv c' /\ BTree.above (floor_ext c) em /\
    (forall e p, (e, p) ∈ em -> exists pkt, K e pkt /\ emits pkt p) /\
    (NoDup (indices ops) -> (forall i, i ∈ indices ops -> i ∉ (queue c).*1) ->
     accounted c c' em (len (indices ops))).
Proof.
  induction ops as [| [i pkt a | now] ops IH]; intros c m I U Hc P A HK HO; cbn [run].
  - exists c, []. split; [done |]. split; [done |]. split; [done |].
    split; [by intros ? ? ?%elem_of_nil |]. intros _ _. exists 0, 0. destruct U as [U1 U2].
    unfold len. cbn [indices omap list_omap length]. split_and!; try lia; mlia.
  - destruct A as [(A1 & A2 & A3) A]. subst s.
    destruct (push_indexed c pkt a m i I U Hc P A3 A2) as (I1 & U1 & C1 & P1 & F1 & Q1).
    destruct (IH (push c pkt a) (Some (advance m i)) I1 U1 (or_intror C1) P1 A)
      as (c' & em & E & I' & Ab & Em & Acc).
    + intros e p Hep. destruct Q1 as [(Q & _) | (dr & Q & _)]; [rewrite Q in Hep; by apply HK |].
      destruct (BTree.insert_elem i pkt (queue c) e p) as [[= -> ->] | H].
      { rewrite Q. apply elem_of_app. by right. }
      { eapply HO. by left. }
      by apply HK.
    + intros j p b Hj. eapply HO. by right.
    + exists c', em. split; [done |]. split; [done |].
      split; [by eapply BTree.above_weaken |]. split; [done |].
      cbn [indices omap list_omap]. fold (indices ops). intros ND Hn.
      apply NoDup_cons in ND as [Ni ND]. rewrite len_cons.
      assert (Hi : i ∉ (queue c).*1) by (apply Hn; by left).
      destruct Q1 as [(Q & Ov & Lt) | (dr & Q & Ov & Lt)].
      * destruct Acc as (l & o & Hl & Ho & El & Eo & Ec); [done | |].
        { intros j Hj. rewrite Q. apply Hn. by right. }
        exists (l + 1), o. rewrite El, Eo, Ov, Lt, Q in *. unfold wrap64. rewrite Zplus_mod_idemp_l.
        split_and!; try lia; f_equal; lia.
      * destruct Acc as (l & o & Hl & Ho & El & Eo & Ec); [done | |].
        { intros j Hj Hq. destruct (suffix_keys _ _ _ _ _ _ Q Hq) as [-> | Hq']; [done |].
          eapply Hn; [by right | done]. }
        pose proof (insert_fresh_length i pkt (queue c) Hi) as L. rewrite Q, len_app in L.
        exists l, (o + len dr). rewrite El, Eo, Ov, Lt. pose proof (len_nonneg dr).
        unfold wrap64. rewrite Zplus_mod_idemp_l. split_and!; try lia; f_equal; lia.
  - cbn [arrivals_ok] in A.
    destruct (drain_tick_spec_tracked c now I (proj1 U)) as (c1 & out & E1 & I1 & D).
    pose proof (drain_counts c c1 out U D) as U1. rewrite E1. cbn [obind fst snd].
    destruct D as (st & (S1&S2&S3&S4&S5&S6&S7&S8) & Lt & D).
    assert (Hsub : forall x, x ∈ queue c1 -> x ∈ queue c).
    { intros x Hx. destruct out as [p |]; [destruct D as (e & pk & Dq & _) | destruct D as [Dq _]];
        rewrite Dq; set_solver. }
    destruct (IH c1 m I1 U1) as (c' & em & E & I' & Ab & Em & Acc).
    + by rewrite S1.
    + unfold position in *. by rewrite S2, S3, S4.
    + done.
    + intros e p Hep. by apply HK, Hsub.
    + intros j p b Hj. eapply HO. by right.
    + rewrite E. cbn [obind fst snd]. exists c'. eexists. split; [done |]. split; [done |].
      assert (Acc' : NoDup (indices ops) -> (forall i, i ∈ indices ops -> i ∉ (queue c).*1) ->
        accounted c1 c' em (len (indices ops))).
      { intros ND Hn. apply Acc; [done |]. intros i Hi (x & -> & Hx)%list_elem_of_fmap.
        eapply Hn; [done |]. apply list_elem_of_fmap. exists x. split; [done | by apply Hsub]. }
      cbn [indices omap list_omap]. fold (indices ops). pose proof (len_nonneg st).
      destruct out as [p |].
      * destruct D as (e & pk & Dq & De & Dp).
        assert (Fe : floor_ext c1 = e) by (unfold floor_ext; by rewrite De). rewrite Fe in *.
        assert (Hin : (e, pk) ∈ queue c) by (rewrite Dq; set_solver).
        split; [split; [exact (above_elem _ _ _ (inv_sorted c I) Hin) | done] |].
        split.
        { intros e' p' [[= -> ->] | H']%elem_of_cons; [exists pk; split; [by apply HK | done] |].
          by apply Em. }
        intros ND Hn. destruct (Acc' ND Hn) as (l & o & Hl & Ho & El & Eo & Ec).
        exists (l + len st), o. rewrite El, Eo, Lt, S8, Dq, len_app, !len_cons in *.
        unfold wrap64. rewrite Zplus_mod_idemp_l. split_and!; try lia; f_equal; lia.
      * destruct D as [Dq Df]. split; [by eapply BTree.above_weaken |]. split; [done |].
        intros ND Hn. destruct (Acc' ND Hn) as (l & o & Hl & Ho & El & Eo & Ec).
        exists (l + len st), o. rewrite El, Eo, Lt, S8, Dq, len_app in *.
        unfold wrap64. rewrite Zplus_mod_idemp_l. split_and!; try lia; f_equal; lia.
Qed.

(** C23: a network source is played in order, without duplicates and without
    inventions: for any interleaving of arrivals of one source (reordered by
    less than half the sequence space, duplicated, across sequence rollovers)
    and grid ticks, in both modes, the buffer never panics and the packets it
    emits have strictly ascending true indices, each one being a packet that
    arrived with that index, changed at most in its marker and source id. *)
Theorem tracked_in_order id rate mf s ops (arrivals : arrivals_ok s None ops) :
  exists c em, run (tracked id rate mf) ops = Val (c, em) /\
    BTree.above (-1) em /\
    forall i p, (i, p) ∈ em -> exists pkt a, Push i pkt a ∈ ops /\ emits pkt p.
Proof.
  destruct (run_spec s (fun i pkt => exists a, Push i pkt a ∈ ops) ops (tracked id rate mf) None)
    as (c & em & E & _ & Ab & Em & _); try done.
  - apply tracked_inv.
  - by left.
  - by intros ? ? ?%elem_of_nil.
  - intros i p a Hi. by exists a.
  - exists c, em. split; [done |]. split; [done |].
    intros i p Hip. destruct (Em i p Hip) as (pkt & [a Ha] & Hp). by exists pkt, a.
Qed.

(** Every packet is accounted for: with distinct indices, each packet that
    arrived has been emitted, is still queued, or was dropped and counted as
    late or as overflow. *)
Theorem tracked_accounting id rate mf s ops
  (arrivals : arrivals_ok s None ops) (distinct : NoDup (indices ops))
  (short : len (indices ops) < u64_max) :
  exists c em, run (tracked id rate mf) ops = Val (c, em) /\
    len (indices ops) =
      len em + len (queue c) + late_drops (counters c) + overflow_drops (counters c).
Proof.
  destruct (run_spec s (fun _ _ => True) ops (tracked id rate mf) None)
    as (c & em & E & _ & _ & _ & Acc); try done.
  - apply tracked_inv.
  - by left.
  - exists c, em. split; [done |].
    destruct (Acc distinct) as (l & o & Hl & Ho & El & Eo & Ec); [by intros ? _ ?%elem_of_nil |].
    cbn in El, Eo. pose proof (len_nonneg em). pose proof (len_nonneg (queue c)).
    change (len (queue (tracked id rate mf))) with 0 in Ec. rewrite El, Eo. mlia.
Qed.

(** Packets 65535, 65537, 65536 of one source: the overtaken one still comes in
    its place. *)
Lemma tracked_in_order_witness :
  let pk i := mkPacket 0 0 (wrap16 i) (i * 160) 7 false [] in
  exists c em, run (tracked 1 8000 false)
      [Push 65535 (pk 65535) 0; Drain 0; Push 65537 (pk 65537) 20; Drain 20; Push 65536 (pk 65536) 40;
       Drain 40; Drain 40] = Val (c, em) /\ em.*1 = [65535; 65536; 65537] /\ BTree.above (-1) em.
Proof.
  intros pk.
  destruct (tracked_in_order 1 8000 false 7
      [Push 65535 (pk 65535) 0; Drain 0; Push 65537 (pk 65537) 20; Drain 20; Push 65536 (pk 65536) 40;
       Drain 40; Drain 40]) as (c & em & E & A & _).
  - cbn. repeat split; lia.
  - exists c, em. split; [exact E |]. split; [| exact A]. vm_compute in E. by injection E as _ <-.
Defined.

Lemma tracked_accounting_witness :
  let pk i := mkPacket 0 0 (wrap16 i) (i * 160) 7 false [] in
  exists c em, run (tracked 1 8000 false)
      [Push 5 (pk 5) 0; Drain 0; Push 4 (pk 4) 20; Push 7 (pk 7) 40; Drain 40] = Val (c, em) /\
    3 = len em + len (queue c) + late_drops (counters c) + overflow_drops (counters c).
Proof.
  intros pk.
  destruct (tracked_accounting 1 8000 false 7
      [Push 5 (pk 5) 0; Drain 0; Push 4 (pk 4) 20; Push 7 (pk 7) 40; Drain 40])
    as (c & em & E & A).
  - cbn. repeat split; lia.
  - apply (bool_decide_unpack _). by vm_compute.
  - by vm_compute.
  - exists c, em. split; [exact E | exact A].
Defined.

(** *** Bounds, with any number of source changes *)

Definition limits (c c' : TrackedClock) : Prop :=
  max_frames c' = max_frames c /\ max_delay c' = max_delay c.

Lemma shed_limits q : forall c d, limits c (shed q c d).1.
Proof.
  induction q as [| [e p] q IH]; intros c d; cbn [shed]; [by split_if |].
  split_if; [| done]. match goal with |- context [shed q ?x true] => destruct (IH x true) as [A B] end.
  unfold limits. rewrite A, B. by destruct c.
Qed.

Lemma enqueue_limits c e pkt a : limits c (enqueue c e pkt a).
Proof.
  unfold enqueue.
  match goal with |- context [shed ?q ?x false] => pose proof (shed_limits q x false) as L;
    destruct (shed q x false) as [c3 b] end.
  assert (L3 : limits c c3) by (unfold limits in *; destruct (anchor c); destruct c; exact L).
  destruct b; [| done]. destruct (queue c3) as [| [k h] q]; [done |].
  unfold limits in *. by destruct c3.
Qed.

Lemma push_limits c pkt a : limits c (push c pkt a).
Proof.
  assert (S : limits c (push_source c pkt a)).
  { unfold push_source, limits. destruct c as [? ? ? cs ? ? ? ? la ? ? ? ? ? q ? ? ?]; cbn.
    destruct cs as [cur |]; [destruct (cur =? ssrc pkt) |]; cbn;
      try (destruct q; cbn; [destruct la; cbn; [destruct (_ <? _) |] |]); done. }
  assert (X : limits c (extend_seq (push_source c pkt a) (sequence_number pkt)).1).
  { revert S. generalize (push_source c pkt a). intros x S. unfold extend_seq, limits in *.
    split_ifs; destruct x; done. }
  unfold push. destruct (extend_seq _ _) as [c2 [e |]]; cbn in X; unfold limits in *.
  - destruct (enqueue_limits c2 e pkt a) as [E1 E2].
    destruct (last_emitted_ext c2); [destruct (_ <=? _) |]; rewrite ?E1, ?E2; by destruct c2.
  - by destruct c2.
Qed.

Lemma run_bounded ops : forall c,
  inv c -> counts_u64 c -> Forall typed_op ops ->
  exists c' em, run c ops = Val (c', em) /\ inv c' /\ limits c c'.
Proof.
  induction ops as [| [i pkt a | now] ops IH]; intros c I U T; cbn [run]; [by exists c, [] | |].
  - apply Forall_cons in T as [Tp T]. destruct (push_inv c pkt a I U Tp) as [I1 U1].
    destruct (IH _ I1 U1 T) as (c' & em & E & I' & L1 & L2). exists c', em. split; [done |].
    split; [done |]. destruct (push_limits c pkt a). unfold limits. split; congruence.
  - apply Forall_cons in T as [_ T].
    destruct (drain_tick_spec_tracked c now I (proj1 U)) as (c1 & out & E1 & I1 & D).
    pose proof (drain_counts c c1 out U D) as U1. rewrite E1. cbn [obind fst snd].
    destruct (IH _ I1 U1 T) as (c' & em & E & I' & L1 & L2). rewrite E. cbn [obind fst snd].
    eexists _, _. split; [done |]. split; [done |]. destruct D as (st & (_&_&_&_&S5&S6&_) & _).
    unfold limits. split; congruence.
Qed.

(** Whatever arrives, from however many SSRCs, the reordering buffer never
    panics, holds at most 16 packets when it feeds a mixer and 256 otherwise,
    keeps them in ascending order above the last one played, never delays
    playout by more than its maximum, and always has an anchor to schedule the
    packets it holds. *)
Theorem tracked_bounded id rate mf ops (typed : Forall typed_op ops) :
  exists c em, run (tracked id rate mf) ops = Val (c, em) /\
    len (queue c) <= (if mf then TRACKED_MAX_FRAMES else REORDER_MAX_FRAMES) /\
    BTree.above (floor_ext c) (queue c) /\
    target_delay c <= (if mf then TRACKED_MIXER_MAX_MS else TRACKED_SHALLOW_MS) * ns_per_ms /\
    (queue c <> [] -> anchor c <> None).
Proof.
  destruct (run_bounded ops (tracked id rate mf)) as (c & em & E & I & L1 & L2);
    [apply tracked_inv | split; cbn; mlia | done |].
  exists c, em. split; [done |]. destruct I as [I1 I2 I3 I4 I5 I6 I7 I8 I9 I10].
  rewrite L1 in I3. rewrite L2 in I6. by split_and!.
Qed.

Lemma tracked_bounded_witness :
  exists c em, run (tracked 1 8000 true)
      [Push 0 (mkPacket 0 0 65535 0 7 false []) 0; Push 0 (mkPacket 0 0 3 0 8 false []) 5; Drain 100]
    = Val (c, em) /\ len (queue c) <= 16.
Proof.
  destruct (tracked_bounded 1 8000 true
      [Push 0 (mkPacket 0 0 65535 0 7 false []) 0; Push 0 (mkPacket 0 0 3 0 8 false []) 5; Drain 100])
    as (c & em & E & H & _).
  - repeat constructor; cbn; lia.
  - exists c, em. split; [exact E | exact H].
Defined.

End Tracked.

(** ** The buffer as the session uses it *)

Module Buffer.

Inductive PlayoutKind := KSynth | KTracked.
Inductive Policy := Bypass | Engaged (k : PlayoutKind).

Inductive PlayoutBuffer :=
| SynthB (s : Synth.SynthClock)
| TrackedB (t : Tracked.TrackedClock).

Definition kind (b : PlayoutBuffer) : PlayoutKind :=
  match b with SynthB _ => KSynth | TrackedB _ => KTracked end.

Definition with_format (b : PlayoutBuffer) (format : option (Codec.AudioCodec * Z)) : PlayoutBuffer :=
  match b with
  | TrackedB t => TrackedB (t {{ Tracked.format := format }})
  | SynthB _ => b
  end.

Definition matches_format (b : PlayoutBuffer) (rate : Z) (format : option (Codec.AudioCodec * Z)) : bool :=
  match b with
  | SynthB s => wrap32 (Synth.ts_step s * 50) =? rate
  | TrackedB t => (Tracked.clock_rate t =? rate) && bool_decide (Tracked.format t = format)
  end.

Definition push (b : PlayoutBuffer) (pkt : RoutedRtpPacket) (arrival : Z) : PlayoutBuffer :=
  match b with
  | SynthB s => SynthB (Synth.push s (payload pkt))
  | TrackedB t => TrackedB (Tracked.push t pkt arrival)
  end.

Definition drain_tick (b : PlayoutBuffer) (grid_now : Z)
    : outcome (PlayoutBuffer * option RoutedRtpPacket) :=
  match b with
  | SynthB s => let '(s, out) := Synth.drain_tick s in Val (SynthB s, out)
  | TrackedB t => let! r := Tracked.drain_tick t grid_now in Val (TrackedB r.1, r.2)
  end.

Definition has_pending (b : PlayoutBuffer) : bool :=
  match b with
  | SynthB s => match Synth.state s with Synth.Idle => false | _ => true end
  | TrackedB t => match Tracked.queue t with [] => false | _ => true end
  end.

Definition drains_burst (b : PlayoutBuffer) : bool :=
  match b with TrackedB _ => true | SynthB _ => false end.

Definition is_mixer_fed (b : PlayoutBuffer) : bool :=
  match b with TrackedB t => Tracked.mixer_fed t | SynthB _ => false end.

Definition take_counters (b : PlayoutBuffer) : PlayoutBuffer * PlayoutCounters :=
  match b with
  | SynthB s => (SynthB (s {{ Synth.counters := no_counters }}), Synth.counters s)
  | TrackedB t => (TrackedB (t {{ Tracked.counters := no_counters }}), Tracked.counters t)
  end.

End Buffer.
