(* ===== verification/Stats.v ===== *)
(** Endpoint counters ([session/stats.rs]): wire-level receive diagnostics
    ([RawRecvCounters]) and media statistics ([EndpointStats]).

    Each counter is written by one task; an atomic is modelled by its value and
    the compare-exchange loops of [update_max] and [update_min] by their result
    in the absence of another writer. *)

From S2P Require Import Prelude.

Module Stats.

Record RawRecvCounters := mkRaw {
  packets : Z;
  bytes_ : Z;
  recv_loop_gap_ms : Z;
  max_recv_loop_gap_ms : Z;
  enqueue_wait_ms : Z;
  max_enqueue_wait_ms : Z;
  dequeue_delay_ms : Z;
  max_dequeue_delay_ms : Z;
  channel_capacity : Z;
  min_channel_capacity : Z;
  channel_overflows : Z;
  source_rejections : Z;
  raw_rtp_packets : Z;
  raw_rtp_bytes : Z;
  raw_rtp_packets_lost : Z;
  raw_rtp_sequence_gaps : Z;
  raw_rtp_max_sequence_gap : Z;
  raw_rtp_duplicate_packets : Z;
  raw_rtp_out_of_order_packets : Z;
  raw_rtp_sequence_resets : Z;
  raw_rtp_last_sequence : Z;
  raw_rtp_last_ssrc : Z;
  raw_rtp_initialized : bool;
}.

Definition default_raw : RawRecvCounters :=
  mkRaw 0 0 0 0 0 0 0 0 0 u64_max 0 0 0 0 0 0 0 0 0 0 0 0 false.

Definition fetch_add (v n : Z) : Z := wrap64 (v + n).
Definition update_max (current candidate : Z) : Z :=
  if current <? candidate then candidate else current.
Definition update_min (current candidate : Z) : Z :=
  if candidate <? current then candidate else current.
Definition duration_ms (duration : Z) : Z := Z.min (duration / ns_per_ms) u64_max.

Definition record (c : RawRecvCounters) (n : Z) : RawRecvCounters :=
  c {{ packets := fetch_add (packets c) 1; bytes_ := fetch_add (bytes_ c) n }}.

Definition record_recv_diagnostics (c : RawRecvCounters) (recv_gap : option Z) (capacity : Z)
    : RawRecvCounters :=
  let c :=
    match recv_gap with
    | Some gap =>
        let gap_ms := duration_ms gap in
        c {{ recv_loop_gap_ms := gap_ms;
             max_recv_loop_gap_ms := update_max (max_recv_loop_gap_ms c) gap_ms }}
    | None => c
    end in
  c {{ channel_capacity := capacity;
       min_channel_capacity := update_min (min_channel_capacity c) capacity }}.

Definition record_enqueue_wait (c : RawRecvCounters) (wait : Z) : RawRecvCounters :=
  let wait_ms := duration_ms wait in
  c {{ enqueue_wait_ms := wait_ms; max_enqueue_wait_ms := update_max (max_enqueue_wait_ms c) wait_ms }}.

Definition record_dequeue_delay (c : RawRecvCounters) (delay : Z) : RawRecvCounters :=
  let delay_ms := duration_ms delay in
  c {{ dequeue_delay_ms := delay_ms;
       max_dequeue_delay_ms := update_max (max_dequeue_delay_ms c) delay_ms }}.

Definition record_source_rejection (c : RawRecvCounters) : RawRecvCounters :=
  c {{ source_rejections := fetch_add (source_rejections c) 1 }}.
Definition record_channel_overflow (c : RawRecvCounters) : RawRecvCounters :=
  c {{ channel_overflows := fetch_add (channel_overflows c) 1 }}.

Definition min_channel_capacity_seen (c : RawRecvCounters) : option Z :=
  if min_channel_capacity c =? u64_max then None else Some (min_channel_capacity c).
Definition last_sequence (c : RawRecvCounters) : option Z :=
  if raw_rtp_initialized c then Some (raw_rtp_last_sequence c) else None.
Definition last_ssrc (c : RawRecvCounters) : option Z :=
  if raw_rtp_initialized c then Some (raw_rtp_last_ssrc c) else None.

Definition parse_raw_rtp_header (data : bytes) : outcome (option (Z * Z)) :=
  if len data <? 12 then Val None
  else
    let! b0 := get data 0 in
    if negb (Z.land b0 192 =? 128) then Val None
    else
      let! b1 := get data 1 in
      if (192 <=? b1) && (b1 <=? 223) then Val None
      else
        let csrc_count := Z.land b0 15 in
        if len data <? 12 + csrc_count * 4 then Val None
        else
          let! seq := get16 data 2 in
          let! ssrc := get32 data 8 in
          Val (Some (seq, ssrc)).

(** The classification of a parsed header against the last one. *)
Definition track_raw (c : RawRecvCounters) (seq ssrc : Z) : RawRecvCounters :=
  if negb (raw_rtp_initialized c) then
    c {{ raw_rtp_initialized := true; raw_rtp_last_sequence := seq; raw_rtp_last_ssrc := ssrc }}
  else if negb (raw_rtp_last_ssrc c =? ssrc) then
    c {{ raw_rtp_sequence_resets := fetch_add (raw_rtp_sequence_resets c) 1;
         raw_rtp_last_sequence := seq; raw_rtp_last_ssrc := ssrc }}
  else
    let delta := wrap16 (seq - wrap16 (raw_rtp_last_sequence c)) in
    if delta =? 0 then
      c {{ raw_rtp_duplicate_packets := fetch_add (raw_rtp_duplicate_packets c) 1 }}
    else if delta =? 1 then c {{ raw_rtp_last_sequence := seq }}
    else if delta <=? 32767 then
      let missing := delta - 1 in
      c {{ raw_rtp_packets_lost := fetch_add (raw_rtp_packets_lost c) missing;
           raw_rtp_sequence_gaps := fetch_add (raw_rtp_sequence_gaps c) 1;
           raw_rtp_max_sequence_gap := update_max (raw_rtp_max_sequence_gap c) missing;
           raw_rtp_last_sequence := seq }}
    else c {{ raw_rtp_out_of_order_packets := fetch_add (raw_rtp_out_of_order_packets c) 1 }}.

Definition record_raw_rtp_datagram (c : RawRecvCounters) (data : bytes) : outcome RawRecvCounters :=
  let! h := parse_raw_rtp_header data in
  match h with
  | None => Val c
  | Some (seq, ssrc) =>
      Val (track_raw (c {{ raw_rtp_packets := fetch_add (raw_rtp_packets c) 1;
                           raw_rtp_bytes := fetch_add (raw_rtp_bytes c) (len data) }}) seq ssrc)
  end.

Record EndpointStats := mkEndpointStats {
  inbound_packets : Z;
  inbound_bytes : Z;
  outbound_packets : Z;
  outbound_bytes : Z;
  last_received : option Z;
  created_at : Z;
}.

Definition new (now : Z) : EndpointStats := mkEndpointStats 0 0 0 0 None now.

Definition record_inbound (s : EndpointStats) (n now : Z) : EndpointStats :=
  s {{ inbound_packets := wrap64 (inbound_packets s + 1);
       inbound_bytes := wrap64 (inbound_bytes s + n);
       last_received := Some now }}.

Definition record_outbound (s : EndpointStats) (n : Z) : EndpointStats :=
  s {{ outbound_packets := wrap64 (outbound_packets s + 1);
       outbound_bytes := wrap64 (outbound_bytes s + n) }}.

Definition ms_since_last_received (s : EndpointStats) (now : Z) : option Z :=
  (fun t => wrap64 (duration_since now t / ns_per_ms)) <$> last_received s.

(** ** Losses on the wire *)

Lemma parse_raw_total data : exists h, parse_raw_rtp_header data = Val h.
Proof.
  unfold parse_raw_rtp_header. split_if; [by eexists |]. reads. split_if; [by eexists |].
  assert (0 <= Z.land (byte_at data 0) 15 <= 15) by (rewrite land15; mlia).
  reads. split_if; [by eexists |]. split_if; [by eexists |]. reads. by eexists.
Qed.

(** Packets of one source in the order their sender numbered them, each less
    than half the sequence space after the previous one. *)
Fixpoint ascending (last : Z) (js : list Z) : Prop :=
  match js with
  | [] => True
  | j :: js => last < j <= last + 32767 /\ ascending j js
  end.

Definition track_index (ssrc : Z) (c : RawRecvCounters) (j : Z) : RawRecvCounters :=
  track_raw c (wrap16 j) ssrc.

(** The wire-level loss counter is exact for a stream that arrives in
    order: after any number of packets, through sequence rollovers, it is the
    number of sequence numbers that were skipped, and nothing is counted as a
    duplicate, a reordering or a reset. *)
Theorem raw_losses_exact ssrc first js
  (order : ascending first js)
  (width : List.last js first - first < u64_max) :
  let c := fold_left (track_index ssrc) (first :: js) default_raw in
  raw_rtp_packets_lost c = List.last js first - first - len js /\
  raw_rtp_duplicate_packets c = 0 /\ raw_rtp_out_of_order_packets c = 0 /\
  raw_rtp_sequence_resets c = 0 /\ last_sequence c = Some (wrap16 (List.last js first)).
Proof.
  assert (G : forall js c j lost, ascending j js -> raw_rtp_initialized c = true ->
    raw_rtp_last_ssrc c = ssrc -> raw_rtp_last_sequence c = wrap16 j ->
    raw_rtp_packets_lost c = lost -> 0 <= lost -> lost + (List.last js j - j) < u64_max ->
    let c' := fold_left (track_index ssrc) js c in
    raw_rtp_packets_lost c' = lost + (List.last js j - j - len js) /\
    raw_rtp_duplicate_packets c' = raw_rtp_duplicate_packets c /\
    raw_rtp_out_of_order_packets c' = raw_rtp_out_of_order_packets c /\
    raw_rtp_sequence_resets c' = raw_rtp_sequence_resets c /\
    last_sequence c' = Some (wrap16 (List.last js j)) /\ j <= List.last js j).
  { clear. induction js as [| k js IH]; intros c j lost A Hi Hs Hl El H0 Hw.
    - cbn. unfold last_sequence. rewrite Hi, Hl, len_nil. split_and!; try done; lia.
    - destruct A as [A1 A2]. rewrite last_cons, len_cons in *. cbn [fold_left].
      assert (T : raw_rtp_initialized (track_index ssrc c k) = true /\
        raw_rtp_last_ssrc (track_index ssrc c k) = ssrc /\
        raw_rtp_last_sequence (track_index ssrc c k) = wrap16 k /\
        raw_rtp_packets_lost (track_index ssrc c k) = lost + (k - j - 1) /\
        raw_rtp_duplicate_packets (track_index ssrc c k) = raw_rtp_duplicate_packets c /\
        raw_rtp_out_of_order_packets (track_index ssrc c k) = raw_rtp_out_of_order_packets c /\
        raw_rtp_sequence_resets (track_index ssrc c k) = raw_rtp_sequence_resets c).
      { assert (Hk : k <= List.last js k).
        { clear -A2. revert k A2. induction js as [| x js IH]; intros k A; [done |].
          destruct A as [A1 A2]. rewrite last_cons. specialize (IH x A2). lia. }
        unfold track_index, track_raw. rewrite Hi, Hs, Hl, Z.eqb_refl. cbn [negb].
        assert (Ed : wrap16 (wrap16 k - wrap16 (wrap16 j)) = k - j) by mlia. rewrite Ed.
        unfold u64_max in *. split_ifs; destruct c; cbn in *; unfold fetch_add; split_and!; try done;
          mlia. }
      destruct T as (T1 & T2 & T3 & T4 & T5 & T6 & T7).
      destruct (IH (track_index ssrc c k) k (lost + (k - j - 1)) A2 T1 T2 T3 T4) as
        (I1 & I2 & I3 & I4 & I5 & I6); [lia | lia |].
      rewrite I1, I2, I3, I4, I5, T5, T6, T7. split_and!; try done; lia. }
  destruct (G js (track_index ssrc default_raw first) first 0 order) as (G1 & G2 & G3 & G4 & G5 & _);
    try done.
Qed.

Lemma raw_losses_exact_witness :
  let c := fold_left (track_index 7) [65534; 65536; 65537; 65540] default_raw in
  raw_rtp_packets_lost c = 3 /\ last_sequence c = Some 4.
Proof.
  destruct (raw_losses_exact 7 65534 [65536; 65537; 65540]) as (H1 & _ & _ & _ & H2);
    [cbn; lia | by vm_compute |]. split; [exact H1 | exact H2].
Defined.

End Stats.
