(* ===== verification/Routing.v ===== *)
(** The routing table ([session/routing.rs]): which endpoint's media goes to
    which others, and which destinations need a mixer. *)

From S2P Require Import Prelude Media.

Module Routing.

(** [control/protocol.rs]. *)
Inductive EndpointDirection := SendRecv | SendOnly | RecvOnly | Inactive.
#[global] Instance EndpointDirection_eq_dec : EqDecision EndpointDirection.
Proof. solve_decision. Defined.

Record RoutingTable := mkTable {
  routes : gmap EndpointId (gset EndpointId);
  multi_source_dests : gset EndpointId;
}.

Definition new : RoutingTable := mkTable ∅ ∅.

Abbreviation endpoint := (EndpointId * EndpointDirection * bool)%type.

(** The filter of the destination list of one source. *)
Definition receives (src_id : EndpointId) (src_is_bridge : bool) (dst : endpoint) : bool :=
  let '(dst_id, dst_dir, dst_is_bridge) := dst in
  negb (dst_id =? src_id) && negb (bool_decide (dst_dir = SendOnly))
  && negb (bool_decide (dst_dir = Inactive)) && negb (src_is_bridge && dst_is_bridge).

Definition dests_of (endpoints : list endpoint) (src_id : EndpointId) (src_is_bridge : bool)
    : gset EndpointId :=
  list_to_set ((fun e : endpoint => e.1.1) <$> List.filter (receives src_id src_is_bridge) endpoints).

Definition add_source (endpoints : list endpoint) (m : gmap EndpointId (gset EndpointId))
    (src : endpoint) : gmap EndpointId (gset EndpointId) :=
  let '(src_id, src_dir, src_is_bridge) := src in
  if bool_decide (src_dir = RecvOnly) || bool_decide (src_dir = Inactive) then m
  else
    let dests := dests_of endpoints src_id src_is_bridge in
    if bool_decide (dests = ∅) then m else <[src_id := dests]> m.

(** How many sources each destination has; the order of the hash tables does
    not matter. *)
Definition count_dest (d : EndpointId) (counts : gmap EndpointId Z) : gmap EndpointId Z :=
  <[d := default 0 (counts !! d) + 1]> counts.
Definition source_counts (r : gmap EndpointId (gset EndpointId)) : gmap EndpointId Z :=
  map_fold (fun _ dests counts => set_fold count_dest counts dests) ∅ r.

Definition rebuild (t : RoutingTable) (endpoints : list endpoint) : RoutingTable :=
  let r := fold_left (add_source endpoints) endpoints ∅ in
  mkTable r (dom (filter (fun kv => 2 <= kv.2) (source_counts r))).

Definition destinations (t : RoutingTable) (source : EndpointId) : option (gset EndpointId) :=
  routes t !! source.
Definition is_multi_source (t : RoutingTable) (dest : EndpointId) : bool :=
  bool_decide (dest ∈ multi_source_dests t).
Definition multi_source_destinations (t : RoutingTable) : gset EndpointId := multi_source_dests t.
Definition sources_for (t : RoutingTable) (dest : EndpointId) : gset EndpointId :=
  dom (filter (fun kv => dest ∈ kv.2) (routes t)).

(** ** What the table promises *)

Definition can_send (d : EndpointDirection) : Prop := d = SendRecv \/ d = SendOnly.
Definition can_receive (d : EndpointDirection) : Prop := d = SendRecv \/ d = RecvOnly.

(** [s] sends to [d]. *)
Definition routed (endpoints : list endpoint) (s d : EndpointId) : Prop :=
  s <> d /\ exists sd sb dd db,
    (s, sd, sb) ∈ endpoints /\ (d, dd, db) ∈ endpoints /\
    can_send sd /\ can_receive dd /\ ~ (sb = true /\ db = true).

Lemma dests_of_spec eps s sb d :
  d ∈ dests_of eps s sb <->
  s <> d /\ exists dd db, (d, dd, db) ∈ eps /\ can_receive dd /\ ~ (sb = true /\ db = true).
Proof.
  unfold dests_of. rewrite elem_of_list_to_set, list_elem_of_fmap. split.
  - intros ([[x dd] db] & -> & [Hin Hr]%list_elem_of_In%filter_In). cbn in *.
    apply andb_true_iff in Hr as [Hr H4]. apply andb_true_iff in Hr as [Hr H3].
    apply andb_true_iff in Hr as [H1 H2]. bool_prop.
    apply bool_decide_eq_false in H2, H3. split; [done |]. exists dd, db.
    split; [by apply list_elem_of_In |]. split; [by destruct dd; [left | | right |] |].
    intros [-> ->]. done.
  - intros (Hne & dd & db & Hin & Hr & Hb). exists (d, dd, db). split; [done |].
    apply list_elem_of_In, filter_In. split; [by apply list_elem_of_In |]. cbn.
    rewrite (proj2 (Z.eqb_neq d s)) by done. rewrite !bool_decide_false by (by destruct Hr; subst).
    destruct sb, db; try done. by destruct Hb.
Qed.

(** The entry of a source after a prefix of the loop. *)
Lemma add_sources_lookup eps todo : forall m s,
  NoDup (todo.*1.*1) -> (s ∈ todo.*1.*1 -> m !! s = None) ->
  (fold_left (add_source eps) todo m) !! s =
  match List.find (fun e : endpoint => e.1.1 =? s) todo with
  | Some (_, sd, sb) =>
      if bool_decide (sd = RecvOnly) || bool_decide (sd = Inactive) then m !! s
      else if bool_decide (dests_of eps s sb = ∅) then m !! s else Some (dests_of eps s sb)
  | None => m !! s
  end.
Proof.
  induction todo as [| [[x sd] sb] todo IH]; intros m s ND Hm; [done |].
  cbn in ND. apply NoDup_cons in ND as [Hx ND]. cbn [fold_left List.find fst].
  assert (Hadd : forall y, y <> x -> add_source eps m (x, sd, sb) !! y = m !! y).
  { intros y Hy. unfold add_source. destruct (_ || _); [done |]. case_bool_decide; [done |].
    by rewrite lookup_insert_ne. }
  destruct (Z.eqb_spec x s) as [-> | Hne].
  - rewrite IH; [| done | done].
    destruct (List.find _ todo) as [[[y yd] yb] |] eqn:F.
    { apply List.find_some in F as [Hin E%Z.eqb_eq]. cbn in E. subst y. destruct Hx.
      apply list_elem_of_fmap. exists (s, yd). split; [done |]. apply list_elem_of_fmap.
      exists (s, yd, yb). split; [done | by apply list_elem_of_In]. }
    unfold add_source. destruct (_ || _); [done |]. case_bool_decide; [done |].
    by rewrite lookup_insert_eq.
  - rewrite IH; [| done |].
    + rewrite Hadd by done. done.
    + intros Hs. rewrite Hadd by done. apply Hm. cbn. by right.
Qed.

Lemma find_endpoint eps s :
  NoDup (eps.*1.*1) -> forall sd sb, (s, sd, sb) ∈ eps <->
  List.find (fun e : endpoint => e.1.1 =? s) eps = Some (s, sd, sb).
Proof.
  induction eps as [| [[x xd] xb] eps IH]; intros ND sd sb; cbn [List.find fst].
  - split; [by intros ?%elem_of_nil | done].
  - cbn in ND. apply NoDup_cons in ND as [Hx ND]. destruct (Z.eqb_spec x s) as [-> | Hne].
    + rewrite elem_of_cons. split; [| intros [= -> ->]; by left].
      intros [[= -> ->] | Hin]; [done |]. destruct Hx. apply list_elem_of_fmap. exists (s, sd).
      split; [done |]. apply list_elem_of_fmap. by exists (s, sd, sb).
    + rewrite elem_of_cons, <- (IH ND). split; [| by right]. intros [[= -> _ _] | ?]; done.
Qed.

Lemma rebuild_routes t eps s d :
  NoDup (eps.*1.*1) ->
  (exists D, routes (rebuild t eps) !! s = Some D /\ d ∈ D) <-> routed eps s d.
Proof.
  intros ND. unfold rebuild. cbn [routes]. rewrite add_sources_lookup by done.
  rewrite lookup_empty. unfold routed.
  destruct (List.find _ eps) as [[[x sd] sb] |] eqn:F.
  - assert (x = s) as -> by (by apply List.find_some in F as [_ E%Z.eqb_eq]).
    assert (U : forall sd' sb', (s, sd', sb') ∈ eps -> sd' = sd /\ sb' = sb).
    { intros sd' sb' Hin. apply (find_endpoint eps s ND) in Hin. rewrite F in Hin.
      by injection Hin. }
    apply (find_endpoint eps s ND) in F.
    split.
    + intros (D & E & Hd). destruct (_ || _) eqn:B; [done |]. case_bool_decide; [done |].
      injection E as <-. apply dests_of_spec in Hd as (Hne & dd & db & Hin & Hr & Hb).
      split; [done |]. exists sd, sb, dd, db. split_and!; try done.
      apply orb_false_iff in B as [B1 B2]. apply bool_decide_eq_false in B1, B2.
      destruct sd; [by left | by right | done | done].
    + intros (Hne & sd' & sb' & dd & db & Hs & Hd & Hsend & Hrecv & Hb).
      destruct (U _ _ Hs) as [-> ->].
      assert (Hin : d ∈ dests_of eps s sb)
        by (apply dests_of_spec; split; [done |]; by exists dd, db).
      rewrite !bool_decide_false; [| | by destruct Hsend; subst | by destruct Hsend; subst]; cbn.
      * by exists (dests_of eps s sb).
      * intros E. rewrite E in Hin. by apply elem_of_empty in Hin.
  - split; [by intros (? & ? & _) |]. intros (_ & sd & sb & dd & db & Hs & _).
    apply (find_endpoint eps s ND) in Hs. by rewrite F in Hs.
Qed.

Lemma count_dests_spec (D : gset EndpointId) counts d :
  default 0 (set_fold count_dest counts D !! d) =
  default 0 (counts !! d) + (if bool_decide (d ∈ D) then 1 else 0).
Proof.
  revert D. apply (set_fold_ind_L (fun acc D => default 0 (acc !! d) =
    default 0 (counts !! d) + (if bool_decide (d ∈ D) then 1 else 0))).
  - rewrite bool_decide_false by set_solver. lia.
  - intros x X acc Hx IH. unfold count_dest. destruct (decide (x = d)) as [-> | Hne].
    + rewrite lookup_insert_eq, IH, (bool_decide_false (d ∈ X)) by done.
      rewrite bool_decide_true by set_solver. cbn. lia.
    + rewrite lookup_insert_ne, IH by done. f_equal.
      destruct (decide (d ∈ X)); [rewrite !bool_decide_true by set_solver
        | rewrite !bool_decide_false by set_solver]; done.
Qed.

Lemma source_counts_spec r d :
  default 0 (source_counts r !! d)
  = Z.of_nat (size (dom (filter (fun kv => d ∈ kv.2) r) : gset EndpointId)).
Proof.
  unfold source_counts.
  apply (map_fold_weak_ind (fun acc r => default 0 (acc !! d)
    = Z.of_nat (size (dom (filter (fun kv => d ∈ kv.2) r) : gset EndpointId)))).
  - rewrite lookup_empty, map_filter_empty, dom_empty_L, size_empty. done.
  - intros s D m acc Hs IH. rewrite count_dests_spec, IH.
    destruct (decide (d ∈ D)) as [Hin | Hn].
    + rewrite bool_decide_true, map_filter_insert_True by done.
      rewrite dom_insert_L, size_union, size_singleton; [lia |].
      apply disjoint_singleton_l. intros [D' H]%elem_of_dom.
      apply map_lookup_filter_Some in H as [H _]. congruence.
    + rewrite bool_decide_false, map_filter_insert_False by done.
      rewrite delete_id by done. lia.
Qed.

(** C26: after a rebuild, endpoint [s] sends to [d] iff they are different, [s]
    may send and [d] may receive, and they are not both bridges; the source
    sets are the inverse relation; and a destination is marked for mixing iff
    it has at least two sources. *)
Theorem routing_correct t eps (ids_unique : NoDup (eps.*1.*1)) :
  let t' := rebuild t eps in
  (forall s d, (exists D, destinations t' s = Some D /\ d ∈ D) <-> routed eps s d) /\
  (forall s d, s ∈ sources_for t' d <-> routed eps s d) /\
  (forall d, is_multi_source t' d = true <-> (2 <= size (sources_for t' d))%nat).
Proof.
  intros t'.
  assert (R := fun s d => rebuild_routes t eps s d ids_unique).
  split; [exact R |]. split.
  - intros s d. unfold sources_for. rewrite elem_of_dom, <- R. fold t'. split.
    + intros [D H]. apply map_lookup_filter_Some in H as [H1 H2]. by exists D.
    + intros (D & H1 & H2). exists D. by apply map_lookup_filter_Some.
  - intros d. unfold is_multi_source. rewrite bool_decide_eq_true. unfold t', rebuild.
    cbn [multi_source_dests]. rewrite elem_of_dom. unfold sources_for. cbn [routes].
    set (r := fold_left (add_source eps) eps ∅). pose proof (source_counts_spec r d) as C. split.
    + intros [n H]. apply map_lookup_filter_Some in H as [H1 H2]. rewrite H1 in C. cbn in *. lia.
    + intros H. destruct (source_counts r !! d) as [n |] eqn:E; cbn in C; [| lia].
      exists n. apply map_lookup_filter_Some. split; [done |]. cbn. lia.
Qed.

Lemma routing_correct_witness :
  let eps := [(1, SendRecv, true); (2, SendRecv, true); (3, SendRecv, false); (4, RecvOnly, false)] in
  is_multi_source (rebuild new eps) 4 = true /\ sources_for (rebuild new eps) 1 = {[3]}.
Proof.
  intros eps.
  destruct (routing_correct new eps) as (_ & _ & H).
  - apply (bool_decide_unpack _). by vm_compute.
  - split; [apply H; by apply (bool_decide_unpack _); vm_compute |].
    apply (bool_decide_unpack _). by vm_compute.
Defined.

End Routing.
