(* ===== verification/SocketPool.v ===== *)
(** UDP port pairs ([net/socket_pool.rs]): the range, the cursor, the search for
    a free even/odd pair, and the per-family media bindings.

    The operating system's [bind] is a parameter.  [next_even_port] retries its
    compare-exchange until it wins, so it is one atomic step of the cursor. *)

From S2P Require Import Prelude.

Module SocketPool.

Inductive IpAddr := V4 (a : Z) | V6 (a : Z).
#[global] Instance IpAddr_eq_dec : EqDecision IpAddr.
Proof. solve_decision. Defined.
Definition is_ipv6 (a : IpAddr) : bool := match a with V6 _ => true | V4 _ => false end.
Definition is_ipv4 (a : IpAddr) : bool := match a with V4 _ => true | V6 _ => false end.

Record t := mk {
  bind_ip : IpAddr;
  port_start : Z;
  port_end : Z;
  next_port : Z;
}.

Inductive pool_error := StartTooHigh | EndTooLow | InvalidRange | PermissionDenied (port : Z) | NoPairs.

Definition new (ip : IpAddr) (first last : Z) : result pool_error t :=
  match (if first mod 2 =? 0 then Some first
         else if first + 1 <=? u16_max then Some (first + 1) else None) with
  | None => Err StartTooHigh
  | Some start =>
      match (if last mod 2 =? 0 then (if 0 <=? last - 1 then Some (last - 1) else None)
             else Some last) with
      | None => Err EndTooLow
      | Some end_ =>
          if negb ((start <? end_) && (1 <=? end_ - start)) then Err InvalidRange
          else Ok (mk ip start end_ start)
      end
  end.

Definition next_even_port (p : t) : t * Z :=
  let current := next_port p in
  let next := if port_end p <? current + 2 then port_start p else current + 2 in
  (p {{ next_port := next }}, current).

Definition num_pairs (p : t) : Z := (port_end p - port_start p + 1) / 2.

(** What the operating system answers to [bind]. *)
Inductive bind_result := Bound | Denied | Unavailable.

Section os.
Variable bind : IpAddr -> Z -> bind_result.

(** One round of the loop: a verdict, or [None] to try the next pair. *)
Definition try_pair (p : t) (port : Z) : option (result pool_error (Z * Z)) :=
  match bind (bind_ip p) port with
  | Denied => Some (Err (PermissionDenied port))
  | Unavailable => None
  | Bound =>
      match bind (bind_ip p) (port + 1) with
      | Denied => Some (Err (PermissionDenied (port + 1)))
      | Unavailable => None
      | Bound => Some (Ok (port, port + 1))
      end
  end.

Fixpoint allocate_loop (rounds : nat) (p : t) : t * result pool_error (Z * Z) :=
  match rounds with
  | O => (p, Err NoPairs)
  | S rounds =>
      let '(p, port) := next_even_port p in
      match try_pair p port with
      | Some r => (p, r)
      | None => allocate_loop rounds p
      end
  end.

Definition allocate_pair (p : t) : t * result pool_error (Z * Z) :=
  allocate_loop (Z.to_nat (sat_mul32 (num_pairs p) 2)) p.

(** ** The cursor *)

Definition wf (p : t) : Prop :=
  0 <= port_start p < port_end p /\ port_end p <= u16_max /\
  port_start p mod 2 = 0 /\ port_end p mod 2 = 1 /\
  next_port p mod 2 = 0 /\ port_start p <= next_port p <= port_end p.

Lemma pool_new_wf ip first last p :
  is_u16 first -> is_u16 last -> new ip first last = Ok p ->
  wf p /\ first <= port_start p /\ port_end p <= last.
Proof.
  intros Hf Hl. unfold new, wf. unfold u16_max in *. split_ifs; intros [= <-]; cbn; mlia.
Qed.

(** The pair the cursor points at, counted from the start of the range. *)
Definition position (p : t) : Z := (next_port p - port_start p) / 2.

Lemma next_even_port_spec p :
  wf p ->
  let '(p', port) := next_even_port p in
  wf p' /\ bind_ip p' = bind_ip p /\ port_start p' = port_start p /\ port_end p' = port_end p /\
  port = port_start p + 2 * position p /\ 0 <= position p < num_pairs p /\
  position p' = (position p + 1) mod num_pairs p.
Proof.
  intros W. unfold wf, position, num_pairs in *. unfold next_even_port.
  destruct W as (W1 & W2 & W3 & W4 & W5 & W6).
  assert (E : forall q n, 0 <= q < n -> (q + 1) mod n = if q + 1 =? n then 0 else q + 1).
  { intros q n Hq. destruct (Z.eqb_spec (q + 1) n) as [-> |]; [apply Z.mod_same; lia |].
    apply Z.mod_small. lia. }
  rewrite E by mlia. destruct (Z.ltb_spec (port_end p) (next_port p + 2)); destruct p; cbn in *;
    split_and!; try done; try mlia; match goal with |- context [?a =? ?b] =>
      destruct (Z.eqb_spec a b); mlia end.
Qed.

Definition in_range (p : t) (k : Z) : Prop := 0 <= k < num_pairs p.
Definition rtp_port (p : t) (k : Z) : Z := port_start p + 2 * k.

(** What a finished search says about the pairs. *)
Definition search_ok (p p' : t) (rounds : Z) (r : result pool_error (Z * Z)) : Prop :=
  match r with
  | Ok (rtp, rtcp) =>
      exists k, in_range p k /\ rtp = rtp_port p k /\ rtcp = rtp + 1 /\
        bind (bind_ip p) rtp = Bound /\ bind (bind_ip p) rtcp = Bound
  | Err (PermissionDenied port) =>
      port_start p <= port <= port_end p /\ bind (bind_ip p) port = Denied
  | Err NoPairs =>
      forall j, 0 <= j < rounds -> try_pair p (rtp_port p ((position p + j) mod num_pairs p)) = None
  | Err _ => False
  end.

Lemma allocate_loop_spec n : forall p, wf p ->
  let '(p', r) := allocate_loop n p in
  wf p' /\ bind_ip p' = bind_ip p /\ port_start p' = port_start p /\ port_end p' = port_end p /\
  search_ok p p' (Z.of_nat n) r.
Proof.
  induction n as [| n IH]; intros p W; cbn [allocate_loop].
  - split_and!; try done. intros j Hj. lia.
  - pose proof (next_even_port_spec p W) as N. destruct (next_even_port p) as [p1 port].
    destruct N as (W1 & B1 & S1 & E1 & Ep & Hk & Hp). fold (rtp_port p (position p)) in Ep.
    destruct (try_pair p1 port) as [r |] eqn:T.
    + split_and!; try done. unfold try_pair in T. rewrite B1 in T.
      assert (Hr : port_start p <= port <= port_end p /\ port_start p <= port + 1 <= port_end p).
      { destruct W as (?&?&?&?&?&?). unfold rtp_port, num_pairs in *. mlia. }
      unfold search_ok.
      destruct (bind (bind_ip p) port) eqn:Eb; [| injection T as <-; tauto | done].
      destruct (bind (bind_ip p) (port + 1)) eqn:Eb1; [| injection T as <-; tauto | done].
      injection T as <-. by exists (position p).
    + specialize (IH p1 W1). destruct (allocate_loop n p1) as [p' r].
      destruct IH as (I1 & I2 & I3 & I4 & I5).
      split; [done |]. split; [congruence |]. split; [congruence |]. split; [congruence |].
      assert (Np : num_pairs p1 = num_pairs p) by (unfold num_pairs; by rewrite S1, E1).
      unfold search_ok, in_range, rtp_port in *. rewrite B1, S1, E1, Np in I5.
      destruct r as [[rtp rtcp] | []]; try done.
      intros j Hj. destruct (Z.eq_dec j 0) as [-> | Hj0].
      * rewrite Z.add_0_r, Z.mod_small by done. rewrite <- Ep.
        unfold try_pair in *. by rewrite B1 in T.
      * specialize (I5 (j - 1) ltac:(lia)). rewrite Hp, Zplus_mod_idemp_l in I5.
        replace (position p + 1 + (j - 1)) with (position p + j) in I5 by lia.
        unfold try_pair in *. by rewrite B1 in I5.
Qed.

(** Enough rounds visit every pair. *)
Lemma position_reaches p k :
  wf p -> in_range p k ->
  exists j, 0 <= j < num_pairs p /\ (position p + j) mod num_pairs p = k.
Proof.
  intros W Hk. pose proof (next_even_port_spec p W) as N. destruct (next_even_port p) as [p1 port].
  destruct N as (_ & _ & _ & _ & _ & Hp & _). unfold in_range in Hk.
  exists ((k - position p) mod num_pairs p). split; [apply Z.mod_pos_bound; lia |].
  rewrite Zplus_mod_idemp_r. replace (position p + (k - position p)) with k by lia.
  by apply Z.mod_small.
Qed.

(** C27: allocation is sound and complete.  An allocated pair is an even port of
    the range and its odd successor, also in the range, both of which the
    operating system bound; "no pairs" is reported only when no pair of the
    range can be bound; a permission error names a port of the range that was
    denied.  So whenever some pair is free and no port is denied, allocation
    succeeds, wherever the cursor stands.  The statement is about one allocation
    during which no other one moves the cursor and the operating system does not
    change its mind about a port. *)
Theorem allocation_sound_complete p (W : wf p) :
  let '(p', r) := allocate_pair p in
  wf p' /\
  match r with
  | Ok (rtp, rtcp) =>
      rtp mod 2 = 0 /\ rtcp = rtp + 1 /\ port_start p <= rtp /\ rtcp <= port_end p /\
      bind (bind_ip p) rtp = Bound /\ bind (bind_ip p) rtcp = Bound
  | Err NoPairs =>
      forall k, in_range p k ->
        bind (bind_ip p) (rtp_port p k) <> Bound \/ bind (bind_ip p) (rtp_port p k + 1) <> Bound
  | Err (PermissionDenied port) =>
      port_start p <= port <= port_end p /\ bind (bind_ip p) port = Denied
  | Err _ => False
  end.
Proof.
  unfold allocate_pair.
  assert (Hn : num_pairs p <= sat_mul32 (num_pairs p) 2).
  { destruct W as (?&?&?&?&?&?). unfold num_pairs, u16_max in *. mlia. }
  assert (H0 : 0 < num_pairs p) by (destruct W as (?&?&?&?&?&?); unfold num_pairs; mlia).
  pose proof (allocate_loop_spec (Z.to_nat (sat_mul32 (num_pairs p) 2)) p W) as L.
  destruct (allocate_loop _ p) as [p' r]. destruct L as (W' & _ & _ & _ & S). split; [done |].
  unfold search_ok in S. destruct r as [[rtp rtcp] | []]; try done.
  - destruct S as (k & Hk & -> & -> & B1 & B2). destruct W as (?&?&?&?&?&?).
    unfold rtp_port, in_range, num_pairs in *. split_and!; try done; mlia.
  - intros k Hk. destruct (position_reaches p k W Hk) as (j & Hj & Ej).
    specialize (S j ltac:(lia)). rewrite Ej in S. unfold try_pair in S.
    destruct (bind (bind_ip p) (rtp_port p k)); [| by left | by left].
    destruct (bind (bind_ip p) (rtp_port p k + 1)); [done | by right | by right].
Qed.

End os.

(** Ports 20000-20001 taken, 20002-20003 free, the cursor at the last pair. *)
Lemma allocation_sound_complete_witness :
  let os := fun (_ : IpAddr) port => if port <? 20002 then Unavailable else
                                     if port <? 20004 then Bound else Unavailable in
  let p := mk (V4 0) 20000 20005 20004 in
  wf p /\ allocate_pair os p = (mk (V4 0) 20000 20005 20004, Ok (20002, 20003)) /\
  bind_ip p = V4 0 /\ os (V4 0) 20002 = Bound.
Proof.
  intros os p. assert (W : wf p) by (repeat split; by vm_compute).
  pose proof (allocation_sound_complete os p W) as H.
  assert (E : allocate_pair os p = (mk (V4 0) 20000 20005 20004, Ok (20002, 20003)))
    by (by vm_compute).
  rewrite E in H. split; [exact W |]. split; [exact E |]. split; [done | apply H].
Defined.

(** ** Media bindings: one pool per address family *)

Record MediaBinding := mkBinding { ip : IpAddr; pool : t }.

Inductive bindings_error := NoAddress | PoolError (e : pool_error).

Fixpoint build_bindings (ips : list IpAddr) (first last : Z)
    : result bindings_error (list MediaBinding) :=
  match ips with
  | [] => Ok []
  | a :: ips =>
      match new a first last with
      | Err e => Err (PoolError e)
      | Ok pool =>
          match build_bindings ips first last with
          | Err e => Err e
          | Ok bs => Ok (mkBinding a pool :: bs)
          end
      end
  end.

Definition new_bindings (ips : list IpAddr) (first last : Z)
    : result bindings_error (list MediaBinding) :=
  match ips with [] => Err NoAddress | _ => build_bindings ips first last end.

Definition for_family (bs : list MediaBinding) (want_v6 : bool) : option MediaBinding :=
  List.find (fun b => Bool.eqb (is_ipv6 (ip b)) want_v6) bs.

(** [&self.bindings[0]] panics on an empty list. *)
Definition primary (bs : list MediaBinding) : outcome MediaBinding :=
  match List.find (fun b => is_ipv4 (ip b)) bs with
  | Some b => Val b
  | None => match bs with b :: _ => Val b | [] => Panic end
  end.

Lemma build_bindings_ips ips first last bs :
  build_bindings ips first last = Ok bs -> ip <$> bs = ips.
Proof.
  revert bs. induction ips as [| a ips IH]; intros bs; cbn; [by intros [= <-] |].
  destruct (new a first last); [| done]. destruct (build_bindings ips first last) as [bs' |]; [| done].
  intros [= <-]. cbn. by rewrite (IH bs').
Qed.

(** Bindings that were built answer every family exactly, and [primary] never
    panics. *)
Lemma bindings_lookup ips first last bs :
  new_bindings ips first last = Ok bs ->
  (exists b, primary bs = Val b) /\
  forall v6, match for_family bs v6 with
             | Some b => is_ipv6 (ip b) = v6
             | None => Forall (fun a => is_ipv6 a <> v6) ips
             end.
Proof.
  intros E. assert (B : build_bindings ips first last = Ok bs /\ ips <> []).
  { destruct ips; [done |]. by split. }
  destruct B as [B Hne]. apply build_bindings_ips in B. split.
  - unfold primary. destruct (List.find _ bs); [by eexists |].
    destruct bs; [by subst | by eexists].
  - intros v6. unfold for_family. destruct (List.find _ bs) as [b |] eqn:F.
    + apply List.find_some in F as [_ F]. by apply eqb_prop.
    + subst ips. apply Forall_fmap, Forall_forall. intros b Hb Heq.
      apply list_elem_of_In in Hb. apply (List.find_none _ _ F) in Hb.
      rewrite <- Heq, eqb_reflx in Hb. done.
Qed.

End SocketPool.
