(* ===== verification/Mixer.v ===== *)
(** The conference mixer of one destination ([session/mixer.rs]): the production
    path, which queues decoded 20 ms frames per source and mixes one frame of
    every source per grid tick.  The encoder behind the [AudioEncoder] trait
    (third-party codecs) is an interface. *)

From S2P Require Import Prelude Media.
Import Codec.

(** [media/codec.rs], trait [AudioEncoder]: encoding may change the state of the
    encoder and may fail. *)
Class AudioEncoder := {
  Encoder : Type;
  OpusProfile : Type;
  make_encoder : AudioCodec -> OpusProfile -> option Encoder;
  encode : Encoder -> list Z -> Encoder * option bytes;
  encoder_profile : Encoder -> OpusProfile;
  profile_eqb : OpusProfile -> OpusProfile -> bool;
}.

Module Mixer.
Section mixer.
Context {AE : AudioEncoder}.

(** The decoder and resampler of a source belong to the retained encoded path
    and are absent on this one. *)
Record SourceState := mkSource {
  pcm_buffer : list Z;
  contributed : bool;
  queued : list (list Z);
}.

Record DestinationMixer := mkMixer {
  dest_codec : AudioCodec;
  dest_pt : Z;
  encoder : Encoder;
  sources : gmap EndpointId SourceState;
  mix_buffer : list Z;
  accumulator : list Z;
  encode_buffer : bytes;
  rtp_timestamp : Z;
  frame_samples : Z;
  clock_increment : Z;
  frames_emitted : Z;
  output_queue : list RoutedRtpPacket;
}.

Definition matches_output (m : DestinationMixer) (codec : AudioCodec) (pt : Z) : bool :=
  bool_decide (dest_codec m = codec) && (dest_pt m =? pt).

Definition matches_profile (m : DestinationMixer) (profile : OpusProfile) : bool :=
  negb (bool_decide (dest_codec m = Opus)) || profile_eqb (encoder_profile (encoder m)) profile.

(** [random] is the initial timestamp drawn by [rand::random]. *)
Definition new_with_profile (codec : AudioCodec) (pt : Z) (profile : OpusProfile) (random : Z)
    : option DestinationMixer :=
  match make_encoder codec profile with
  | None => None
  | Some enc =>
      let n := Z.to_nat (ptime_samples codec) in
      Some (mkMixer codec pt enc ∅ (replicate n 0) (replicate n 0) [] random
              (ptime_samples codec) (rtp_clock_rate codec / 50) 0 [])
  end.

Inductive mixer_error := NotOneFrame | SourceQueueFull | EncodeFailed.

Definition feed_pcm (m : DestinationMixer) (id : EndpointId) (samples : list Z)
    : DestinationMixer * result mixer_error unit :=
  if negb (len samples =? frame_samples m) then (m, Err NotOneFrame)
  else
    let source := default (mkSource [] false []) (sources m !! id) in
    if negb (len (queued source) <? 12) then
      (m {{ sources := <[id := source]> (sources m) }}, Err SourceQueueFull)
    else
      (m {{ sources := <[id := source {{ queued := queued source ++ [samples] }}]> (sources m) }},
       Ok tt).

Definition has_pending (m : DestinationMixer) : bool :=
  bool_decide (map_Exists (fun _ s => contributed s = true \/ queued s <> []) (sources m)).

(** Take one queued frame of a source. *)
Definition take_frame (s : SourceState) : SourceState :=
  match queued s with
  | samples :: rest => mkSource samples true rest
  | [] => s
  end.

(** [accumulator[i] += sample] for the samples inside the buffer.  The [i64]
    cannot overflow with fewer than 2^48 sources. *)
Fixpoint add_into (acc pcm : list Z) : list Z :=
  match acc, pcm with
  | a :: acc, s :: pcm => a + s :: add_into acc pcm
  | _, _ => acc
  end.
Definition add_source (s : SourceState) (acc : list Z) : list Z :=
  if contributed s then add_into acc (pcm_buffer s) else acc.

Definition clamp_i16 (x : Z) : Z := Z.max (-32768) (Z.min x 32767).

Definition flush_frame (m : DestinationMixer) : DestinationMixer * result mixer_error unit :=
  let m := m {{ sources := take_frame <$> sources m }} in
  if negb (bool_decide (map_Exists (fun _ s => contributed s = true) (sources m))) then (m, Ok tt)
  else
    let zeroed := replicate (length (accumulator m)) 0 in
    let acc := map_fold (fun _ s acc => add_source s acc) zeroed (sources m) in
    let mixed := clamp_i16 <$> acc in
    let m := m {{ accumulator := acc; mix_buffer := mixed }} in
    match encode (encoder m) mixed with
    | (enc, None) => (m {{ encoder := enc }}, Err EncodeFailed)
    | (enc, Some out) =>
        let marker := frames_emitted m =? 0 in
        let pkt := mkPacket 0 (dest_pt m) 0 (rtp_timestamp m) 0 marker out in
        (m {{ encoder := enc; encode_buffer := out;
              rtp_timestamp := wrap32 (rtp_timestamp m + clock_increment m);
              frames_emitted := wrap64 (frames_emitted m + 1);
              sources := (fun s => s {{ contributed := false }}) <$> sources m;
              output_queue := output_queue m ++ [pkt] }}, Ok tt)
    end.

Definition drain (m : DestinationMixer) : DestinationMixer * list RoutedRtpPacket :=
  (m {{ output_queue := [] }}, output_queue m).

Definition flush (m : DestinationMixer) : DestinationMixer * result mixer_error (list RoutedRtpPacket) :=
  match flush_frame m with
  | (m, Ok _) => (m {{ output_queue := [] }}, Ok (output_queue m))
  | (m, Err e) => (m, Err e)
  end.

Definition flush_tick (m : DestinationMixer) : DestinationMixer * result mixer_error unit :=
  flush_frame m.

Definition continue_from_timestamp (m : DestinationMixer) (last_ts : Z) : DestinationMixer :=
  m {{ rtp_timestamp := wrap32 (last_ts + clock_increment m) }}.

Definition remove_source (m : DestinationMixer) (id : EndpointId) : DestinationMixer :=
  m {{ sources := delete id (sources m) }}.

Definition retain_sources (m : DestinationMixer) (active : gset EndpointId) : DestinationMixer :=
  m {{ sources := filter (fun kv => kv.1 ∈ active) (sources m) }}.

(** ** What is mixed *)

(** Sample [i] of a frame, silence outside it. *)
Definition sample (pcm : list Z) (i : nat) : Z := nth i pcm 0.

(** The reference: the sum, over the frames at the head of the queues, of
    sample [i], saturated. *)
Definition mixed_sample (frames : list (list Z)) (i : nat) : Z :=
  clamp_i16 (fold_right Z.add 0 ((fun pcm => sample pcm i) <$> frames)).

(** What a source gives the next tick: the frame at the head of its queue or, when
    there is none and the last tick could not encode its mix, the frame that tick
    took. *)
Definition next_frame (s : SourceState) : option (list Z) :=
  match queued s with
  | f :: _ => Some f
  | [] => if contributed s then Some (pcm_buffer s) else None
  end.

(** The frames that the next tick mixes. *)
Definition next_frames (r : gmap EndpointId SourceState) : list (list Z) :=
  omap (fun kv : EndpointId * SourceState => next_frame kv.2) (map_to_list r).
Definition heads (m : DestinationMixer) : list (list Z) := next_frames (sources m).

(** The buffers have one frame and so does everything a source holds. *)
Definition source_wf (n : Z) (s : SourceState) : Prop :=
  len (queued s) <= 12 /\ Forall (fun f => len f = n) (queued s) /\
  (contributed s = true -> len (pcm_buffer s) = n).
Definition wf (m : DestinationMixer) : Prop :=
  0 <= frame_samples m /\ length (accumulator m) = Z.to_nat (frame_samples m) /\
  map_Forall (fun _ => source_wf (frame_samples m)) (sources m).

Lemma add_into_length acc pcm : length (add_into acc pcm) = length acc.
Proof. revert pcm. induction acc as [| a acc IH]; intros [| s pcm]; cbn; [done.. |]. by rewrite IH. Qed.

Lemma add_into_sample acc pcm i :
  (length pcm <= length acc)%nat -> sample (add_into acc pcm) i = sample acc i + sample pcm i.
Proof.
  revert pcm i. induction acc as [| a acc IH]; intros [| s pcm] [| i]; cbn; intros H; try lia.
  unfold sample in *. cbn. apply IH. lia.
Qed.

Lemma sum_add_perm (l k : list Z) : l ≡ₚ k -> fold_right Z.add 0 l = fold_right Z.add 0 k.
Proof. induction 1; cbn; lia. Qed.

Lemma next_frames_insert id s r :
  r !! id = None ->
  next_frames (<[id := s]> r) ≡ₚ option_list (next_frame s) ++ next_frames r.
Proof.
  intros H. unfold next_frames. rewrite (map_to_list_insert r id s H). cbn. by destruct (next_frame s).
Qed.

Lemma sample_silence n i : sample (replicate n 0) i = 0.
Proof. unfold sample. revert i. induction n as [| n IH]; intros [| i]; cbn; try done; apply IH. Qed.

Lemma add_taken s acc :
  add_source (take_frame s) acc = match next_frame s with None => acc | Some f => add_into acc f end.
Proof. unfold add_source, take_frame, next_frame. destruct (queued s); [by destruct (contributed s) | done]. Qed.

Lemma next_frame_len n s f : source_wf n s -> next_frame s = Some f -> len f = n.
Proof.
  intros (_ & Q & C). unfold next_frame. destruct (queued s) as [| g q].
  - destruct (contributed s); [| done]. intros [= <-]. by apply C.
  - intros [= <-]. by apply Forall_cons in Q as [Q _].
Qed.

Lemma take_frame_wf n s : source_wf n s -> source_wf n (take_frame s).
Proof.
  intros W. pose proof W as (L & Q & _). unfold take_frame.
  destruct (queued s) as [| f q] eqn:E; [done |]. apply Forall_cons in Q as [Hf Q].
  rewrite len_cons in L. split; cbn; [lia | done].
Qed.

Lemma mix_fold n r :
  map_Forall (fun _ => source_wf n) r ->
  let acc := map_fold (fun _ s acc => add_source s acc) (replicate (Z.to_nat n) 0) (take_frame <$> r) in
  length acc = Z.to_nat n /\
  forall i, sample acc i = fold_right Z.add 0 ((fun pcm => sample pcm i) <$> next_frames r).
Proof.
  intros F. cbn zeta. rewrite map_fold_fmap.
  revert F. apply (map_fold_weak_ind (fun acc r =>
    map_Forall (fun _ => source_wf n) r ->
    length acc = Z.to_nat n /\
    forall i, sample acc i = fold_right Z.add 0 ((fun pcm => sample pcm i) <$> next_frames r))).
  - intros _. split; [apply length_replicate |]. intros i. unfold next_frames.
    rewrite map_to_list_empty. apply sample_silence.
  - intros id s m acc Hid IH F. apply map_Forall_insert in F as [Hs F]; [| done].
    destruct (IH F) as [L S]. unfold compose. rewrite (add_taken s acc).
    assert (P : forall i, fold_right Z.add 0 ((fun pcm => sample pcm i) <$> next_frames (<[id:=s]> m))
      = fold_right Z.add 0 ((fun pcm => sample pcm i) <$> (option_list (next_frame s) ++ next_frames m))).
    { intros i. apply sum_add_perm, Permutation_map, next_frames_insert, Hid. }
    destruct (next_frame s) as [f |] eqn:Ef.
    + pose proof (next_frame_len _ _ _ Hs Ef) as Lf. unfold len in Lf.
      split; [by rewrite add_into_length |]. intros i.
      rewrite P, add_into_sample, S by lia.
      change (option_list (Some f) ++ next_frames m) with (f :: next_frames m).
      rewrite fmap_cons. cbn [fold_right]. lia.
    + split; [done |]. intros i. rewrite P. apply S.
Qed.

Lemma taken_contributes s : contributed (take_frame s) = true <-> next_frame s <> None.
Proof.
  unfold take_frame, next_frame. destruct (queued s); [| by split].
  by destruct (contributed s).
Qed.

(** Some source contributes after the frames are taken iff there is one to mix. *)
Lemma contributors m :
  map_Exists (fun _ s => contributed s = true) (take_frame <$> sources m) <-> heads m <> [].
Proof.
  unfold heads, next_frames. split.
  - intros (id & s & Hs & Hc). rewrite lookup_fmap in Hs.
    destruct (sources m !! id) as [s0 |] eqn:E; [| done]. injection Hs as <-.
    apply taken_contributes in Hc. destruct (next_frame s0) as [f |] eqn:Ef; [| done].
    apply elem_of_map_to_list in E. intros Hnil. apply (not_elem_of_nil f). rewrite <- Hnil.
    apply list_elem_of_omap. by exists (id, s0).
  - intros Hne. destruct (omap _ _) as [| f l] eqn:E; [done |].
    assert (Hin : f ∈ omap (fun kv : EndpointId * SourceState => next_frame kv.2)
      (map_to_list (sources m))) by (rewrite E; by left).
    apply list_elem_of_omap in Hin as ([id s] & Hin & Hf). apply elem_of_map_to_list in Hin.
    exists id, (take_frame s). rewrite lookup_fmap, Hin. split; [done |].
    apply taken_contributes. cbn in Hf. by rewrite Hf.
Qed.

(** The mix of the heads of the queues. *)
Definition mix_of (m : DestinationMixer) : list Z :=
  (fun i => mixed_sample (heads m) i) <$> seq 0 (Z.to_nat (frame_samples m)).

Lemma clamp_list (acc : list Z) (n : nat) (g : nat -> Z) :
  length acc = n -> (forall i, sample acc i = g i) ->
  clamp_i16 <$> acc = (fun i => clamp_i16 (g i)) <$> seq 0 n.
Proof.
  intros L S. apply list_eq. intros i. rewrite !list_lookup_fmap.
  destruct (decide (i < n)%nat) as [Hi | Hi].
  - rewrite lookup_seq_lt by done. cbn. rewrite <- S. unfold sample.
    destruct (lookup_lt_is_Some_2 acc i ltac:(lia)) as [x Hx]. rewrite Hx. cbn.
    by rewrite (nth_lookup_Some _ _ _ _ Hx).
  - rewrite lookup_seq_ge by lia. by rewrite (lookup_ge_None_2 acc i) by lia.
Qed.

(** Nothing about a source but what it has contributed is lost when its frame is
    taken. *)
Lemma taken_queue s : queued (take_frame s) = tail (queued s).
Proof. unfold take_frame. by destruct (queued s) eqn:E; cbn. Qed.
Lemma taken_kept s f :
  next_frame s = Some f -> contributed (take_frame s) = true /\ pcm_buffer (take_frame s) = f.
Proof.
  unfold take_frame, next_frame. destruct (queued s); [| by intros [= <-]].
  destruct (contributed s) eqn:E; [| done]. by intros [= <-].
Qed.

(** The tick leaves a well-formed mixer, also when the encoder fails. *)
Lemma flush_frame_wf m : wf m -> wf (flush_frame m).1.
Proof.
  intros (W0 & W1 & W2). destruct (mix_fold _ _ W2) as [L _]. rewrite <- W1 in L.
  assert (T : map_Forall (fun _ => source_wf (frame_samples m)) (take_frame <$> sources m)).
  { intros id s Hs. rewrite lookup_fmap in Hs. destruct (sources m !! id) as [s0 |] eqn:E; [| done].
    injection Hs as <-. exact (take_frame_wf _ _ (W2 id s0 E)). }
  unfold flush_frame. destruct m as [dc pt en sr mb ac eb ts fs ci fe oq]; cbn in *.
  destruct (negb _); [done |]. destruct (encode en _) as [en' [out |]]; cbn;
    (split; [done |]; split; [exact (eq_trans L W1) |]); [| exact T].
  intros id s Hs. cbn in Hs. rewrite lookup_fmap in Hs.
  destruct ((take_frame <$> sr) !! id) as [s0 |] eqn:Es; [| done]. injection Hs as <-.
  destruct (T id s0 Es) as (H1 & H2 & _). by destruct s0.
Qed.

(** C25: one tick of the mixer, in any state its operations lead to.  If no
    source has anything to give nothing happens; otherwise the frame at the head
    of every queue is consumed and the encoder is given exactly one frame, whose
    every sample is the sum of the corresponding samples of those frames,
    saturated to 16 bits, whatever the order in which the sources are visited;
    the packet carries the current timestamp, which advances by 20 ms, and the
    marker iff it is the first.  When the encoder fails nothing is emitted and
    the clock stands, and each frame taken is kept: it is mixed again by the next
    tick if its source has queued no other by then. *)
Theorem tick_mixes_heads m (W : wf m) :
  let '(m', r) := flush_tick m in
  wf m' /\
  match heads m with
  | [] => r = Ok tt /\ output_queue m' = output_queue m /\ rtp_timestamp m' = rtp_timestamp m
  | _ :: _ =>
      (forall id s, sources m !! id = Some s ->
         queued <$> (sources m' !! id) = Some (tail (queued s))) /\
      match encode (encoder m) (mix_of m) with
      | (_, None) =>
          r = Err EncodeFailed /\ output_queue m' = output_queue m /\
          rtp_timestamp m' = rtp_timestamp m /\
          (forall id s f, sources m !! id = Some s -> next_frame s = Some f ->
             exists s', sources m' !! id = Some s' /\ contributed s' = true /\ pcm_buffer s' = f)
      | (_, Some out) =>
          r = Ok tt /\
          map_Forall (fun _ s => contributed s = false) (sources m') /\
          output_queue m' = output_queue m ++
            [mkPacket 0 (dest_pt m) 0 (rtp_timestamp m) 0 (frames_emitted m =? 0) out] /\
          rtp_timestamp m' = wrap32 (rtp_timestamp m + clock_increment m)
      end
  end.
Proof.
  pose proof (contributors m) as Hc. pose proof (flush_frame_wf m W) as W'.
  destruct W as (W0 & W1 & W2). destruct (mix_fold _ _ W2) as [L S]. rewrite <- W1 in L, S.
  assert (M : clamp_i16 <$> map_fold (fun _ s acc => add_source s acc)
      (replicate (length (accumulator m)) 0) (take_frame <$> sources m) = mix_of m).
  { unfold mix_of. rewrite <- W1. by apply clamp_list. }
  unfold flush_tick. revert W'. unfold flush_frame.
  destruct m as [dc pt en sr mb ac eb ts fs ci fe oq]; cbn in *.
  destruct (heads _) as [| h hs] eqn:Eh.
  - rewrite bool_decide_false by (intros H; by apply Hc in H). by cbn.
  - rewrite bool_decide_true by (by apply Hc). cbn. rewrite M.
    destruct (encode en _) as [en' [out |]]; cbn; (intros W'; split; [exact W' |]).
    + split; [| split; [done | split; [| by split]]].
      * intros id s Hs. rewrite !lookup_fmap, Hs. cbn. f_equal. apply taken_queue.
      * intros id s Hs. rewrite lookup_fmap in Hs. by destruct ((take_frame <$> sr) !! id); simplify_eq/=.
    + split; [| split; [done | split; [done | split; [done |]]]].
      * intros id s Hs. rewrite !lookup_fmap, Hs. cbn. f_equal. apply taken_queue.
      * intros id s f Hs Hf. exists (take_frame s). rewrite lookup_fmap, Hs. split; [done |].
        by apply taken_kept.
Qed.

Inductive op :=
| Feed (id : EndpointId) (samples : list Z)
| FlushTick | Drain
| ContinueFrom (ts : Z)
| Remove (id : EndpointId)
| Retain (active : gset EndpointId).

Definition apply_op (m : DestinationMixer) (o : op) : DestinationMixer :=
  match o with
  | Feed id samples => (feed_pcm m id samples).1
  | FlushTick => (flush_tick m).1
  | Drain => (drain m).1
  | ContinueFrom ts => continue_from_timestamp m ts
  | Remove id => remove_source m id
  | Retain active => retain_sources m active
  end.

Lemma feed_pcm_wf m id samples : wf m -> wf (feed_pcm m id samples).1.
Proof.
  intros (W0 & W1 & W2). unfold feed_pcm.
  destruct (Z.eqb_spec (len samples) (frame_samples m)) as [El | Nl]; cbn [negb]; [| done].
  set (source := default (mkSource [] false []) (sources m !! id)).
  assert (Hs : source_wf (frame_samples m) source).
  { unfold source. destruct (sources m !! id) as [s |] eqn:Es; cbn; [exact (W2 id s Es) | done]. }
  clearbody source.
  destruct (Z.ltb_spec (len (queued source)) 12); destruct m; cbn in *; (split; [done |]; split; [done |]);
    apply map_Forall_insert_2; try done. destruct Hs as (H1 & H2 & H3). destruct source; cbn in *.
  split; cbn; [rewrite len_app; unfold len in *; cbn; lia |]. split; [| done].
  apply Forall_app. by split; [| constructor].
Qed.

(** The mixer's memory is bounded whatever it is asked: after any history
    of feeds, ticks, drains and removals of sources every source queues at most
    12 frames (240 ms), each exactly one 20 ms frame of the destination. *)
Theorem mixer_queues_bounded codec pt profile random m ops
  (created : new_with_profile codec pt profile random = Some m)
  (rate : 0 <= ptime_samples codec) :
  wf (fold_left apply_op ops m).
Proof.
  assert (B : wf m).
  { unfold new_with_profile in created. destruct (make_encoder codec profile); [| done].
    injection created as <-. split; [done |]. split; [apply length_replicate | apply map_Forall_empty]. }
  clear created. revert m B. induction ops as [| o ops IH]; intros m B; [done |]. cbn. apply IH.
  destruct o as [id samples | | | ts | id | active]; cbn.
  - by apply feed_pcm_wf.
  - by apply flush_frame_wf.
  - by destruct m.
  - by destruct m.
  - destruct B as (B0 & B1 & B2). destruct m; cbn in *. repeat (split; [done |]). by apply map_Forall_delete.
  - destruct B as (B0 & B1 & B2). destruct m; cbn in *. repeat (split; [done |]). intros i s Hs.
    apply map_lookup_filter_Some in Hs as [Hs _]. exact (B2 i s Hs).
Qed.

End mixer.

(** An encoder that writes the low bytes, for evaluating examples. *)
Definition sample_encoder : AudioEncoder := {|
  Encoder := Z;
  OpusProfile := unit;
  make_encoder _ _ := Some 0;
  encode e pcm := (e + 1, Some ((fun x => x mod 256) <$> pcm));
  encoder_profile _ := tt;
  profile_eqb _ _ := true;
|}.

(** Two sources at an 8 kHz destination, one of them saturating. *)
Definition example_mixer : @DestinationMixer sample_encoder :=
  let m := @mkMixer sample_encoder (L16 100) 127 0 ∅ [0; 0] [0; 0] [] 1000 2 2 0 [] in
  (feed_pcm (feed_pcm m 5 [30000; 1]).1 6 [10000; 2]).1.

Lemma example_mixer_wf : wf (AE := sample_encoder) example_mixer.
Proof.
  split; [by vm_compute |]. split; [by vm_compute |].
  intros id s Hs. apply elem_of_map_to_list in Hs. revert id s Hs.
  enough (Forall (fun x : EndpointId * SourceState => source_wf 2 x.2)
    (map_to_list (sources (AE := sample_encoder) example_mixer))) as F.
  { intros id s Hs. by apply (proj1 (Forall_forall _ _) F (id, s)). }
  vm_compute. repeat constructor; done.
Qed.

Lemma tick_mixes_heads_witness :
  output_queue (AE := sample_encoder) (flush_tick (AE := sample_encoder) example_mixer).1
  = [mkPacket 0 127 0 1000 0 true [255; 3]].
Proof.
  pose proof (tick_mixes_heads (AE := sample_encoder) example_mixer example_mixer_wf) as H.
  destruct (flush_tick _) as [m' r] eqn:E1.
  assert (Eh : exists h hs, heads (AE := sample_encoder) example_mixer = h :: hs)
    by (vm_compute; by do 2 eexists).
  destruct Eh as (h & hs & Eh). rewrite Eh in H.
  assert (Ee : encode (AudioEncoder := sample_encoder) (encoder (AE := sample_encoder) example_mixer)
    (mix_of (AE := sample_encoder) example_mixer) = (1, Some [255; 3])) by (by vm_compute).
  rewrite Ee in H. destruct H as (_ & _ & _ & _ & H & _). cbn [fst]. rewrite H. by vm_compute.
Defined.

Lemma mixer_queues_bounded_witness :
  exists m, new_with_profile (AE := sample_encoder) Pcmu 0 tt 5 = Some m /\
    wf (AE := sample_encoder)
      (fold_left (apply_op (AE := sample_encoder)) [Feed 1 (replicate 160 3); FlushTick; Remove 1] m).
Proof.
  destruct (new_with_profile (AE := sample_encoder) Pcmu 0 tt 5) as [m |] eqn:Em; [| by vm_compute in Em].
  exists m. split; [done |].
  exact (mixer_queues_bounded (AE := sample_encoder) Pcmu 0 tt 5 m
    [Feed 1 (replicate 160 3); FlushTick; Remove 1] Em ltac:(by vm_compute)).
Defined.

End Mixer.
