(* ===== verification/Float64.v ===== *)
(** IEEE 754 doubles by their values.

    The standard library's executable doubles ([SpecFloat]) come without a theory.
    Here the operations the code uses on doubles that are not negative are
    related to the numbers they stand for: comparison is exact, and a sum, a
    difference, a conversion or a quotient is the exact number up to one part in
    2^52 and never on the other side of a double. *)

From stdpp Require Import base list.
From S2P Require Import Prelude.
From Stdlib Require Import SpecFloat.
#[local] Open Scope Z_scope.

Module Float64.

Abbreviation fexp := (fexp 53 1024).

(** The number a double stands for, as a multiple of 2^-1074. *)
Definition one : Z := 2 ^ 1074.
Definition value (x : spec_float) : Z :=
  match x with S754_finite false m e => Z.pos m * 2 ^ (e + 1074) | _ => 0 end.

(** Doubles that are zero or positive, in their unique representation. *)
Definition canonical (m : positive) (e : Z) : Prop :=
  (2 ^ 52 <= Z.pos m < 2 ^ 53 /\ -1074 <= e) \/ (Z.pos m < 2 ^ 52 /\ e = -1074).
Definition ok (x : spec_float) : Prop :=
  match x with S754_zero false => True | S754_finite false m e => canonical m e | _ => False end.

(** ** Digits and shifts *)

Lemma digits_log p : Z.pos (digits2_pos p) = Z.log2 (Z.pos p) + 1.
Proof.
  induction p as [p IH | p IH |]; cbn [digits2_pos]; [| | done]; rewrite Pos2Z.inj_succ, IH.
  - rewrite Pos2Z.inj_xI, Z.log2_succ_double by lia. lia.
  - rewrite Pos2Z.inj_xO, Z.log2_double by lia. lia.
Qed.

Lemma fexp_unfold e : fexp e = Z.max (e - 53) (-1074).
Proof. done. Qed.

Lemma shr_1_half x :
  0 <= shr_m x ->
  shr_m (shr_1 x) = shr_m x / 2 /\
  (shr_m x mod 2 = 0 -> shr_r x = false -> shr_s x = false -> shr_r (shr_1 x) = false /\ shr_s (shr_1 x) = false).
Proof.
  destruct x as [m r s]. cbn. intros Hm. destruct m as [| [p | p |] | p]; cbn; try lia.
  - by intuition (subst).
  - split; [rewrite Pos2Z.inj_xI; apply (Z.div_unique _ _ _ 1); lia |].
    rewrite Pos2Z.inj_xI. intros H. rewrite <- (Z.mod_unique (2 * Z.pos p + 1) 2 (Z.pos p) 1) in H; lia.
  - split; [rewrite Pos2Z.inj_xO; apply (Z.div_unique _ _ _ 0); lia |]. intros _ -> ->. done.
  - split; [done |]. done.
Qed.

Lemma shr_iter p : forall x,
  0 <= shr_m x ->
  shr_m (iter_pos shr_1 p x) = shr_m x / 2 ^ Z.pos p /\
  (shr_m x mod 2 ^ Z.pos p = 0 -> shr_r x = false -> shr_s x = false ->
   shr_r (iter_pos shr_1 p x) = false /\ shr_s (iter_pos shr_1 p x) = false).
Proof.
  assert (C : forall f g a b, 0 < a -> 0 < b ->
    (forall x, 0 <= shr_m x -> shr_m (f x) = shr_m x / a /\
       (shr_m x mod a = 0 -> shr_r x = false -> shr_s x = false -> shr_r (f x) = false /\ shr_s (f x) = false)) ->
    (forall x, 0 <= shr_m x -> shr_m (g x) = shr_m x / b /\
       (shr_m x mod b = 0 -> shr_r x = false -> shr_s x = false -> shr_r (g x) = false /\ shr_s (g x) = false)) ->
    (forall x, 0 <= shr_m x -> shr_m (g (f x)) = shr_m x / (a * b) /\
       (shr_m x mod (a * b) = 0 -> shr_r x = false -> shr_s x = false ->
        shr_r (g (f x)) = false /\ shr_s (g (f x)) = false))).
  { intros f g a b Ha Hb Hf Hg x Hx. destruct (Hf x Hx) as [F1 F2].
    assert (0 <= shr_m (f x)) as Hfx by (rewrite F1; apply Z.div_pos; lia).
    destruct (Hg _ Hfx) as [G1 G2]. rewrite G1, F1, Z.div_div by lia. split; [done |].
    intros Hd Hr Hs. pose proof (Z.div_mod (shr_m x) (a * b)) as E. rewrite Hd in E.
    assert (shr_m x = shr_m x / (a * b) * b * a) as E' by lia.
    destruct F2 as [F2 F3]; [rewrite E', Z.mod_mul by lia; done | done | done |].
    apply G2; [| done | done]. rewrite F1, E', Z.div_mul by lia. rewrite Z.mod_mul; lia. }
  induction p as [p IH | p IH |]; cbn [iter_pos].
  - intros x Hx. replace (2 ^ Z.pos p~1) with (2 * 2 ^ Z.pos p * 2 ^ Z.pos p)
      by (rewrite (Pos2Z.inj_xI p), Z.pow_add_r, Z.pow_twice_r by lia; lia).
    assert (0 < 2 ^ Z.pos p) by (by apply Z.pow_pos_nonneg).
    apply (C (fun y => iter_pos shr_1 p (shr_1 y)) (iter_pos shr_1 p) (2 * 2 ^ Z.pos p)); [lia | lia | | exact IH | done].
    apply (C shr_1 (iter_pos shr_1 p) 2); [lia | lia | exact shr_1_half | exact IH].
  - intros x Hx. replace (2 ^ Z.pos p~0) with (2 ^ Z.pos p * 2 ^ Z.pos p)
      by (by rewrite (Pos2Z.inj_xO p), Z.pow_twice_r).
    assert (0 < 2 ^ Z.pos p) by (by apply Z.pow_pos_nonneg).
    apply (C (iter_pos shr_1 p) (iter_pos shr_1 p)); [lia | lia | exact IH | exact IH | done].
  - intros x Hx. exact (shr_1_half x Hx).
Qed.

Lemma shr_m_of_loc m l : shr_m (shr_record_of_loc m l) = m.
Proof. by destruct l as [| []]. Qed.

Lemma round_even_step m l : round_nearest_even m l = m \/ round_nearest_even m l = m + 1.
Proof. destruct l as [| []]; cbn; auto. destruct (Z.even m); auto. Qed.

(** ** Rounding *)

Lemma aux_exact m e :
  fexp (Z.log2 (Z.pos m) + 1 + e) = e -> e <= 971 ->
  binary_round_aux 53 1024 false (Z.pos m) e loc_Exact = S754_finite false m e.
Proof.
  intros F He. unfold binary_round_aux, shr_fexp, Zdigits2. rewrite !digits_log, F, Z.sub_diag. cbn [shr].
  cbn [shr_record_of_loc loc_of_shr_record shr_m round_nearest_even Zdigits2].
  rewrite digits_log, F, Z.sub_diag. cbn [shr shr_record_of_loc shr_m]. by rewrite (proj2 (Z.leb_le _ _)) by lia.
Qed.

Lemma shr_spec m l e n :
  0 <= m -> 0 <= n ->
  (shr (shr_record_of_loc m l) e n).2 = e + n /\
  shr_m (shr (shr_record_of_loc m l) e n).1 = m / 2 ^ n /\
  (l = loc_Exact -> m mod 2 ^ n = 0 -> loc_of_shr_record (shr (shr_record_of_loc m l) e n).1 = loc_Exact).
Proof.
  intros Hm Hn. destruct n as [| p | p]; [| | lia]; cbn [shr fst snd].
  - rewrite Z.pow_0_r, Z.div_1_r, shr_m_of_loc, Z.add_0_r. split; [done |]. split; [done |]. by intros ->.
  - destruct (shr_iter p (shr_record_of_loc m l)) as [A B]; rewrite shr_m_of_loc in *; [done |].
    split; [done |]. split; [done |]. intros -> Hd. destruct (B Hd eq_refl eq_refl) as [B1 B2].
    by destruct (iter_pos shr_1 p _); cbn in *; subst.
Qed.

(** The second pass of rounding: a mantissa of 53 bits, or the carry. *)
Lemma round_settles m f :
  2 ^ 52 <= m <= 2 ^ 53 -> -1074 <= f <= 970 ->
  exists x, (let '(mrs, e) := shr_fexp 53 1024 m f loc_Exact in
      match shr_m mrs with
      | Z0 => S754_zero false
      | Zpos m => if e <=? 971 then S754_finite false m e else S754_infinity false
      | _ => S754_nan
      end) = x /\ ok x /\ value x = m * 2 ^ (f + 1074).
Proof.
  intros Hm Hf. destruct (decide (m = 2 ^ 53)) as [-> | Hne].
  - exists (S754_finite false (2 ^ 52) (f + 1)). unfold shr_fexp.
    change (Zdigits2 (2 ^ 53)) with 54. replace (fexp (54 + f) - f) with 1 by (rewrite fexp_unfold; lia).
    cbn [shr shr_record_of_loc iter_pos]. change (shr_m (shr_1 _)) with (Z.pos (2 ^ 52)).
    rewrite (proj2 (Z.leb_le _ _)) by lia. split; [done |]. split; [left; split; [by vm_compute | lia] |].
    cbn [value]. change (Z.pos (2 ^ 52)) with (2 ^ 52). rewrite <- !Z.pow_add_r by lia. f_equal. lia.
  - destruct m as [| m | m]; [lia | | lia]. exists (S754_finite false m f).
    assert (Z.log2 (Z.pos m) = 52) as L by (apply Z.log2_unique; lia).
    unfold shr_fexp, Zdigits2. rewrite digits_log, L. replace (fexp (52 + 1 + f) - f) with 0 by (rewrite fexp_unfold; lia).
    cbn [shr shr_record_of_loc shr_m]. rewrite (proj2 (Z.leb_le _ _)) by lia.
    split; [done |]. split; [left; split; lia | done].
Qed.

Lemma aux_normal m l e :
  let n := Z.log2 (Z.pos m) - 52 in
  0 <= n -> -1074 <= e + n <= 970 ->
  let x := binary_round_aux 53 1024 false (Z.pos m) e l in
  let q := Z.pos m / 2 ^ n in
  let u := 2 ^ (e + n + 1074) in
  ok x /\ 2 ^ 52 <= q < 2 ^ 53 /\ q * u <= value x <= (q + 1) * u /\
  (l = loc_Exact -> Z.pos m mod 2 ^ n = 0 -> value x = q * u).
Proof.
  intros n Hn Hf x q u.
  assert (Hq : 2 ^ 52 <= q < 2 ^ 53).
  { destruct (Z.log2_spec (Z.pos m)) as [L1 L2]; [lia |].
    assert (0 < 2 ^ n) by (apply Z.pow_pos_nonneg; lia).
    replace (Z.log2 (Z.pos m)) with (52 + n) in L1 by lia.
    replace (Z.succ (Z.log2 (Z.pos m))) with (53 + n) in L2 by lia.
    rewrite Z.pow_add_r in L1, L2 by lia. unfold q. split.
    - apply Z.div_le_lower_bound; lia.
    - apply Z.div_lt_upper_bound; lia. }
  assert (Hu : 0 < u) by (apply Z.pow_pos_nonneg; lia).
  destruct (shr_spec (Z.pos m) l e n ltac:(lia) Hn) as (S1 & S2 & S3).
  assert (exists l', (l = loc_Exact -> Z.pos m mod 2 ^ n = 0 -> l' = loc_Exact) /\
    ok x /\ value x = round_nearest_even q l' * u) as (l' & S4 & Ox & Vx).
  { exists (loc_of_shr_record (shr (shr_record_of_loc (Z.pos m) l) e n).1). split; [done |].
    set (l' := loc_of_shr_record _). destruct (round_settles (round_nearest_even q l') (e + n)) as (y & Ey & Oy & Vy);
      [destruct (round_even_step q l'); lia | lia |].
    assert (x = y) as ->; [| done]. rewrite <- Ey. unfold x, binary_round_aux, l', q. rewrite <- S1, <- S2.
    unfold shr_fexp at 1. change (Zdigits2 (Z.pos m)) with (Z.pos (digits2_pos m)).
    rewrite digits_log. replace (fexp (Z.log2 (Z.pos m) + 1 + e) - e) with n by (rewrite fexp_unfold; lia).
    by destruct (shr (shr_record_of_loc (Z.pos m) l) e n). }
  rewrite Vx. split_and!; try done; try lia; [| | intros El Hd; by rewrite S4].
  all: destruct (round_even_step q l') as [-> | ->]; nia.
Qed.

(** The double nearest to a number: what is needed of it. *)
Record rounds (w : Z) (x : spec_float) : Prop := {
  rounds_ok : ok x;
  rounds_low : 2 ^ 52 * w - w <= 2 ^ 52 * value x;
  rounds_high : 2 ^ 52 * value x <= 2 ^ 52 * w + w;
  rounds_mono : forall y, ok y -> value y <= w -> value y <= value x;
}.

Lemma value_nonneg x : 0 <= value x.
Proof.
  destruct x as [| | | [] m e]; cbn [value]; try lia.
Qed.

Lemma rounds_exact x : ok x -> rounds (value x) x.
Proof. intros H. pose proof (value_nonneg x). split; [done | nia | nia | done]. Qed.

(** Between two multiples of a unit that is at most 2^-52 of the number. *)
Lemma rounds_unit w k x :
  0 <= k -> 2 ^ 52 <= w / 2 ^ k -> ok x -> w / 2 ^ k * 2 ^ k <= value x <= (w / 2 ^ k + 1) * 2 ^ k ->
  rounds w x.
Proof.
  intros Hk Hw Hx Hv. set (u := 2 ^ k) in *. assert (Hu : 0 < u) by (by apply Z.pow_pos_nonneg).
  pose proof (Z.mul_div_le w u Hu). pose proof (Z.mul_succ_div_gt w u Hu).
  split; [done | nia | nia |]. intros y Hy Hyw. destruct y as [| | | [] m e]; cbn in Hy |- *; try (pose proof (value_nonneg x); lia).
  cbn in Hyw. destruct (Z.le_gt_cases k (e + 1074)) as [L | L].
  - replace (e + 1074) with (e + 1074 - k + k) in Hyw |- * by lia. rewrite Z.pow_add_r in * by lia. fold u in Hyw |- *.
    assert (Z.pos m * 2 ^ (e + 1074 - k) <= w / u) by (apply Z.div_le_lower_bound; lia). nia.
  - assert (0 <= e + 1074) by (destruct Hy as [[_ ?] | [_ ->]]; lia).
    assert (Z.pos m < 2 ^ 53) by (destruct Hy as [[? _] | [? _]]; lia).
    assert (2 ^ (e + 1074) * 2 <= u).
    { unfold u. rewrite <- (Z.pow_1_r 2) at 2. rewrite <- Z.pow_add_r by lia. apply Z.pow_le_mono_r; lia. }
    assert (0 < 2 ^ (e + 1074)) by (by apply Z.pow_pos_nonneg). nia.
Qed.

Lemma shl_align_value m e e' :
  -1074 <= e' <= e ->
  exists mz, shl_align m e e' = (mz, e') /\ Z.pos mz = Z.pos m * 2 ^ (e - e').
Proof.
  intros H. unfold shl_align. destruct (e' - e) as [| d | d] eqn:E; [| lia |].
  - replace (e - e') with 0 by lia. rewrite Z.pow_0_r, Z.mul_1_r. exists m. split; [f_equal; lia | done].
  - eexists. split; [done |]. replace (e - e') with (Z.pos d) by lia. clear. revert m.
    induction d as [| d IH] using Pos.peano_ind; intros m; [cbn; lia |].
    rewrite Pos.iter_succ, Pos2Z.inj_succ, Z.pow_succ_r, (Pos2Z.inj_xO (Pos.iter _ _ _)), IH by lia. lia.
Qed.

Lemma shl_align_id m e e' : e <= e' -> shl_align m e e' = (m, e).
Proof. intros H. unfold shl_align. by destruct (e' - e) eqn:E; [| | lia]. Qed.

Lemma round_spec m e :
  -1074 <= e -> Z.log2 (Z.pos m) + e <= 1000 ->
  rounds (Z.pos m * 2 ^ (e + 1074)) (binary_round 53 1024 false m e) /\
  (Z.log2 (Z.pos m) <= 52 -> value (binary_round 53 1024 false m e) = Z.pos m * 2 ^ (e + 1074)).
Proof.
  intros He Hb. unfold binary_round. rewrite digits_log. set (f := fexp (Z.log2 (Z.pos m) + 1 + e)).
  pose proof (fexp_unfold (Z.log2 (Z.pos m) + 1 + e)) as Ef. fold f in Ef.
  destruct (Z.le_gt_cases f e) as [L | L].
  - destruct (shl_align_value m e f) as (mz & -> & V); [lia |].
    assert (Lz : Z.log2 (Z.pos mz) = Z.log2 (Z.pos m) + (e - f)) by (rewrite V, Z.log2_mul_pow2; lia).
    rewrite aux_exact by (rewrite ?fexp_unfold; lia).
    assert (Ev : value (S754_finite false mz f) = Z.pos m * 2 ^ (e + 1074)).
    { cbn [value]. rewrite V, <- Z.mul_assoc, <- Z.pow_add_r by lia. do 2 f_equal. lia. }
    split; [| done]. rewrite <- Ev. apply rounds_exact. cbn.
    destruct (Z.log2_spec (Z.pos mz)) as [L1 L2]; [lia |].
    destruct (decide (f = -1074)) as [E | E].
    + destruct (Z.lt_ge_cases (Z.pos mz) (2 ^ 52)) as [S | S]; [by right | left]. split; [| lia]. split; [done |].
      eapply Z.lt_le_trans; [exact L2 |]. apply Z.pow_le_mono_r; lia.
    + assert (Z.log2 (Z.pos mz) = 52) as E' by lia. rewrite E' in *. left. split; [| lia]. split; [done | exact L2].
  - rewrite shl_align_id by lia. destruct (aux_normal m loc_Exact e) as (O & Q & V & X); [lia | lia |].
    split; [| lia]. assert (0 <= Z.log2 (Z.pos m) - 52) by lia. set (n := Z.log2 (Z.pos m) - 52) in *.
    assert (Hn : e + n + 1074 = n + (e + 1074)) by lia. rewrite Hn in V, X.
    assert (Hdiv : Z.pos m * 2 ^ (e + 1074) / 2 ^ (n + (e + 1074)) = Z.pos m / 2 ^ n).
    { rewrite (Z.pow_add_r 2 n) by lia. apply Z.div_mul_cancel_r; apply Z.pow_nonzero; lia. }
    apply (rounds_unit _ (n + (e + 1074))); rewrite ?Hdiv; [lia | lia | done | done].
Qed.

(** ** Operations *)

(** Far below the largest double. *)
Definition moderate (w : Z) : Prop := w < 2 ^ 2000.

Lemma round_moderate m e :
  -1074 <= e -> moderate (Z.pos m * 2 ^ (e + 1074)) -> Z.log2 (Z.pos m) + e <= 1000.
Proof.
  intros He Hm. assert (Z.log2 (Z.pos m * 2 ^ (e + 1074)) < 2000) as L.
  { apply Z.log2_lt_pow2; [| done]. apply Z.mul_pos_pos; [lia |]. apply Z.pow_pos_nonneg; lia. }
  rewrite Z.log2_mul_pow2 in L by lia. lia.
Qed.

Lemma ok_exponent m e : canonical m e -> -1074 <= e.
Proof. intros [[_ ?] | [_ ->]]; lia. Qed.

(** Two doubles at their smaller exponent. *)
Lemma aligned m1 e1 m2 e2 :
  -1074 <= e1 -> -1074 <= e2 ->
  Z.pos m1 * 2 ^ (e1 + 1074) = Z.pos (fst (shl_align m1 e1 (Z.min e1 e2))) * 2 ^ (Z.min e1 e2 + 1074) /\
  Z.pos m2 * 2 ^ (e2 + 1074) = Z.pos (fst (shl_align m2 e2 (Z.min e1 e2))) * 2 ^ (Z.min e1 e2 + 1074).
Proof.
  intros H1 H2. destruct (shl_align_value m1 e1 (Z.min e1 e2)) as (a & -> & Ea); [lia |].
  destruct (shl_align_value m2 e2 (Z.min e1 e2)) as (b & -> & Eb); [lia |]. cbn [fst]. rewrite Ea, Eb.
  rewrite <- !Z.mul_assoc, <- !Z.pow_add_r by lia. split; do 2 f_equal; lia.
Qed.

Lemma add_spec x y :
  ok x -> ok y -> moderate (value x + value y) -> rounds (value x + value y) (SFadd 53 1024 x y).
Proof.
  intros Hx Hy Hm. destruct x as [[] | | | [] m1 e1], y as [[] | | | [] m2 e2]; try done; cbn [SFadd].
  - by apply (rounds_exact (S754_finite false m2 e2)).
  - replace (value _ + _) with (value (S754_finite false m1 e1)) by (cbn; lia). by apply rounds_exact.
  - pose proof (ok_exponent _ _ Hx) as H1. pose proof (ok_exponent _ _ Hy) as H2.
    destruct (aligned m1 e1 m2 e2 H1 H2) as [E1 E2]. cbn [value] in *. rewrite E1, E2, <- Z.mul_add_distr_r in Hm |- *.
    cbn [cond_Zopp Z.add]. rewrite <- Pos2Z.inj_add in *. cbn [binary_normalize].
    apply round_spec; [lia |]. apply round_moderate; [lia | done].
Qed.

Lemma round_negative d e : SFltb (S754_zero false) (binary_round 53 1024 true d e) = false.
Proof.
  unfold binary_round. destruct (shl_align _ _ _) as [mz ez]. unfold binary_round_aux.
  destruct (shr_fexp 53 1024 (Z.pos mz) ez loc_Exact) as [r1 e'].
  destruct (shr_fexp 53 1024 (round_nearest_even _ _) e' loc_Exact) as [r2 e''].
  destruct (shr_m r2); try done. by destruct (_ <=? _).
Qed.

(** [x - y] cut off at zero. *)
Lemma sub_spec x y :
  ok x -> ok y -> moderate (value x) ->
  rounds (Z.max 0 (value x - value y))
    (if SFltb (S754_zero false) (SFsub 53 1024 x y) then SFsub 53 1024 x y else S754_zero false).
Proof.
  intros Hx Hy Hm. assert (Z0 : rounds 0 (S754_zero false)) by (by apply (rounds_exact (S754_zero false))).
  destruct x as [[] | | | [] m1 e1], y as [[] | | | [] m2 e2]; try done; cbn [SFsub].
  - pose proof (value_nonneg (S754_finite false m2 e2)). cbn [value SFltb SFcompare negb] in *.
    by replace (Z.max 0 _) with 0 by lia.
  - pose proof (value_nonneg (S754_finite false m1 e1)). cbn [SFltb SFcompare].
    replace (Z.max 0 _) with (value (S754_finite false m1 e1)) by (cbn [value] in *; lia). by apply rounds_exact.
  - pose proof (ok_exponent _ _ Hx) as H1. pose proof (ok_exponent _ _ Hy) as H2.
    destruct (aligned m1 e1 m2 e2 H1 H2) as [E1 E2]. cbn [value cond_Zopp] in *. rewrite E1, E2, <- Z.mul_sub_distr_r in *.
    assert (0 < 2 ^ (Z.min e1 e2 + 1074)) as Hp by (apply Z.pow_pos_nonneg; lia).
    destruct (Z.pos _ - Z.pos _) as [| d | d] eqn:D; cbn [binary_normalize].
    + done.
    + destruct (round_spec d (Z.min e1 e2)) as [R _]; [lia | |].
      { apply round_moderate; [lia |]. rewrite <- D. unfold moderate in *. nia. }
      replace (Z.max 0 _) with (Z.pos d * 2 ^ (Z.min e1 e2 + 1074)) by nia.
      destruct (binary_round 53 1024 false d (Z.min e1 e2)) as [[] | | | [] m e] eqn:E;
        try (by destruct (rounds_ok _ _ R)); done.
    + replace (Z.max 0 _) with 0 by nia.
      by rewrite round_negative.
Qed.

(** [n as f64]. *)
Lemma of_nat_spec n :
  0 <= n < 2 ^ 53 -> ok (binary_normalize 53 1024 n 0 false) /\ value (binary_normalize 53 1024 n 0 false) = n * one.
Proof.
  intros Hn. destruct n as [| n | n]; [done | | lia]. cbn [binary_normalize].
  assert (L : Z.log2 (Z.pos n) <= 52) by (assert (Z.log2 (Z.pos n) < 53); [apply Z.log2_lt_pow2 |]; lia).
  destruct (round_spec n 0) as [R E]; [lia | lia |]. split; [apply R | by apply E].
Qed.

Lemma lt_spec x y : ok x -> ok y -> SFltb x y = true <-> value x < value y.
Proof.
  intros Hx Hy. destruct x as [[] | | | [] m1 e1], y as [[] | | | [] m2 e2]; try done; cbn [SFltb SFcompare value].
  - split; [intros _ | done]. pose proof (ok_exponent _ _ Hy). apply Z.mul_pos_pos; [lia | apply Z.pow_pos_nonneg; lia].
  - split; [done |]. intros H. pose proof (value_nonneg (S754_finite false m1 e1)). cbn [value] in *. lia.
  - pose proof (ok_exponent _ _ Hx) as H1. pose proof (ok_exponent _ _ Hy) as H2.
    assert (G : forall m e m' e', canonical m e -> canonical m' e' -> e < e' ->
      Z.pos m * 2 ^ (e + 1074) < Z.pos m' * 2 ^ (e' + 1074)).
    { intros m e m' e' C C' L. pose proof (ok_exponent _ _ C). destruct C' as [[C' _] | [_ ->]]; [| lia].
      assert (Z.pos m < 2 ^ 53) by (destruct C as [[? _] | [? _]]; lia).
      assert (2 ^ (e + 1074) * 2 <= 2 ^ (e' + 1074)).
      { rewrite <- (Z.pow_1_r 2) at 2. rewrite <- Z.pow_add_r by lia. apply Z.pow_le_mono_r; lia. }
      assert (0 < 2 ^ (e + 1074)) by (apply Z.pow_pos_nonneg; lia). nia. }
    destruct (Z.compare_spec e1 e2) as [-> | L | L].
    + assert (0 < 2 ^ (e2 + 1074)) by (apply Z.pow_pos_nonneg; lia). change (Pos.compare_cont Eq m1 m2) with (m1 ?= m2)%positive.
      destruct (Pos.compare_spec m1 m2) as [-> | L | L]; (split; [intros | intros]); try done; try nia.
    + split; [intros _; by apply G | done].
    + split; [done |]. pose proof (G m2 e2 m1 e1 Hy Hx L). lia.
Qed.

(** The representation of a positive integer. *)
Lemma of_nat_normal n :
  0 < n < 2 ^ 53 ->
  exists m e, binary_normalize 53 1024 n 0 false = S754_finite false m e /\ 2 ^ 52 <= Z.pos m < 2 ^ 53 /\
    -54 < e < 1 /\ Z.pos m * 2 ^ (e + 1074) = n * one.
Proof.
  intros Hn. destruct (of_nat_spec n) as [O V]; [lia |].
  assert (Hone : 0 < one) by (by apply Z.pow_pos_nonneg).
  destruct (binary_normalize 53 1024 n 0 false) as [[] | | | [] m e]; try done; cbn [value ok] in *; [nia |].
  exists m, e. split; [done |]. pose proof (ok_exponent _ _ O) as He.
  assert (P : forall a b, 0 <= a -> 0 <= b -> 2 ^ a < 2 ^ b -> a < b) by (intros a b ? ? ?; by apply (Z.pow_lt_mono_r_iff 2)).
  assert (E : 2 ^ (53 + (e + 1074)) = 2 ^ 53 * 2 ^ (e + 1074)) by (apply Z.pow_add_r; lia).
  assert (E' : 2 ^ (52 + (e + 1074)) = 2 ^ 52 * 2 ^ (e + 1074)) by (apply Z.pow_add_r; lia).
  assert (Eo : 2 ^ (53 + 1074) = 2 ^ 53 * one) by done.
  assert (0 < 2 ^ (e + 1074)) by (apply Z.pow_pos_nonneg; lia).
  assert (Z.pos m < 2 ^ 53) by (destruct O as [[? _] | [? _]]; lia).
  assert (1074 < 53 + (e + 1074)) by (apply P; [lia | lia |]; fold one; nia).
  assert (2 ^ 52 <= Z.pos m) by (destruct O as [[? _] | [_ ->]]; lia).
  assert (52 + (e + 1074) < 53 + 1074) by (apply P; [lia | lia |]; nia). lia.
Qed.

(** An exact quotient and its rounding lie between the same multiples of a unit. *)
Lemma quotient_bounds m1 m2 a b v t n k p1 p2 o :
  0 < n -> 0 < k -> 0 < p1 -> 0 < p2 -> 0 < o -> 2 ^ 52 <= t ->
  Z.pos m1 * p1 = a * o -> Z.pos m2 * p2 = b * o ->
  t * n * Z.pos m2 <= Z.pos m1 * 2 ^ 53 < (t + 1) * n * Z.pos m2 ->
  t * k <= v <= (t + 1) * k -> k * p2 * 2 ^ 53 = n * p1 * o ->
  (2 ^ 52 - 1) * (a * o) <= 2 ^ 52 * (v * b) <= (2 ^ 52 + 1) * (a * o).
Proof.
  intros Hn Hk H1 H2 Ho Ht E1 E2 B V E. set (g := k * (Z.pos m2 * p2)).
  assert (Hg : 0 < g) by (unfold g; nia).
  assert (Y : t * g <= a * o * o < (t + 1) * g).
  { assert (YN : a * o * o * n = Z.pos m1 * 2 ^ 53 * (k * p2)) by (rewrite <- E1; nia).
    assert (t * g * n = t * n * Z.pos m2 * (k * p2)) by (unfold g; ring).
    assert ((t + 1) * g * n = (t + 1) * n * Z.pos m2 * (k * p2)) by (unfold g; ring).
    assert (0 < k * p2) by nia. split; nia. }
  assert (Z' : t * g <= v * b * o <= (t + 1) * g).
  { replace (v * b * o) with (v * (Z.pos m2 * p2)) by (rewrite E2; ring). unfold g. split; nia. }
  split; nia.
Qed.

(** The quotient of two integers. *)
Lemma div_spec a b :
  0 < a < 2 ^ 53 -> 0 < b < 2 ^ 53 ->
  let r := SFdiv 53 1024 (binary_normalize 53 1024 a 0 false) (binary_normalize 53 1024 b 0 false) in
  ok r /\ (2 ^ 52 - 1) * (a * one) <= 2 ^ 52 * (value r * b) <= (2 ^ 52 + 1) * (a * one).
Proof.
  intros Ha Hb r. unfold r. clear r.
  destruct (of_nat_normal a Ha) as (m1 & e1 & -> & M1 & X1 & V1).
  destruct (of_nat_normal b Hb) as (m2 & e2 & -> & M2 & X2 & V2).
  cbn [SFdiv xorb]. unfold SFdiv_core_binary, Zdigits2. rewrite !digits_log.
  rewrite (Z.log2_unique (Z.pos m1) 52), (Z.log2_unique (Z.pos m2) 52) by lia.
  replace (Z.min (fexp (52 + 1 + e1 - (52 + 1 + e2))) (e1 - e2)) with (e1 - e2 - 53) by (rewrite fexp_unfold; lia).
  replace (e1 - e2 - (e1 - e2 - 53)) with 53 by lia. rewrite Z.shiftl_mul_pow2 by lia.
  pose proof (Z_div_mod (Z.pos m1 * 2 ^ 53) (Z.pos m2) ltac:(lia)) as D.
  destruct (Z.div_eucl (Z.pos m1 * 2 ^ 53) (Z.pos m2)) as [q rem]. destruct D as [D R].
  assert (Hq : 2 ^ 52 <= q < 2 ^ 54) by nia. destruct q as [| q | q]; [lia | | lia].
  assert (L : 52 <= Z.log2 (Z.pos q) <= 53).
  { split; [apply Z.log2_le_pow2; lia |]. assert (Z.log2 (Z.pos q) < 54); [apply Z.log2_lt_pow2 |]; lia. }
  destruct (aux_normal q (new_location (Z.pos m2) rem) (e1 - e2 - 53)) as (O & Q & V & _); [lia | lia |].
  split; [done |]. set (n := Z.log2 (Z.pos q) - 52) in *.
  set (v := value _) in *. set (t := Z.pos q / 2 ^ n) in *.
  set (k := e1 - e2 - 53 + n + 1074) in *.
  assert (Hn : 0 <= n <= 1) by lia. assert (Hk : 0 <= k) by lia. assert (Hu : 0 < 2 ^ k) by (by apply Z.pow_pos_nonneg).
  assert (Hpn : 0 < 2 ^ n) by (apply Z.pow_pos_nonneg; lia).
  (* the exact quotient, in units of the result *)
  assert (B : t * 2 ^ n * Z.pos m2 <= Z.pos m1 * 2 ^ 53 < (t + 1) * 2 ^ n * Z.pos m2).
  { pose proof (Z.mul_div_le (Z.pos q) (2 ^ n) Hpn). pose proof (Z.mul_succ_div_gt (Z.pos q) (2 ^ n) Hpn).
    fold t in H, H0. nia. }
  assert (E : 2 ^ k * 2 ^ (e2 + 1074) * 2 ^ 53 = 2 ^ n * 2 ^ (e1 + 1074) * one).
  { unfold one. rewrite <- !Z.pow_add_r by lia. f_equal. unfold k. lia. }
  apply (quotient_bounds m1 m2 a b v t (2 ^ n) (2 ^ k) (2 ^ (e1 + 1074)) (2 ^ (e2 + 1074)) one);
    try done; try lia; try (apply Z.pow_pos_nonneg; lia).
Qed.

End Float64.
