(* ===== verification/Resample.v ===== *)
(** The linear-interpolation resampler ([media/resample.rs]).

    Positions are IEEE 754 doubles, computed with the standard library's
    executable specification [SpecFloat], so every rounding the code performs is
    performed here too.  The theorems show that the resampler always answers,
    for which source rates a 20 ms frame is converted into exactly a 20 ms frame,
    and for which it is not. *)

From Stdlib Require Import SpecFloat.
From stdpp Require Import list.
From S2P Require Import Prelude Media Float64.
#[local] Open Scope Z_scope.

(** ** Rust's [f64] *)

Module F64.

Definition t : Type := spec_float.

Definition add : t -> t -> t := SFadd 53 1024.
Definition sub : t -> t -> t := SFsub 53 1024.
Definition mul : t -> t -> t := SFmul 53 1024.
Definition div : t -> t -> t := SFdiv 53 1024.
Definition lt : t -> t -> bool := SFltb.

Definition zero : t := S754_zero false.

(** [1e-9]: the double nearest to it. *)
Definition nano : t := S754_finite false 4835703278458517 (-82).

(** [z as f64]. *)
Definition of_Z (z : Z) : t := binary_normalize 53 1024 z 0 false.

(** The integer parts of a finite double, towards zero and downwards. *)
Definition magnitude (m : positive) (e : Z) : Z :=
  if 0 <=? e then Z.pos m * 2 ^ e else Z.pos m / 2 ^ (- e).
Definition trunc (s : bool) (m : positive) (e : Z) : Z :=
  if s then - magnitude m e else magnitude m e.
Definition floor (s : bool) (m : positive) (e : Z) : Z :=
  if s then (if 0 <=? e then - (Z.pos m * 2 ^ e) else (- Z.pos m) / 2 ^ (- e)) else magnitude m e.

(** [as i16] and [as usize] truncate, saturate, and send NaN to 0. *)
Definition saturate (lo hi z : Z) : Z := Z.max lo (Z.min hi z).
Definition to_i16 (x : t) : Z :=
  match x with
  | S754_nan | S754_zero _ => 0
  | S754_infinity s => if s then -32768 else 32767
  | S754_finite s m e => saturate (-32768) 32767 (trunc s m e)
  end.
Definition floor_usize (x : t) : Z :=
  match x with
  | S754_nan | S754_zero _ => 0
  | S754_infinity s => if s then 0 else 2 ^ 64 - 1
  | S754_finite s m e => saturate 0 (2 ^ 64 - 1) (floor s m e)
  end.

(** [x.max(0.0)]. *)
Definition max0 (x : t) : t := if lt zero x then x else zero.

Lemma to_i16_range x : Codec.is_i16 (to_i16 x).
Proof. unfold Codec.is_i16, to_i16, saturate. destruct x as [| [] | | s m e]; lia. Qed.

End F64.

Module Resampler.

Record t := mk {
  from_rate : Z;
  to_rate : Z;
  frac_pos : F64.t;
  previous : option Z;
}.

(** The two [assert!]s. *)
Definition new (from_rate to_rate : Z) : outcome t :=
  if (0 <? from_rate) && (0 <? to_rate) then Val (mk from_rate to_rate F64.zero None) else Panic.

Definition is_passthrough (r : t) : bool := from_rate r =? to_rate r.

(** The body of the loop: the output sample at a position. *)
Definition sample_at (input : list Z) (prev : option Z) (pos : F64.t) : outcome Z :=
  let i := F64.floor_usize pos in
  let fraction := F64.sub pos (F64.of_Z i) in
  let! before :=
    (if i =? 0 then match prev with Some p => Val p | None => get input 0 end
     else get input (i - 1)) in
  let! current := get input i in
  Val (F64.to_i16 (F64.add (F64.of_Z before)
    (F64.mul fraction (F64.sub (F64.of_Z current) (F64.of_Z before))))).

(** The [while] loop.  A run that outlasts the fuel has no value, as a panic has
    none; [process_total] shows that neither happens. *)
Fixpoint interpolate (fuel : nat) (input : list Z) (prev : option Z) (ratio pos : F64.t)
  : outcome (list Z * F64.t) :=
  match fuel with
  | O => Panic
  | S fuel =>
      if F64.lt (F64.add pos F64.nano) (F64.of_Z (len input)) then
        let! s := sample_at input prev pos in
        let! rest := interpolate fuel input prev ratio (F64.add pos ratio) in
        Val (s :: rest.1, rest.2)
      else Val ([], pos)
  end.

Definition ratio (r : t) : F64.t := F64.div (F64.of_Z (from_rate r)) (F64.of_Z (to_rate r)).

(** Twice the expected number of outputs and some slack. *)
Definition fuel (r : t) (input : list Z) : nat :=
  (Z.to_nat (2 * (len input * to_rate r / from_rate r)) + 8)%nat.

Definition process (r : t) (input : list Z) : outcome (list Z * t) :=
  if is_passthrough r then Val (input, r)
  else if bool_decide (input = []) then Val ([], r)
  else
    let! (out, pos) := interpolate (fuel r input) input (previous r) (ratio r) (frac_pos r) in
    Val (out,
      r {{ frac_pos := F64.max0 (F64.sub pos (F64.of_Z (len input))) }} {{ previous := last input }}).

(** ** Positions

    Where the loop samples its input depends on the length of the input only. *)

Fixpoint positions (fuel : nat) (len ratio pos : F64.t) : option (list F64.t * F64.t) :=
  match fuel with
  | O => None
  | S fuel =>
      if F64.lt (F64.add pos F64.nano) len then
        match positions fuel len ratio (F64.add pos ratio) with
        | Some (ps, stop) => Some (pos :: ps, stop)
        | None => None
        end
      else Some ([], pos)
  end.

Lemma get_in input i : 0 <= i < len input -> exists s, get input i = Val s.
Proof.
  intros Hi. unfold get. split_if; [by eexists |]. bool_prop; lia.
Qed.

Lemma floor_usize_nonneg x : 0 <= F64.floor_usize x.
Proof. destruct x as [| [] | | s m e]; cbn; unfold F64.saturate; lia. Qed.

Lemma sample_at_val input prev pos :
  F64.floor_usize pos < len input -> exists s, sample_at input prev pos = Val s /\ Codec.is_i16 s.
Proof.
  intros Hi. pose proof (floor_usize_nonneg pos) as H0. unfold sample_at.
  destruct (get_in input (F64.floor_usize pos)) as [c ->]; [lia |].
  assert (exists b, (if F64.floor_usize pos =? 0 then
      match prev with Some p => Val p | None => get input 0 end
      else get input (F64.floor_usize pos - 1)) = Val b) as [b ->].
  { destruct (Z.eqb_spec (F64.floor_usize pos) 0) as [E | E]; [destruct prev as [p |]; [by exists p |] |];
      apply get_in; lia. }
  cbn. eexists. split; [reflexivity |]. apply F64.to_i16_range.
Qed.

(** Positions inside the input make the loop produce one sample each. *)
Lemma interpolate_positions fuel input prev rt pos ps stop :
  positions fuel (F64.of_Z (len input)) rt pos = Some (ps, stop) ->
  Forall (fun p => F64.floor_usize p < len input) ps ->
  exists out, interpolate fuel input prev rt pos = Val (out, stop) /\
    length out = length ps /\ Forall Codec.is_i16 out.
Proof.
  revert pos ps. induction fuel as [| fuel IH]; intros pos ps; cbn [positions interpolate]; [done |].
  destruct (F64.lt _ _).
  - destruct (positions fuel _ rt (F64.add pos rt)) as [[ps' stop'] |] eqn:E; [| done].
    intros [= <- <-] [Hp Hps]%Forall_cons.
    destruct (IH _ _ E Hps) as (out & -> & L & R).
    destruct (sample_at_val input prev pos Hp) as (s & -> & Hs).
    exists (s :: out). cbn. rewrite L. by split_and!; [| | constructor].
  - intros [= <- <-] _. exists []. by split_and!.
Qed.

(** The rates audio is converted to. *)
Definition media_rates : list Z := [8000; 16000; 48000].

(** What a frame of [n] samples yields from position [pos]: the number of
    samples, all computed inside the frame, and the position of the next frame. *)
Definition frame_step (from to n : Z) (pos : F64.t) : option (Z * F64.t) :=
  match positions (Z.to_nat (2 * (n * to / from)) + 8) (F64.of_Z n)
          (F64.div (F64.of_Z from) (F64.of_Z to)) pos with
  | Some (ps, stop) =>
      if forallb (fun p => F64.floor_usize p <? n) ps
      then Some (len ps, F64.max0 (F64.sub stop (F64.of_Z n)))
      else None
  | None => None
  end.

Lemma process_frame r input want next :
  is_passthrough r = false -> input <> [] ->
  frame_step (from_rate r) (to_rate r) (len input) (frac_pos r) = Some (want, next) ->
  exists out, process r input
    = Val (out, r {{ frac_pos := next }} {{ previous := last input }}) /\
    len out = want /\ Forall Codec.is_i16 out.
Proof.
  intros Hp Hne. unfold frame_step, process. rewrite Hp, bool_decide_false by done.
  unfold fuel. destruct (positions _ _ _ _) as [[ps stop] |] eqn:E; [| done].
  destruct (forallb _ ps) eqn:F; [| done]. intros [= <- <-].
  destruct (interpolate_positions _ input (previous r) _ _ _ _ E) as (out & O & L & R).
  - apply List.Forall_forall. intros p Hin. rewrite forallb_forall in F.
    by apply Z.ltb_lt, F.
  - unfold ratio. rewrite O. exists out. unfold len. rewrite L. by destruct r.
Qed.

(** ** Rates that convert exactly *)

(** Source rates whose ratio to every media rate leaves no position behind. *)
Definition exact_rates : list Z := [8000; 12000; 16000; 24000; 32000; 48000; 64000; 96000; 192000].

Definition exact_pair (from to : Z) : bool :=
  match frame_step from to (from / 50) F64.zero with
  | Some (n, S754_zero false) => n =? to / 50
  | _ => false
  end.

Lemma exact_pairs :
  forallb (fun from => forallb (fun to => (from =? to) || exact_pair from to) media_rates)
    exact_rates = true.
Proof. vm_cast_no_check (@eq_refl bool true). Qed.

(** A resampler at rest: at the start of a frame. *)
Definition at_rest (from to : Z) (r : t) : Prop :=
  from_rate r = from /\ to_rate r = to /\ frac_pos r = F64.zero.

Lemma new_at_rest from to : 0 < from -> 0 < to ->
  exists r, new from to = Val r /\ at_rest from to r.
Proof.
  intros Hf Ht. unfold new. rewrite !(proj2 (Z.ltb_lt _ _)) by done. by eexists.
Qed.

Lemma exact_frame from to r input :
  In from exact_rates -> In to media_rates -> from <> to ->
  at_rest from to r -> len input = from / 50 ->
  exists out r', process r input = Val (out, r') /\
    len out = to / 50 /\ Forall Codec.is_i16 out /\ at_rest from to r'.
Proof.
  intros Hf Ht Hne (Ef & Et & Ez) Hlen.
  pose proof exact_pairs as E. rewrite forallb_forall in E. specialize (E from Hf).
  rewrite forallb_forall in E. specialize (E to Ht).
  rewrite (proj2 (Z.eqb_neq _ _) Hne) in E. cbn [orb] in E. unfold exact_pair in E.
  destruct (frame_step from to (from / 50) F64.zero) as [[n next] |] eqn:S; [| done].
  destruct next as [[] | | |]; try done. apply Z.eqb_eq in E.
  destruct (process_frame r input n F64.zero) as (out & P & L & R).
  - unfold is_passthrough. rewrite Ef, Et. by apply Z.eqb_neq.
  - intros ->. cbn in Hlen. clear - Hf Hlen. revert Hf. unfold exact_rates. cbn.
    intros Hf. intuition (subst; discriminate).
  - by rewrite Ef, Et, Ez, Hlen.
  - exists out, (r {{ frac_pos := F64.zero }} {{ previous := last input }}).
    rewrite L. split_and!; try done; by destruct r; cbn in *; subst.
Qed.

(** ** The resampler always answers *)

Import Float64(value, ok, one, moderate, rounds, rounds_ok, rounds_low, rounds_high, rounds_mono).

Lemma one_pos : 0 < one.
Proof. by apply Z.pow_pos_nonneg. Qed.
Lemma moderate_le w : w <= 2 ^ 40 * one -> moderate w.
Proof. intros H. eapply Z.le_lt_trans; [exact H |]. by vm_compute. Qed.
Lemma nano_small : ok F64.nano /\ 0 <= value F64.nano <= one.
Proof. split; [left; by vm_compute | split; by vm_compute]. Qed.

(** The integer part of a position. *)
Lemma floor_below pos n : ok pos -> 0 < n -> value pos < n * one -> F64.floor_usize pos < n.
Proof.
  intros O Hn V. destruct pos as [[] | | | [] m e]; try done. cbn [value ok] in *.
  pose proof (Float64.ok_exponent _ _ O) as He. cbn [F64.floor_usize F64.floor].
  assert (F64.magnitude m e < n).
  { unfold F64.magnitude. destruct (Z.leb_spec 0 e) as [L | L].
    - rewrite Z.pow_add_r in V by lia. unfold one in V. pose proof one_pos as P. unfold one in P.
      generalize dependent (2 ^ 1074). intros o P V. nia.
    - apply Z.div_lt_upper_bound; [apply Z.pow_pos_nonneg; lia |].
      assert (E : one = 2 ^ (- e) * 2 ^ (e + 1074)) by (unfold one; rewrite <- Z.pow_add_r by lia; f_equal; lia).
      rewrite E in V. assert (0 < 2 ^ (e + 1074)) by (apply Z.pow_pos_nonneg; lia). nia. }
  unfold F64.saturate. lia.
Qed.

(** A position advances by more than five eighths of the ratio. *)
Lemma advance pos rt n :
  ok pos -> ok rt -> 0 <= n < 2 ^ 31 -> value pos <= n * one -> one <= 2 ^ 19 * value rt -> value rt <= 2 ^ 33 * one ->
  ok (F64.add pos rt) /\ 8 * value pos + 5 * value rt <= 8 * value (F64.add pos rt) /\
  2 ^ 52 * value (F64.add pos rt) <= (2 ^ 52 + 1) * (n * one + value rt).
Proof.
  intros Op Or Hn Hp Hlo Hhi. pose proof one_pos as P.
  pose proof (Float64.add_spec pos rt Op Or) as R. unfold F64.add.
  destruct R as [R1 R2 R3 _]; [apply moderate_le; nia |]. split; [done |]. split; nia.
Qed.

(** The test of the loop. *)
Lemma running pos n :
  ok pos -> 0 < n < 2 ^ 31 -> value pos <= 2 ^ 35 * one ->
  F64.lt (F64.add pos F64.nano) (F64.of_Z n) = true -> value pos < n * one.
Proof.
  intros Op Hn Hp Hlt. pose proof one_pos as P. destruct nano_small as [On Vn].
  destruct (Float64.of_nat_spec n) as [Oz Vz]; [lia |].
  destruct (Float64.add_spec pos F64.nano Op On) as [Oa _ _ Mono]; [apply moderate_le; nia |].
  apply (Float64.lt_spec _ _ Oa Oz) in Hlt. specialize (Mono pos Op). lia.
Qed.

Lemma interpolate_total fuel : forall input prev rt pos,
  ok rt -> 0 < len input < 2 ^ 31 -> one <= 2 ^ 19 * value rt -> value rt <= 2 ^ 33 * one ->
  ok pos -> value pos <= 2 ^ 35 * one ->
  8 * (len input * one) < 8 * value pos + Z.of_nat fuel * (5 * value rt) ->
  exists out stop, interpolate (S fuel) input prev rt pos = Val (out, stop) /\
    Forall Codec.is_i16 out /\ len out <= Z.of_nat fuel /\ ok stop /\
    (stop = pos \/ 2 ^ 52 * value stop <= (2 ^ 52 + 1) * (len input * one + value rt)).
Proof.
  induction fuel as [| fuel IH]; intros input prev rt pos Or Hn Hlo Hhi Op Hp Hf; cbn [interpolate];
    (destruct (F64.lt _ _) eqn:E;
      [| exists [], pos; split_and!; [done | by apply Forall_nil | apply Nat2Z.is_nonneg | done | by left]]).
  { pose proof (running pos (len input) Op Hn Hp E). rewrite Z.mul_0_l in Hf. lia. }
  pose proof (running pos (len input) Op Hn Hp E) as V. pose proof one_pos as P.
  destruct (sample_at_val input prev pos) as (s & Es & Hs); [apply floor_below; [done | lia | done] |].
  destruct (advance pos rt (len input) Op Or ltac:(lia) ltac:(lia) Hlo Hhi) as (Oa & Va & Vh).
  destruct (IH input prev rt (F64.add pos rt)) as (out & stop & Ei & Hout & Hl & Ostop & Hstop);
    [done | done | done | done | done | nia | lia |].
  rewrite Es. cbn [obind]. cbn [interpolate] in Ei. rewrite Ei. cbn [obind fst snd].
  exists (s :: out), stop. rewrite len_cons. split_and!; try done; [by constructor | lia |].
  right. by destruct Hstop as [-> | ?].
Qed.

(** Rates as the bridge uses them, and a position a little beyond the last frame. *)
Definition usable (r : t) : Prop :=
  0 < from_rate r < 2 ^ 32 /\ 0 < to_rate r <= 2 ^ 18 /\
  ok (frac_pos r) /\ value (frac_pos r) <= 2 ^ 34 * one.

Lemma new_usable from to : 0 < from < 2 ^ 32 -> 0 < to <= 2 ^ 18 -> exists r, new from to = Val r /\ usable r.
Proof.
  intros Hf Ht. unfold new. rewrite !(proj2 (Z.ltb_lt _ _)) by lia. eexists. split; [done |].
  pose proof one_pos. split_and!; cbn; try done; lia.
Qed.

Lemma ratio_spec r :
  usable r ->
  ok (ratio r) /\ one <= 2 ^ 19 * value (ratio r) /\ value (ratio r) <= 2 ^ 33 * one /\
  (2 ^ 52 - 1) * (from_rate r * one) <= 2 ^ 52 * (value (ratio r) * to_rate r).
Proof.
  intros (Hf & Ht & _). pose proof one_pos as P. unfold ratio.
  destruct (Float64.div_spec (from_rate r) (to_rate r)) as (O & B1 & B2); [lia | lia |].
  unfold F64.div, F64.of_Z. split_and!; [done | nia | nia | done].
Qed.

(** What is left of the position after a frame. *)
Lemma leftover o v s l r :
  0 < o -> o <= l -> l <= 2 ^ 31 * o -> r <= 2 ^ 33 * o ->
  s <= 2 ^ 34 * o \/ 2 ^ 52 * s <= (2 ^ 52 + 1) * (l + r) ->
  2 ^ 52 * v <= 2 ^ 52 * Z.max 0 (s - l) + Z.max 0 (s - l) -> v <= 2 ^ 34 * o.
Proof. lia. Qed.

(** Whatever the frame, a run ends after at most twice the expected number of
    samples and leaves the resampler usable. *)
Lemma process_total r input :
  usable r -> len input < 2 ^ 31 ->
  exists out r', process r input = Val (out, r') /\ usable r' /\
    from_rate r' = from_rate r /\ to_rate r' = to_rate r /\
    (Forall Codec.is_i16 input -> Forall Codec.is_i16 out).
Proof.
  intros U Hlen. pose proof one_pos as P. unfold process. destruct (is_passthrough r); [by exists input, r |].
  case_bool_decide as He; [subst; by exists [], r |].
  assert (Hn : 0 < len input) by (destruct input; [done |]; rewrite len_cons; pose proof (len_nonneg input); lia).
  destruct (ratio_spec r U) as (Or & Hlo & Hhi & Hr). destruct U as (Hf & Ht & Op & Hp).
  set (k := len input * to_rate r / from_rate r).
  assert (Hk : 0 <= k /\ len input * to_rate r < (k + 1) * from_rate r).
  { split; [apply Z.div_pos; nia |]. pose proof (Z.mul_succ_div_gt (len input * to_rate r) (from_rate r)). fold k in H. lia. }
  replace (fuel r input) with (S (Z.to_nat (2 * k + 7))) by (unfold fuel; fold k; lia).
  destruct (interpolate_total (Z.to_nat (2 * k + 7)) input (previous r) (ratio r) (frac_pos r))
    as (out & stop & -> & Hout & _ & Os & Hs); [done | lia | done | done | done | lia | |].
  { rewrite Z2Nat.id by lia. pose proof (Float64.value_nonneg (frac_pos r)).
    assert (len input * one * (to_rate r * (2 ^ 52 - 1)) <= (k + 1) * (2 ^ 52 * (value (ratio r) * to_rate r))) by nia.
    assert (len input * one * (2 ^ 52 - 1) <= (k + 1) * (2 ^ 52 * value (ratio r))) by nia. nia. }
  cbn [obind fst snd]. do 2 eexists. split; [done |].
  destruct (Float64.of_nat_spec (len input)) as [Oz Vz]; [lia |].
  assert (Vs : value stop <= 2 ^ 34 * one \/ 2 ^ 52 * value stop <= (2 ^ 52 + 1) * (len input * one + value (ratio r)))
    by (destruct Hs as [-> | ?]; [by left | by right]).
  destruct (Float64.sub_spec stop (F64.of_Z (len input)) Os Oz) as [Om _ Hm _]; [apply moderate_le; destruct Vs; nia |].
  change (if SFltb (S754_zero false) (SFsub 53 1024 stop (F64.of_Z (len input)))
    then SFsub 53 1024 stop (F64.of_Z (len input)) else S754_zero false)
    with (F64.max0 (F64.sub stop (F64.of_Z (len input)))) in Om, Hm.
  change (value (F64.of_Z (len input)) = len input * one) in Vz. rewrite Vz in Hm.
  assert (B : value (F64.max0 (F64.sub stop (F64.of_Z (len input)))) <= 2 ^ 34 * one).
  { apply (leftover one _ (value stop) (len input * one) (value (ratio r))); [done | nia | nia | done | exact Vs | exact Hm]. }
  unfold usable. destruct r; cbn in *. split_and!; done || lia.
Qed.

(** ** A rate that does not *)

(** The positions of the next frames, while each of them yields fewer samples
    than a frame of the target rate. *)
Fixpoint short_frames (from to : Z) (k : nat) (pos : F64.t) : bool :=
  match k with
  | O => true
  | S k =>
      match frame_step from to (from / 50) pos with
      | Some (n, next) => (n <? to / 50) && short_frames from to k next
      | None => false
      end
  end.

Lemma telephone_rate_short : short_frames 11025 48000 5 F64.zero = true.
Proof. vm_cast_no_check (@eq_refl bool true). Qed.

End Resampler.
