(* ===== verification/Vad.v ===== *)
(** Voice activity detection ([media/vad.rs]): the monitor of one endpoint, which
    cuts 16 kHz audio into 16 ms frames, asks the predictor about each, and reports
    the start of speech and the silence after it.  The predictor, a third-party
    network, is an interface: any answers may come from it. *)

From Stdlib Require Import SpecFloat.
From stdpp Require Import list.
From S2P Require Import Prelude Media Resample.
#[local] Open Scope Z_scope.

(** [earshot::Detector::predict_i16]: a score, and the detector's next state. *)
Class Predictor := {
  Detector : Type;
  detector : Detector;
  predict : Detector -> list Z -> Detector * spec_float;
}.

Module Vad.
Section vad.
Context {PR : Predictor}.

Definition HANGOVER_FRAMES : Z := 20.
Definition frame_len : nat := 256.

Record t := mk {
  network : Detector;
  resampler : option Resampler.t;
  pcm_buffer : list Z;
  speech_threshold : spec_float;
  silence_interval_ms : Z;
  is_speaking : bool;
  in_silence : bool;
  silence_samples : Z;
  samples_since_last_event : Z;
  hangover_frames : Z;
  last_speech_time : option Z;
  silence_started_at : option Z;
  last_silence_event_at : option Z;
}.

Inductive VadEvent := SpeechStarted | Silence (duration_ms : Z).

Definition new (source_sample_rate : Z) (speech_threshold : spec_float) (silence_interval_ms : Z) : outcome t :=
  let make r := mk detector r [] speech_threshold silence_interval_ms false false 0 0 0 None None None in
  if source_sample_rate =? 0 then Val (make None)
  else if negb (source_sample_rate =? 16000) then
    let! r := Resampler.new source_sample_rate 16000 in Val (make (Some r))
  else Val (make None).

Definition enter_silence (m : t) (now : Z) : t :=
  m {{ is_speaking := false }} {{ in_silence := true }} {{ silence_samples := 0 }}
    {{ samples_since_last_event := 0 }} {{ hangover_frames := 0 }}
    {{ silence_started_at := Some now }} {{ last_silence_event_at := Some now }}.

(** Milliseconds since an instant, 0 without one. *)
Definition elapsed (now : Z) (start : option Z) : Z :=
  match start with Some s => duration_since now s / ns_per_ms | None => 0 end.

Definition silence_event (m : t) (now : Z) : t * option VadEvent :=
  if negb (in_silence m) || is_speaking m then (m, None)
  else
    let since_last_ms :=
      Z.max (samples_since_last_event m * 1000 / 16000) (elapsed now (last_silence_event_at m)) in
    if since_last_ms <? silence_interval_ms m then (m, None)
    else
      let duration_ms := Z.max (silence_samples m * 1000 / 16000) (elapsed now (silence_started_at m)) in
      (m {{ samples_since_last_event := 0 }} {{ last_silence_event_at := Some now }},
       Some (Silence duration_ms)).

(** [score >= threshold]; no comparison with NaN holds. *)
Definition is_speech (score threshold : spec_float) : bool := SFleb threshold score.

(** The verdict on a frame: speech starts, goes on, hangs over or ends. *)
Definition on_verdict (m : t) (speech : bool) (now : Z) : t * list VadEvent :=
  if speech then
    let m := m {{ last_speech_time := Some now }} {{ hangover_frames := 0 }} in
    if negb (is_speaking m) then
      (m {{ is_speaking := true }} {{ in_silence := false }} {{ silence_samples := 0 }}
         {{ samples_since_last_event := 0 }} {{ silence_started_at := None }}
         {{ last_silence_event_at := None }}, [SpeechStarted])
    else (m, [])
  else if is_speaking m then
    let m := m {{ hangover_frames := hangover_frames m + 1 }} in
    ((if HANGOVER_FRAMES <=? hangover_frames m then enter_silence m now else m), [])
  else (m, []).

(** What follows the verdict: the frame counts as silence. *)
Definition count_silence (m : t) (now : Z) : t * list VadEvent :=
  if in_silence m && negb (is_speaking m) then
    let m := m {{ silence_samples := silence_samples m + 256 }}
               {{ samples_since_last_event := samples_since_last_event m + 256 }} in
    let '(m, e) := silence_event m now in (m, option_list e)
  else (m, []).

Definition process_frame (m : t) (frame : list Z) (now : Z) : t * list VadEvent :=
  let '(d, score) := predict (network m) frame in
  let m := m {{ network := d }} in
  let '(m, e1) := on_verdict m (is_speech score (speech_threshold m)) now in
  let '(m, e2) := count_silence m now in
  (m, e1 ++ e2).

(** The [while] loop takes a frame per round. *)
Fixpoint process_frames (fuel : nat) (m : t) (now : Z) : t * list VadEvent :=
  match fuel with
  | O => (m, [])
  | S fuel =>
      if (frame_len <=? length (pcm_buffer m))%nat then
        let frame := take frame_len (pcm_buffer m) in
        let m := m {{ pcm_buffer := drop frame_len (pcm_buffer m) }} in
        let '(m, e1) := process_frame m frame now in
        let '(m, e2) := process_frames fuel m now in
        (m, e1 ++ e2)
      else (m, [])
  end.

Definition hangover : Z := HANGOVER_FRAMES * 16 * ns_per_ms.

Definition check_timeout_at (m : t) (now : Z) : t * list VadEvent :=
  let m :=
    match last_speech_time m with
    | Some last_speech =>
        if is_speaking m && (hangover <=? duration_since now last_speech)
        then enter_silence m (last_speech + hangover) else m
    | None => m
    end in
  let '(m, e) := silence_event m now in (m, option_list e).

Definition process_at (m : t) (pcm : list Z) (now : Z) : outcome (t * list VadEvent) :=
  let! m :=
    (match resampler m with
     | Some r =>
         let! (out, r) := Resampler.process r pcm in
         Val (m {{ resampler := Some r }} {{ pcm_buffer := pcm_buffer m ++ out }})
     | None => Val (m {{ pcm_buffer := pcm_buffer m ++ pcm }})
     end) in
  let '(m, e1) := process_frames (length (pcm_buffer m)) m now in
  let '(m, e2) := check_timeout_at m now in
  Val (m, e1 ++ e2).

(** ** A monitor at work *)

Inductive input := Audio (pcm : list Z) (now : Z) | Tick (now : Z).
Definition time_of (i : input) : Z := match i with Audio _ now => now | Tick now => now end.

Definition step (m : t) (i : input) : outcome (t * list VadEvent) :=
  match i with
  | Audio pcm now => process_at m pcm now
  | Tick now => Val (check_timeout_at m now)
  end.

Fixpoint run (m : t) (ins : list input) : outcome (t * list VadEvent) :=
  match ins with
  | [] => Val (m, [])
  | i :: ins =>
      let! (m, e1) := step m i in
      let! (m, e2) := run m ins in
      Val (m, e1 ++ e2)
  end.

(** Instants that do not go back. *)
Fixpoint ordered (t0 : Z) (ins : list input) : Prop :=
  match ins with [] => True | i :: ins => t0 <= time_of i /\ ordered (time_of i) ins end.

(** ** What may be reported

    [None]: no speech yet.  [Some d]: since the last start of speech a silence of
    [d] ms was reported, or none and [d] is 0. *)

Definition spec : Type := option Z.

Definition allowed (interval : Z) (s : spec) (e : VadEvent) (s' : spec) : Prop :=
  match e with
  | SpeechStarted => s' = Some 0
  | Silence d => exists d0, s = Some d0 /\ d0 <= d /\ interval <= d /\ s' = Some d
  end.

Inductive reports (interval : Z) : spec -> list VadEvent -> spec -> Prop :=
| r_nil s : reports interval s [] s
| r_cons s e s1 es s2 : allowed interval s e s1 -> reports interval s1 es s2 -> reports interval s (e :: es) s2.

Lemma reports_app i s1 es s2 fs s3 : reports i s1 es s2 -> reports i s2 fs s3 -> reports i s1 (es ++ fs) s3.
Proof. induction 1; cbn; [done |]. intros. econstructor; eauto. Qed.

(** The monitor and what it has reported, at time [now]. *)
Record inv (interval now : Z) (s : spec) (m : t) : Prop := {
  v_interval : silence_interval_ms m = interval;
  v_apart : in_silence m = true -> is_speaking m = false;
  v_started : s = None -> in_silence m = false /\ is_speaking m = false;
  v_speaking : is_speaking m = true -> s = Some 0 /\ exists p, last_speech_time m = Some p /\ p <= now;
  v_silence : in_silence m = true -> exists d b l, s = Some d /\
    silence_started_at m = Some b /\ last_silence_event_at m = Some l /\ b <= l <= now /\
    0 <= samples_since_last_event m <= silence_samples m /\
    d <= Z.max (silence_samples m * 1000 / 16000) (elapsed now (Some b));
}.

Lemma elapsed_mono b now now' : now <= now' -> elapsed now (Some b) <= elapsed now' (Some b).
Proof. intros H. unfold elapsed, duration_since. apply Z.div_le_mono; [done | lia]. Qed.

Lemma elapsed_anti b l now : b <= l -> elapsed now (Some l) <= elapsed now (Some b).
Proof. intros H. unfold elapsed, duration_since. apply Z.div_le_mono; [done | lia]. Qed.

Lemma inv_later i now now' s m : now <= now' -> inv i now s m -> inv i now' s m.
Proof.
  intros Hle [V1 V2 V3 V4 V5]. split; try done.
  - intros (E & p & Hp & Hl)%V4. split; [done |]. exists p. split; [done | lia].
  - intros (d & b & l & E & Eb & El & Hl & Hs & Hd)%V5. exists d, b, l. split_and!; try done; try lia.
    pose proof (elapsed_mono b now now' Hle). lia.
Qed.

(** Silence begins. *)
Lemma enter_silence_inv i now s m at_ :
  inv i now s m -> is_speaking m = true -> at_ <= now -> inv i now s (enter_silence m at_).
Proof.
  intros [V1 V2 V3 V4 V5] Hs Ha. destruct (V4 Hs) as [-> _]. destruct m; cbn in *. split; cbn; try done.
  intros _. exists 0, at_, at_. split_and!; try done; try lia. apply Z.le_max_l.
Qed.

(** A due silence is reported, with a duration that fits what was said before;
    and afterwards none is due. *)
Definition on_time (now : Z) (m : t) : Prop :=
  in_silence m = true -> 0 < silence_interval_ms m ->
  Z.max (samples_since_last_event m * 1000 / 16000) (elapsed now (last_silence_event_at m)) < silence_interval_ms m.

Lemma silence_event_inv i now s m :
  inv i now s m ->
  let '(m', e) := silence_event m now in
  exists s', reports i s (option_list e) s' /\ inv i now s' m' /\ on_time now m' /\ is_speaking m' = is_speaking m.
Proof.
  intros I. unfold silence_event, on_time. destruct (in_silence m) eqn:Hin; cbn [negb orb].
  2: { exists s. split_and!; [apply r_nil | done | congruence | done]. }
  destruct I as [V1 V2 V3 V4 V5]. rewrite (V2 Hin). destruct (V5 Hin) as (d & b & l & -> & Eb & El & Hl & Hs & Hd).
  destruct (_ <? _) eqn:Due; bool_prop.
  - exists (Some d). split; [apply r_nil |]. split; [by split |]. split; [done |]. by rewrite V2.
  - eexists (Some _). split_and!.
    + eapply r_cons; [| apply r_nil]. exists d. split_and!; try done; rewrite ?Eb; [lia |].
      rewrite El in Due. pose proof (elapsed_anti b l now ltac:(lia)).
      assert (samples_since_last_event m * 1000 / 16000 <= silence_samples m * 1000 / 16000)
        by (apply Z.div_le_mono; lia). lia.
    + pose proof (V2 Hin) as Hsp. destruct m; cbn in *. subst. split; cbn; try done.
      intros _. eexists. exists b, now. split_and!; try done; lia.
    + destruct m; cbn in *. intros _ Hpos. unfold elapsed, duration_since. rewrite Z.sub_diag. exact Hpos.
    + destruct m; cbn in *. by rewrite V2.
Qed.

Lemma on_verdict_inv i now s m speech :
  0 <= i -> inv i now s m ->
  let '(m', es) := on_verdict m speech now in exists s', reports i s es s' /\ inv i now s' m'.
Proof.
  intros Hi I. unfold on_verdict. destruct speech.
  - destruct I as [V1 V2 V3 V4 V5]. destruct m as [nw rs pb th iv sp ins ss sl hf ls st le]; cbn in *.
    destruct sp; cbn.
    + exists s. destruct (V4 eq_refl) as [-> _]. split; [apply r_nil |]. split; cbn; try done.
      intros _. split; [done |]. by exists now.
    + exists (Some 0). split; [by eapply r_cons; [| apply r_nil] |]. split; cbn; try done.
      intros _. split; [done |]. by exists now.
  - destruct (is_speaking m) eqn:Hsp; [| exists s; split; [apply r_nil | done]].
    exists s. split; [apply r_nil |].
    assert (inv i now s (m {{ hangover_frames := hangover_frames m + 1 }})) as I'
      by (destruct I as [V1 V2 V3 V4 V5]; destruct m; by split).
    split_if; [| done]. apply enter_silence_inv; [done | by destruct m | done].
Qed.

Lemma count_silence_inv i now s m :
  inv i now s m -> let '(m', es) := count_silence m now in exists s', reports i s es s' /\ inv i now s' m'.
Proof.
  intros I. unfold count_silence. destruct (in_silence m && negb (is_speaking m)) eqn:C.
  2: { exists s. split; [apply r_nil | done]. }
  apply andb_true_iff in C as [Hin _].
  assert (inv i now s (m {{ silence_samples := silence_samples m + 256 }}
    {{ samples_since_last_event := samples_since_last_event m + 256 }})) as I'.
  { destruct I as [V1 V2 V3 V4 V5]. destruct (V5 Hin) as (d & b & l & -> & Eb & El & Hl & Hs & Hd).
    destruct m; cbn in *. split; cbn; try done. intros _. exists d, b, l. split_and!; try done; try lia.
    assert (silence_samples0 * 1000 / 16000 <= (silence_samples0 + 256) * 1000 / 16000)
      by (apply Z.div_le_mono; lia). lia. }
  apply silence_event_inv in I'. destruct (silence_event _ now) as [m' e].
  destruct I' as (s' & R & I' & _). by exists s'.
Qed.

Lemma process_frame_inv i now s m frame :
  0 <= i -> inv i now s m ->
  let '(m', es) := process_frame m frame now in exists s', reports i s es s' /\ inv i now s' m'.
Proof.
  intros Hi I. unfold process_frame. destruct (predict (network m) frame) as [d score].
  assert (inv i now s (m {{ network := d }})) as I1 by (destruct I as [V1 V2 V3 V4 V5]; destruct m; by split).
  pose proof (on_verdict_inv i now s _ (is_speech score (speech_threshold (m {{ network := d }}))) Hi I1) as I2.
  destruct (on_verdict _ _ now) as [m2 e1]. destruct I2 as (s2 & R2 & I2).
  apply count_silence_inv in I2. destruct (count_silence m2 now) as [m3 e2]. destruct I2 as (s3 & R3 & I3).
  exists s3. split; [by eapply reports_app | done].
Qed.

Lemma process_frames_inv i now fuel : 0 <= i -> forall s m, inv i now s m ->
  let '(m', es) := process_frames fuel m now in exists s', reports i s es s' /\ inv i now s' m'.
Proof.
  intros Hi. induction fuel as [| fuel IH]; intros s m I; cbn [process_frames].
  - exists s. split; [apply r_nil | done].
  - destruct (_ <=? _)%nat; [| exists s; split; [apply r_nil | done]].
    set (m1 := m {{ pcm_buffer := drop frame_len (pcm_buffer m) }}).
    assert (inv i now s m1) as I1 by (destruct I as [V1 V2 V3 V4 V5]; destruct m; by split).
    pose proof (process_frame_inv i now s m1 (take frame_len (pcm_buffer m)) Hi I1) as I2.
    destruct (process_frame m1 _ now) as [m2 e1]. destruct I2 as (s2 & R2 & I2).
    specialize (IH s2 m2 I2). destruct (process_frames fuel m2 now) as [m3 e2]. destruct IH as (s3 & R3 & I3).
    exists s3. split; [by eapply reports_app | done].
Qed.

(** Speech was heard a moment ago. *)
Definition current (now : Z) (m : t) : Prop :=
  is_speaking m = true -> exists p, last_speech_time m = Some p /\ now - p < hangover.

Lemma check_timeout_inv i now s m :
  inv i now s m ->
  let '(m', es) := check_timeout_at m now in
  exists s', reports i s es s' /\ inv i now s' m' /\ on_time now m' /\ current now m'.
Proof.
  intros I. unfold check_timeout_at.
  set (m1 := match last_speech_time m with Some _ => _ | None => m end).
  assert (inv i now s m1 /\ current now m1) as [I1 C1].
  { unfold m1, current. destruct (last_speech_time m) as [p |] eqn:Hp.
    - destruct (is_speaking m) eqn:Hsp; cbn [andb]; [| by split; [| congruence]].
      destruct (Z.leb_spec hangover (duration_since now p)) as [Hd | Hd].
      + split; [| by destruct m]. apply enter_silence_inv; [done | done |].
        revert Hd. unfold hangover, HANGOVER_FRAMES, ns_per_ms, duration_since. lia.
      + split; [done |]. intros _. exists p. split; [done |]. unfold duration_since in Hd. lia.
    - split; [done |]. intros Hsp. destruct (v_speaking _ _ _ _ I Hsp) as (_ & p & Hp' & _). congruence. }
  clearbody m1. pose proof (silence_event_inv i now s m1 I1) as I2.
  assert (L : last_speech_time (silence_event m1 now).1 = last_speech_time m1)
    by (unfold silence_event; repeat case_match; by destruct m1).
  destruct (silence_event m1 now) as [m2 e]. destruct I2 as (s' & R & I2 & O & Sp).
  exists s'. split_and!; try done. unfold current in *. cbn in L. by rewrite Sp, L.
Qed.

Lemma vad_step_inv i t0 s m x m' es :
  0 <= i -> inv i t0 s m -> t0 <= time_of x -> step m x = Val (m', es) ->
  exists s', reports i s es s' /\ inv i (time_of x) s' m' /\ on_time (time_of x) m' /\ current (time_of x) m'.
Proof.
  intros Hi I Ht. apply (inv_later i t0 (time_of x)) in I; [| done]. clear Ht.
  destruct x as [pcm now | now]; cbn in *.
  - unfold process_at. intros E. destruct (match resampler m with Some _ => _ | None => _ end) as [m1 |] eqn:E1; [| done].
    assert (inv i now s m1) as I1.
    { destruct (resampler m) as [r |]; [destruct (Resampler.process r pcm) as [[out r'] |]; [| done] |];
        injection E1 as <-; destruct I as [V1 V2 V3 V4 V5]; destruct m; by split. }
    cbn in E. pose proof (process_frames_inv i now (length (pcm_buffer m1)) Hi s m1 I1) as I2.
    destruct (process_frames _ m1 now) as [m2 e1]. destruct I2 as (s2 & R2 & I2).
    apply check_timeout_inv in I2. destruct (check_timeout_at m2 now) as [m3 e2]. destruct I2 as (s3 & R3 & I3).
    injection E as <- <-. exists s3. split; [by eapply reports_app | done].
  - intros [= E]. apply check_timeout_inv in I. by rewrite E in I.
Qed.

Lemma run_inv i ins : 0 <= i -> forall t0 s m m' es,
  inv i t0 s m -> ordered t0 ins -> run m ins = Val (m', es) ->
  exists s', reports i s es s' /\
    match last ins with Some x => on_time (time_of x) m' /\ current (time_of x) m' | None => True end.
Proof.
  intros Hi. induction ins as [| x ins IH]; intros t0 s m m' es I O E; cbn in E.
  - injection E as <- <-. exists s. split; [apply r_nil | done].
  - destruct O as [O1 O2]. destruct (step m x) as [[m1 e1] |] eqn:E1; [| done]. cbn in E.
    destruct (run m1 ins) as [[m2 e2] |] eqn:E2; [| done]. cbn in E. injection E as <- <-.
    destruct (vad_step_inv i t0 s m x m1 e1 Hi I O1 E1) as (s1 & R1 & I1 & On & Cu).
    destruct (IH _ _ _ _ _ I1 O2 E2) as (s2 & R2 & L). exists s2. split; [by eapply reports_app |].
    destruct ins as [| y ins]; [| exact L]. cbn in *. by injection E2 as <- <-.
Qed.

(** *** The monitor always answers *)

(** The resampler and the samples that wait for a frame. *)
Definition io (m : t) : option Resampler.t * list Z := (resampler m, pcm_buffer m).

Lemma silence_event_io m now : io (silence_event m now).1 = io m.
Proof. unfold silence_event. destruct (negb _ || _); [done |]. destruct (_ <? _); by destruct m. Qed.

Lemma on_verdict_io m b now : io (on_verdict m b now).1 = io m.
Proof.
  unfold on_verdict, enter_silence. destruct b; [destruct (negb _); by destruct m |].
  destruct (is_speaking m); [| done]. destruct (_ <=? _); by destruct m.
Qed.

Lemma process_frame_io m frame now : io (process_frame m frame now).1 = io m.
Proof.
  unfold process_frame. destruct (predict (network m) frame) as [d score].
  pose proof (on_verdict_io (m {{ network := d }}) (is_speech score (speech_threshold (m {{ network := d }}))) now) as R.
  destruct (on_verdict _ _ now) as [m2 e1]. cbn in R. replace (io m) with (io m2) by (rewrite R; by destruct m).
  unfold count_silence. destruct (_ && _); [| done].
  match goal with |- context [silence_event ?x now] => pose proof (silence_event_io x now) as R' end.
  destruct (silence_event _ now). cbn in *. rewrite R'. by destruct m2.
Qed.

Lemma check_timeout_io m now : io (check_timeout_at m now).1 = io m.
Proof.
  unfold check_timeout_at. set (m1 := match last_speech_time m with Some _ => _ | None => m end).
  assert (io m1 = io m) as <-.
  { unfold m1, enter_silence. destruct (last_speech_time m); [| done]. destruct (_ && _); by destruct m. }
  pose proof (silence_event_io m1 now). by destruct (silence_event m1 now).
Qed.

(** The fuel of the loop is enough: less than a frame remains. *)
Lemma process_frames_io fuel now : forall m,
  (length (pcm_buffer m) <= fuel)%nat ->
  resampler (process_frames fuel m now).1 = resampler m /\
  (length (pcm_buffer (process_frames fuel m now).1) < frame_len)%nat.
Proof.
  induction fuel as [| fuel IH]; intros m Hl; cbn [process_frames]; [unfold frame_len; split; [done | cbn; lia] |].
  destruct (Nat.leb_spec frame_len (length (pcm_buffer m))) as [L | L]; [| done].
  set (m1 := m {{ pcm_buffer := drop frame_len (pcm_buffer m) }}).
  pose proof (process_frame_io m1 (take frame_len (pcm_buffer m)) now) as R.
  destruct (process_frame m1 _ now) as [m2 e1]. cbn [fst] in R. injection R as R1 R2.
  destruct (IH m2) as [A B].
  { rewrite R2. unfold m1. destruct m; cbn in *. rewrite length_drop. unfold frame_len in *. lia. }
  destruct (process_frames fuel m2 now) as [m3 e2]. cbn [fst] in *. rewrite A, R1. split; [by destruct m | done].
Qed.

(** A monitor between inputs. *)
Definition ready (m : t) : Prop :=
  (length (pcm_buffer m) < frame_len)%nat /\
  match resampler m with Some r => Resampler.usable r | None => True end.
Definition short (i : input) : Prop := match i with Audio pcm _ => len pcm < 2 ^ 31 | Tick _ => True end.

Lemma step_ready m x : ready m -> short x -> exists m' es, step m x = Val (m', es) /\ ready m'.
Proof.
  intros [Hb Hr] Hx. destruct x as [pcm now | now]; cbn [step short] in *.
  - assert (exists m0, (match resampler m with
      | Some r => let! (out, r) := Resampler.process r pcm in
                  Val (m {{ resampler := Some r }} {{ pcm_buffer := pcm_buffer m ++ out }})
      | None => Val (m {{ pcm_buffer := pcm_buffer m ++ pcm }})
      end) = Val m0 /\ match resampler m0 with Some r => Resampler.usable r | None => True end) as (m0 & E & U).
    { destruct (resampler m) as [r |] eqn:Er.
      - destruct (Resampler.process_total r pcm Hr Hx) as (out & r' & -> & U & _). cbn [obind].
        eexists. split; [done |]. by destruct m.
      - eexists. split; [done |]. destruct m; cbn in *. by subst. }
    unfold process_at. rewrite E. cbn [obind].
    destruct (process_frames_io (length (pcm_buffer m0)) now m0 ltac:(done)) as [R1 B1].
    destruct (process_frames _ m0 now) as [m1 e1]. pose proof (check_timeout_io m1 now) as R2.
    destruct (check_timeout_at m1 now) as [m2 e2]. do 2 eexists. split; [reflexivity |]. cbn [fst] in *.
    injection R2 as R2 R3. unfold ready. rewrite R2, R3, R1. by split.
  - pose proof (check_timeout_io m now) as R2. destruct (check_timeout_at m now) as [m2 e2].
    do 2 eexists. split; [reflexivity |]. cbn [fst] in *. injection R2 as R2 R3. unfold ready. by rewrite R2, R3.
Qed.

Lemma run_total ins : forall m, ready m -> Forall short ins -> exists m' es, run m ins = Val (m', es) /\ ready m'.
Proof.
  induction ins as [| x ins IH]; intros m R Hs; cbn [run]; [by exists m, [] |].
  apply Forall_cons in Hs as [Hx Hs]. destruct (step_ready m x R Hx) as (m1 & e1 & -> & R1). cbn [obind].
  destruct (IH m1 R1 Hs) as (m' & es & -> & R'). by exists m', (e1 ++ es).
Qed.

Lemma new_ready rate th i : is_u32 rate -> exists m, new rate th i = Val m /\ ready m.
Proof.
  intros Hr. unfold is_u32 in Hr. assert (Hl : (length (@nil Z) < frame_len)%nat) by (unfold frame_len; cbn; lia).
  unfold new. destruct (Z.eqb_spec rate 0); [eexists; split; [done | by split] |].
  destruct (negb _); [| eexists; split; [done | by split]].
  destruct (Resampler.new_usable rate 16000) as (r & -> & U); [lia | lia |]. cbn [obind].
  eexists. split; [done | by split].
Qed.

Lemma vad_new_inv rate th i m now : new rate th i = Val m -> inv i now None m.
Proof.
  unfold new. destruct (rate =? 0); [| destruct (negb _)]; [| destruct (Resampler.new _ _); [| done] |];
    cbn; intros [= <-]; by split.
Qed.

End vad.


(** A predictor that hears speech in any frame that does not begin with 0. *)
#[local] Instance first_sample : Predictor := {|
  Detector := unit;
  detector := tt;
  predict d f := (d, match f with 0 :: _ => F64.zero | _ => F64.of_Z 1 end);
|}.

(** Speech and then silence, at 8 kHz. *)
Definition example_inputs : list input :=
  [Audio (repeat 9 128) 0; Audio (repeat 0 256) (40 * ns_per_ms); Tick (400 * ns_per_ms); Tick (900 * ns_per_ms)].


End Vad.
