(* ===== verification/Text.v ===== *)
(** Text as the sources handle it: what they use of [str] and of the textual
    forms of integers.  Text is ASCII: the white space and letters that lie
    outside ASCII are not modelled. *)

From stdpp Require Import strings.
From Stdlib Require Import Ascii.
From S2P Require Import Prelude.
#[local] Open Scope Z_scope.

Declare Scope text_scope.
Infix "^^" := String.append (at level 60, right associativity) : text_scope.
#[local] Open Scope text_scope.
#[global] Arguments String.append !s1 s2 / : simpl nomatch.

Module Text.

Definition code (c : ascii) : Z := Z.of_N (N_of_ascii c).
Definition char (n : Z) : ascii := ascii_of_N (Z.to_N n).

Definition LF : ascii := "010".
Definition CR : ascii := "013".
Definition CRLF : string := String CR (String LF EmptyString).

Definition is_ws (c : ascii) : bool := ((9 <=? code c) && (code c <=? 13)) || (code c =? 32).
Definition is_digit (c : ascii) : bool := (48 <=? code c) && (code c <=? 57).

(** ** Slices of [str] *)

Fixpoint strip_prefix (p s : string) : option string :=
  match p, s with
  | EmptyString, _ => Some s
  | String a p, String b s => if Ascii.eqb a b then strip_prefix p s else None
  | _, EmptyString => None
  end.
Definition starts_with (p s : string) : bool := match strip_prefix p s with Some _ => true | None => false end.

Fixpoint trim_start (s : string) : string :=
  match s with
  | EmptyString => EmptyString
  | String c s' => if is_ws c then trim_start s' else s
  end.
Fixpoint trim_end (s : string) : string :=
  match s with
  | EmptyString => EmptyString
  | String c s =>
      match trim_end s with
      | EmptyString => if is_ws c then EmptyString else String c EmptyString
      | t => String c t
      end
  end.
Definition trim (s : string) : string := trim_end (trim_start s).

(** [s.split(sep)] *)
Fixpoint split (sep : ascii) (s : string) : list string :=
  match s with
  | EmptyString => [EmptyString]
  | String c s =>
      if Ascii.eqb c sep then EmptyString :: split sep s
      else match split sep s with
           | w :: ws => String c w :: ws
           | [] => [String c EmptyString]
           end
  end.

(** [s.split_once(sep)] *)
Fixpoint split_once (sep : ascii) (s : string) : option (string * string) :=
  match s with
  | EmptyString => None
  | String c s =>
      if Ascii.eqb c sep then Some (EmptyString, s)
      else match split_once sep s with
           | Some (a, b) => Some (String c a, b)
           | None => None
           end
  end.

Fixpoint split_whitespace (s : string) : list string :=
  match s with
  | EmptyString => []
  | String c s' =>
      if is_ws c then split_whitespace s'
      else match s' with
           | EmptyString => [String c EmptyString]
           | String d _ =>
               if is_ws d then String c EmptyString :: split_whitespace s'
               else match split_whitespace s' with
                    | w :: ws => String c w :: ws
                    | [] => [String c EmptyString]
                    end
           end
  end.

(** [s.lines()]: a line ends in LF or CR LF, and the last one may end without. *)
Fixpoint strip_cr (s : string) : string :=
  match s with
  | EmptyString => EmptyString
  | String c EmptyString => if Ascii.eqb c CR then EmptyString else s
  | String c s => String c (strip_cr s)
  end.
Fixpoint close_lines (ps : list string) : list string :=
  match ps with
  | [] => []
  | [EmptyString] => []
  | [last] => [last]
  | p :: ps => strip_cr p :: close_lines ps
  end.
Definition lines (s : string) : list string := close_lines (split LF s).

Fixpoint join (sep : string) (ws : list string) : string :=
  match ws with
  | [] => EmptyString
  | [w] => w
  | w :: ws => w ^^ sep ^^ join sep ws
  end.

(** ** Case *)

Definition lower (c : ascii) : ascii := if (65 <=? code c) && (code c <=? 90) then char (code c + 32) else c.
Definition upper (c : ascii) : ascii := if (97 <=? code c) && (code c <=? 122) then char (code c - 32) else c.
Fixpoint to_ascii_lowercase (s : string) : string :=
  match s with EmptyString => EmptyString | String c s => String (lower c) (to_ascii_lowercase s) end.
Fixpoint to_ascii_uppercase (s : string) : string :=
  match s with EmptyString => EmptyString | String c s => String (upper c) (to_ascii_uppercase s) end.
Definition eq_ignore_ascii_case (a b : string) : bool :=
  String.eqb (to_ascii_lowercase a) (to_ascii_lowercase b).

(** ** Integers *)

(** The digits of [parse]: checked multiplication and addition. *)
Fixpoint digits (max acc : Z) (s : string) : option Z :=
  match s with
  | EmptyString => Some acc
  | String c s =>
      if is_digit c then
        let x := acc * 10 + (code c - 48) in
        if x <=? max then digits max x s else None
      else None
  end.
(** [s.parse::<uN>()], [max] being [uN::MAX]: a plus sign is allowed. *)
Definition parse_uint (max : Z) (s : string) : option Z :=
  match s with
  | EmptyString => None
  | String c s' =>
      if Ascii.eqb c "+" then (if String.eqb s' EmptyString then None else digits max 0 s')
      else digits max 0 s
  end.

(** The [Display] of an unsigned integer of at most 64 bits. *)
Fixpoint show_from (fuel : nat) (n : Z) (acc : string) : string :=
  match fuel with
  | O => acc
  | S fuel =>
      let acc := String (char (48 + n mod 10)) acc in
      if n <? 10 then acc else show_from fuel (n / 10) acc
  end.
Definition show (n : Z) : string := show_from 20 n EmptyString.
#[global] Arguments show n : simpl never.

(** The bytes of a text. *)
Fixpoint bytes_of (s : string) : bytes :=
  match s with EmptyString => [] | String c s => code c :: bytes_of s end.
Fixpoint of_bytes (l : bytes) : string :=
  match l with [] => EmptyString | b :: l => String (char b) (of_bytes l) end.

(** ** Facts *)

Fixpoint all (p : ascii -> bool) (s : string) : bool :=
  match s with EmptyString => true | String c s => p c && all p s end.
Definition isnt (c : ascii) : ascii -> bool := fun d => negb (Ascii.eqb d c).
Definition no_ws : ascii -> bool := fun c => negb (is_ws c).
(** A nonempty text without white space. *)
Definition word (s : string) : bool := negb (String.eqb s EmptyString) && all no_ws s.

Lemma app_assoc_s a b c : (a ^^ b) ^^ c = a ^^ (b ^^ c).
Proof. induction a as [| x a IH]; cbn; [done | by rewrite IH]. Qed.
Lemma app_nil_s a : a ^^ EmptyString = a.
Proof. induction a as [| x a IH]; cbn; [done | by rewrite IH]. Qed.

Lemma all_app p a b : all p (a ^^ b) = all p a && all p b.
Proof. induction a as [| x a IH]; cbn; [done |]. by rewrite IH, andb_assoc. Qed.

Lemma all_impl p q s : (forall c, p c = true -> q c = true) -> all p s = true -> all q s = true.
Proof.
  intros H. induction s as [| c s IH]; cbn; [done |]. intros [Hc Hs]%andb_true_iff.
  by rewrite (H c Hc), IH.
Qed.

Lemma isnt_false c d : isnt c d = true -> Ascii.eqb d c = false.
Proof. apply negb_true_iff. Qed.

Lemma strip_prefix_app p s : strip_prefix p (p ^^ s) = Some s.
Proof. induction p as [| c p IH]; cbn; [done |]. by rewrite Ascii.eqb_refl. Qed.

Lemma split_free sep s : all (isnt sep) s = true -> split sep s = [s].
Proof.
  induction s as [| c s IH]; cbn; [done |]. intros [Hc Hs]%andb_true_iff.
  by rewrite (isnt_false sep c Hc), IH.
Qed.
Lemma split_app sep a b : all (isnt sep) a = true -> split sep (a ^^ String sep b) = a :: split sep b.
Proof.
  induction a as [| c a IH]; cbn; [by rewrite Ascii.eqb_refl |]. intros [Hc Hs]%andb_true_iff.
  by rewrite (isnt_false sep c Hc), IH.
Qed.
Lemma split_once_app sep a b : all (isnt sep) a = true -> split_once sep (a ^^ String sep b) = Some (a, b).
Proof.
  induction a as [| c a IH]; cbn; [by rewrite Ascii.eqb_refl |]. intros [Hc Hs]%andb_true_iff.
  by rewrite (isnt_false sep c Hc), IH.
Qed.

(** *** White space *)

Lemma split_ws_word w : word w = true -> split_whitespace w = [w].
Proof.
  unfold word. intros [Hne Hw]%andb_true_iff. induction w as [| c w IH]; [done |].
  cbn in Hw. apply andb_true_iff in Hw as [Hc Hw]. apply negb_true_iff in Hc. cbn. rewrite Hc.
  destruct w as [| d w]; [done |]. cbn in Hw. apply andb_true_iff in Hw as [Hd Hw].
  pose proof Hd as Hd'. apply negb_true_iff in Hd'. rewrite Hd', IH; [done | done |]. cbn. by rewrite Hd.
Qed.

Lemma split_ws_cons w c s :
  word w = true -> is_ws c = true -> split_whitespace (w ^^ String c s) = w :: split_whitespace s.
Proof.
  unfold word. intros [Hne Hw]%andb_true_iff Hs. induction w as [| d w IH]; [done |].
  cbn in Hw. apply andb_true_iff in Hw as [Hc Hw]. apply negb_true_iff in Hc. cbn [String.append split_whitespace].
  rewrite Hc. destruct w as [| e w]; cbn [String.append]; [by rewrite Hs; cbn; rewrite Hs |].
  pose proof Hw as Hw'. cbn in Hw'. apply andb_true_iff in Hw' as [He _]. apply negb_true_iff in He.
  rewrite He. change (String e (w ^^ String c s)) with (String e w ^^ String c s). by rewrite IH.
Qed.

Lemma split_ws_join ws :
  forallb word ws = true -> split_whitespace (join " " ws) = ws.
Proof.
  induction ws as [| w ws IH]; [done |]. intros [Hw Hws]%andb_true_iff.
  destruct ws as [| v ws]; [by apply split_ws_word |].
  change (join " " (w :: v :: ws)) with (w ^^ String " " (join " " (v :: ws))).
  rewrite split_ws_cons by done. by rewrite IH.
Qed.

(** A text that starts and ends in something else than white space. *)
Fixpoint ends_tight (s : string) : bool :=
  match s with
  | EmptyString => true
  | String c EmptyString => no_ws c
  | String _ s => ends_tight s
  end.
Definition tight (s : string) : bool :=
  match s with EmptyString => true | String c _ => no_ws c && ends_tight s end.

Lemma trim_end_app s t : trim_end t = EmptyString -> ends_tight s = true -> trim_end (s ^^ t) = s.
Proof.
  intros Ht. induction s as [| c s IH]; cbn; [done |]. destruct s as [| d s].
  - intros Hc%negb_true_iff. cbn. by rewrite Ht, Hc.
  - intros H. rewrite IH; done.
Qed.

Lemma trim_tight s t : trim_end t = EmptyString -> tight s = true -> trim (s ^^ t) = s.
Proof.
  unfold trim, tight. intros Ht Hs. destruct s as [| c s].
  - cbn [String.append]. assert (trim_start t = EmptyString) as ->; [| done].
    clear Hs. induction t as [| c t IH]; [done |]. cbn in Ht |- *. destruct (trim_end t) eqn:E; [| done].
    destruct (is_ws c); [by apply IH | done].
  - apply andb_true_iff in Hs as [Hc%negb_true_iff Hs]. cbn [String.append trim_start]. rewrite Hc.
    exact (trim_end_app (String c s) t Ht Hs).
Qed.

Lemma word_ends_tight s : all no_ws s = true -> ends_tight s = true.
Proof.
  induction s as [| c s IH]; [done |]. intros [Hc Hs]%andb_true_iff. destruct s; [done |]. by apply IH.
Qed.
Lemma ends_tight_app a b : b <> EmptyString -> ends_tight (a ^^ b) = ends_tight b.
Proof.
  intros Hb. induction a as [| c a IH]; [done |]. cbn [String.append ends_tight]. rewrite IH.
  destruct a; [| done]. by destruct b.
Qed.

(** *** Lines *)

Definition unlines (ls : list string) : string := foldr (fun l s => l ^^ CRLF ^^ s) EmptyString ls.

Lemma strip_cr_app l : strip_cr (l ^^ String CR EmptyString) = l.
Proof. induction l as [| c l IH]; [done |]. cbn. rewrite IH. by destruct l. Qed.

Lemma lines_unlines ls : forallb (all (isnt LF)) ls = true -> lines (unlines ls) = ls.
Proof.
  unfold lines. induction ls as [| l ls IH]; [done |]. intros [Hl Hls]%andb_true_iff.
  cbn [unlines foldr]. fold (unlines ls). unfold CRLF.
  change (l ^^ String CR (String LF EmptyString) ^^ unlines ls)
    with (l ^^ (String CR EmptyString ^^ String LF (unlines ls))).
  rewrite <- app_assoc_s, split_app by (by rewrite all_app, Hl).
  specialize (IH Hls). destruct (split LF (unlines ls)) as [| p ps] eqn:E.
  { by destruct (unlines ls) as [| c u]; cbn in E; [| destruct (Ascii.eqb c LF); [| destruct (split LF u)]]. }
  assert (F : forall x, close_lines (x :: p :: ps) = strip_cr x :: close_lines (p :: ps)) by (by intros []).
  by rewrite F, strip_cr_app, IH.
Qed.

(** *** Integers *)

Lemma code_char n : is_u8 n -> code (char n) = n.
Proof.
  unfold is_u8, code, char. intros H. rewrite N_ascii_embedding by lia. lia.
Qed.

Lemma digits_app max acc a b :
  digits max acc (a ^^ b) = match digits max acc a with Some x => digits max x b | None => None end.
Proof.
  revert acc. induction a as [| c a IH]; intros acc; cbn; [done |].
  destruct (is_digit c); [| done]. destruct (_ <=? max); [apply IH | done].
Qed.

Lemma digit_char d : 0 <= d < 10 -> is_digit (char (48 + d)) = true /\ code (char (48 + d)) - 48 = d.
Proof. intros H. unfold is_digit. rewrite code_char by (unfold is_u8; lia). split; [mlia | lia]. Qed.

Lemma show_from_acc fuel n acc : show_from fuel n acc = show_from fuel n EmptyString ^^ acc.
Proof.
  revert n acc. induction fuel as [| fuel IH]; intros n acc; cbn; [done |].
  destruct (n <? 10); [done |]. rewrite IH, (IH _ (String _ EmptyString)), app_assoc_s. done.
Qed.

Lemma digits_show fuel max n :
  0 <= n <= max -> n < 10 ^ Z.of_nat fuel -> (0 < fuel)%nat ->
  digits max 0 (show_from fuel n EmptyString) = Some n.
Proof.
  revert n. induction fuel as [| fuel IH]; intros n Hn Hb Hf; [lia |]. cbn.
  destruct (Z.ltb_spec n 10) as [L | L].
  - rewrite (Z.mod_small n 10) by lia. destruct (digit_char n ltac:(lia)) as [E1 E2]. cbn. rewrite E1, E2.
    by rewrite (proj2 (Z.leb_le _ _)) by lia.
  - rewrite show_from_acc, digits_app, IH.
    + destruct (digit_char (n mod 10)) as [E1 E2]; [mlia |]. cbn. rewrite E1, E2.
      replace (n / 10 * 10 + n mod 10) with n by mlia. by rewrite (proj2 (Z.leb_le _ _)) by lia.
    + mlia.
    + replace (Z.of_nat (S fuel)) with (Z.of_nat fuel + 1) in Hb by lia.
      rewrite Z.pow_add_r in Hb by lia. change (10 ^ 1) with 10 in Hb. mlia.
    + destruct fuel; [| lia]. change (Z.of_nat 1) with 1 in Hb. lia.
Qed.

Lemma show_from_digits fuel n : 0 <= n -> all is_digit (show_from fuel n EmptyString) = true.
Proof.
  revert n. induction fuel as [| fuel IH]; intros n Hn; cbn; [done |].
  destruct (digit_char (n mod 10)) as [E1 _]; [mlia |]. destruct (n <? 10); [cbn; by rewrite E1 |].
  rewrite show_from_acc, all_app, IH by mlia. cbn. by rewrite E1.
Qed.
Lemma show_digits n : 0 <= n -> all is_digit (show n) = true.
Proof. apply show_from_digits. Qed.

Lemma show_nonempty n : show n <> EmptyString.
Proof.
  assert (H : forall fuel n c a, show_from fuel n (String c a) <> EmptyString).
  { intros fuel. induction fuel as [| fuel IH]; intros m c a; cbn; [done |]. by destruct (m <? 10). }
  assert (G : forall fuel, show_from (S fuel) n EmptyString <> EmptyString).
  { intros fuel. cbn. by destruct (n <? 10). }
  exact (G 19%nat).
Qed.

Lemma parse_show max n : 0 <= n <= max -> max <= u64_max -> parse_uint max (show n) = Some n.
Proof.
  intros Hn Hm. pose proof (show_digits n ltac:(lia)) as D.
  assert (E : digits max 0 (show n) = Some n).
  { apply digits_show; [done | | lia]. unfold u64_max in Hm. change (Z.of_nat 20) with 20. lia. }
  unfold parse_uint. destruct (show n) as [| c s] eqn:S; [by apply show_nonempty in S |].
  destruct (Ascii.eqb_spec c "+") as [-> |]; [| done]. by cbn in D.
Qed.

Lemma digit_no_ws c : is_digit c = true -> no_ws c = true.
Proof. unfold is_digit, no_ws, is_ws. intros H. bool_prop. apply negb_true_iff. mlia. Qed.
Lemma show_no_ws n : 0 <= n -> all no_ws (show n) = true.
Proof. intros H. eapply all_impl; [exact digit_no_ws | by apply show_digits]. Qed.
Lemma show_word n : 0 <= n -> word (show n) = true.
Proof.
  intros H. unfold word. rewrite show_no_ws by done.
  destruct (String.eqb_spec (show n) EmptyString) as [E |]; [by apply show_nonempty in E | done].
Qed.

Lemma digit_isnt (c d : ascii) : is_digit d = false -> is_digit c = true -> isnt d c = true.
Proof. unfold isnt. intros H1 H2. destruct (Ascii.eqb_spec c d) as [-> |]; [congruence | done]. Qed.
Lemma show_isnt d n : is_digit d = false -> 0 <= n -> all (isnt d) (show n) = true.
Proof. intros Hd H. eapply all_impl; [| by apply show_digits]. intros c. by apply digit_isnt. Qed.

(** *** Bytes *)

Lemma of_bytes_bytes s : of_bytes (bytes_of s) = s.
Proof.
  induction s as [| c s IH]; cbn; [done |]. rewrite IH. unfold char, code. by rewrite N2Z.id, ascii_N_embedding.
Qed.
Lemma bytes_of_bytes l : are_bytes l -> bytes_of (of_bytes l) = l.
Proof. induction 1 as [| b l Hb _ IH]; cbn; [done |]. by rewrite IH, code_char. Qed.

End Text.
