(* ===== verification/Net.v ===== *)
(** Socket addresses and the textual form of IP addresses, as [std::net] has
    them.  An address is parsed by a reader that backs up when a piece does not
    fit, and an IPv6 address is shown with its longest run of zeros left out. *)

From stdpp Require Import strings.
From Stdlib Require Import Ascii.
From S2P Require Import Prelude SocketPool Text.
#[local] Open Scope Z_scope.
#[local] Open Scope text_scope.

Module Net.
Import SocketPool(IpAddr, V4, V6).
Import Text.

(** [std::net::SocketAddr]; the last two fields are 0 for IPv4. *)
Record SocketAddr := mkAddr { ip : IpAddr; port : Z; flowinfo : Z; scope_id : Z }.
#[global] Instance SocketAddr_eq_dec : EqDecision SocketAddr.
Proof. solve_decision. Defined.

Definition is_ipv6 (a : SocketAddr) : bool := SocketPool.is_ipv6 (ip a).

(** [SocketAddr::new] *)
Definition socket_addr (a : IpAddr) (p : Z) : SocketAddr := mkAddr a p 0 0.

(** [IpAddr::to_canonical]: an IPv4-mapped IPv6 address is its IPv4 address. *)
Definition to_canonical (a : IpAddr) : IpAddr :=
  match a with
  | V4 a => V4 a
  | V6 a => if Z.shiftr a 32 =? 65535 then V4 (wrap32 a) else V6 a
  end.

(** ** Reading *)

Definition to_digit (radix : Z) (c : ascii) : option Z :=
  let n := code c in
  let d := if (48 <=? n) && (n <=? 57) then n - 48
           else if (97 <=? n) && (n <=? 102) then n - 87
           else if (65 <=? n) && (n <=? 70) then n - 55 else 99 in
  if d <? radix then Some d else None.

Fixpoint span_digits (radix : Z) (s : string) : list Z * string :=
  match s with
  | EmptyString => ([], s)
  | String c s' =>
      match to_digit radix c with
      | Some d => let '(ds, r) := span_digits radix s' in (d :: ds, r)
      | None => ([], s)
      end
  end.

Definition read_number (radix max_digits max : Z) (zero_prefix : bool) (s : string) : option (Z * string) :=
  let '(ds, r) := span_digits radix s in
  if max_digits <? len ds then None
  else if len ds =? 0 then None
  else if negb zero_prefix && bool_decide (head ds = Some 0) && (1 <? len ds) then None
  else
    let v := fold_left (fun acc d => acc * radix + d) ds 0 in
    if v <=? max then Some (v, r) else None.

Definition read_char (c : ascii) (s : string) : option string :=
  match s with
  | String d s => if Ascii.eqb d c then Some s else None
  | EmptyString => None
  end.

Definition read_separator {A} (sep : ascii) (index : nat) (inner : string -> option (A * string)) (s : string)
    : option (A * string) :=
  match index with
  | O => inner s
  | S _ => match read_char sep s with Some s => inner s | None => None end
  end.

Definition read_octet : string -> option (Z * string) := read_number 10 3 255 false.

Definition read_ipv4 (s : string) : option (Z * string) :=
  match read_separator "." 0 read_octet s with
  | None => None
  | Some (a, s) =>
      match read_separator "." 1 read_octet s with
      | None => None
      | Some (b, s) =>
          match read_separator "." 2 read_octet s with
          | None => None
          | Some (c, s) =>
              match read_separator "." 3 read_octet s with
              | None => None
              | Some (d, s) => Some (((a * 256 + b) * 256 + c) * 256 + d, s)
              end
          end
      end
  end.

(** [read_groups] on [n] slots, the next of index [i]; the flag is whether the
    last two groups were an embedded IPv4 address. *)
Fixpoint read_groups (n i : nat) (s : string) : list Z * bool * string :=
  match n with
  | O => ([], false, s)
  | S n =>
      match (if (0 <? n)%nat then read_separator ":" i read_ipv4 s else None) with
      | Some (v, r) => ([v / 65536; v mod 65536], true, r)
      | None =>
          match read_separator ":" i (read_number 16 4 65535 true) s with
          | Some (g, r) => let '(gs, v4, r) := read_groups n (S i) r in (g :: gs, v4, r)
          | None => ([], false, s)
          end
      end
  end.

Definition from_segments (gs : list Z) : Z := fold_left (fun acc g => acc * 65536 + g) gs 0.

Definition read_ipv6 (s : string) : option (Z * string) :=
  let '(hd, v4, r) := read_groups 8 0 s in
  if (length hd =? 8)%nat then Some (from_segments hd, r)
  else if v4 then None
  else
    match read_char ":" r with
    | None => None
    | Some r =>
        match read_char ":" r with
        | None => None
        | Some r =>
            let '(tl, _, r) := read_groups (8 - (length hd + 1)) 0 r in
            Some (from_segments (hd ++ replicate (8 - length hd - length tl) 0 ++ tl), r)
        end
    end.

(** [s.parse::<IpAddr>()] *)
Definition parse_ip (s : string) : option IpAddr :=
  match (match read_ipv4 s with
         | Some (a, r) => Some (V4 a, r)
         | None => match read_ipv6 s with Some (a, r) => Some (V6 a, r) | None => None end
         end) with
  | Some (a, r) => if String.eqb r EmptyString then Some a else None
  | None => None
  end.

(** ** Showing *)

Definition hex_digit (d : Z) : ascii := if d <? 10 then char (48 + d) else char (87 + d).
Fixpoint show_radix (radix : Z) (fuel : nat) (n : Z) (acc : string) : string :=
  match fuel with
  | O => acc
  | S fuel =>
      let acc := String (hex_digit (n mod radix)) acc in
      if n <? radix then acc else show_radix radix fuel (n / radix) acc
  end.
(** [{:x}] of a [u16] *)
Definition show_hex (n : Z) : string := show_radix 16 4 n EmptyString.

Definition show_ipv4 (a : Z) : string :=
  join "." [show (a / 16777216 mod 256); show (a / 65536 mod 256); show (a / 256 mod 256); show (a mod 256)].

Definition segments (a : Z) : list Z := map (fun k => a / 65536 ^ k mod 65536) [7; 6; 5; 4; 3; 2; 1; 0].

(** The first longest run of zeros, as its start and length. *)
Fixpoint longest_zeros (gs : list Z) (i : nat) (cur longest : nat * nat) : nat * nat :=
  match gs with
  | [] => longest
  | g :: gs =>
      if g =? 0 then
        let cur := (if (cur.2 =? 0)%nat then i else cur.1, S cur.2) in
        longest_zeros gs (S i) cur (if (longest.2 <? cur.2)%nat then cur else longest)
      else longest_zeros gs (S i) (0, 0)%nat longest
  end.

Definition show_groups (gs : list Z) : string := join ":" (map show_hex gs).

Definition show_ipv6 (a : Z) : string :=
  if Z.shiftr a 32 =? 65535 then "::ffff:" ^^ show_ipv4 (wrap32 a)
  else
    let gs := segments a in
    let '(st, ln) := longest_zeros gs 0 (0, 0)%nat (0, 0)%nat in
    if (1 <? ln)%nat then show_groups (take st gs) ^^ "::" ^^ show_groups (drop (st + ln) gs)
    else show_groups gs.

(** [Display] of an [IpAddr] *)
Definition show_ip (a : IpAddr) : string := match a with V4 a => show_ipv4 a | V6 a => show_ipv6 a end.
#[global] Arguments show_ip a : simpl never.

(** ** Reading back *)

Definition stops (radix : Z) (s : string) : Prop :=
  match s with EmptyString => True | String c _ => to_digit radix c = None end.

Lemma span_stops radix s : stops radix s -> span_digits radix s = ([], s).
Proof. destruct s as [| c s]; cbn; [done |]. by intros ->. Qed.

Lemma to_digit_hex radix d : 2 <= radix <= 16 -> 0 <= d < radix -> to_digit radix (hex_digit d) = Some d.
Proof.
  intros Hr Hd. unfold to_digit, hex_digit. destruct (Z.ltb_spec d 10); rewrite code_char by (unfold is_u8; lia).
  - rewrite (proj2 (Z.leb_le 48 _)), (proj2 (Z.leb_le _ 57)) by lia. cbn [andb].
    rewrite (proj2 (Z.ltb_lt _ _)) by lia. f_equal. lia.
  - rewrite (proj2 (Z.leb_gt _ 57)), andb_false_r by lia.
    rewrite (proj2 (Z.leb_le 97 _)), (proj2 (Z.leb_le _ 102)) by lia. cbn [andb].
    rewrite (proj2 (Z.ltb_lt _ _)) by lia. f_equal. lia.
Qed.

Definition value (radix : Z) (ds : list Z) : Z := fold_left (fun acc d => acc * radix + d) ds 0.

Lemma span_show radix fuel n acc ds r :
  2 <= radix <= 16 -> 0 <= n < radix ^ Z.of_nat fuel -> (0 < fuel)%nat -> span_digits radix acc = (ds, r) ->
  exists ds', span_digits radix (show_radix radix fuel n acc) = (ds' ++ ds, r) /\ value radix ds' = n /\
    (1 <= length ds' <= fuel)%nat /\ (head ds' = Some 0 -> length ds' = 1%nat) /\ (n <> 0 -> head ds' <> Some 0).
Proof.
  intros Hr. revert n acc ds. induction fuel as [| fuel IH]; intros n acc ds Hn Hf Ha; [lia |].
  cbn [show_radix].
  assert (S : forall d, 0 <= d < radix -> span_digits radix (String (hex_digit d) acc) = (d :: ds, r)).
  { intros d Hd. cbn. by rewrite to_digit_hex, Ha. }
  destruct (Z.ltb_spec n radix) as [L | L].
  - rewrite (Z.mod_small n radix) by lia. exists [n]. rewrite S by lia. cbn.
    split_and!; [done | lia | lia | lia | done | congruence].
  - assert (fuel <> 0%nat).
    { intros ->. change (Z.of_nat 1) with 1 in Hn. rewrite Z.pow_1_r in Hn. lia. }
    assert (0 < n / radix < radix ^ Z.of_nat fuel).
    { replace (Z.of_nat (Datatypes.S fuel)) with (Z.of_nat fuel + 1) in Hn by lia.
      rewrite Z.pow_add_r, Z.pow_1_r in Hn by lia.
      split; [apply Z.div_str_pos; lia |]. apply Z.div_lt_upper_bound; lia. }
    destruct (IH (n / radix) _ (n mod radix :: ds) ltac:(lia) ltac:(lia) (S _ (Z.mod_pos_bound n radix ltac:(lia))))
      as (ds' & E & V & Ll & Lz & Lh).
    exists (ds' ++ [n mod radix]). rewrite E, <- app_assoc. split; [done |].
    unfold value in *. rewrite fold_left_app, V, length_app. cbn.
    assert (Hh : head (ds' ++ [n mod radix]) = head ds') by (destruct ds'; cbn in *; [lia | done]).
    rewrite Hh. split_and!; try lia.
    + pose proof (Z.div_mod n radix ltac:(lia)). lia.
    + intros Hz. by destruct (Lh ltac:(lia)).
    + intros _. apply Lh. lia.
Qed.

Lemma read_show radix fuel maxd max z n r :
  2 <= radix <= 16 -> 0 <= n <= max -> n < radix ^ Z.of_nat fuel -> (0 < fuel)%nat -> Z.of_nat fuel <= maxd ->
  stops radix r ->
  read_number radix maxd max z (show_radix radix fuel n r) = Some (n, r).
Proof.
  intros Hr Hn Hb Hf Hd Hs.
  destruct (span_show radix fuel n r [] r Hr ltac:(lia) Hf (span_stops _ _ Hs)) as (ds & E & V & L & Lz & _).
  unfold read_number. rewrite E, app_nil_r. unfold len.
  rewrite (proj2 (Z.ltb_ge _ _)), (proj2 (Z.eqb_neq _ _)) by lia.
  assert (negb z && bool_decide (head ds = Some 0) && (1 <? Z.of_nat (length ds)) = false) as ->.
  { case_bool_decide as H0; [| by rewrite andb_false_r]. rewrite (Lz H0). by rewrite andb_false_r. }
  unfold value in V. rewrite V. by rewrite (proj2 (Z.leb_le _ _)) by lia.
Qed.

(** Enough fuel is enough. *)
Lemma show_radix_fuel radix f k n r :
  2 <= radix -> 0 <= n < radix ^ Z.of_nat f -> (0 < f)%nat ->
  show_radix radix (f + k) n r = show_radix radix f n r.
Proof.
  intros Hr. revert n r. induction f as [| f IH]; intros n r Hn Hf; [lia |]. cbn [show_radix Nat.add].
  destruct (Z.ltb_spec n radix) as [L | L]; [done |]. apply IH.
  - replace (Z.of_nat (Datatypes.S f)) with (Z.of_nat f + 1) in Hn by lia.
    rewrite Z.pow_add_r, Z.pow_1_r in Hn by lia. split; [apply Z.div_pos; lia |]. apply Z.div_lt_upper_bound; lia.
  - destruct f; [| lia]. change (Z.of_nat 1) with 1 in Hn. rewrite Z.pow_1_r in Hn. lia.
Qed.

Lemma show_from_radix fuel n r : 0 <= n -> show_from fuel n r = show_radix 10 fuel n r.
Proof.
  revert n r. induction fuel as [| fuel IH]; intros n r Hn; cbn; [done |].
  unfold hex_digit. rewrite (proj2 (Z.ltb_lt (n mod 10) 10)) by mlia. destruct (n <? 10); [done |]. apply IH. mlia.
Qed.

Lemma read_octet_show n r : is_u8 n -> stops 10 r -> read_octet (show n ^^ r) = Some (n, r).
Proof.
  intros Hn Hs. unfold is_u8 in Hn. unfold show. rewrite <- show_from_acc, show_from_radix by lia.
  change 20%nat with (3 + 17)%nat.
  rewrite show_radix_fuel; [| lia | change (Z.of_nat 3) with 3; lia | lia].
  apply read_show; try done; lia.
Qed.

Lemma octets a : 0 <= a < 4294967296 ->
  ((a / 16777216 mod 256 * 256 + a / 65536 mod 256) * 256 + a / 256 mod 256) * 256 + a mod 256 = a.
Proof. intros H. mlia. Qed.

Lemma read_ipv4_show a r : is_u32 a -> stops 10 r -> read_ipv4 (show_ipv4 a ^^ r) = Some (a, r).
Proof.
  intros Ha Hs. unfold show_ipv4, join. rewrite !app_assoc_s. unfold read_ipv4. cbn [read_separator].
  rewrite read_octet_show by (done || (unfold is_u8; mlia)). cbn [String.append read_char].
  rewrite Ascii.eqb_refl, read_octet_show by (done || (unfold is_u8; mlia)). cbn [String.append read_char].
  rewrite Ascii.eqb_refl, read_octet_show by (done || (unfold is_u8; mlia)). cbn [String.append read_char].
  rewrite Ascii.eqb_refl, read_octet_show by (done || (unfold is_u8; mlia)).
  rewrite octets; [done | exact Ha].
Qed.

(** Without a dot there is no IPv4 address. *)
Lemma span_rest p radix s ds r : span_digits radix s = (ds, r) -> all p s = true -> all p r = true.
Proof.
  revert ds. induction s as [| c s IH]; intros ds; cbn; [by intros [= <- <-] |].
  destruct (to_digit radix c); [| by intros [= <- <-]].
  destruct (span_digits radix s) as [ds' r']. intros [= <- <-] [_ H]%andb_true_iff. by eapply IH.
Qed.
Lemma read_ipv4_dot s : all (isnt ".") s = true -> read_ipv4 s = None.
Proof.
  intros H. unfold read_ipv4. cbn [read_separator]. unfold read_octet, read_number.
  destruct (span_digits 10 s) as [ds r] eqn:E. apply (span_rest (isnt ".")) in E; [| done].
  destruct (_ <? _); [done |]. destruct (_ =? _); [done |]. destruct (_ && _); [done |]. destruct (_ <=? _); [| done].
  destruct r as [| c r]; [done |]. cbn in E |- *. apply andb_true_iff in E as [E _]. unfold isnt in E.
  by destruct (Ascii.eqb c ".").
Qed.

Lemma read_hex_show g r : is_u16 g -> stops 16 r -> read_number 16 4 65535 true (show_hex g ^^ r) = Some (g, r).
Proof.
  intros Hg Hs. unfold is_u16 in Hg. unfold show_hex.
  assert (A : forall fuel n acc, show_radix 16 fuel n acc = show_radix 16 fuel n EmptyString ^^ acc).
  { intros fuel. induction fuel as [| fuel IH]; intros n acc; [done |]. cbn [show_radix].
    destruct (n <? 16); [done |]. rewrite IH, (IH _ (String _ EmptyString)), app_assoc_s. done. }
  rewrite <- A. apply read_show; try done; try lia.
Qed.

(** Groups as they are read: all but the first have a colon before them. *)
Fixpoint text_from (i : nat) (gs : list Z) : string :=
  match gs with
  | [] => EmptyString
  | g :: gs => (match i with O => EmptyString | S _ => ":" end) ^^ show_hex g ^^ text_from (S i) gs
  end.
Lemma text_from_S i j gs : text_from (S i) gs = text_from (S j) gs.
Proof. revert i j. induction gs as [| g gs IH]; intros i j; cbn [text_from]; [done |]. by rewrite (IH (S i) (S j)). Qed.
Lemma show_groups_text gs : show_groups gs = text_from 0 gs.
Proof.
  unfold show_groups. assert (A : forall g gs, join ":" (map show_hex (g :: gs)) = show_hex g ^^ text_from 1 gs).
  { intros g gs'. revert g. induction gs' as [| g' gs' IH]; intros g.
    - cbn [map join text_from]. by rewrite app_nil_s.
    - change (join ":" (map show_hex (g :: g' :: gs'))) with (show_hex g ^^ ":" ^^ join ":" (map show_hex (g' :: gs'))).
      rewrite IH. cbn [text_from]. by rewrite (text_from_S 1 0). }
  destruct gs as [| g gs]; [done | apply A].
Qed.

(** Nothing more can be read at index [i]. *)
Definition group_stops (i : nat) (r : string) : Prop :=
  r = EmptyString \/ exists r', r = "::" ^^ r'.

Lemma group_stops_hex i r : group_stops i r -> stops 16 r.
Proof. by intros [-> | (r' & ->)]. Qed.
Lemma group_stops_none i r : group_stops i r -> read_separator ":" i (read_number 16 4 65535 true) r = None.
Proof. intros [-> | (r' & ->)]; by destruct i. Qed.
Lemma text_stops i gs r : group_stops (i + length gs) r -> stops 16 (text_from (S i) gs ^^ r).
Proof. intros H. destruct gs; [by eapply group_stops_hex | done]. Qed.

Lemma isnt_dot_sep {A} i (s : string) (f : string -> option (A * string)) :
  (forall s, all (isnt ".") s = true -> f s = None) -> all (isnt ".") s = true -> read_separator ":" i f s = None.
Proof.
  intros Hf Hs. destruct i; [by apply Hf |]. cbn. destruct s as [| c s]; [done |]. cbn in *.
  apply andb_true_iff in Hs as [_ Hs]. destruct (Ascii.eqb c ":"); [by apply Hf | done].
Qed.

Lemma read_groups_text n i gs r :
  (length gs <= n)%nat -> Forall is_u16 gs -> all (isnt ".") (text_from i gs ^^ r) = true ->
  (length gs = n /\ stops 16 r \/ group_stops (i + length gs) r) ->
  read_groups n i (text_from i gs ^^ r) = (gs, false, r).
Proof.
  revert i gs. induction n as [| n IH]; intros i gs Hl Hu Hd Hr.
  { destruct gs; [done |]. cbn in Hl. lia. }
  cbn [read_groups].
  assert ((if (0 <? n)%nat then read_separator ":" i read_ipv4 (text_from i gs ^^ r) else None) = None) as ->.
  { destruct (0 <? n)%nat; [| done]. by apply isnt_dot_sep; [apply read_ipv4_dot |]. }
  destruct gs as [| g gs].
  - cbn [text_from String.append]. destruct Hr as [[? _] | Hr]; [done |].
    rewrite group_stops_none; [done |]. by rewrite Nat.add_0_r in Hr.
  - inversion Hu as [| ? ? Hg Hu']; subst.
    assert (Hst : stops 16 (text_from (S i) gs ^^ r)).
    { destruct Hr as [[Hn Hr] | Hr].
      - destruct gs; [done | done].
      - apply text_stops. replace (i + length (g :: gs))%nat with (S i + length gs)%nat in Hr by (cbn; lia).
        by destruct Hr as [? | ?]; [left | right]. }
    assert (E : read_separator ":" i (read_number 16 4 65535 true) (text_from i (g :: gs) ^^ r) =
                Some (g, text_from (S i) gs ^^ r)).
    { cbn [text_from]. rewrite !app_assoc_s. destruct i; cbn [read_separator String.append read_char].
      - by apply read_hex_show.
      - rewrite Ascii.eqb_refl. by apply read_hex_show. }
    rewrite E, IH; [done | cbn in Hl; lia | done | |].
    + cbn [text_from] in Hd. rewrite !app_assoc_s, !all_app in Hd. rewrite all_app.
      apply andb_true_iff in Hd as [_ Hd]. by apply andb_true_iff in Hd as [_ Hd].
    + destruct Hr as [[Hn Hr] | Hr]; [left; cbn in Hn; split; [lia | done] | right].
      by replace (S i + length gs)%nat with (i + length (g :: gs))%nat by (cbn; lia).
Qed.

Lemma show_radix_all p radix fuel n acc :
  0 < radix -> 0 <= n -> (forall d, 0 <= d < radix -> p (hex_digit d) = true) ->
  all p acc = true -> all p (show_radix radix fuel n acc) = true.
Proof.
  intros Hr Hn Hp. revert n Hn acc. induction fuel as [| fuel IH]; intros n Hn acc Ha; cbn; [done |].
  assert (all p (String (hex_digit (n mod radix)) acc) = true).
  { cbn. rewrite Ha, Hp by (by apply Z.mod_pos_bound). done. }
  destruct (n <? radix); [done |]. apply IH; [apply Z.div_pos; lia | done].
Qed.

(** The characters of an address. *)
Definition addr_char (c : ascii) : bool :=
  bool_decide (to_digit 16 c <> None) || Ascii.eqb c ":" || Ascii.eqb c ".".

Lemma hex_char d : 0 <= d < 16 -> bool_decide (to_digit 16 (hex_digit d) <> None) = true.
Proof. intros H. rewrite to_digit_hex by lia. by rewrite bool_decide_true. Qed.
Lemma hex_isnt_dot d : 0 <= d < 16 -> isnt "." (hex_digit d) = true.
Proof.
  intros H. unfold isnt. destruct (Ascii.eqb_spec (hex_digit d) ".") as [E |]; [| done].
  pose proof (to_digit_hex 16 d ltac:(lia) H) as T. rewrite E in T. done.
Qed.

Lemma text_no_dot i gs : Forall is_u16 gs -> all (isnt ".") (text_from i gs) = true.
Proof.
  intros H. revert i. induction H as [| g gs Hg _ IH]; intros i; [done |]. cbn [text_from].
  rewrite !all_app, IH. unfold show_hex. rewrite show_radix_all; [by destruct i | lia | unfold is_u16 in Hg; lia | | done].
  intros d Hd. by apply hex_isnt_dot.
Qed.

(** *** The run of zeros *)
Definition zeros (F : list Z) (sp : nat * nat) : Prop := forall k, (sp.1 <= k < sp.1 + sp.2)%nat -> F !! k = Some 0.

Lemma longest_zeros_spec gs : forall pre cur longest,
  let F := pre ++ gs in
  (cur.2 = 0%nat \/ (cur.1 + cur.2 = length pre)%nat) -> zeros F cur ->
  (longest.1 + longest.2 <= length F)%nat -> zeros F longest ->
  let sp := longest_zeros gs (length pre) cur longest in
  (sp.1 + sp.2 <= length F)%nat /\ zeros F sp.
Proof.
  induction gs as [| g gs IH]; intros pre cur longest F Hc Hz Hl Hzl sp; [done |].
  unfold F in *. replace (pre ++ g :: gs) with ((pre ++ [g]) ++ gs) in * by (by rewrite <- app_assoc).
  subst sp. cbn [longest_zeros]. replace (S (length pre)) with (length (pre ++ [g])) by (rewrite length_app; cbn; lia).
  destruct (Z.eqb_spec g 0) as [-> |]; [| apply IH; try done; [by left | intros k ?; cbn in *; lia]].
  set (cur' := (if (cur.2 =? 0)%nat then length pre else cur.1, S cur.2)).
  assert (B : (cur'.1 + cur'.2 = length (pre ++ [0%Z]))%nat).
  { unfold cur'. rewrite length_app. cbn. destruct (Nat.eqb_spec cur.2 0); lia. }
  assert (Zc : zeros ((pre ++ [0]) ++ gs) cur').
  { intros k Hk. destruct (decide (k = length pre)) as [-> |].
    - rewrite lookup_app_l by (rewrite length_app; cbn; lia). by rewrite list_lookup_middle.
    - apply Hz. unfold cur' in Hk, B. rewrite length_app in B. cbn in Hk, B.
      destruct (Nat.eqb_spec cur.2 0); lia. }
  apply IH; [by right | done | |].
  - destruct (_ <? _)%nat; [| done]. rewrite (length_app (pre ++ [0%Z])). lia.
  - by destruct (_ <? _)%nat.
Qed.

Lemma cut_zeros F sp :
  (sp.1 + sp.2 <= length F)%nat -> zeros F sp ->
  F = take sp.1 F ++ replicate sp.2 0 ++ drop (sp.1 + sp.2) F.
Proof.
  intros Hl Hz. rewrite <- (take_drop sp.1 F) at 1. f_equal. rewrite <- (take_drop sp.2 (drop sp.1 F)) at 1.
  rewrite drop_drop. f_equal. apply list_eq. intros k.
  destruct (decide (k < sp.2)%nat).
  - rewrite lookup_take_lt, lookup_drop, lookup_replicate_2 by done. apply Hz. lia.
  - rewrite lookup_take_ge, lookup_ge_None_2 by (rewrite ?length_replicate; lia). done.
Qed.

Lemma segments_spec a : 0 <= a < 2 ^ 128 -> from_segments (segments a) = a /\ Forall is_u16 (segments a).
Proof.
  intros Ha. unfold from_segments, segments. cbn [map fold_left].
  change (65536 ^ 0) with 1. change (65536 ^ 1) with 65536. change (65536 ^ 2) with (65536 * 65536).
  split; [| repeat constructor; unfold is_u16; apply Z.mod_pos_bound; lia].
  assert (D : forall k, 0 <= k -> a / 65536 ^ k = a / 65536 ^ (k + 1) * 65536 + a / 65536 ^ k mod 65536).
  { intros k Hk. rewrite Z.pow_add_r, Z.pow_1_r, <- Z.div_div by lia.
    rewrite (Z.div_mod (a / 65536 ^ k) 65536) at 1 by lia. lia. }
  pose proof (D 0 ltac:(lia)) as D0. pose proof (D 1 ltac:(lia)) as D1. pose proof (D 2 ltac:(lia)) as D2.
  pose proof (D 3 ltac:(lia)) as D3. pose proof (D 4 ltac:(lia)) as D4. pose proof (D 5 ltac:(lia)) as D5.
  pose proof (D 6 ltac:(lia)) as D6. pose proof (D 7 ltac:(lia)) as D7.
  change (65536 ^ 0) with 1 in *. change (65536 ^ 1) with 65536 in *. change (65536 ^ 2) with (65536 * 65536) in *.
  assert (a / 65536 ^ 8 = 0) by (apply Z.div_small; change (65536 ^ 8) with (2 ^ 128); lia).
  rewrite Z.div_1_r in *. cbn [Z.add] in *. change (0 + 1) with 1 in *. change (1 + 1) with 2 in *.
  change (2 + 1) with 3 in *. change (3 + 1) with 4 in *. change (4 + 1) with 5 in *. change (5 + 1) with 6 in *.
  change (6 + 1) with 7 in *. change (7 + 1) with 8 in *.
  change (65536 ^ 1) with 65536 in *. change (65536 ^ 2) with (65536 * 65536) in *. lia.
Qed.

Definition ip_ok (a : IpAddr) : Prop := match a with V4 a => is_u32 a | V6 a => 0 <= a < 2 ^ 128 end.

Lemma read_mapped v : is_u32 v -> read_ipv6 ("::ffff:" ^^ show_ipv4 v) = Some (65535 * 4294967296 + v, EmptyString).
Proof.
  intros Hv. pose proof (read_ipv4_show v EmptyString Hv I) as R. rewrite app_nil_s in R.
  unfold read_ipv6.
  assert (read_groups 8 0 ("::ffff:" ^^ show_ipv4 v) = ([], false, "::ffff:" ^^ show_ipv4 v)) as -> by done.
  cbn [length Nat.eqb String.append read_char]. rewrite !Ascii.eqb_refl. cbn [Nat.add Nat.sub].
  assert (read_groups 7 0 ("ffff:" ^^ show_ipv4 v) = ([65535; v / 65536; v mod 65536], true, EmptyString)) as G.
  { cbn [read_groups]. change (read_separator ":" 0 read_ipv4 ("ffff:" ^^ show_ipv4 v)) with (@None (Z * string)).
    change (read_separator ":" 0 (read_number 16 4 65535 true) ("ffff:" ^^ show_ipv4 v))
      with (Some (65535, ":" ^^ show_ipv4 v)). cbn [Nat.ltb Nat.leb].
    change (read_separator ":" 1 read_ipv4 (":" ^^ show_ipv4 v)) with (read_ipv4 (show_ipv4 v)). by rewrite R. }
  cbn [read_char]. rewrite !Ascii.eqb_refl. cbn [String.append] in G. rewrite G. unfold from_segments. cbn. do 2 f_equal. unfold is_u32 in Hv. mlia.
Qed.

Lemma read_groups_all gs :
  length gs = 8%nat -> Forall is_u16 gs -> read_ipv6 (show_groups gs) = Some (from_segments gs, EmptyString).
Proof.
  intros Hl Hu. unfold read_ipv6. rewrite show_groups_text, <- (app_nil_s (text_from 0 gs)).
  rewrite read_groups_text; [| lia | done | by rewrite app_nil_s, text_no_dot | by left].
  by rewrite Hl.
Qed.

Lemma read_groups_cut hd tl n :
  (length hd + n + length tl = 8)%nat -> (1 < n)%nat -> Forall is_u16 hd -> Forall is_u16 tl ->
  read_ipv6 (show_groups hd ^^ "::" ^^ show_groups tl) = Some (from_segments (hd ++ replicate n 0 ++ tl), EmptyString).
Proof.
  intros Hl Hn Hh Ht. unfold read_ipv6. rewrite !show_groups_text.
  rewrite read_groups_text; [| lia | done | by rewrite !all_app, !text_no_dot | right; right; by eexists].
  destruct (Nat.eqb_spec (length hd) 8); [lia |]. cbn [String.append read_char]. rewrite Ascii.eqb_refl.
  cbn [read_char]. rewrite Ascii.eqb_refl.
  rewrite <- (app_nil_s (text_from 0 tl)).
  rewrite read_groups_text; [| lia | done | by rewrite app_nil_s, text_no_dot | right; by left].
  by replace (8 - length hd - length tl)%nat with n by lia.
Qed.

(** An address that is shown is read back. *)
Lemma parse_show_ip a : ip_ok a -> parse_ip (show_ip a) = Some a.
Proof.
  unfold parse_ip, show_ip. destruct a as [a | a]; intros Ha; cbn in Ha.
  { rewrite <- (app_nil_s (show_ipv4 a)), read_ipv4_show by done. done. }
  unfold show_ipv6. destruct (Z.eqb_spec (Z.shiftr a 32) 65535) as [E | E].
  { change (read_ipv4 ("::ffff:" ^^ show_ipv4 (wrap32 a))) with (@None (Z * string)).
    rewrite read_mapped by (unfold is_u32; mlia). rewrite String.eqb_refl. do 2 f_equal.
    rewrite Z.shiftr_div_pow2 in E by lia. change (2 ^ 32) with 4294967296 in E. mlia. }
  destruct (segments_spec a Ha) as [V U].
  pose proof (longest_zeros_spec (segments a) [] (0, 0)%nat (0, 0)%nat) as S. cbn zeta in S.
  destruct S as [Sl Sz]; [by left | intros k ?; cbn in *; lia | cbn; lia | intros k ?; cbn in *; lia |].
  cbn [length app] in Sl, Sz. destruct (longest_zeros _ _ _ _) as [st ln]. cbn [fst snd] in Sl, Sz.
  destruct (Nat.ltb_spec 1 ln) as [L | L].
  - pose proof (cut_zeros (segments a) (st, ln) Sl Sz) as Cut. cbn [fst snd] in Cut.
    assert (Hh : Forall is_u16 (take st (segments a))) by (by apply Forall_take).
    assert (Ht : Forall is_u16 (drop (st + ln) (segments a))) by (by apply Forall_drop).
    rewrite read_ipv4_dot by (rewrite !show_groups_text, !all_app, !text_no_dot; done).
    rewrite (read_groups_cut _ _ ln), <- Cut, V, String.eqb_refl; try done.
    rewrite length_take, length_drop. change (length (segments a)) with 8%nat in *. lia.
  - rewrite read_ipv4_dot by (by rewrite show_groups_text, text_no_dot).
    by rewrite read_groups_all, V, String.eqb_refl.
Qed.

(** An address has no white space. *)
Lemma text_chars i gs : Forall is_u16 gs -> all addr_char (text_from i gs) = true.
Proof.
  intros H. revert i. induction H as [| g gs Hg _ IH]; intros i; [done |]. cbn [text_from].
  rewrite !all_app, IH. unfold show_hex. rewrite show_radix_all; [by destruct i | lia | unfold is_u16 in Hg; lia | | done].
  intros d Hd. unfold addr_char. by rewrite hex_char.
Qed.
Lemma show_chars n : 0 <= n -> all addr_char (show n) = true.
Proof.
  intros H. unfold show. rewrite show_from_radix by done. apply show_radix_all; try lia; try done.
  intros d Hd. unfold addr_char. rewrite hex_char by lia. done.
Qed.
Lemma show_ipv4_chars a : all addr_char (show_ipv4 a) = true.
Proof. unfold show_ipv4, join. rewrite !all_app, !show_chars by mlia. done. Qed.

Lemma show_ip_chars a : ip_ok a -> all addr_char (show_ip a) = true.
Proof.
  destruct a as [a | a]; intros Ha; unfold show_ip; [apply show_ipv4_chars |]. cbn in Ha.
  unfold show_ipv6. destruct (_ =? _); [by rewrite all_app, show_ipv4_chars |].
  destruct (segments_spec a Ha) as [_ U]. destruct (longest_zeros _ _ _ _) as [st ln].
  destruct (1 <? ln)%nat; rewrite !show_groups_text, ?all_app, !text_chars; try done.
  - by apply Forall_drop.
  - by apply Forall_take.
Qed.

Lemma addr_char_no_ws c : addr_char c = true -> no_ws c = true.
Proof. destruct c as [[] [] [] [] [] [] [] []]; vm_compute; congruence. Qed.

Lemma show_ip_word a : ip_ok a -> word (show_ip a) = true.
Proof.
  intros Ha. unfold word. rewrite (all_impl addr_char no_ws _ addr_char_no_ws (show_ip_chars a Ha)), andb_true_r.
  destruct (String.eqb_spec (show_ip a) EmptyString) as [E |]; [| done].
  pose proof (parse_show_ip a Ha) as P. rewrite E in P. by vm_compute in P.
Qed.

End Net.
