(* ===== verification/Sdp.v ===== *)
(** Session descriptions ([media/sdp.rs]): the parser, the checks before a
    description is accepted, codec selection, and the generator. *)

From stdpp Require Import strings.
From Stdlib Require Import Ascii.
From S2P Require Import Prelude SrtpBase Srtp Media SocketPool Text Net.
#[local] Open Scope Z_scope.
#[local] Open Scope text_scope.

Module Sdp.
Import SocketPool(IpAddr, V4, V6).
Import Text Net.

(** ** Data *)

Record SdpCodec := mkCodec {
  pt : Z;
  name : string;
  clock_rate : Z;
  channels : option Z;
  maxptime : option Z;
  fmtp : option string;
}.
#[global] Instance SdpCodec_eq_dec : EqDecision SdpCodec.
Proof. solve_decision. Defined.

Definition CODEC_PCMU : SdpCodec := mkCodec 0 "PCMU" 8000 None None None.
Definition CODEC_G722 : SdpCodec := mkCodec 9 "G722" 8000 None None None.
Definition CODEC_OPUS : SdpCodec :=
  mkCodec 111 "opus" 48000 (Some 2) None (Some "minptime=10;useinbandfec=1;stereo=0;sprop-stereo=0").
Definition CODEC_TELEPHONE_EVENT : SdpCodec := mkCodec 101 "telephone-event" 8000 None None (Some "0-16").

Definition is_te (c : SdpCodec) : bool := String.eqb (name c) "telephone-event".

Record SdpCrypto := mkCrypto {
  tag : Z;
  suite : string;
  key_b64 : bytes;
  key_lifetime_packets : option Z;
}.

Record OpusProfile := mkProfile {
  bitrate : Z;
  playback_rate : Z;
  stereo : bool;
  min_packet_ms : Z;
  max_packet_ms : Z;
}.

Record SdpMediaSection := mkSection {
  media : string;
  protocol : string;
  formats : list string;
  active : bool;
  s_crypto_present : bool;
  crypto_supported : bool;
}.

Record ParsedSdp := mkParsed {
  remote_addr : option SocketAddr;
  p_remote_rtcp_addr : option SocketAddr;
  invalid_rtcp : bool;
  p_codecs : list SdpCodec;
  opus_profile : option OpusProfile;
  p_telephone_event_pt : option Z;
  p_telephone_event_clock_rate : option Z;
  crypto : option SdpCrypto;
  crypto_present : bool;
  audio_sections : Z;
  media_sections : list SdpMediaSection;
  selected_audio_section : option nat;
  is_webrtc : bool;
  p_direction : option string;
  p_rtcp_mux : bool;
  media_protocol : option string;
  is_osrtp : bool;
}.

(** ** Codecs *)

Definition codec_quality (c : SdpCodec) : Z :=
  match Codec.from_name (name c) with
  | Some Codec.Opus => 3
  | Some Codec.G722 => 2
  | Some Codec.Pcmu => 1
  | _ => 0
  end.

Definition better (best c : SdpCodec) : SdpCodec :=
  if codec_quality best <? codec_quality c then c else best.
Definition select_answer_codec (codecs : list SdpCodec) : option SdpCodec :=
  match List.filter (fun c => negb (is_te c)) codecs with
  | [] => None
  | c :: cs => Some (fold_left better cs c)
  end.

Definition select_telephone_event_codec (codecs : list SdpCodec) (media_clock_rate : Z) : option SdpCodec :=
  match find is_te codecs with
  | None => None
  | Some first =>
      match find (fun c => is_te c && (clock_rate c =? media_clock_rate)) codecs with
      | Some c => Some c
      | None => Some first
      end
  end.

Fixpoint preferred (known : list SdpCodec) (names : list string) (ordered : list SdpCodec) : list SdpCodec :=
  match names with
  | [] => ordered
  | n :: names =>
      preferred known names
        match find (fun c => eq_ignore_ascii_case n (name c)) known with
        | Some c => if existsb (fun e => pt e =? pt c) ordered then ordered else ordered ++ [c]
        | None => ordered
        end
  end.
Definition offer_codec_list (prefer : option (list string)) : list SdpCodec :=
  let known := [CODEC_OPUS; CODEC_G722; CODEC_PCMU] in
  (match prefer with Some names => preferred known names [] | None => known end) ++ [CODEC_TELEPHONE_EVENT].

(** ** Opus parameters *)

Definition default_profile : OpusProfile := mkProfile 510000 48000 false 3 120.
Definition advertised_default : OpusProfile := default_profile {{ min_packet_ms := 10; max_packet_ms := 20 }}.

Definition clamp (lo hi x : Z) : Z := if x <? lo then lo else if hi <? x then hi else x.

Definition profile_item (p : OpusProfile) (item : string) : OpusProfile :=
  match split_once "=" (trim item) with
  | None => p
  | Some (key, value) =>
      let key := to_ascii_lowercase (trim key) in
      let number f := match parse_uint u32_max (trim value) with Some n => f n | None => p end in
      if String.eqb key "maxaveragebitrate" then number (fun n => p {{ bitrate := clamp 6000 510000 n }})
      else if String.eqb key "maxplaybackrate" then number (fun n => p {{ playback_rate := clamp 8000 48000 n }})
      else if String.eqb key "minptime" then number (fun n => p {{ min_packet_ms := n }})
      else if String.eqb key "stereo" then p {{ stereo := String.eqb (trim value) "1" }}
      else p
  end.
(** [OpusProfile::parse] *)
Definition parse_profile (f : option string) : OpusProfile :=
  fold_left profile_item (split ";" (default EmptyString f)) default_profile.
Definition from_codec (c : SdpCodec) : OpusProfile :=
  (parse_profile (fmtp c)) {{ max_packet_ms := default 120 (maxptime c) }}.
Definition encodable (p : OpusProfile) : bool := (min_packet_ms p <=? 20) && (20 <=? max_packet_ms p).
Definition permits (p sender : OpusProfile) : bool :=
  (min_packet_ms p <=? min_packet_ms sender) && (max_packet_ms sender <=? max_packet_ms p)
  && (bitrate sender <=? bitrate p) && (playback_rate sender <=? playback_rate p) && (stereo p || negb (stereo sender)).
(** [OpusProfile::fmtp] *)
Definition profile_fmtp (p : OpusProfile) : string :=
  "minptime=" ^^ show (min_packet_ms p) ^^ ";useinbandfec=1;stereo=" ^^ (if stereo p then "1" else "0")
  ^^ ";sprop-stereo=0;maxaveragebitrate=" ^^ show (bitrate p) ^^ ";maxplaybackrate=" ^^ show (playback_rate p).

(** ** Keys *)

Definition plain_number (s : string) : bool :=
  negb (String.eqb s EmptyString) && all is_digit s && negb ((1 <? String.length s)%nat && starts_with "0" s).
Definition parse_sdes_lifetime (value : string) : option Z :=
  let lifetime :=
    match strip_prefix "2^" value with
    | Some exponent =>
        if plain_number exponent then
          match parse_uint u32_max exponent with
          | Some e => if e <? 64 then Some (Z.shiftl 1 e) else None
          | None => None
          end
        else None
    | None => if plain_number value then parse_uint u64_max value else None
    end in
  match lifetime with
  | Some n => if (1 <=? n) && (n <=? MAX_SRTP_PACKETS_PER_MASTER_KEY) then Some n else None
  | None => None
  end.

Definition parse_sdes_inline_key (value : string) : option (string * option Z) :=
  match strip_prefix "inline:" value with
  | None => None
  | Some value =>
      match split "|" value with
      | [key] => Some (key, None)
      | [key; lifetime] =>
          match parse_sdes_lifetime lifetime with Some n => Some (key, Some n) | None => None end
      | _ => None
      end
  end.

Definition SUITE : string := "AES_CM_128_HMAC_SHA1_80".
Definition parse_sdes_crypto (value : string) : option SdpCrypto :=
  match split_whitespace value with
  | [t; suite; key] =>
      if negb (String.eqb suite SUITE) then None
      else
        match parse_uint u32_max t with
        | Some n =>
            if 0 <? n then
              match parse_sdes_inline_key key with
              | Some (k, lifetime) => Some (mkCrypto n suite (bytes_of k) lifetime)
              | None => None
              end
            else None
        | None => None
        end
  | _ => None
  end.

Section sdp.
Context {C : Crypto}.

Definition lifetime_of (c : SdpCrypto) : Z := default MAX_SRTP_PACKETS_PER_MASTER_KEY (key_lifetime_packets c).
Definition supported_sdes_key (c : SdpCrypto) : bool :=
  match Srtp.from_sdes_key_with_lifetime (key_b64 c) (lifetime_of c) with Ok _ => true | Err _ => false end.

(** ** Checks *)

Inductive sdp_error :=
| NotOneAudioSection | NoAudioSection | InvalidSection | UnsupportedProfile | NoValidCrypto | InvalidKey
| InvalidRtcp | NoConnectionAddress | RtcpFamilyMismatch | NoSelectedSection | SelectedNotAudio.

Definition profile_security (proto : option string) : option bool :=
  match proto with
  | Some p =>
      if String.eqb p "RTP/AVP" || String.eqb p "RTP/AVPF" then Some false
      else if String.eqb p "RTP/SAVP" || String.eqb p "RTP/SAVPF" then Some true
      else None
  | None => None
  end.

Definition incomplete (s : SdpMediaSection) : bool :=
  String.eqb (media s) EmptyString || String.eqb (protocol s) EmptyString || bool_decide (formats s = []).

Definition validate_selected_plain_media (p : ParsedSdp) : result sdp_error unit :=
  if bool_decide (selected_audio_section p = None) || existsb incomplete (media_sections p) then Err InvalidSection
  else
    match profile_security (media_protocol p) with
    | None => Err UnsupportedProfile
    | Some secure =>
        if (secure || crypto_present p) && negb (bool_decide (is_Some (crypto p))) then Err NoValidCrypto
        else if match crypto p with Some c => negb (supported_sdes_key c) | None => false end then Err InvalidKey
        else if invalid_rtcp p then Err InvalidRtcp
        else
          match remote_addr p with
          | None => Err NoConnectionAddress
          | Some rtp =>
              match p_remote_rtcp_addr p with
              | Some rtcp => if Bool.eqb (is_ipv6 rtp) (is_ipv6 rtcp) then Ok tt else Err RtcpFamilyMismatch
              | None => Ok tt
              end
          end
    end.

Definition validate_plain_transport (p : ParsedSdp) : result sdp_error unit :=
  if negb (audio_sections p =? 1) then Err NotOneAudioSection else validate_selected_plain_media p.
Definition validate_plain_offer (p : ParsedSdp) : result sdp_error unit :=
  if audio_sections p =? 0 then Err NoAudioSection else validate_selected_plain_media p.

(** ** Choosing the section *)

Definition audio_section_preference (s : SdpMediaSection) : option Z :=
  if negb (String.eqb (media s) "audio") || negb (active s) then None
  else
    let savp := String.eqb (protocol s) "RTP/SAVP" || String.eqb (protocol s) "RTP/SAVPF" in
    let avp := String.eqb (protocol s) "RTP/AVP" || String.eqb (protocol s) "RTP/AVPF" in
    Some (if savp && crypto_supported s then 4
          else if avp && crypto_supported s then 3
          else if savp then 2
          else if avp && s_crypto_present s then 2
          else if avp then 1
          else 0).

Definition port_of (s : option string) : option Z :=
  match s with
  | Some s => match parse_uint u16_max s with Some p => if 0 <? p then Some p else None | None => None end
  | None => None
  end.

Definition new_section (rest : string) : SdpMediaSection :=
  let parts := split_whitespace rest in
  mkSection (default EmptyString (parts !! 0%nat)) (default EmptyString (parts !! 2%nat)) (drop 3 parts)
    (bool_decide (is_Some (port_of (parts !! 1%nat)))) false false.

Definition note_crypto (value : string) (s : SdpMediaSection) : SdpMediaSection :=
  let s := s {{ s_crypto_present := true }} in
  match parse_sdes_crypto value with
  | Some c => s {{ crypto_supported := supported_sdes_key c }}
  | None => s
  end.

(** A line of the first pass; the current section is the last. *)
Definition scan_line (sections : list SdpMediaSection) (line : string) : list SdpMediaSection :=
  match strip_prefix "m=" line with
  | Some rest => sections ++ [new_section rest]
  | None =>
      match strip_prefix "a=crypto:" line with
      | Some value => alter (note_crypto value) (length sections - 1)%nat sections
      | None => sections
      end
  end.

(** The number of audio sections and the preferred one with its preference. *)
Fixpoint select_section (sections : list SdpMediaSection) (index : nat) (count : Z)
    (best : option (nat * Z)) : Z * option (nat * Z) :=
  match sections with
  | [] => (count, best)
  | s :: sections =>
      match audio_section_preference s with
      | Some preference =>
          let take_it := match best with None => true | Some (_, b) => b <? preference end in
          select_section sections (S index) (count + 1) (if take_it then Some (index, preference) else best)
      | None => select_section sections (S index) count best
      end
  end.

(** ** The second pass *)

(** The variables of the loop. *)
Record Scan := mkScan {
  session_c_addr : option IpAddr;
  audio_c_addr : option IpAddr;
  m_port : option Z;
  rtcp_port : option Z;
  rtcp_ip : option IpAddr;
  pts : list Z;
  sc_maxptime : option Z;
  fmtps : gmap Z string;
  rtpmap : gmap Z (string * Z * option Z);
  media_section : option bool;
  current_section : option nat;
  sc_protocol : option string;
  sc_crypto : option SdpCrypto;
  sc_crypto_present : bool;
  sc_webrtc : bool;
  sc_direction : option string;
  sc_invalid_rtcp : bool;
  sc_mux : bool;
}.
Definition new_scan : Scan :=
  mkScan None None None None None [] None ∅ ∅ None None None None false false None false false.

Definition MAX_SDP_CODECS : Z := 32.
Fixpoint take_pts (acc : list Z) (parts : list string) : list Z :=
  match parts with
  | [] => acc
  | p :: parts =>
      if MAX_SDP_CODECS <=? len acc then acc
      else take_pts (match parse_uint u8_max p with Some n => acc ++ [n] | None => acc end) parts
  end.

Definition on_connection (s : Scan) (rest : string) : Scan :=
  let addr := match split_whitespace rest with a :: _ => parse_ip a | [] => None end in
  match media_section s with
  | None => s {{ session_c_addr := addr }}
  | Some true => s {{ audio_c_addr := addr }}
  | Some false => s
  end.

(** The rest of an [m=audio] line; [selected] is the section of the first pass. *)
Definition on_audio (selected : option nat) (s : Scan) (rest : string) : Scan :=
  let parts := split_whitespace rest in
  match port_of (parts !! 0%nat) with
  | None => s {{ media_section := Some false }}
  | Some port =>
      if negb (bool_decide (current_section s = selected)) then s {{ media_section := Some false }}
      else
        let s := s {{ media_section := Some true; m_port := Some port }} in
        let s := match parts !! 1%nat with Some proto => s {{ sc_protocol := Some proto }} | None => s end in
        s {{ pts := take_pts (pts s) (drop 2 parts) }}
  end.

Definition on_fmtp (s : Scan) (rest : string) : Scan :=
  match split_once " " rest with
  | Some (p, value) =>
      match parse_uint u8_max p with
      | Some n => if Z.of_nat (size (fmtps s)) <? 32 then s {{ fmtps := <[n := trim value]> (fmtps s) }} else s
      | None => s
      end
  | None => s
  end.

Definition on_rtpmap (s : Scan) (rest : string) : Scan :=
  match split_once " " rest with
  | Some (p, value) =>
      match parse_uint u8_max p with
      | Some n =>
          let parts := split "/" value in
          let rate := match parts !! 1%nat with Some r => default 0 (parse_uint u32_max r) | None => 0 end in
          let chans := match parts !! 2%nat with Some c => parse_uint u8_max c | None => None end in
          if Z.of_nat (size (rtpmap s)) <? 32
          then s {{ rtpmap := <[n := (default EmptyString (parts !! 0%nat), rate, chans)]> (rtpmap s) }} else s
      | None => s
      end
  | None => s
  end.

Definition on_rtcp (s : Scan) (rest : string) : Scan :=
  let parts := split_whitespace rest in
  let port := port_of (parts !! 0%nat) in
  let addr := match parts !! 3%nat with Some a => parse_ip a | None => None end in
  let valid :=
    match parts !! 1%nat, parts !! 2%nat, addr with
    | Some net, Some family, Some (V4 _) => String.eqb net "IN" && String.eqb family "IP4"
    | Some net, Some family, Some (V6 _) => String.eqb net "IN" && String.eqb family "IP6"
    | _, _, _ => false
    end in
  let n := length parts in
  let bad := bool_decide (port = None) || negb ((n =? 1)%nat || ((n =? 4)%nat && valid)) in
  s {{ rtcp_port := port; rtcp_ip := addr; sc_invalid_rtcp := sc_invalid_rtcp s || bad }}.

Definition webrtc_line (line : string) : bool :=
  starts_with "a=fingerprint:" line || starts_with "a=ice-ufrag:" line.

Definition is_direction (line : string) : bool :=
  String.eqb line "a=sendrecv" || String.eqb line "a=recvonly" || String.eqb line "a=sendonly"
  || String.eqb line "a=inactive".

(** The attributes of the session and of the selected section. *)
Definition on_attribute (s : Scan) (line : string) : Scan :=
  match strip_prefix "a=maxptime:" line with
  | Some rest => s {{ sc_maxptime := parse_uint u32_max rest }}
  | None =>
  match strip_prefix "a=fmtp:" line with
  | Some rest => on_fmtp s rest
  | None =>
  match strip_prefix "a=rtpmap:" line with
  | Some rest => on_rtpmap s rest
  | None =>
  match strip_prefix "a=crypto:" line with
  | Some rest =>
      let s := s {{ sc_crypto_present := true }} in
      match parse_sdes_crypto rest with Some c => s {{ sc_crypto := Some c }} | None => s end
  | None =>
      if webrtc_line line then s {{ sc_webrtc := true }}
      else if is_direction line then s {{ sc_direction := strip_prefix "a=" line }}
      else
        match strip_prefix "a=rtcp:" line with
        | Some rest => on_rtcp s rest
        | None => if String.eqb line "a=rtcp-mux" then s {{ sc_mux := true }} else s
        end
  end end end end.

Definition connection_line (line : string) : option string :=
  match strip_prefix "c=IN IP4 " line with Some r => Some r | None => strip_prefix "c=IN IP6 " line end.

Definition on_line (selected : option nat) (s : Scan) (line : string) : Scan :=
  let s := if starts_with "m=" line
           then s {{ current_section := Some (match current_section s with None => O | Some i => S i end) }} else s in
  match connection_line line with
  | Some rest => on_connection s rest
  | None =>
      if starts_with "m=" line && negb (starts_with "m=audio " line) then s {{ media_section := Some false }}
      else
        match strip_prefix "m=audio " line with
        | Some rest => on_audio selected s rest
        | None =>
            if bool_decide (media_section s = Some false) then
              (if webrtc_line line then s {{ sc_webrtc := true }} else s)
            else on_attribute s line
        end
  end.

(** ** The codecs of the payload types *)

Definition one_channel (ch : option Z) : bool := match ch with None => true | Some n => n =? 1 end.
Definition mapped_as (n : string) (m : string * Z * option Z) : bool :=
  let '(nm, rate, ch) := m in eq_ignore_ascii_case nm n && (rate =? 8000) && one_channel ch.

Definition dynamic_codec (s : Scan) (p : Z) (m : string * Z * option Z) : list SdpCodec * option OpusProfile :=
  let '(nm, rate, ch) := m in
  if eq_ignore_ascii_case nm "telephone-event" then
    let te := CODEC_TELEPHONE_EVENT {{ pt := p }} in
    ([if 0 <? rate then te {{ clock_rate := rate }} else te], None)
  else if eq_ignore_ascii_case nm "opus" && (rate =? 48000) && match ch with None => true | Some n => n =? 2 end then
    let opus := CODEC_OPUS {{ pt := p; maxptime := sc_maxptime s; fmtp := fmtps s !! p }} in
    (if encodable (from_codec opus) then [opus] else [], Some (from_codec opus))
  else if mapped_as "PCMU" m then ([CODEC_PCMU {{ pt := p }}], None)
  else if mapped_as "G722" m then ([CODEC_G722 {{ pt := p }}], None)
  else ([], None).

Definition codec_of (s : Scan) (p : Z) : list SdpCodec * option OpusProfile :=
  let maps n := match rtpmap s !! p with None => true | Some m => mapped_as n m end in
  if (p =? 0) && maps "PCMU"%string then ([CODEC_PCMU], None)
  else if (p =? 9) && maps "G722"%string then ([CODEC_G722], None)
  else if 96 <=? p then match rtpmap s !! p with Some m => dynamic_codec s p m | None => ([], None) end
  else ([], None).

Definition add_codec (s : Scan) (acc : list SdpCodec * option OpusProfile) (p : Z) : list SdpCodec * option OpusProfile :=
  let '(cs, profile) := codec_of s p in
  (acc.1 ++ cs, match profile with Some _ => profile | None => acc.2 end).

(** [parse_sdp] *)
Definition parse_sdp (sdp : string) : ParsedSdp :=
  let ls := map trim (lines sdp) in
  let sections := fold_left scan_line ls [] in
  let '(count, best) := select_section sections 0 0 None in
  let selected := fst <$> best in
  let s := fold_left (on_line selected) ls new_scan in
  let c_addr := match audio_c_addr s with Some a => Some a | None => session_c_addr s end in
  let addr := match c_addr, m_port s with
              | Some a, Some p => if p =? 0 then None else Some (socket_addr a p)
              | _, _ => None
              end in
  let rtcp := match (match rtcp_ip s with Some a => Some a | None => c_addr end), rtcp_port s with
              | Some a, Some p => Some (socket_addr a p)
              | _, _ => None
              end in
  let '(codecs, profile) := fold_left (add_codec s) (pts s) ([], None) in
  let clock := match select_answer_codec codecs with Some c => clock_rate c | None => 8000 end in
  let te := select_telephone_event_codec codecs clock in
  let osrtp := bool_decide (is_Some (sc_crypto s)) && negb (sc_webrtc s)
               && bool_decide (sc_protocol s = Some "RTP/AVP"%string) in
  mkParsed addr rtcp (sc_invalid_rtcp s) codecs profile (pt <$> te) (clock_rate <$> te) (sc_crypto s)
    (sc_crypto_present s) count sections selected (sc_webrtc s) (sc_direction s) (sc_mux s) (sc_protocol s) osrtp.

(** ** Generating *)

Definition rtpmap_line (c : SdpCodec) : string :=
  match channels c with
  | Some ch => "a=rtpmap:" ^^ show (pt c) ^^ " " ^^ name c ^^ "/" ^^ show (clock_rate c) ^^ "/" ^^ show ch ^^ CRLF
  | None => "a=rtpmap:" ^^ show (pt c) ^^ " " ^^ name c ^^ "/" ^^ show (clock_rate c) ^^ CRLF
  end.
Definition fmtp_line (c : SdpCodec) : string :=
  match fmtp c with
  | Some f => "a=fmtp:" ^^ show (pt c) ^^ " " ^^ f ^^ CRLF
  | None => EmptyString
  end.
Definition crypto_line (c : SdpCrypto) : string :=
  let lifetime := match key_lifetime_packets c with Some n => "|" ^^ show n | None => EmptyString end in
  "a=crypto:" ^^ show (tag c) ^^ " " ^^ suite c ^^ " inline:" ^^ of_bytes (key_b64 c) ^^ lifetime ^^ CRLF.

Definition all_codecs (codecs : list SdpCodec) : list SdpCodec :=
  if existsb is_te codecs then codecs else codecs ++ [CODEC_TELEPHONE_EVENT].

(** The audio section of this endpoint. *)
Definition media_sdp (rtp_port : Z) (proto : string) (codecs : list SdpCodec) (crypto : option SdpCrypto) : string :=
  let cs := all_codecs codecs in
  "m=audio " ^^ show rtp_port ^^ " " ^^ proto ^^ " " ^^ join " " (map (fun c => show (pt c)) cs) ^^ CRLF
  ^^ foldr (fun c t => rtpmap_line c ^^ fmtp_line c ^^ t) EmptyString cs
  ^^ (match crypto with Some c => crypto_line c | None => EmptyString end)
  ^^ "a=sendrecv" ^^ CRLF ^^ "a=rtcp-mux" ^^ CRLF ^^ "a=ptime:20" ^^ CRLF ^^ "a=maxptime:20" ^^ CRLF.

Definition rejected_section (s : SdpMediaSection) : string :=
  "m=" ^^ media s ^^ " 0 " ^^ protocol s ^^ " " ^^ join " " (formats s) ^^ CRLF.

Fixpoint answer_media (index selected : nat) (ours : string) (sections : list SdpMediaSection) : string :=
  match sections with
  | [] => EmptyString
  | s :: sections =>
      (if (index =? selected)%nat then ours else rejected_section s) ^^ answer_media (S index) selected ours sections
  end.

Definition generate_sdp (local_addr : SocketAddr) (rtp_port : Z) (codecs : list SdpCodec) (crypto : option SdpCrypto)
    (session_id : Z) (use_rtp_avp_profile : bool) (answer_sections : option (list SdpMediaSection * nat))
    : outcome string :=
  let a := ip local_addr in
  let ip_ver := if SocketPool.is_ipv4 a then "IP4" else "IP6" in
  let! proto :=
    match answer_sections with
    | Some (sections, selected) =>
        match sections !! selected with Some s => Val (protocol s) | None => Panic end
    | None => Val (if bool_decide (is_Some crypto) && negb use_rtp_avp_profile then "RTP/SAVP" else "RTP/AVP")
    end in
  let ours := media_sdp rtp_port proto codecs crypto in
  Val ("v=0" ^^ CRLF ^^ "o=rtpbridge " ^^ show session_id ^^ " 1 IN " ^^ ip_ver ^^ " " ^^ show_ip a ^^ CRLF
       ^^ "s=rtpbridge" ^^ CRLF ^^ "c=IN " ^^ ip_ver ^^ " " ^^ show_ip a ^^ CRLF ^^ "t=0 0" ^^ CRLF
       ^^ match answer_sections with
          | Some (sections, selected) => answer_media 0 selected ours sections
          | None => ours
          end).

Definition generate_sdp_offer (local_addr : SocketAddr) (rtp_port : Z) (codecs : list SdpCodec)
    (crypto : option SdpCrypto) (session_id : Z) : outcome string :=
  generate_sdp local_addr rtp_port codecs crypto session_id false None.
Definition generate_osrtp_sdp_offer (local_addr : SocketAddr) (rtp_port : Z) (codecs : list SdpCodec)
    (crypto : SdpCrypto) (session_id : Z) : outcome string :=
  generate_sdp local_addr rtp_port codecs (Some crypto) session_id true None.

Definition generate_sdp_answer_for_offer (local_addr : SocketAddr) (rtp_port : Z) (codecs : list SdpCodec)
    (crypto : option SdpCrypto) (session_id : Z) (offer : ParsedSdp) : outcome (result sdp_error string) :=
  match selected_audio_section offer with
  | None => Val (Err NoSelectedSection)
  | Some selected =>
      match media_sections offer !! selected with
      | Some s =>
          if String.eqb (media s) "audio" then
            let! t := generate_sdp local_addr rtp_port codecs crypto session_id false
                        (Some (media_sections offer, selected)) in
            Val (Ok t)
          else Val (Err SelectedNotAudio)
      | None => Val (Err SelectedNotAudio)
      end
  end.

End sdp.
End Sdp.
