(* ===== verification/SdpText.v ===== *)
(** A description that is generated is read back ([media/sdp.rs]): the text as
    lines, the effect of each line on the two passes of the parser, and the round
    trip. *)

From stdpp Require Import strings.
From Stdlib Require Import Ascii.
From S2P Require Import Prelude SrtpBase Srtp Media SocketPool Text Net Sdp.
#[local] Open Scope Z_scope.
#[local] Open Scope text_scope.

Module SdpText.
Import SocketPool(IpAddr, V4, V6).
Import Text Net Sdp.

(** ** Lines *)

Definition good (l : string) : bool := tight l && all (isnt LF) l.

Lemma unlines_app a b : unlines (a ++ b) = unlines a ^^ unlines b.
Proof. unfold unlines. induction a as [| l a IH]; cbn [foldr app]; [done |]. by rewrite IH, !app_assoc_s. Qed.
Lemma unlines_cons l ls : unlines (l :: ls) = l ^^ CRLF ^^ unlines ls.
Proof. done. Qed.

Lemma read_unlines ls : forallb good ls = true -> map trim (lines (unlines ls)) = ls.
Proof.
  intros H. rewrite lines_unlines.
  - induction ls as [| l ls IH]; [done |]. apply andb_true_iff in H as [Hl H]. cbn. rewrite IH by done.
    apply andb_true_iff in Hl as [Ht _]. rewrite <- (app_nil_s l) at 1. by rewrite trim_tight.
  - induction ls as [| l ls IH]; [done |]. apply andb_true_iff in H as [Hl H]. cbn. rewrite IH by done.
    apply andb_true_iff in Hl as [_ Hl]. by rewrite Hl.
Qed.

Lemma no_ws_isnt_LF s : all no_ws s = true -> all (isnt LF) s = true.
Proof.
  apply all_impl. intros c H. unfold isnt. destruct (Ascii.eqb_spec c LF) as [-> |]; [by vm_compute in H | done].
Qed.
Lemma word_no_ws w : word w = true -> all no_ws w = true.
Proof. by intros [_ H]%andb_true_iff. Qed.
Lemma word_nonempty w : word w = true -> w <> EmptyString.
Proof. by intros [H _]%andb_true_iff ->. Qed.

(** How a line may end. *)
Definition text_end (s : string) : Prop :=
  s <> EmptyString /\ ends_tight s = true /\ all (isnt LF) s = true.
Definition starts_tight (s : string) : bool := match s with EmptyString => false | String c _ => no_ws c end.

Lemma good_app a b :
  starts_tight a = true -> all (isnt LF) a = true -> text_end b -> good (a ^^ b) = true.
Proof.
  intros Ha Hl (Hb & He & Hlb). unfold good, tight. rewrite all_app, Hl, Hlb, andb_true_r.
  destruct a as [| c a]; [done |]. cbn [String.append]. cbn in Ha. rewrite Ha. cbn [andb].
  change (String c (a ^^ b)) with (String c a ^^ b). by rewrite ends_tight_app.
Qed.

Lemma word_end w : word w = true -> text_end w.
Proof.
  intros H. pose proof (word_no_ws w H). split_and!; [by apply word_nonempty | by apply word_ends_tight | by apply no_ws_isnt_LF].
Qed.

Lemma join_no_lf ws : forallb word ws = true -> all (isnt LF) (join " " ws) = true.
Proof.
  induction ws as [| w ws IH]; [done |]. intros [Hw Hws]%andb_true_iff.
  pose proof (no_ws_isnt_LF w (word_no_ws w Hw)) as Hl. destruct ws as [| v ws]; [done |].
  change (join " " (w :: v :: ws)) with (w ^^ " " ^^ join " " (v :: ws)). by rewrite !all_app, Hl, IH.
Qed.
Lemma join_end ws : ws <> [] -> forallb word ws = true -> text_end (join " " ws).
Proof.
  intros Hne Hw. assert (ends_tight (join " " ws) = true /\ join " " ws <> EmptyString) as [H1 H2].
  { revert Hne Hw. induction ws as [| w ws IH]; [done |]. intros _ [Hw Hws]%andb_true_iff.
    pose proof (word_nonempty w Hw) as Hne. destruct ws as [| v ws].
    - split; [by apply word_ends_tight, word_no_ws | done].
    - destruct (IH ltac:(done) Hws) as [H1 H2].
      change (join " " (w :: v :: ws)) with (w ^^ " " ^^ join " " (v :: ws)). rewrite !ends_tight_app; [| done | done].
      split; [done |]. by destruct w. }
  split_and!; [done | done | by apply join_no_lf].
Qed.

(** ** What is described *)

Definition text_value (f : string) : Prop := tight f = true /\ text_end f.

(** The codecs the parser can return. *)
Inductive offerable : SdpCodec -> Prop :=
| offer_pcmu p : p = 0 \/ 96 <= p <= 255 -> offerable (CODEC_PCMU {{ pt := p }})
| offer_g722 p : p = 9 \/ 96 <= p <= 255 -> offerable (CODEC_G722 {{ pt := p }})
| offer_te p r : 96 <= p <= 255 -> 0 < r <= u32_max ->
    offerable (CODEC_TELEPHONE_EVENT {{ pt := p; clock_rate := r }})
| offer_opus p m f : 96 <= p <= 255 -> (forall t, f = Some t -> text_value t) ->
    min_packet_ms (parse_profile f) <= 20 ->
    offerable (CODEC_OPUS {{ pt := p; maxptime := m; fmtp := f }}).

(** What the other side reads: the packet time of the section. *)
Definition heard (c : SdpCodec) : SdpCodec :=
  if String.eqb (name c) "opus" then c {{ maxptime := Some 20 }} else c.

Record key_ok (c : SdpCrypto) : Prop := {
  key_tag : 0 < tag c <= u32_max;
  key_suite : suite c = SUITE;
  key_text : are_bytes (key_b64 c) /\ word (of_bytes (key_b64 c)) = true /\ all (isnt "|") (of_bytes (key_b64 c)) = true;
  key_life : forall n, key_lifetime_packets c = Some n -> 1 <= n <= MAX_SRTP_PACKETS_PER_MASTER_KEY;
}.

Record codecs_ok (cs : list SdpCodec) : Prop := {
  cs_offerable : Forall offerable cs;
  cs_distinct : NoDup (map pt cs);
  cs_few : len cs <= 32;
}.

Lemma offerable_pt c : offerable c -> 0 <= pt c <= 255.
Proof. intros []; cbn; lia. Qed.

(** ** The text as lines *)

Definition rtpmap_text (c : SdpCodec) : string :=
  "a=rtpmap:" ^^ show (pt c) ^^ " " ^^ name c ^^ "/" ^^ show (clock_rate c)
  ^^ match channels c with Some n => "/" ^^ show n | None => EmptyString end.
Definition fmtp_text (c : SdpCodec) : list string :=
  match fmtp c with Some f => ["a=fmtp:" ^^ show (pt c) ^^ " " ^^ f] | None => [] end.
Definition codec_lines (c : SdpCodec) : list string := rtpmap_text c :: fmtp_text c.

Definition inline_key (c : SdpCrypto) : string :=
  "inline:" ^^ of_bytes (key_b64 c) ^^ match key_lifetime_packets c with Some n => "|" ^^ show n | None => EmptyString end.
Definition crypto_text (c : SdpCrypto) : string := "a=crypto:" ^^ join " " [show (tag c); suite c; inline_key c].

Definition audio_text (port : Z) (proto : string) (cs : list SdpCodec) : string :=
  "m=audio " ^^ join " " (show port :: proto :: map (fun c => show (pt c)) cs).
Definition media_lines (port : Z) (proto : string) (cs : list SdpCodec) (crypto : option SdpCrypto) : list string :=
  audio_text port proto cs :: concat (map codec_lines cs)
  ++ (match crypto with Some c => [crypto_text c] | None => [] end)
  ++ ["a=sendrecv"; "a=rtcp-mux"; "a=ptime:20"; "a=maxptime:20"].

Definition rejected_text (s : SdpMediaSection) : string := "m=" ^^ join " " (media s :: "0" :: protocol s :: formats s).
Fixpoint answer_lines (index selected : nat) (ours : list string) (sections : list SdpMediaSection) : list string :=
  match sections with
  | [] => []
  | s :: sections =>
      (if (index =? selected)%nat then ours else [rejected_text s]) ++ answer_lines (S index) selected ours sections
  end.

Definition family (a : IpAddr) : string := if SocketPool.is_ipv4 a then "IP4" else "IP6".
Definition header_lines (a : IpAddr) (sid : Z) : list string :=
  ["v=0"; "o=rtpbridge " ^^ show sid ^^ " 1 IN " ^^ family a ^^ " " ^^ show_ip a; "s=rtpbridge";
   "c=IN " ^^ family a ^^ " " ^^ show_ip a; "t=0 0"].

Lemma join_cons w ws : ws <> [] -> join " " (w :: ws) = w ^^ " " ^^ join " " ws.
Proof. by destruct ws. Qed.

Lemma codecs_text cs t :
  foldr (fun c t => rtpmap_line c ^^ fmtp_line c ^^ t) EmptyString cs ^^ t =
  unlines (concat (map codec_lines cs)) ^^ t.
Proof.
  induction cs as [| c cs IH]; [done |]. cbn [foldr map concat]. rewrite !app_assoc_s, IH.
  change (codec_lines c ++ concat (map codec_lines cs)) with (rtpmap_text c :: (fmtp_text c ++ concat (map codec_lines cs))).
  rewrite unlines_cons, unlines_app. unfold rtpmap_line, rtpmap_text, fmtp_line, fmtp_text.
  destruct (channels c), (fmtp c); rewrite ?unlines_cons, !app_assoc_s; done.
Qed.

Lemma all_codecs_nonempty cs : all_codecs cs <> [].
Proof. unfold all_codecs. destruct (existsb is_te cs) eqn:E; [by intros ->| by destruct cs]. Qed.

Lemma media_sdp_lines port proto codecs crypto :
  media_sdp port proto codecs crypto = unlines (media_lines port proto (all_codecs codecs) crypto).
Proof.
  unfold media_sdp, media_lines, audio_text. rewrite unlines_cons, !unlines_app, codecs_text.
  rewrite !join_cons by (done || (pose proof (all_codecs_nonempty codecs); by destruct (all_codecs codecs))).
  rewrite !app_assoc_s. do 8 f_equal.
  destruct crypto as [c |]; [| done]. unfold crypto_line, crypto_text, inline_key.
  rewrite unlines_cons, !join_cons by done. cbn [join]. destruct (key_lifetime_packets c); rewrite !app_assoc_s; done.
Qed.

Lemma answer_media_lines index selected ours sections :
  Forall (fun s => formats s <> []) sections ->
  answer_media index selected (unlines ours) sections = unlines (answer_lines index selected ours sections).
Proof.
  intros H. revert index. induction H as [| s sections Hs _ IH]; intros index; [done |].
  cbn [answer_media answer_lines]. rewrite unlines_app, IH. f_equal. destruct (_ =? _)%nat; [done |].
  unfold rejected_section, rejected_text. rewrite unlines_cons, !join_cons, !app_assoc_s by done. done.
Qed.

(** The sections a description has: one of our own, or those of an offer. *)
Definition sections_of (proto : string) (answer : option (list SdpMediaSection * nat)) : list SdpMediaSection * nat :=
  match answer with Some x => x | None => ([mkSection "audio" proto ["0"%string] true false false], 0%nat) end.

Lemma generate_lines a port codecs crypto sid avp answer t :
  (forall secs sel, answer = Some (secs, sel) -> Forall (fun s => formats s <> []) secs) ->
  generate_sdp a port codecs crypto sid avp answer = Val t ->
  exists proto,
    (match answer with
     | Some (secs, sel) => exists s, secs !! sel = Some s /\ proto = protocol s
     | None => proto = if bool_decide (is_Some crypto) && negb avp then "RTP/SAVP" else "RTP/AVP"
     end) /\
    t = unlines (header_lines (ip a) sid ++
                 answer_lines 0 (sections_of proto answer).2 (media_lines port proto (all_codecs codecs) crypto)
                   (sections_of proto answer).1).
Proof.
  intros Hf. unfold generate_sdp.
  assert (Head : forall rest, "v=0" ^^ CRLF ^^ "o=rtpbridge " ^^ show sid ^^ " 1 IN " ^^ family (ip a) ^^ " "
    ^^ show_ip (ip a) ^^ CRLF ^^ "s=rtpbridge" ^^ CRLF ^^ "c=IN " ^^ family (ip a) ^^ " " ^^ show_ip (ip a) ^^ CRLF
    ^^ "t=0 0" ^^ CRLF ^^ rest = unlines (header_lines (ip a) sid) ^^ rest).
  { intros rest. unfold header_lines. rewrite !unlines_cons, !app_assoc_s. done. }
  assert (V : forall x y : string, Val x = Val y -> y = x) by (by intros x y [=]).
  destruct answer as [[secs sel] |]; cbn [obind].
  - destruct (secs !! sel) as [s |] eqn:E; [| done]. cbn [obind]. intros ->%V. exists (protocol s).
    split; [by exists s |]. fold (family (ip a)). rewrite Head, media_sdp_lines, answer_media_lines by (by eapply Hf).
    by rewrite <- unlines_app.
  - intros ->%V. eexists. split; [done |]. fold (family (ip a)). rewrite Head, media_sdp_lines, unlines_app.
    f_equal. cbn [sections_of fst snd answer_lines]. by rewrite app_nil_r.
Qed.

(** ** Every line is read as it was written *)

Ltac no_lf := rewrite ?all_app, ?show_isnt by (done || lia); done.

Lemma family_no_lf a : all (isnt LF) (family a) = true.
Proof. by destruct a. Qed.

Lemma header_good a sid : ip_ok a -> 0 <= sid -> forallb good (header_lines a sid) = true.
Proof.
  intros Ha Hs. pose proof (word_end _ (show_ip_word a Ha)) as W. unfold header_lines. cbn [forallb].
  rewrite <- !app_assoc_s. rewrite !good_app; try done.
  - rewrite !all_app, family_no_lf. done.
  - rewrite !all_app, family_no_lf, show_isnt by done. done.
Qed.

Lemma rtpmap_good c : offerable c -> good (rtpmap_text c) = true.
Proof.
  intros Hc. pose proof (offerable_pt c Hc). unfold rtpmap_text.
  assert (N : all (isnt LF) (name c) = true /\ 0 <= clock_rate c /\ (forall n, channels c = Some n -> 0 <= n)).
  { destruct Hc; cbn; split_and!; try done; try lia; intros n Hn; by simplify_eq. }
  destruct N as (N1 & N2 & N3). rewrite <- !app_assoc_s. destruct (channels c) as [n |].
  - rewrite <- app_assoc_s. apply good_app; [done | | by apply word_end, show_word, N3].
    rewrite !all_app, !show_isnt, N1 by (done || lia). done.
  - rewrite app_nil_s. apply good_app; [done | | by apply word_end, show_word].
    rewrite !all_app, show_isnt, N1 by (done || lia). done.
Qed.

Lemma fmtp_good c : offerable c -> forallb good (fmtp_text c) = true.
Proof.
  intros Hc. pose proof (offerable_pt c Hc). unfold fmtp_text. destruct (fmtp c) as [f |] eqn:F; [| done].
  assert (text_end f) by (destruct Hc as [| | | ? ? ? ? Hf]; cbn in F; simplify_eq; [by vm_compute | by apply Hf]).
  cbn [forallb]. rewrite andb_true_r, <- !app_assoc_s. apply good_app; [done | | done].
  rewrite !all_app, show_isnt by (done || lia). done.
Qed.

Lemma forallb_app {A} (p : A -> bool) l k : forallb p (l ++ k) = forallb p l && forallb p k.
Proof. induction l as [| x l IH]; cbn; [done |]. by rewrite IH, andb_assoc. Qed.

Lemma codec_lines_good cs : Forall offerable cs -> forallb good (concat (map codec_lines cs)) = true.
Proof.
  induction 1 as [| c cs Hc _ IH]; [done |]. cbn [map concat]. rewrite forallb_app, IH, andb_true_r.
  unfold codec_lines. cbn [forallb]. by rewrite rtpmap_good, fmtp_good.
Qed.

Lemma inline_word c : key_ok c -> word (inline_key c) = true.
Proof.
  intros [_ _ (_ & Hw & _) Hl]. unfold inline_key, word. cbn [String.append String.eqb negb andb all].
  rewrite !all_app, (word_no_ws _ Hw). cbn. destruct (key_lifetime_packets c) as [n |]; [| done].
  cbn. rewrite show_no_ws; [done |]. specialize (Hl n eq_refl). lia.
Qed.
Lemma crypto_words c : key_ok c -> forallb word [show (tag c); suite c; inline_key c] = true.
Proof.
  intros K. pose proof (inline_word c K) as W. destruct K as [H1 H2 _ _]. cbn [forallb].
  rewrite show_word by lia. by rewrite H2, W.
Qed.

Definition pt_words (cs : list SdpCodec) : list string := map (fun c => show (pt c)) cs.
Lemma audio_words port proto cs :
  0 < port -> word proto = true -> Forall offerable cs -> forallb word (show port :: proto :: pt_words cs) = true.
Proof.
  intros Hp Hw Hc. cbn [forallb]. rewrite show_word, Hw by lia. cbn [andb].
  induction Hc as [| c cs Hc _ IH]; [done |]. cbn. pose proof (offerable_pt c Hc). rewrite show_word by lia. done.
Qed.

Lemma media_good port proto cs crypto :
  0 < port -> word proto = true -> Forall offerable cs -> (forall c, crypto = Some c -> key_ok c) ->
  forallb good (media_lines port proto cs crypto) = true.
Proof.
  intros Hp Hw Hc Hk. unfold media_lines. cbn [forallb]. rewrite !forallb_app, codec_lines_good by done.
  unfold audio_text. rewrite good_app; [| done | done | by apply join_end; [| apply audio_words]].
  destruct crypto as [c |]; [| done]. cbn [forallb]. unfold crypto_text.
  rewrite good_app; [done | done | done |]. apply join_end; [done |]. by apply crypto_words, Hk.
Qed.

Record section_ok (s : SdpMediaSection) : Prop := {
  sec_media : word (media s) = true;
  sec_proto : word (protocol s) = true;
  sec_formats : formats s <> [] /\ forallb word (formats s) = true;
}.

Lemma rejected_words s : section_ok s -> forallb word (media s :: "0"%string :: protocol s :: formats s) = true.
Proof. intros [H1 H2 [_ H3]]. cbn [forallb]. by rewrite H1, H2, H3. Qed.

Lemma answer_good index selected ours secs :
  forallb good ours = true -> Forall section_ok secs -> forallb good (answer_lines index selected ours secs) = true.
Proof.
  intros Ho H. revert index. induction H as [| s secs Hs _ IH]; intros index; [done |].
  cbn [answer_lines]. rewrite forallb_app, IH, andb_true_r. destruct (_ =? _)%nat; [done |]. cbn [forallb].
  unfold rejected_text. rewrite good_app; [done | done | done |]. by apply join_end; [| apply rejected_words].
Qed.

(** ** Keys *)

Lemma show_no_zero n : 0 < n <= u64_max -> starts_with "0" (show n) = false.
Proof.
  intros Hn. unfold show. rewrite show_from_radix by lia.
  destruct (span_show 10 20 n EmptyString [] EmptyString) as (ds & E & _ & _ & _ & H); try done; try lia.
  { unfold u64_max in Hn. change (Z.of_nat 20) with 20. lia. }
  rewrite app_nil_r in E. unfold starts_with.
  destruct (show_radix 10 20 n EmptyString) as [| c t]; [done |]. cbn [strip_prefix].
  destruct (Ascii.eqb_spec "0" c) as [<- |]; [| done]. exfalso. apply H; [lia |].
  cbn [span_digits] in E. change (to_digit 10 "0") with (Some 0) in E. destruct (span_digits 10 t). by injection E as <-.
Qed.

Lemma digits_no_power s : all is_digit s = true -> strip_prefix "2^" s = None.
Proof.
  destruct s as [| c [| d s]]; cbn [strip_prefix all]; [done | by destruct (Ascii.eqb "2" c) |].
  intros [_ [Hd _]%andb_true_iff]%andb_true_iff. destruct (Ascii.eqb "2" c); [| done].
  destruct (Ascii.eqb_spec "^" d) as [<- |]; [by vm_compute in Hd | done].
Qed.

Lemma parse_lifetime n :
  1 <= n <= MAX_SRTP_PACKETS_PER_MASTER_KEY -> parse_sdes_lifetime (show n) = Some n.
Proof.
  unfold MAX_SRTP_PACKETS_PER_MASTER_KEY. intros Hn. unfold parse_sdes_lifetime.
  rewrite digits_no_power by (apply show_digits; lia). unfold plain_number.
  rewrite show_digits, show_no_zero, andb_false_r by (unfold u64_max; lia).
  destruct (String.eqb_spec (show n) EmptyString) as [E |]; [by apply show_nonempty in E |]. cbn [negb andb].
  rewrite parse_show by (unfold u64_max; lia).
  unfold MAX_SRTP_PACKETS_PER_MASTER_KEY. by rewrite !(proj2 (Z.leb_le _ _)) by lia.
Qed.

Lemma parse_crypto c : key_ok c -> parse_sdes_crypto (join " " [show (tag c); suite c; inline_key c]) = Some c.
Proof.
  intros K. unfold parse_sdes_crypto. rewrite split_ws_join by (by apply crypto_words).
  destruct K as [H1 H2 (H3 & H4 & H5) H6]. rewrite H2, String.eqb_refl. cbn [negb].
  rewrite parse_show by (unfold u32_max, u64_max in *; lia). rewrite (proj2 (Z.ltb_lt _ _)) by lia.
  unfold parse_sdes_inline_key, inline_key. rewrite strip_prefix_app.
  assert (E : match (match key_lifetime_packets c with Some n => "|" ^^ show n | None => EmptyString end) with
              | EmptyString => key_lifetime_packets c = None
              | String _ _ => exists n, key_lifetime_packets c = Some n end).
  { destruct (key_lifetime_packets c) as [n |]; [by exists n | done]. }
  destruct (key_lifetime_packets c) as [n |] eqn:L.
  - change ("|" ^^ show n) with (String "|" (show n)). rewrite split_app by done.
    specialize (H6 n eq_refl). rewrite split_free by (apply show_isnt; [done | unfold MAX_SRTP_PACKETS_PER_MASTER_KEY in *; lia]).
    rewrite parse_lifetime by done. rewrite bytes_of_bytes by done. destruct c; cbn in *. by subst.
  - rewrite app_nil_s, split_free by done. rewrite bytes_of_bytes by done. destruct c; cbn in *. by subst.
Qed.

(** ** The first pass *)

Section passes.
Context {C : Crypto}.

Definition rejected (s : SdpMediaSection) : SdpMediaSection :=
  mkSection (media s) (protocol s) (formats s) false false false.
Definition ours (proto : string) (cs : list SdpCodec) (crypto : option SdpCrypto) : SdpMediaSection :=
  mkSection "audio" proto (pt_words cs) true (bool_decide (is_Some crypto))
    (match crypto with Some c => supported_sdes_key c | None => false end).

Lemma port_of_show p : 0 < p <= u16_max -> port_of (Some (show p)) = Some p.
Proof.
  intros H. unfold port_of. rewrite parse_show by (unfold u16_max, u64_max in *; lia).
  by rewrite (proj2 (Z.ltb_lt _ _)) by lia.
Qed.

Lemma new_section_rejected s :
  section_ok s -> new_section (join " " (media s :: "0"%string :: protocol s :: formats s)) = rejected s.
Proof. intros H. unfold new_section. by rewrite split_ws_join by (by apply rejected_words). Qed.

Lemma new_section_audio port proto cs :
  0 < port <= u16_max -> word proto = true -> Forall offerable cs ->
  new_section ("audio " ^^ join " " (show port :: proto :: pt_words cs)) = ours proto cs None.
Proof.
  intros Hp Hw Hc. unfold new_section.
  change ("audio " ^^ join " " (show port :: proto :: pt_words cs))
    with (join " " ("audio"%string :: show port :: proto :: pt_words cs)).
  assert (forallb word ("audio"%string :: show port :: proto :: pt_words cs) = true).
  { pose proof (audio_words port proto cs ltac:(lia) Hw Hc) as W. cbn [forallb] in *. by rewrite W. }
  rewrite split_ws_join by done. cbn [lookup list_lookup drop default]. rewrite port_of_show by done.
  unfold ours. by rewrite bool_decide_true.
Qed.

Lemma scan_codecs cs secs : fold_left scan_line (concat (map codec_lines cs)) secs = secs.
Proof.
  induction cs as [| c cs IH]; [done |]. cbn [map concat]. rewrite fold_left_app. unfold codec_lines. cbn [fold_left].
  change (scan_line secs (rtpmap_text c)) with secs. unfold fmtp_text. by destruct (fmtp c).
Qed.

Lemma alter_last {A} (f : A -> A) l x : alter f (length l) (l ++ [x]) = l ++ [f x].
Proof. induction l as [| y l IH]; cbn; [done |]. f_equal. exact IH. Qed.

Lemma scan_media port proto cs crypto secs :
  0 < port <= u16_max -> word proto = true -> Forall offerable cs -> (forall c, crypto = Some c -> key_ok c) ->
  fold_left scan_line (media_lines port proto cs crypto) secs = secs ++ [ours proto cs crypto].
Proof.
  intros Hp Hw Hc Hk. unfold media_lines. cbn [fold_left]. rewrite !fold_left_app, scan_codecs.
  assert (E : scan_line secs (audio_text port proto cs) = secs ++ [ours proto cs None]).
  { unfold scan_line, audio_text. change ("m=audio " ^^ ?x) with ("m=" ^^ ("audio " ^^ x)).
    rewrite strip_prefix_app. f_equal. f_equal. by apply new_section_audio. }
  rewrite E. destruct crypto as [c |]; [| done]. cbn [fold_left].
  change (scan_line (secs ++ [ours proto cs None]) (crypto_text c))
    with (alter (note_crypto (join " " [show (tag c); suite c; inline_key c]))
            (length (secs ++ [ours proto cs None]) - 1)%nat (secs ++ [ours proto cs None])).
  rewrite length_app. cbn [length]. replace (length secs + 1 - 1)%nat with (length secs) by lia.
  rewrite alter_last. unfold note_crypto. rewrite parse_crypto by (by apply Hk). done.
Qed.

(** The sections of an answer as they are read. *)
Fixpoint answered (index selected : nat) (own : SdpMediaSection) (secs : list SdpMediaSection) : list SdpMediaSection :=
  match secs with
  | [] => []
  | s :: secs => (if (index =? selected)%nat then own else rejected s) :: answered (S index) selected own secs
  end.

Lemma scan_answer index selected port proto cs crypto secs acc :
  0 < port <= u16_max -> word proto = true -> Forall offerable cs -> (forall c, crypto = Some c -> key_ok c) ->
  Forall section_ok secs ->
  fold_left scan_line (answer_lines index selected (media_lines port proto cs crypto) secs) acc =
  acc ++ answered index selected (ours proto cs crypto) secs.
Proof.
  intros Hp Hw Hc Hk Hs. revert index acc. induction Hs as [| s secs Hs _ IH]; intros index acc; [by rewrite app_nil_r |].
  cbn [answer_lines answered]. rewrite fold_left_app, IH. destruct (_ =? _)%nat.
  - rewrite scan_media by done. by rewrite <- app_assoc.
  - unfold rejected_text. cbn [fold_left]. unfold scan_line. rewrite strip_prefix_app, new_section_rejected by done.
    by rewrite <- app_assoc.
Qed.

Lemma select_rejected secs index count best own sel :
  (forall k, (index <= k < index + length secs)%nat -> k <> sel) ->
  select_section (answered index sel own secs) index count best = (count, best).
Proof.
  revert index. induction secs as [| s secs IH]; intros index H; [done |]. cbn [answered].
  destruct (Nat.eqb_spec index sel) as [-> |]; [destruct (H sel); cbn; lia |].
  cbn [select_section]. unfold audio_section_preference, rejected at 1. cbn. rewrite orb_true_r.
  apply IH. intros k Hk. apply H. cbn. lia.
Qed.

Lemma select_answered secs index own sel p :
  audio_section_preference own = Some p -> (index <= sel < index + length secs)%nat ->
  select_section (answered index sel own secs) index 0 None = (1, Some (sel, p)).
Proof.
  intros Hp. revert index. induction secs as [| s secs IH]; intros index H; [cbn in H; lia |]. cbn [answered].
  destruct (Nat.eqb_spec index sel) as [-> | Hne].
  - cbn [select_section]. rewrite Hp. rewrite select_rejected; [done |]. intros k Hk. lia.
  - cbn [select_section]. unfold audio_section_preference at 1, rejected at 1. cbn. rewrite orb_true_r.
    apply IH. cbn in H. lia.
Qed.

Lemma ours_preferred proto cs crypto : exists p, audio_section_preference (ours proto cs crypto) = Some p.
Proof. unfold audio_section_preference, ours. cbn. by eexists. Qed.

(** ** The second pass *)

Definition moved (ms : option bool) (cur : option nat) (s : Scan) : Scan :=
  s {{ media_section := ms; current_section := cur }}.
Definition next (s : Scan) : option nat := Some (match current_section s with None => O | Some i => S i end).

Lemma strip_prefix_Some p s r : strip_prefix p s = Some r -> s = p ^^ r.
Proof.
  revert s. induction p as [| c p IH]; intros s; cbn [strip_prefix]; [by intros [= ->] |].
  destruct s as [| d s]; [done |]. destruct (Ascii.eqb_spec c d) as [<- |]; [| done]. intros H. by rewrite (IH s H).
Qed.

Lemma on_rejected selected s x :
  section_ok x -> on_line selected s (rejected_text x) = moved (Some false) (next s) s.
Proof.
  intros Hx. unfold on_line, rejected_text. unfold starts_with at 1 3. rewrite strip_prefix_app.
  change (connection_line ("m=" ^^ join " " (media x :: "0"%string :: protocol x :: formats x))) with (@None string).
  cbn [andb]. unfold starts_with.
  destruct (strip_prefix "m=audio " _) as [rest |] eqn:E; cbn [negb]; [| by destruct s].
  apply strip_prefix_Some in E. unfold on_audio.
  assert (W : split_whitespace rest = "0"%string :: protocol x :: formats x).
  { assert (J : join " " (media x :: "0"%string :: protocol x :: formats x) = "audio" ^^ String " " rest).
    { cbn [String.append] in E. by injection E. }
    pose proof (split_ws_join _ (rejected_words x Hx)) as S. rewrite J, split_ws_cons in S by done.
    by injection S as _ ->. }
  rewrite W. cbn [lookup list_lookup]. change (port_of (Some "0"%string)) with (@None Z). by destruct s.
Qed.

Lemma take_pts_all acc cs :
  Forall offerable cs -> len acc + len cs <= 32 -> take_pts acc (pt_words cs) = acc ++ map pt cs.
Proof.
  intros H. revert acc. induction H as [| c cs Hc _ IH]; intros acc Hl; cbn [pt_words map take_pts]; [by rewrite app_nil_r |].
  rewrite len_cons in Hl. pose proof (len_nonneg cs). unfold MAX_SDP_CODECS.
  rewrite (proj2 (Z.leb_gt _ _)) by lia. pose proof (offerable_pt c Hc).
  rewrite parse_show by (unfold u8_max, u64_max; lia).
  change (map (fun c => show (pt c)) cs) with (pt_words cs).
  rewrite IH by (rewrite len_app; change (len [pt c]) with 1; lia). by rewrite <- app_assoc.
Qed.

Lemma on_audio_line sel s port proto cs :
  next s = Some sel -> 0 < port <= u16_max -> word proto = true -> codecs_ok cs -> pts s = [] ->
  on_line (Some sel) s (audio_text port proto cs) =
    (moved (Some true) (Some sel) s) {{ m_port := Some port; sc_protocol := Some proto; pts := map pt cs }}.
Proof.
  intros Hn Hp Hw [Hc _ Hf] Hpts. unfold on_line, audio_text.
  change (starts_with "m=" ("m=audio " ^^ ?x)) with true. change (connection_line ("m=audio " ^^ ?x)) with (@None string).
  change (starts_with "m=audio " ("m=audio " ^^ ?x)) with true. cbn [andb negb]. rewrite strip_prefix_app.
  unfold on_audio. rewrite split_ws_join by (apply audio_words; [lia | done | done]).
  cbn [lookup list_lookup drop]. rewrite port_of_show by done. fold (next s). rewrite Hn.
  rewrite bool_decide_true by done. pose proof (take_pts_all [] cs Hc ltac:(change (len []) with 0; lia)) as T. cbn in T. rewrite <- T.
  destruct s; cbn in Hpts |- *. by subst.
Qed.

Definition with_codec (s : Scan) (c : SdpCodec) : Scan :=
  s {{ rtpmap := <[pt c := (name c, clock_rate c, channels c)]> (rtpmap s);
       fmtps := match fmtp c with Some f => <[pt c := f]> (fmtps s) | None => fmtps s end }}.

(** An attribute of the selected section. *)
Lemma on_attribute_line sel s line :
  media_section s = Some true -> starts_with "m=" line = false -> connection_line line = None ->
  strip_prefix "m=audio " line = None -> on_line sel s line = on_attribute s line.
Proof. intros H1 H2 H3 H4. unfold on_line. by rewrite H2, H3, H4, H1. Qed.

Lemma rtpmap_effect s c :
  offerable c -> Z.of_nat (size (rtpmap s)) < 32 ->
  on_rtpmap s (show (pt c) ^^ " " ^^ name c ^^ "/" ^^ show (clock_rate c)
               ^^ match channels c with Some n => "/" ^^ show n | None => EmptyString end) =
  s {{ rtpmap := <[pt c := (name c, clock_rate c, channels c)]> (rtpmap s) }}.
Proof.
  intros Hc Hs. pose proof (offerable_pt c Hc) as Hp. unfold on_rtpmap.
  change (show (pt c) ^^ " " ^^ ?x) with (show (pt c) ^^ String " " x).
  rewrite split_once_app by (apply show_isnt; [done | lia]).
  rewrite parse_show by (unfold u8_max, u64_max; lia).
  assert (N : all (isnt "/") (name c) = true /\ 0 <= clock_rate c <= u32_max /\ (forall n, channels c = Some n -> 0 <= n <= 255)).
  { destruct Hc; cbn; split_and!; try done; try (unfold u32_max in *; lia); intros n Hn; by simplify_eq. }
  destruct N as (N1 & N2 & N3).
  change (name c ^^ "/" ^^ ?x) with (name c ^^ String "/" x). rewrite split_app by done.
  assert (P : split "/" (show (clock_rate c) ^^ match channels c with Some n => "/" ^^ show n | None => EmptyString end) =
              show (clock_rate c) :: match channels c with Some n => [show n] | None => [] end).
  { destruct (channels c) as [n |].
    - change ("/" ^^ show n) with (String "/" (show n)). rewrite split_app by (apply show_isnt; [done | lia]).
      specialize (N3 n eq_refl). by rewrite split_free by (apply show_isnt; [done | lia]).
    - rewrite app_nil_s. by rewrite split_free by (apply show_isnt; [done | lia]). }
  rewrite P. cbn [lookup list_lookup default]. rewrite parse_show by (unfold u32_max, u64_max in *; lia). cbn [default].
  rewrite (proj2 (Z.ltb_lt _ _)) by done. destruct (channels c) as [n |]; cbn [lookup list_lookup]; [| done].
  specialize (N3 n eq_refl). by rewrite parse_show by (unfold u8_max, u64_max; lia).
Qed.

Lemma fmtp_effect s c f :
  offerable c -> fmtp c = Some f -> Z.of_nat (size (fmtps s)) < 32 ->
  on_fmtp s (show (pt c) ^^ " " ^^ f) = s {{ fmtps := <[pt c := f]> (fmtps s) }}.
Proof.
  intros Hc Hf Hs. pose proof (offerable_pt c Hc) as Hp. unfold on_fmtp.
  change (show (pt c) ^^ " " ^^ f) with (show (pt c) ^^ String " " f).
  rewrite split_once_app by (apply show_isnt; [done | lia]).
  rewrite parse_show by (unfold u8_max, u64_max; lia). rewrite (proj2 (Z.ltb_lt _ _)) by done.
  assert (T : tight f = true) by (destruct Hc as [| | | ? ? ? ? Ht]; cbn in Hf; simplify_eq; [done | by apply Ht]).
  rewrite <- (app_nil_s f) at 1. by rewrite trim_tight.
Qed.

Lemma codec_effect sel s c :
  offerable c -> media_section s = Some true -> Z.of_nat (size (rtpmap s)) < 32 -> Z.of_nat (size (fmtps s)) < 32 ->
  fold_left (on_line sel) (codec_lines c) s = with_codec s c.
Proof.
  intros Hc Hm H1 H2. unfold codec_lines. cbn [fold_left]. rewrite on_attribute_line by done.
  change (on_attribute s (rtpmap_text c)) with (on_rtpmap s (show (pt c) ^^ " " ^^ name c ^^ "/" ^^ show (clock_rate c)
    ^^ match channels c with Some n => "/" ^^ show n | None => EmptyString end)).
  rewrite rtpmap_effect by done. unfold fmtp_text, with_codec. destruct (fmtp c) as [f |] eqn:F; [| by destruct s].
  cbn [fold_left]. rewrite on_attribute_line by (by destruct s).
  match goal with |- on_attribute ?x _ = _ =>
    change (on_attribute x ("a=fmtp:" ^^ show (pt c) ^^ " " ^^ f)) with (on_fmtp x (show (pt c) ^^ " " ^^ f)) end.
  rewrite (fmtp_effect _ c f) by (done || by destruct s). by destruct s.
Qed.

Lemma size_insert_le {A} (m : gmap Z A) k x : (size (<[k := x]> m) <= S (size m))%nat.
Proof. rewrite map_size_insert. destruct (m !! k); cbn; lia. Qed.

(** The sizes stay in the limits of the parser. *)
Lemma codecs_effect sel cs s :
  Forall offerable cs -> media_section s = Some true ->
  Z.of_nat (size (rtpmap s)) + len cs <= 32 -> Z.of_nat (size (fmtps s)) + len cs <= 32 ->
  fold_left (on_line sel) (concat (map codec_lines cs)) s = fold_left with_codec cs s.
Proof.
  intros Hc. revert s. induction Hc as [| c cs Hc _ IH]; intros s Hm H1 H2; [done |].
  rewrite len_cons in *. pose proof (len_nonneg cs). cbn [map concat fold_left]. rewrite fold_left_app.
  rewrite codec_effect by (done || lia). apply IH; [by destruct s | |].
  - destruct s; cbn in *. pose proof (size_insert_le rtpmap0 (pt c) (name c, clock_rate c, channels c)). lia.
  - destruct s; cbn in *. destruct (fmtp c) as [f |]; [| lia]. pose proof (size_insert_le fmtps0 (pt c) f). lia.
Qed.

Definition finish (crypto : option SdpCrypto) (s : Scan) : Scan :=
  (match crypto with Some c => s {{ sc_crypto_present := true; sc_crypto := Some c }} | None => s end)
    {{ sc_direction := Some "sendrecv"%string; sc_mux := true; sc_maxptime := Some 20 }}.

Definition selected_media (sel : nat) (port : Z) (proto : string) (cs : list SdpCodec) (s : Scan) : Scan :=
  (moved (Some true) (Some sel) s) {{ m_port := Some port; sc_protocol := Some proto; pts := map pt cs }}.
Definition read_media (sel : nat) (port : Z) (proto : string) (cs : list SdpCodec) (crypto : option SdpCrypto) (s : Scan) : Scan :=
  finish crypto (fold_left with_codec cs (selected_media sel port proto cs s)).

(** What the codecs leave alone. *)
Lemma with_codecs_frame cs s :
  exists rm fm, fold_left with_codec cs s = s {{ rtpmap := rm; fmtps := fm }}.
Proof.
  revert s. induction cs as [| c cs IH]; intros s; cbn [fold_left]; [by exists (rtpmap s), (fmtps s); destruct s |].
  destruct (IH (with_codec s c)) as (rm & fm & ->). exists rm, fm. by destruct s.
Qed.

Lemma media_effect sel port proto cs crypto s :
  next s = Some sel -> 0 < port <= u16_max -> word proto = true -> codecs_ok cs ->
  (forall c, crypto = Some c -> key_ok c) -> pts s = [] -> rtpmap s = ∅ -> fmtps s = ∅ ->
  fold_left (on_line (Some sel)) (media_lines port proto cs crypto) s = read_media sel port proto cs crypto s.
Proof.
  intros Hn Hp Hw Hc Hk H1 H2 H3. unfold media_lines, read_media. cbn [fold_left]. rewrite !fold_left_app.
  rewrite on_audio_line by done. fold (selected_media sel port proto cs s). destruct Hc as [Hc _ Hl].
  rewrite codecs_effect; [| done | by destruct s | | ].
  2, 3: destruct s; cbn in *; subst; rewrite ?map_size_empty; lia.
  destruct (with_codecs_frame cs (selected_media sel port proto cs s)) as (rm & fm & E). rewrite E.
  set (x := (_ {{ rtpmap := rm; fmtps := fm }})). assert (M : media_section x = Some true) by (by destruct s).
  clearbody x. unfold finish. destruct crypto as [c |]; cbn [fold_left].
  - rewrite (on_attribute_line (Some sel) x) by done.
    change (on_attribute x (crypto_text c)) with
      (match parse_sdes_crypto (join " " [show (tag c); suite c; inline_key c]) with
       | Some c => x {{ sc_crypto_present := true; sc_crypto := Some c }} | None => x {{ sc_crypto_present := true }} end).
    rewrite parse_crypto by (by apply Hk). destruct x; cbn in M; subst. by vm_compute.
  - destruct x; cbn in M; subst. by vm_compute.
Qed.

(** ** The whole description *)

Lemma moved_moved a b c d s : moved a b (moved c d s) = moved a b s.
Proof. by destruct s. Qed.

Lemma header_effect sel a sid :
  ip_ok a -> fold_left (on_line sel) (header_lines a sid) new_scan = new_scan {{ session_c_addr := Some a }}.
Proof.
  intros Ha. unfold header_lines. cbn [fold_left].
  change (on_line sel new_scan "v=0") with new_scan.
  change (on_line sel new_scan ("o=rtpbridge " ^^ ?x)) with new_scan.
  change (on_line sel new_scan "s=rtpbridge") with new_scan.
  assert (E : on_line sel new_scan ("c=IN " ^^ family a ^^ " " ^^ show_ip a) = on_connection new_scan (show_ip a))
    by (by destruct a). rewrite E.
  unfold on_connection. cbn [media_section new_scan]. pose proof (show_ip_word a Ha) as W.
  pose proof (split_ws_join [show_ip a]) as S. cbn [join forallb] in S. rewrite S by (by rewrite W).
  rewrite parse_show_ip by done. done.
Qed.

Lemma rejected_effect index sel own secs s :
  Forall section_ok secs -> (forall k, (index <= k < index + length secs)%nat -> k <> sel) ->
  exists ms cur, fold_left (on_line (Some sel)) (answer_lines index sel own secs) s = moved ms cur s.
Proof.
  intros H. revert index s. induction H as [| x secs Hx _ IH]; intros index s Hk.
  { exists (media_section s), (current_section s). by destruct s. }
  cbn [answer_lines]. destruct (Nat.eqb_spec index sel) as [-> |]; [destruct (Hk sel); cbn; lia |].
  cbn [app fold_left]. rewrite on_rejected by done.
  destruct (IH (S index) (moved (Some false) (next s) s)) as (ms & cur & ->); [intros k ?; apply Hk; cbn; lia |].
  exists ms, cur. by rewrite moved_moved.
Qed.

Lemma answer_effect index sel port proto cs crypto secs s :
  0 < port <= u16_max -> word proto = true -> codecs_ok cs -> (forall c, crypto = Some c -> key_ok c) ->
  Forall section_ok secs -> pts s = [] -> rtpmap s = ∅ -> fmtps s = ∅ ->
  next s = Some index -> (index <= sel < index + length secs)%nat ->
  exists ms cur, fold_left (on_line (Some sel)) (answer_lines index sel (media_lines port proto cs crypto) secs) s =
                 moved ms cur (read_media sel port proto cs crypto s).
Proof.
  intros Hp Hw Hc Hk Hs. revert index s. induction Hs as [| x secs Hx Hs IH]; intros index s H1 H2 H3 Hn Hi; [cbn in Hi; lia |].
  cbn [answer_lines]. rewrite fold_left_app. destruct (Nat.eqb_spec index sel) as [-> | Hne].
  - rewrite media_effect by done. apply rejected_effect; [done |]. intros k Hk'. lia.
  - cbn [fold_left]. rewrite on_rejected by done. rewrite Hn.
    destruct (IH (S index) (moved (Some false) (Some index) s)) as (ms & cur & ->).
    1-4: by destruct s. { cbn in Hi. lia. }
    exists ms, cur. unfold read_media, selected_media. by rewrite moved_moved.
Qed.

(** ** The codecs are heard *)

Lemma with_codecs_other cs s p :
  p ∉ map pt cs -> rtpmap (fold_left with_codec cs s) !! p = rtpmap s !! p /\
                   fmtps (fold_left with_codec cs s) !! p = fmtps s !! p.
Proof.
  revert s. induction cs as [| c cs IH]; intros s Hp; [done |]. cbn [fold_left map] in *.
  apply not_elem_of_cons in Hp as [Hne Hp]. destruct (IH (with_codec s c) Hp) as [-> ->]. destruct s; cbn.
  destruct (fmtp c); by rewrite ?lookup_insert_ne.
Qed.

Lemma with_codecs_lookup cs s c :
  NoDup (map pt cs) -> (forall p, fmtps s !! p = None) -> c ∈ cs ->
  rtpmap (fold_left with_codec cs s) !! pt c = Some (name c, clock_rate c, channels c) /\
  fmtps (fold_left with_codec cs s) !! pt c = fmtp c.
Proof.
  intros Hnd Hs Hin. apply list_elem_of_split in Hin as (l & k & ->).
  rewrite map_app in Hnd. cbn [map] in Hnd. apply NoDup_app in Hnd as (_ & Hl & [Hk _]%NoDup_cons).
  rewrite fold_left_app. cbn [fold_left]. destruct (with_codecs_other k (with_codec (fold_left with_codec l s) c) _ Hk) as [-> ->].
  destruct (with_codecs_other l s (pt c)) as [_ F]. { intros Hp. apply (Hl _ Hp). by left. }
  revert F. generalize (fold_left with_codec l s). intros x F. destruct x; cbn in *.
  rewrite lookup_insert_eq. split; [done |]. destruct (fmtp c); [by rewrite lookup_insert_eq | by rewrite F, Hs].
Qed.

Lemma dynamic_te s p r : 0 < r -> dynamic_codec s p ("telephone-event"%string, r, None) =
  ([CODEC_TELEPHONE_EVENT {{ pt := p; clock_rate := r }}], None).
Proof.
  intros Hr. unfold dynamic_codec. change (eq_ignore_ascii_case "telephone-event" "telephone-event") with true. cbn [andb].
  by rewrite (proj2 (Z.ltb_lt _ _)).
Qed.
Lemma dynamic_opus s p f :
  sc_maxptime s = Some 20 -> fmtps s !! p = f -> min_packet_ms (parse_profile f) <= 20 ->
  (dynamic_codec s p ("opus"%string, 48000, Some 2)).1 = [CODEC_OPUS {{ pt := p; maxptime := Some 20; fmtp := f }}].
Proof.
  intros Hm Hf Hq. unfold dynamic_codec. change (eq_ignore_ascii_case "opus" "telephone-event") with false.
  change (eq_ignore_ascii_case "opus" "opus") with true. cbn [andb Z.eqb Pos.eqb]. rewrite Hm, Hf.
  assert (E : encodable (from_codec (CODEC_OPUS {{ pt := p; maxptime := Some 20; fmtp := f }})) = true).
  { unfold encodable, from_codec. change (fmtp (CODEC_OPUS {{ pt := p; maxptime := Some 20; fmtp := f }})) with f.
    destruct (parse_profile f); cbn in *. lia. }
  by rewrite E.
Qed.

Lemma codec_of_dynamic s p m : 96 <= p -> rtpmap s !! p = Some m -> codec_of s p = dynamic_codec s p m.
Proof.
  intros Hp Hr. unfold codec_of. by rewrite !(proj2 (Z.eqb_neq _ _)), (proj2 (Z.leb_le _ _)), Hr by lia.
Qed.

Lemma codec_of_heard s c :
  offerable c -> rtpmap s !! pt c = Some (name c, clock_rate c, channels c) -> fmtps s !! pt c = fmtp c ->
  sc_maxptime s = Some 20 -> (codec_of s (pt c)).1 = [heard c].
Proof.
  intros Hc Hr Hf Hm.
  destruct Hc as [p [-> | Hp] | p [-> | Hp] | p r Hp Hr' | p m f Hp Ht Hq]; cbn in Hr, Hf.
  - unfold codec_of. cbn [pt]. change (pt (CODEC_PCMU {{ pt := 0 }})) with 0. by rewrite Hr.
  - change (pt (CODEC_PCMU {{ pt := p }})) with p. by rewrite (codec_of_dynamic s p _ ltac:(lia) Hr).
  - unfold codec_of. change (pt (CODEC_G722 {{ pt := 9 }})) with 9. by rewrite Hr.
  - change (pt (CODEC_G722 {{ pt := p }})) with p. by rewrite (codec_of_dynamic s p _ ltac:(lia) Hr).
  - change (pt (CODEC_TELEPHONE_EVENT {{ pt := p; clock_rate := r }})) with p.
    rewrite (codec_of_dynamic s p _ ltac:(lia) Hr). by rewrite dynamic_te by lia.
  - change (pt (CODEC_OPUS {{ pt := p; maxptime := m; fmtp := f }})) with p.
    rewrite (codec_of_dynamic s p _ ltac:(lia) Hr). by rewrite (dynamic_opus s p f).
Qed.

Lemma codecs_heard s cs :
  (forall c, c ∈ cs -> (codec_of s (pt c)).1 = [heard c]) ->
  forall acc, (fold_left (add_codec s) (map pt cs) acc).1 = acc.1 ++ map heard cs.
Proof.
  induction cs as [| c cs IH]; intros H acc; cbn [map fold_left]; [by rewrite app_nil_r |].
  rewrite IH by (intros d Hd; apply H; by right). unfold add_codec.
  specialize (H c ltac:(by left)). destruct (codec_of s (pt c)) as [x y]. cbn in *. subst. by rewrite <- app_assoc.
Qed.

(** What [parse_sdp] reads in a description of this endpoint; [secs] and [sel] are its sections. *)
Record reads (p : ParsedSdp) (a : IpAddr) (port : Z) (proto : string) (cs : list SdpCodec) (key : option SdpCrypto)
    (secs : list SdpMediaSection) (sel : nat) : Prop := {
  reads_addr : remote_addr p = Some (socket_addr a port);
  reads_rtcp : p_remote_rtcp_addr p = None /\ invalid_rtcp p = false /\ p_rtcp_mux p = true;
  reads_codecs : p_codecs p = map heard cs;
  reads_key : crypto p = key /\ crypto_present p = bool_decide (is_Some key);
  reads_section : audio_sections p = 1 /\ selected_audio_section p = Some sel;
  reads_sections : media_sections p = answered 0 sel (ours proto cs key) secs;
  reads_plain : is_webrtc p = false /\ p_direction p = Some "sendrecv"%string /\ media_protocol p = Some proto;
  reads_osrtp : is_osrtp p = bool_decide (is_Some key) && bool_decide (proto = "RTP/AVP"%string);
  reads_te : forall q c, select_answer_codec (map heard cs) = Some q ->
    select_telephone_event_codec (map heard cs) (clock_rate q) = Some c ->
    p_telephone_event_pt p = Some (pt c) /\ p_telephone_event_clock_rate p = Some (clock_rate c);
}.

(** The scan of such a description, before its codecs are resolved. *)
Record scanned (x : Scan) (a : IpAddr) (port : Z) (proto : string) (cs : list SdpCodec) (key : option SdpCrypto) : Prop := {
  scanned_addr : audio_c_addr x = None /\ session_c_addr x = Some a /\ m_port x = Some port;
  scanned_rtcp : rtcp_ip x = None /\ rtcp_port x = None /\ sc_invalid_rtcp x = false /\ sc_mux x = true;
  scanned_key : sc_crypto x = key /\ sc_crypto_present x = bool_decide (is_Some key);
  scanned_plain : sc_webrtc x = false /\ sc_direction x = Some "sendrecv"%string /\ sc_protocol x = Some proto;
  scanned_pts : pts x = map pt cs;
  scanned_codecs : (fold_left (add_codec x) (map pt cs) ([], None)).1 = map heard cs;
}.

Lemma media_scanned sel a port proto cs key ms cur :
  codecs_ok cs ->
  scanned (moved ms cur (read_media sel port proto cs key (new_scan {{ session_c_addr := Some a }}))) a port proto cs key.
Proof.
  intros [Ho Hnd _]. set (base := selected_media sel port proto cs (new_scan {{ session_c_addr := Some a }})).
  unfold read_media. fold base.
  assert (K : forall c, c ∈ cs -> rtpmap (fold_left with_codec cs base) !! pt c = Some (name c, clock_rate c, channels c) /\
                                  fmtps (fold_left with_codec cs base) !! pt c = fmtp c).
  { intros c Hin. apply with_codecs_lookup; [done | | done]. intros p. apply lookup_empty. }
  destruct (with_codecs_frame cs base) as (rm & fm & E). rewrite E in K |- *.
  split; try by destruct key.
  rewrite codecs_heard; [done |]. intros c Hin. destruct (K c Hin) as [K1 K2].
  apply codec_of_heard; [by eapply Forall_forall | by destruct key | by destruct key | by destruct key].
Qed.

Lemma parse_lines a sid port proto cs key secs sel :
  ip_ok a -> 0 <= sid -> 0 < port <= u16_max -> word proto = true -> codecs_ok cs ->
  (forall c, key = Some c -> key_ok c) -> Forall section_ok secs -> (sel < length secs)%nat ->
  reads (parse_sdp (unlines (header_lines a sid ++ answer_lines 0 sel (media_lines port proto cs key) secs)))
    a port proto cs key secs sel.
Proof.
  intros Ha Hi Hp Hw Hc Hk Hs Hsel. unfold parse_sdp.
  rewrite read_unlines.
  2: { rewrite forallb_app, header_good, answer_good by (done || apply media_good; try done; try lia; by destruct Hc). done. }
  rewrite fold_left_app. change (fold_left scan_line (header_lines a sid) []) with (@nil SdpMediaSection).
  rewrite scan_answer by (done || by destruct Hc). cbn [app].
  destruct (ours_preferred proto cs key) as [pref Hpref]. rewrite (select_answered _ _ _ sel pref) by (done || lia).
  cbn [fmap option_fmap option_map fst]. rewrite fold_left_app, header_effect by done.
  destruct (answer_effect 0 sel port proto cs key secs (new_scan {{ session_c_addr := Some a }})) as (ms & cur & ->); try done; try lia.
  destruct (media_scanned sel a port proto cs key ms cur Hc) as [(A1 & A2 & A3) (B1 & B2 & B3 & B4) (C1 & C2) (D1 & D2 & D3) E1 F1].
  set (x := moved ms cur _) in *. clearbody x. rewrite A1, A2, A3, B1, B2, B3, B4, C1, C2, D1, D2, D3, E1.
  destruct (fold_left (add_codec x) (map pt cs) ([], None)) as [codecs profile]. cbn [fst] in F1. subst codecs.
  split; cbn; try done.
  - by rewrite (proj2 (Z.eqb_neq _ _)) by lia.
  - rewrite andb_true_r. f_equal. apply bool_decide_ext. split; [by intros [= ->] | by intros ->].
  - intros q c Hq Hte. rewrite Hq, Hte. done.
Qed.

Definition proto_of (key : option SdpCrypto) (avp : bool) (answer : option (list SdpMediaSection * nat)) : string :=
  match answer with
  | Some (secs, sel) => default EmptyString (protocol <$> secs !! sel)
  | None => if bool_decide (is_Some key) && negb avp then "RTP/SAVP" else "RTP/AVP"
  end.

Lemma generate_reads a port codecs key sid avp answer :
  ip_ok (ip a) -> 0 <= sid -> 0 < port <= u16_max -> codecs_ok (all_codecs codecs) ->
  (forall c, key = Some c -> key_ok c) ->
  (forall secs sel, answer = Some (secs, sel) -> Forall section_ok secs /\ (sel < length secs)%nat) ->
  exists t,
    generate_sdp a port codecs key sid avp answer = Val t /\
    let proto := proto_of key avp answer in
    reads (parse_sdp t) (ip a) port proto (all_codecs codecs) key (sections_of proto answer).1 (sections_of proto answer).2.
Proof.
  intros Ha Hi Hp Hc Hk Hs.
  assert (G : exists t, generate_sdp a port codecs key sid avp answer = Val t).
  { unfold generate_sdp. destruct answer as [[secs sel] |]; [| by eexists].
    destruct (Hs secs sel eq_refl) as [_ [x ->]%lookup_lt_is_Some]. by eexists. }
  destruct G as [t G]. exists t. split; [done |]. cbn zeta.
  destruct (generate_lines a port codecs key sid avp answer t) as (proto & Hproto & ->); [| done |].
  { intros secs sel E. destruct (Hs secs sel E) as [H _]. eapply Forall_impl; [exact H |]. intros x Hx. apply Hx. }
  clear G. destruct answer as [[secs sel] |]; cbn [proto_of sections_of fst snd].
  - destruct Hproto as (x & E & ->). destruct (Hs secs sel eq_refl) as [H L]. rewrite E. cbn.
    apply parse_lines; try done. apply (sec_proto x). eapply Forall_lookup_1; [exact H | exact E].
  - rewrite <- Hproto. assert (W : word proto = true) by (rewrite Hproto; by destruct (_ && _)).
    apply parse_lines; try done; [| cbn; lia]. by repeat constructor.
Qed.

(** C21: A description that is generated is read back by [parse_sdp] as what it
    describes: the address and the port, the codecs with their payload types,
    rates, channels and parameters in the order given (and telephone events where
    none was), the key with its tag and lifetime, exactly one audio section, at
    the position of the offer that is answered, every other section rejected in
    its place; for every IPv4 or IPv6 address, every key and every offer. *)
Theorem sdp_roundtrip a port codecs key sid avp answer :
  ip_ok (ip a) -> 0 <= sid -> 0 < port <= u16_max -> codecs_ok (all_codecs codecs) ->
  (forall c, key = Some c -> key_ok c) ->
  (forall secs sel, answer = Some (secs, sel) -> Forall section_ok secs /\ (sel < length secs)%nat) ->
  exists t,
    generate_sdp a port codecs key sid avp answer = Val t /\
    let proto := proto_of key avp answer in
    reads (parse_sdp t) (ip a) port proto (all_codecs codecs) key (sections_of proto answer).1 (sections_of proto answer).2.
Proof. exact (generate_reads a port codecs key sid avp answer). Qed.

End passes.

Module Examples.
Definition key : SdpCrypto := mkCrypto 1 SUITE (map (fun n => 65 + n) (seqZ 0 26)) (Some 1000).
Definition offered : list SdpMediaSection :=
  [mkSection "video" "RTP/SAVPF" ["96"%string] false false false; mkSection "audio" "RTP/SAVP" ["0"%string] true true true].
Definition home : SocketAddr := mkAddr (V6 (2 ^ 125 + 1)) 4000 0 0.
End Examples.
Import Examples.

(** An answer to the second section of an offer, on an IPv6 address, with a key. *)
Lemma sdp_roundtrip_witness :
  exists t,
    generate_sdp home 4000 [CODEC_OPUS; CODEC_PCMU] (Some key) 7 false (Some (offered, 1%nat)) = Val t /\
    reads (C := sample_crypto) (parse_sdp (C := sample_crypto) t) (ip home) 4000 "RTP/SAVP"
      [CODEC_OPUS; CODEC_PCMU; CODEC_TELEPHONE_EVENT] (Some key) offered 1.
Proof.
  apply (sdp_roundtrip (C := sample_crypto) home 4000 [CODEC_OPUS; CODEC_PCMU] (Some key) 7 false (Some (offered, 1%nat))).
  - by vm_compute.
  - done.
  - done.
  - split; [| by apply (bool_decide_unpack _); vm_compute | done].
    apply Forall_cons_2; [| apply Forall_cons_2; [| apply Forall_cons_2; [| by apply Forall_nil]]].
    + refine (offer_opus 111 None _ _ _ _); [lia | | by vm_compute]. by intros ? [= <-].
    + refine (offer_pcmu 0 _). by left.
    + refine (offer_te 101 8000 _ _); [lia | done].
  - intros c [= <-]. split; [done | done | | by intros ? [= <-]]. split; [| done]. apply Srtp.Examples.bytes_check. by vm_compute.
  - intros secs sel [= <- <-]. split; [| by vm_compute]. by repeat constructor.
Defined.

End SdpText.
