(* ===== verification/Gate.v ===== *)
(** The gate of the control plane: HMAC authorization ([control/auth.rs]) and the
    classification of an incoming connection ([control/server.rs]), from the bytes
    of the request head to what the server does with the connection.

    Texts are byte strings holding UTF-8, as Rust's are.  HMAC-SHA256, URL-safe
    base64, UUID parsing and the HTTP authority parser are interfaces. *)

From stdpp Require Import strings.
From Stdlib Require Import Ascii.
From S2P Require Import Prelude SocketPool Text Net.
#[local] Open Scope Z_scope.
#[local] Open Scope text_scope.

(** [Hmac<Sha256>] and [URL_SAFE_NO_PAD]: a tag is a sequence of bytes, and
    decoding gives back what was encoded, in an alphabet without the colon. *)
Class Signing := {
  hmac_sha256 : bytes -> bytes -> bytes;
  base64url_decode : string -> option bytes;
  base64url_encode : bytes -> string;
  hmac_bytes : forall k m, are_bytes (hmac_sha256 k m);
  base64url_roundtrip : forall b, are_bytes b -> base64url_decode (base64url_encode b) = Some b;
  base64url_no_colon : forall b, Text.all (Text.isnt ":"%char) (base64url_encode b) = true;
}.

(** [Uuid::parse_str] and [http::uri::Authority]: the whole text and its host. *)
Class HttpParsers := {
  parse_uuid : string -> option Z;
  parse_authority : string -> option (string * string);
}.

Module Gate.
Import SocketPool(IpAddr, V4, V6).
Import Text Net.

(** ** Text of the standard library beyond ASCII *)

(** The text after a leading [char::is_whitespace], if there is one. *)
Definition after_ws (s : string) : option string :=
  match s with
  | EmptyString => None
  | String a r =>
      if is_ws a then Some r
      else
        match r with
        | EmptyString => None
        | String b r2 =>
            if (code a =? 0xC2) && ((code b =? 0x85) || (code b =? 0xA0)) then Some r2
            else
              match r2 with
              | EmptyString => None
              | String c r3 =>
                  if ((code a =? 0xE1) && (code b =? 0x9A) && (code c =? 0x80))
                     || ((code a =? 0xE2) && (code b =? 0x80)
                         && ((0x80 <=? code c) && (code c <=? 0x8A) || (code c =? 0xA8)
                             || (code c =? 0xA9) || (code c =? 0xAF)))
                     || ((code a =? 0xE2) && (code b =? 0x81) && (code c =? 0x9F))
                     || ((code a =? 0xE3) && (code b =? 0x80) && (code c =? 0x80))
                  then Some r3 else None
              end
        end
  end.

(** [split_whitespace]; every round takes a byte, so the length is fuel enough. *)
Definition flush (word : string) : list string := if String.eqb word EmptyString then [] else [word].
Fixpoint words (fuel : nat) (word s : string) : list string :=
  match fuel with
  | O => flush word
  | S fuel =>
      match after_ws s with
      | Some rest => flush word ++ words fuel EmptyString rest
      | None =>
          match s with
          | EmptyString => flush word
          | String a rest => words fuel (word ^^ String a EmptyString) rest
          end
      end
  end.
Definition split_whitespace (s : string) : list string := words (S (String.length s)) EmptyString s.

Fixpoint skip_ws (fuel : nat) (s : string) : string :=
  match fuel with
  | O => s
  | S fuel => match after_ws s with Some rest => skip_ws fuel rest | None => s end
  end.
Definition trim_start (s : string) : string := skip_ws (String.length s) s.
Fixpoint trim_end (s : string) : string :=
  match s with
  | EmptyString => EmptyString
  | String a r => if String.eqb (trim_start s) EmptyString then EmptyString else String a (trim_end r)
  end.
Definition trim (s : string) : string := trim_end (trim_start s).

(** [str::from_utf8]: the well-formed sequences. *)
Definition cont (lo hi : Z) (c : ascii) : bool := (lo <=? code c) && (code c <=? hi).
Fixpoint is_utf8 (s : string) : bool :=
  match s with
  | EmptyString => true
  | String a r =>
      let n := code a in
      if n <? 0x80 then is_utf8 r
      else
        match r with
        | EmptyString => false
        | String b r2 =>
            if (0xC2 <=? n) && (n <=? 0xDF) then cont 0x80 0xBF b && is_utf8 r2
            else
              match r2 with
              | EmptyString => false
              | String c r3 =>
                  if (0xE0 <=? n) && (n <=? 0xEF) then
                    cont (if n =? 0xE0 then 0xA0 else 0x80) (if n =? 0xED then 0x9F else 0xBF) b
                    && cont 0x80 0xBF c && is_utf8 r3
                  else
                    match r3 with
                    | EmptyString => false
                    | String d r4 =>
                        (0xF0 <=? n) && (n <=? 0xF4)
                        && cont (if n =? 0xF0 then 0x90 else 0x80) (if n =? 0xF4 then 0x8F else 0xBF) b
                        && cont 0x80 0xBF c && cont 0x80 0xBF d && is_utf8 r4
                    end
              end
        end
  end.

(** [parse::<i64>] and the [Display] of an [i64]. *)
Definition parse_i64 (s : string) : option Z :=
  match s with
  | EmptyString => None
  | String c r =>
      if Ascii.eqb c "-" then
        if String.eqb r EmptyString then None
        else match digits (- i64_min) 0 r with Some n => Some (- n) | None => None end
      else parse_uint i64_max s
  end.
Definition show_i64 (n : Z) : string := if n <? 0 then String "-" (show (- n)) else show n.

(** [split("\r\n")] and the position of the blank line. *)
Fixpoint split_crlf (s : string) : list string :=
  match s with
  | EmptyString => [EmptyString]
  | String a r =>
      match a, r with
      | "013"%char, String "010" r' => EmptyString :: split_crlf r'
      | _, _ =>
          match split_crlf r with
          | [] => [String a EmptyString]
          | l :: ls => String a l :: ls
          end
      end
  end.
Fixpoint before_blank (s : string) : option string :=
  if starts_with (CRLF ^^ CRLF) s then Some EmptyString
  else match s with EmptyString => None | String a r => String a <$> before_blank r end.

(** ** HMAC authorization *)

Section gate.
Context {SG : Signing} {HP : HttpParsers}.

Definition AUTH_SCHEME : string := "HMAC-SHA256".
Definition CANONICAL_PREFIX : string := "rtpbridge-auth-v1".
Definition MAX_FUTURE_SKEW_SECS : Z := 5.
Definition MIN_SECRET_BYTES : Z := 32.

Record HmacAuthenticator := mkAuth { secret : bytes; max_age_secs : Z }.

(** [None] for the errors. *)
Definition new (secret : bytes) (max_age_secs : Z) : option HmacAuthenticator :=
  if len secret <? MIN_SECRET_BYTES then None
  else if max_age_secs =? 0 then None
  else Some (mkAuth secret max_age_secs).

(** A secret file's trailing line ends are dropped. *)
Definition line_end (b : Z) : bool := (b =? 10) || (b =? 13).
Fixpoint drop_while (p : Z -> bool) (l : bytes) : bytes :=
  match l with [] => [] | b :: l' => if p b then drop_while p l' else l end.
Definition from_secret_file (contents : bytes) (max_age_secs : Z) : option HmacAuthenticator :=
  new (rev (drop_while line_end (rev contents))) max_age_secs.

Definition canonical_request (timestamp : Z) (method target : string) : string :=
  CANONICAL_PREFIX ^^ String LF (show_i64 timestamp ^^ String LF (method ^^ String LF target)).

Definition sat_i64 (x : Z) : Z := Z.max i64_min (Z.min x i64_max).
(** [self.max_age_secs as i64]. *)
Definition as_i64 (x : Z) : Z := if x <=? i64_max then x else x - 2 ^ 64.

Definition authorize_at (a : HmacAuthenticator) (authorization : option string)
    (method target : string) (now_epoch_secs : Z) : bool :=
  match authorization with
  | None => false
  | Some authorization =>
      match strip_prefix (AUTH_SCHEME ^^ " ") authorization with
      | None => false
      | Some encoded =>
          match split_once ":" encoded with
          | None => false
          | Some (timestamp, encoded_signature) =>
              if negb (all (isnt ":") encoded_signature) then false
              else
                match parse_i64 timestamp with
                | None => false
                | Some timestamp =>
                    if (sat_i64 (now_epoch_secs + MAX_FUTURE_SKEW_SECS) <? timestamp)
                       || (as_i64 (max_age_secs a) <? sat_i64 (now_epoch_secs - timestamp))
                    then false
                    else
                      match base64url_decode encoded_signature with
                      | None => false
                      | Some signature =>
                          bool_decide (signature = hmac_sha256 (secret a)
                            (bytes_of (canonical_request timestamp method target)))
                      end
                end
          end
      end
  end.

(** [None] for a clock before 1970. *)
Definition authorize (a : HmacAuthenticator) (authorization : option string)
    (method target : string) (clock : option Z) : bool :=
  match clock with Some now => authorize_at a authorization method target now | None => false end.

(** ** The request head *)

Record RequestHead := mkHead {
  method : string;
  target : string;
  authorization : option string;
  host : option string;
  has_origin : bool;
  is_websocket_upgrade : bool;
}.

(** The header lines; a line without a colon and a repeated Authorization or
    Host make the head invalid. *)
Fixpoint read_headers (h : RequestHead) (ls : list string) : option RequestHead :=
  match ls with
  | [] => Some h
  | l :: ls =>
      match split_once ":" l with
      | None => None
      | Some (name, value) =>
          if eq_ignore_ascii_case name "authorization" then
            match authorization h with
            | Some _ => None
            | None => read_headers (h {{ authorization := Some (trim value) }}) ls
            end
          else if eq_ignore_ascii_case name "host" then
            match host h with
            | Some _ => None
            | None => read_headers (h {{ host := Some (trim value) }}) ls
            end
          else if eq_ignore_ascii_case name "origin" then read_headers (h {{ has_origin := true }}) ls
          else if eq_ignore_ascii_case name "upgrade" && eq_ignore_ascii_case (trim value) "websocket"
          then read_headers (h {{ is_websocket_upgrade := true }}) ls
          else read_headers h ls
      end
  end.

Definition parse_request_head (data : string) : option RequestHead :=
  match before_blank data with
  | None => None
  | Some header =>
      if is_utf8 header then
        match split_crlf header with
        | [] => None
        | request_line :: ls =>
            match split_whitespace request_line with
            | [m; t; v] =>
                if String.eqb v "HTTP/1.1" then read_headers (mkHead m t None None false false) ls else None
            | _ => None
            end
        end
      else None
  end.

(** [split('?').next()]. *)
Definition path_of (target : string) : string :=
  match split_once "?" target with Some (p, _) => p | None => target end.

Definition AUDIO_PATH_PREFIX : string := "/audio/".
Definition classify_audio_path (path : string) : option (option Z) :=
  match strip_prefix AUDIO_PATH_PREFIX (path_of path) with
  | None => None
  | Some rest => Some (parse_uuid rest)
  end.

Definition request_requires_hmac (target : string) : bool :=
  negb (String.eqb (path_of target) "/health" || String.eqb (path_of target) "/metrics").

Definition is_authorized (authenticator : option HmacAuthenticator) (authorization : option string)
    (method target : string) (clock : option Z) : bool :=
  match authenticator with
  | None => true
  | Some a => authorize a authorization method target clock
  end.

Fixpoint trim_start_matches (c : ascii) (s : string) : string :=
  match s with String a r => if Ascii.eqb a c then trim_start_matches c r else s | EmptyString => s end.
Fixpoint trim_end_matches (c : ascii) (s : string) : string :=
  match s with
  | EmptyString => EmptyString
  | String a r =>
      match trim_end_matches c r with
      | EmptyString => if Ascii.eqb a c then EmptyString else String a EmptyString
      | r => String a r
      end
  end.

(** [Ipv4Addr::is_loopback] and [Ipv6Addr::is_loopback]. *)
Definition is_loopback (a : IpAddr) : bool :=
  match a with V4 a => a / 2 ^ 24 =? 127 | V6 a => a =? 1 end.

Definition is_loopback_host (host : option string) : bool :=
  match host with
  | None => false
  | Some h =>
      match parse_authority h with
      | None => false
      | Some (whole, host) =>
          match strip_prefix host whole with
          | None => false
          | Some suffix =>
              (String.eqb suffix EmptyString
               || match strip_prefix ":" suffix with
                  | Some port => bool_decide (is_Some (parse_uint u16_max port))
                  | None => false
                  end)
              && (eq_ignore_ascii_case host "localhost" || eq_ignore_ascii_case host "localhost."
                  || match parse_ip (trim_end_matches "]" (trim_start_matches "[" host)) with
                     | Some ip => is_loopback (to_canonical ip)
                     | None => false
                     end)
          end
      end
  end.

(** ** What becomes of a connection *)

Inductive admission :=
| Invalid
| Forbidden
| Unauthorized
| RecordingDownload (path : string)
| HttpRequest (method target : string)
| AudioConnection (token : option Z)
| ControlConnection.

Definition handle_incoming (authenticator : option HmacAuthenticator) (peer : IpAddr)
    (clock : option Z) (prefetched : string) : admission :=
  match parse_request_head prefetched with
  | None => Invalid
  | Some r =>
      let audio := classify_audio_path (target r) in
      let privileged :=
        if is_websocket_upgrade r then bool_decide (audio = None) else request_requires_hmac (target r) in
      if privileged && bool_decide (authenticator = None)
         && (has_origin r || (is_loopback (to_canonical peer) && negb (is_loopback_host (host r))))
      then Forbidden
      else if negb (is_websocket_upgrade r) then
        if request_requires_hmac (target r)
           && negb (is_authorized authenticator (authorization r) (method r) (target r) clock)
        then Unauthorized
        else
          let path_only := path_of (target r) in
          if String.eqb (method r) "GET" && starts_with "/recordings/" path_only
             && negb (String.eqb path_only "/recordings/")
          then RecordingDownload path_only
          else HttpRequest (method r) (target r)
      else
        match audio with
        | Some token => AudioConnection token
        | None =>
            if is_authorized authenticator (authorization r) (method r) (target r) clock
            then ControlConnection else Unauthorized
        end
  end.

(** The dispatch of an HTTP request. *)
Inductive http_answer :=
| HealthOk | MetricsText | RecordingRequest | MethodNotAllowed
| SessionList | SessionDetails (id : Z) | BadSessionId | NotFound.

Definition handle_http_request (method path : string) : http_answer :=
  let path_only := path_of path in
  if String.eqb path_only "/health" && String.eqb method "GET" then HealthOk
  else if String.eqb path_only "/metrics" && String.eqb method "GET" then MetricsText
  else if String.eqb path_only "/recordings" || starts_with "/recordings/" path_only then RecordingRequest
  else if negb (String.eqb method "GET") then MethodNotAllowed
  else if String.eqb path_only "/sessions" then SessionList
  else
    match strip_prefix "/sessions/" path_only with
    | Some id => match parse_uuid id with Some id => SessionDetails id | None => BadSessionId end
    | None => NotFound
    end.

(** ** Text lemmas *)

Lemma strip_prefix_sound p : forall s r, strip_prefix p s = Some r -> s = p ^^ r.
Proof.
  induction p as [| a p IH]; intros s r; cbn; [by intros [= ->] |].
  destruct s as [| b s]; [done |]. destruct (Ascii.eqb_spec a b) as [-> | _]; [| done].
  intros H. f_equal. by apply IH.
Qed.

Lemma split_once_sound c : forall s a b, split_once c s = Some (a, b) -> s = a ^^ String c b.
Proof.
  induction s as [| x s IH]; intros a b; cbn; [done |].
  destruct (Ascii.eqb_spec x c) as [-> | _]; [by intros [= <- <-] |].
  destruct (split_once c s) as [[a' b'] |]; [| done]. intros [= <- <-]. cbn. f_equal. by apply IH.
Qed.

Lemma show_head n : 0 <= n -> exists c s, show n = String c s /\ is_digit c = true.
Proof.
  intros Hn. pose proof (show_nonempty n) as Hne. pose proof (show_digits n Hn) as Hd.
  destruct (show n) as [| c s]; [done |]. cbn in Hd. apply andb_true_iff in Hd as [Hc _]. by exists c, s.
Qed.

Lemma digit_not (c d : ascii) : is_digit c = true -> is_digit d = false -> Ascii.eqb c d = false.
Proof. intros Hc Hd. destruct (Ascii.eqb_spec c d) as [-> | ]; congruence. Qed.

Lemma digits_show_full max n : 0 <= n <= max -> max <= u64_max -> digits max 0 (show n) = Some n.
Proof.
  intros Hn Hm. pose proof (parse_show max n Hn Hm) as P. destruct (show_head n) as (c & s & E & Hc); [lia |].
  rewrite E in *. cbn in P. by rewrite (digit_not c "+" Hc) in P.
Qed.

Lemma parse_show_i64 n : i64_min <= n <= i64_max -> parse_i64 (show_i64 n) = Some n.
Proof.
  intros Hn. unfold show_i64. destruct (Z.ltb_spec n 0) as [Hneg | Hpos].
  - cbn [parse_i64 Ascii.eqb Bool.eqb]. destruct (show_head (- n)) as (c & s & E & _); [lia |].
    pose proof (digits_show_full (- i64_min) (- n)) as D.
    rewrite E in *. cbn [String.eqb]. rewrite D; [f_equal; lia | mlia | mlia].
  - pose proof (parse_show i64_max n) as P. destruct (show_head n Hpos) as (c & s & E & Hc). rewrite E in *.
    cbn [parse_i64]. rewrite (digit_not c "-" Hc) by done. apply P; mlia.
Qed.

Lemma show_i64_isnt c n : i64_min <= n -> is_digit c = false -> c <> "-"%char -> all (isnt c) (show_i64 n) = true.
Proof.
  intros Hn Hc Hm. unfold show_i64. destruct (Z.ltb_spec n 0); [| by apply show_isnt].
  cbn. rewrite show_isnt by (done || lia). rewrite andb_true_r. unfold isnt.
  destruct (Ascii.eqb_spec "-" c); [congruence | done].
Qed.

(** A signature covers one timestamp, one method and one target. *)
Lemma canonical_injective ts m t ts' m' t' :
  i64_min <= ts <= i64_max -> i64_min <= ts' <= i64_max ->
  all (isnt LF) m = true -> all (isnt LF) m' = true ->
  canonical_request ts m t = canonical_request ts' m' t' -> ts = ts' /\ m = m' /\ t = t'.
Proof.
  intros Hts Hts' Hm Hm' E. unfold canonical_request in E.
  apply (f_equal (strip_prefix CANONICAL_PREFIX)) in E. rewrite !strip_prefix_app in E. injection E as E.
  apply (f_equal (split_once LF)) in E. rewrite !split_once_app in E by (by apply show_i64_isnt; [lia | ..]).
  injection E as E1 E2. apply (f_equal (split_once LF)) in E2. rewrite !split_once_app in E2 by done.
  injection E2 as -> ->. apply (f_equal parse_i64) in E1. rewrite !parse_show_i64 in E1 by done.
  by injection E1 as ->.
Qed.

(** ** The gate *)

(** The two comparisons, saturated, are the window. *)
Definition window (a : HmacAuthenticator) (now ts : Z) : Prop :=
  now - max_age_secs a <= ts <= now + MAX_FUTURE_SKEW_SECS.

(** A request carries a signature made with the secret for its own method and
    target, not older than the maximum age and not from the future. *)
Definition signed (a : HmacAuthenticator) (now : Z) (authorization : option string) (m t : string) : Prop :=
  exists text enc ts, authorization = Some (AUTH_SCHEME ^^ " " ^^ text ^^ String ":" enc) /\
    parse_i64 text = Some ts /\ window a now ts /\
    base64url_decode enc = Some (hmac_sha256 (secret a) (bytes_of (canonical_request ts m t))).

Lemma window_spec a now ts : 0 <= now <= i64_max -> i64_min <= ts <= i64_max -> 0 <= max_age_secs a < i64_max ->
  (sat_i64 (now + MAX_FUTURE_SKEW_SECS) <? ts) || (as_i64 (max_age_secs a) <? sat_i64 (now - ts))
  = negb (bool_decide (window a now ts)).
Proof.
  unfold window, as_i64, sat_i64, MAX_FUTURE_SKEW_SECS, i64_max, i64_min. intros Hnow Hts Hage.
  rewrite (proj2 (Z.leb_le _ _)) by lia. case_bool_decide; cbn [negb].
  - apply orb_false_iff. split; apply Z.ltb_ge; lia.
  - apply orb_true_iff. rewrite !Z.ltb_lt. lia.
Qed.

Lemma parse_i64_range s n : parse_i64 s = Some n -> i64_min <= n <= i64_max.
Proof.
  assert (bounded : forall max s acc k, 0 <= acc <= max -> digits max acc s = Some k -> 0 <= k <= max).
  { intros max. induction s0 as [| c s0 IH]; intros acc k Ha; cbn [digits]; [by intros [= <-] |].
    unfold is_digit. destruct (_ && _) eqn:E; [| done]. apply andb_true_iff in E as [E1 E2]. bool_prop.
    destruct (Z.leb_spec (acc * 10 + (code c - 48)) max); [| done]. apply IH. lia. }
  unfold parse_i64, parse_uint. destruct s as [| c r]; [done |]. destruct (Ascii.eqb c "-").
  - destruct (String.eqb r _); [done |]. destruct (digits _ 0 r) as [k |] eqn:E; [| done].
    intros [= <-]. apply bounded in E; unfold i64_min, i64_max in *; lia.
  - destruct (Ascii.eqb c "+"); [destruct (String.eqb r _); [done |] |];
      intros E; apply bounded in E; unfold i64_min, i64_max in *; lia.
Qed.

Lemma authorize_sound a auth m t now :
  0 <= now <= i64_max -> 0 <= max_age_secs a < i64_max ->
  authorize_at a auth m t now = true -> signed a now auth m t.
Proof.
  intros Hnow Hage. unfold authorize_at. destruct auth as [auth |]; [| done].
  destruct (strip_prefix _ auth) as [encoded |] eqn:E1; [| done].
  destruct (split_once ":" encoded) as [[text enc] |] eqn:E2; [| done].
  destruct (negb _); [done |]. destruct (parse_i64 text) as [ts |] eqn:E3; [| done].
  rewrite window_spec by (done || by eapply parse_i64_range).
  case_bool_decide as E4; cbn [negb]; [| done]. destruct (base64url_decode enc) as [sig |] eqn:E5; [| done].
  intros E6%bool_decide_eq_true.
  apply strip_prefix_sound in E1. apply split_once_sound in E2. rewrite E1, E2.
  exists text, enc, ts. split; [f_equal; apply (app_assoc_s AUTH_SCHEME " ") |].
  split; [exact E3 |]. split; [exact E4 |]. by rewrite E5, E6.
Qed.

(** What a client that holds the secret sends. *)
Definition sign (a : HmacAuthenticator) (timestamp : Z) (m t : string) : string :=
  AUTH_SCHEME ^^ " " ^^ show_i64 timestamp ^^ String ":"
    (base64url_encode (hmac_sha256 (secret a) (bytes_of (canonical_request timestamp m t)))).

Lemma authorize_sign a ts m t m' t' now :
  i64_min <= ts <= i64_max -> 0 <= now <= i64_max -> 0 <= max_age_secs a < i64_max ->
  authorize_at a (Some (sign a ts m t)) m' t' now
  = bool_decide (window a now ts) &&
    bool_decide (hmac_sha256 (secret a) (bytes_of (canonical_request ts m t))
                 = hmac_sha256 (secret a) (bytes_of (canonical_request ts m' t'))).
Proof.
  intros Hts Hnow Hage. unfold authorize_at, sign.
  set (tag := hmac_sha256 (secret a) (bytes_of (canonical_request ts m t))).
  rewrite <- (app_assoc_s AUTH_SCHEME " "), strip_prefix_app.
  rewrite split_once_app by (apply show_i64_isnt; [lia | done | done]).
  rewrite base64url_no_colon. cbn [negb]. rewrite parse_show_i64 by done.
  rewrite base64url_roundtrip by apply hmac_bytes.
  rewrite window_spec by done. by destruct (bool_decide (window a now ts)).
Qed.

Lemma words_no_ws fuel : forall word s w, all no_ws word = true -> In w (words fuel word s) -> all no_ws w = true.
Proof.
  assert (flushed : forall word w, all no_ws word = true -> In w (flush word) -> all no_ws w = true).
  { intros word w Hw. unfold flush. destruct (String.eqb word EmptyString); [done |]. by intros [<- |]. }
  induction fuel as [| fuel IH]; intros word s w Hw; cbn [words]; [by apply flushed |].
  destruct (after_ws s) as [rest |] eqn:E.
  - intros [Hin | Hin]%in_app_or; [by eapply flushed | by eapply IH in Hin].
  - destruct s as [| x rest]; [by apply flushed |]. apply IH. rewrite all_app, Hw. cbn. rewrite andb_true_r.
    unfold after_ws in E. unfold no_ws. destruct (is_ws x); [done | done].
Qed.

Lemma no_ws_no_lf s : all no_ws s = true -> all (isnt LF) s = true.
Proof.
  apply all_impl. intros c. unfold no_ws, isnt. destruct (Ascii.eqb_spec c LF) as [-> | _]; [| done]. by vm_compute.
Qed.

Lemma read_headers_line h ls r : read_headers h ls = Some r -> method r = method h /\ target r = target h.
Proof.
  revert h. induction ls as [| l ls IH]; intros h; cbn; [by intros [= ->] |].
  destruct (split_once ":" l) as [[n v] |]; [| done].
  repeat (case_match; try done); intros Hr%IH; by destruct h.
Qed.

(** The method and the target of a head hold no white space. *)
Lemma head_words data r : parse_request_head data = Some r ->
  all (isnt LF) (method r) = true /\ all (isnt LF) (target r) = true.
Proof.
  unfold parse_request_head. destruct (before_blank data) as [header |]; [| done].
  destruct (is_utf8 header); [| done]. destruct (split_crlf header) as [| line ls]; [done |].
  destruct (split_whitespace line) as [| m [| t [| v [|]]]] eqn:E; try done.
  destruct (String.eqb v _); [| done]. intros [-> ->]%read_headers_line. cbn.
  split; apply no_ws_no_lf; eapply (words_no_ws _ EmptyString); try done;
    unfold split_whitespace in E; rewrite E; cbn; auto.
Qed.

(** What a connection may reach, given who made it. *)
Definition guarded (authenticator : option HmacAuthenticator) (peer : IpAddr) (clock : option Z)
    (data : string) : Prop :=
  exists r, parse_request_head data = Some r /\
    match authenticator with
    | Some a => exists now, clock = Some now /\ signed a now (authorization r) (method r) (target r)
    | None => has_origin r = false /\
        (is_loopback (to_canonical peer) = true -> is_loopback_host (host r) = true)
    end.

Lemma is_authorized_signed auth r clock :
  (forall a, auth = Some a -> 0 <= max_age_secs a < i64_max) ->
  (forall now, clock = Some now -> 0 <= now <= i64_max) ->
  is_authorized auth (authorization r) (method r) (target r) clock = true ->
  match auth with
  | Some a => exists now, clock = Some now /\ signed a now (authorization r) (method r) (target r)
  | None => True
  end.
Proof.
  intros Ha Hn. destruct auth as [a |]; cbn; [| done]. destruct clock as [now |]; [| done]. cbn.
  intros H. exists now. split; [done |]. by apply authorize_sound; [apply Hn | apply Ha |].
Qed.

End gate.

(** C38: the control plane is behind its gate.  Whatever bytes a peer sends, a
    connection becomes a control connection, a recording download or an HTTP
    request other than for health and metrics only if its head parses and, with a
    key configured, carries a signature made with that key for exactly its own
    method and target, no older than the maximum age and no more than five seconds
    ahead; without a key, only if no browser sent it and a loopback peer named a
    loopback host.  An HTTP request that needed no signature is answered with the
    health, the metrics or a refused method. *)
Theorem control_plane_guarded `{Signing, HttpParsers} authenticator peer clock data
  (ages : forall a, authenticator = Some a -> 0 <= max_age_secs a < i64_max)
  (clocks : forall now, clock = Some now -> 0 <= now <= i64_max) :
  match handle_incoming authenticator peer clock data with
  | ControlConnection | RecordingDownload _ => guarded authenticator peer clock data
  | HttpRequest m t => guarded authenticator peer clock data \/
      In (handle_http_request m t) [HealthOk; MetricsText; MethodNotAllowed]
  | AudioConnection _ | Invalid | Forbidden | Unauthorized => True
  end.
Proof.
  unfold handle_incoming, guarded. destruct (parse_request_head data) as [r |]; [| done].
  pose proof (is_authorized_signed authenticator r clock ages clocks) as Auth.
  assert (open : forall b, b && bool_decide (authenticator = None) &&
      (has_origin r || is_loopback (to_canonical peer) && negb (is_loopback_host (host r))) = false ->
    b = true -> is_authorized authenticator (authorization r) (method r) (target r) clock = true ->
    exists r', Some r = Some r' /\ match authenticator with
      | Some a => exists now, clock = Some now /\ signed a now (authorization r') (method r') (target r')
      | None => has_origin r' = false /\ (is_loopback (to_canonical peer) = true -> is_loopback_host (host r') = true)
      end).
  { intros b E -> A. exists r. split; [done |]. destruct authenticator as [a |]; [by apply Auth |].
    cbn in E. apply orb_false_iff in E as [E1 E2]. split; [done |]. intros L. rewrite L in E2. cbn in E2.
    by apply negb_false_iff in E2. }
  destruct (is_websocket_upgrade r) eqn:U.
  - destruct (classify_audio_path (target r)) as [token |]; [by case_match |].
    rewrite (bool_decide_true (@None (option Z) = None)) by done.
    destruct (true && bool_decide (authenticator = None) && _) eqn:G; [done |]. cbn [negb].
    destruct (is_authorized _ _ _ _ _) eqn:A; [| done]. by eapply open.
  - destruct (request_requires_hmac (target r) && bool_decide (authenticator = None) && _) eqn:G; [done |]. cbn [negb].
    destruct (request_requires_hmac (target r)) eqn:Q.
    + destruct (is_authorized _ _ _ _ _) eqn:A; [| done]. cbn [negb andb].
      destruct (String.eqb (method r) "GET" && _ && _); [by eapply open | left; by eapply open].
    + cbn [andb]. unfold request_requires_hmac in Q. apply negb_false_iff, orb_true_iff in Q.
      assert (P : path_of (target r) = "/health" \/ path_of (target r) = "/metrics")
        by (destruct Q as [Q | Q]; apply String.eqb_eq in Q; auto).
      assert (starts_with "/recordings/" (path_of (target r)) = false) as -> by (by destruct P as [-> | ->]).
      rewrite andb_false_r. cbn [andb]. right. unfold handle_http_request.
      destruct P as [-> | ->]; destruct (String.eqb (method r) "GET"); cbn; auto.
Qed.

(** C39: a signature opens one request, for a while.  What a holder of the secret
    signs for a method and a target is accepted for them exactly from five seconds
    before its timestamp until the maximum age after it.  For a request with any
    method and target it is accepted exactly if, within that time, the
    authentication code of that request's canonical text equals the code of the
    canonical text that was signed; and these two texts are the same only if the
    method and the target are, so every other acceptance is a collision of the
    code on two given texts. *)
Theorem signature_covers_request `{Signing} a ts m t m' t' now
  (Hts : i64_min <= ts <= i64_max) (Hnow : 0 <= now <= i64_max) (Hage : 0 <= max_age_secs a < i64_max)
  (Hm : all (isnt LF) m = true) (Hm' : all (isnt LF) m' = true) :
  (authorize_at a (Some (sign a ts m t)) m t now = true <->
    now - max_age_secs a <= ts <= now + MAX_FUTURE_SKEW_SECS) /\
  (authorize_at a (Some (sign a ts m t)) m' t' now = true <->
    now - max_age_secs a <= ts <= now + MAX_FUTURE_SKEW_SECS /\
    hmac_sha256 (secret a) (bytes_of (canonical_request ts m' t'))
    = hmac_sha256 (secret a) (bytes_of (canonical_request ts m t))) /\
  (bytes_of (canonical_request ts m' t') = bytes_of (canonical_request ts m t) <-> m' = m /\ t' = t).
Proof.
  rewrite !authorize_sign by done. split_and!.
  - rewrite (bool_decide_true (hmac_sha256 _ _ = _)) by done. rewrite andb_true_r. apply bool_decide_eq_true.
  - rewrite andb_true_iff, !bool_decide_eq_true. split; intros [? ?]; by split.
  - split; [| by intros [-> ->]]. intros B%(f_equal of_bytes). rewrite !of_bytes_bytes in B.
    apply canonical_injective in B; [| done ..]. by destruct B as (_ & -> & ->).
Qed.

(** Letters for base64 and the length of the message for its code, to evaluate
    examples. *)
Definition letters (b : Z) : string := String (char (97 + b / 16)) (String (char (97 + b mod 16)) EmptyString).
Fixpoint letter_encode (bs : bytes) : string :=
  match bs with [] => EmptyString | b :: bs => letters b ^^ letter_encode bs end.
Fixpoint letter_decode (s : string) : option bytes :=
  match s with
  | EmptyString => Some []
  | String a (String b s) => cons ((code a - 97) * 16 + (code b - 97)) <$> letter_decode s
  | _ => None
  end.

Lemma letter_not_colon n : isnt ":" (char (97 + n mod 16)) = true.
Proof.
  assert (0 <= n mod 16 < 16) as Hn by (apply Z.mod_pos_bound; lia). revert Hn. generalize (n mod 16). intros k Hk.
  assert (k = 0 \/ k = 1 \/ k = 2 \/ k = 3 \/ k = 4 \/ k = 5 \/ k = 6 \/ k = 7 \/ k = 8 \/ k = 9 \/ k = 10
    \/ k = 11 \/ k = 12 \/ k = 13 \/ k = 14 \/ k = 15) as D by lia.
  intuition (subst; done).
Qed.

#[local] Instance letter_signing : Signing.
Proof.
  refine {|
    hmac_sha256 _ m := replicate 32 (Z.of_nat (length m) mod 256);
    base64url_decode := letter_decode;
    base64url_encode bs := letter_encode (map (fun b => b mod 256) bs);
  |}.
  - intros _ m. apply Forall_replicate. unfold is_u8. mlia.
  - intros b Hb. induction Hb as [| x b Hx _ IH]; [done |]. cbn in *. rewrite IH. cbn.
    unfold is_u8 in Hx. rewrite (Z.mod_small x 256), !code_char by (unfold is_u8; mlia). do 2 f_equal. mlia.
  - intros b. induction b as [| x b IH]; [done |]. cbn in *. rewrite IH, letter_not_colon, andb_true_r.
    assert (x mod 256 / 16 = (x mod 256 / 16) mod 16) as -> by mlia. apply letter_not_colon.
Defined.

#[local] Instance no_parsers : HttpParsers := {| parse_uuid _ := None; parse_authority _ := None |}.

Definition example_auth : HmacAuthenticator := mkAuth (repeat 7 32) 60.
Definition example_head : string :=
  "GET /control HTTP/1.1" ^^ CRLF ^^ "Host: bridge" ^^ CRLF ^^ "Upgrade: websocket" ^^ CRLF
  ^^ "Authorization: " ^^ sign example_auth 1000 "GET" "/control" ^^ CRLF ^^ CRLF.

Lemma control_plane_guarded_witness :
  handle_incoming (Some example_auth) (V4 16909060) (Some 1030) example_head = ControlConnection /\
  guarded (Some example_auth) (V4 16909060) (Some 1030) example_head.
Proof.
  pose proof (control_plane_guarded (Some example_auth) (V4 16909060) (Some 1030) example_head) as G.
  assert (E : handle_incoming (Some example_auth) (V4 16909060) (Some 1030) example_head = ControlConnection)
    by (by vm_compute).
  rewrite E in G. split; [exact E |]. apply G.
  - intros a [= <-]. unfold i64_max. cbn. lia.
  - intros now [= <-]. unfold i64_max. lia.
Defined.

Lemma signature_covers_request_witness :
  authorize_at example_auth (Some (sign example_auth 1000 "GET" "/control")) "GET" "/control" 1060 = true /\
  authorize_at example_auth (Some (sign example_auth 1000 "GET" "/control")) "GET" "/metrics/all" 1060 = false.
Proof.
  assert (ages : 0 <= max_age_secs example_auth < i64_max) by (unfold i64_max; cbn; lia).
  destruct (signature_covers_request example_auth 1000 "GET" "/control" "GET" "/metrics/all" 1060
    ltac:(unfold i64_min, i64_max; lia) ltac:(unfold i64_max; lia) ages eq_refl eq_refl) as (A & B & _).
  split; [apply A; unfold MAX_FUTURE_SKEW_SECS; cbn; lia |].
  destruct (authorize_at _ _ _ "/metrics/all" _); [| done].
  destruct (proj1 B eq_refl) as [_ E]. by vm_compute in E.
Defined.

End Gate.
