(* ===== verification/Coders.v ===== *)
(** The audio coders ([media/codec.rs]): decoders and encoders of the four
    codecs behind the [AudioDecoder] and [AudioEncoder] traits, and the factories
    that build them.  The mu-law tables, libg722 and libopus are an interface;
    the encoders built here are what the mixer's interface asks for. *)

From stdpp Require Import list.
From S2P Require Import Prelude Media Sdp Mixer.
#[local] Open Scope Z_scope.
Import Codec.

Inductive Bandwidth := Narrowband | Mediumband | Wideband | Superwideband | Fullband.
#[global] Instance Bandwidth_eq_dec : EqDecision Bandwidth.
Proof. solve_decision. Defined.

(** The third-party coders.  Mu-law maps a byte to a sample and back without
    state; libg722 at 64 kbit/s decodes a byte to two 16 kHz samples; libopus
    writes at most the samples and bytes of the buffer it is given. *)
Class CodecLibs := {
  ulaw_decode : Z -> Z;
  ulaw_encode : Z -> Z;
  G722Dec : Type;
  g722_decoder : G722Dec;
  g722_decode : G722Dec -> bytes -> G722Dec * list Z;
  G722Enc : Type;
  g722_encoder : G722Enc;
  g722_encode : G722Enc -> list Z -> G722Enc * bytes;
  OpusDec : Type;
  opus_decoder : option OpusDec;
  opus_decode : OpusDec -> bytes -> Z -> OpusDec * option (list Z);
  OpusEnc : Type;
  opus_encoder : option OpusEnc;
  opus_set_bitrate : OpusEnc -> Z -> option OpusEnc;
  opus_set_vbr : OpusEnc -> bool -> option OpusEnc;
  opus_set_max_bandwidth : OpusEnc -> Bandwidth -> option OpusEnc;
  opus_encode : OpusEnc -> list Z -> Z -> OpusEnc * option bytes;
  ulaw_decode_i16 : forall b, is_i16 (ulaw_decode b);
  ulaw_encode_u8 : forall s, is_u8 (ulaw_encode s);
  g722_decode_pcm : forall d b, length (g722_decode d b).2 = (2 * length b)%nat /\ Forall is_i16 (g722_decode d b).2;
  g722_encode_bytes : forall e pcm, are_bytes (g722_encode e pcm).2;
  opus_decode_pcm : forall d b cap pcm, (opus_decode d b cap).2 = Some pcm ->
    len pcm <= cap /\ Forall is_i16 pcm;
  opus_encode_bytes : forall e pcm cap b, (opus_encode e pcm cap).2 = Some b ->
    len b <= cap /\ are_bytes b;
}.

#[global] Instance OpusProfile_eq_dec : EqDecision Sdp.OpusProfile.
Proof. solve_decision. Defined.

Module Coders.
Section coders.
Context {CL : CodecLibs}.

(** ** Decoders *)

Inductive AudioDecoder :=
| PcmuDecoder
| G722Decoder (decoder : G722Dec)
| OpusDecoder (decoder : OpusDec)
| L16Decoder (sample_rate : Z).

Definition decoder_codec (d : AudioDecoder) : AudioCodec :=
  match d with
  | PcmuDecoder => Pcmu
  | G722Decoder _ => G722
  | OpusDecoder _ => Opus
  | L16Decoder r => L16 r
  end.

Definition make_decoder (c : AudioCodec) : option AudioDecoder :=
  match c with
  | Pcmu => Some PcmuDecoder
  | G722 => Some (G722Decoder g722_decoder)
  | Opus => OpusDecoder <$> opus_decoder
  | L16 r => Some (L16Decoder r)
  end.

(** 120 ms at 48 kHz: the buffer libopus decodes into. *)
Definition opus_max_frame : Z := 5760.

(** The three stateless or library-backed bodies; L16 is [Codec.l16_decode]. *)
Definition pcmu_decode (encoded : bytes) : list Z := ulaw_decode <$> encoded.
Definition g722_decoder_decode (g : G722Dec) (encoded : bytes) : AudioDecoder * option (list Z) :=
  let '(g, samples) := g722_decode g encoded in (G722Decoder g, Some samples).
Definition opus_decoder_decode (o : OpusDec) (encoded : bytes) : AudioDecoder * option (list Z) :=
  let '(o, decoded) := opus_decode o encoded opus_max_frame in (OpusDecoder o, decoded).

Definition decode (d : AudioDecoder) (encoded : bytes) : AudioDecoder * option (list Z) :=
  match d with
  | PcmuDecoder => (d, Some (pcmu_decode encoded))
  | G722Decoder g => g722_decoder_decode g encoded
  | OpusDecoder o => opus_decoder_decode o encoded
  | L16Decoder _ => (d, Some (l16_decode encoded))
  end.

Lemma make_decoder_codec c d : make_decoder c = Some d -> decoder_codec d = c.
Proof. destruct c; cbn; try by intros [= <-]. by destruct opus_decoder; intros [= <-]. Qed.

Lemma decode_codec d b : decoder_codec (decode d b).1 = decoder_codec d.
Proof.
  destruct d as [| g | o | r]; cbn; [done | | | done]; unfold g722_decoder_decode, opus_decoder_decode;
    [by destruct g722_decode | by destruct opus_decode].
Qed.

(** What is decoded takes a whole number of RTP clock ticks: libg722's two
    samples per byte are one tick of G.722's 8 kHz clock. *)
Lemma decode_ticks d b pcm :
  0 < sample_rate (decoder_codec d) -> (decode d b).2 = Some pcm ->
  (len pcm * rtp_clock_rate (decoder_codec d)) mod sample_rate (decoder_codec d) = 0.
Proof.
  destruct d as [| g | o | r]; cbn; unfold g722_decoder_decode; intros Hr.
  - intros _. apply Z_mod_mult.
  - pose proof (g722_decode_pcm g b) as [L _]. destruct (g722_decode g b) as [g' p]. cbn in *.
    intros [= <-]. unfold len. rewrite L. replace (_ * 8000) with (Z.of_nat (length b) * 16000) by lia.
    apply Z_mod_mult.
  - intros _. apply Z_mod_mult.
  - intros _. apply Z_mod_mult.
Qed.

(** ** Encoders *)

Inductive Encoder :=
| PcmuEncoder
| G722Encoder (encoder : G722Enc)
| OpusEncoder (encoder : OpusEnc) (profile : Sdp.OpusProfile)
| L16Encoder (sample_rate : Z).

Definition encoder_codec (e : Encoder) : AudioCodec :=
  match e with
  | PcmuEncoder => Pcmu
  | G722Encoder _ => G722
  | OpusEncoder _ _ => Opus
  | L16Encoder r => L16 r
  end.

(** [opus_profile]: the trait's default, but for Opus. *)
Definition encoder_opus_profile (e : Encoder) : Sdp.OpusProfile :=
  match e with OpusEncoder _ p => p | _ => Sdp.default_profile end.

Definition opus_new : option Encoder :=
  e ← opus_encoder;
  e ← opus_set_bitrate e 24000;
  Some (OpusEncoder e Sdp.default_profile).

Definition bandwidth_of (playback_rate : Z) : Bandwidth :=
  if playback_rate <=? 11999 then Narrowband
  else if playback_rate <=? 15999 then Mediumband
  else if playback_rate <=? 23999 then Wideband
  else if playback_rate <=? 47999 then Superwideband
  else Fullband.

Definition opus_with_profile (profile : Sdp.OpusProfile) : option Encoder :=
  e ← opus_encoder;
  e ← opus_set_bitrate e 24000;
  e ← (if Sdp.bitrate profile <? 24000
       then e ← opus_set_bitrate e (Sdp.bitrate profile); opus_set_vbr e false
       else Some e);
  e ← (if Sdp.playback_rate profile <? 48000
       then opus_set_max_bandwidth e (bandwidth_of (Sdp.playback_rate profile))
       else Some e);
  Some (OpusEncoder e profile).

Definition make_encoder (c : AudioCodec) : option Encoder :=
  match c with
  | Pcmu => Some PcmuEncoder
  | G722 => Some (G722Encoder g722_encoder)
  | Opus => opus_new
  | L16 r => Some (L16Encoder r)
  end.

Definition make_encoder_with_profile (c : AudioCodec) (profile : Sdp.OpusProfile) : option Encoder :=
  if bool_decide (c = Opus) then opus_with_profile profile else make_encoder c.

(** The largest Opus packet asked for. *)
Definition opus_max_packet : Z := 4000.

Definition pcmu_encode (pcm_in : list Z) : bytes := ulaw_encode <$> pcm_in.
Definition g722_encoder_encode (g : G722Enc) (pcm_in : list Z) : Encoder * option bytes :=
  let '(g, encoded) := g722_encode g pcm_in in (G722Encoder g, Some encoded).
Definition opus_encoder_encode (o : OpusEnc) (p : Sdp.OpusProfile) (pcm_in : list Z) : Encoder * option bytes :=
  let '(o, encoded) := opus_encode o pcm_in opus_max_packet in (OpusEncoder o p, encoded).

Definition encode (e : Encoder) (pcm_in : list Z) : Encoder * option bytes :=
  match e with
  | PcmuEncoder => (e, Some (pcmu_encode pcm_in))
  | G722Encoder g => g722_encoder_encode g pcm_in
  | OpusEncoder o p => opus_encoder_encode o p pcm_in
  | L16Encoder _ => (e, Some (l16_encode pcm_in))
  end.

Lemma make_encoder_codec c p e : make_encoder_with_profile c p = Some e -> encoder_codec e = c.
Proof.
  unfold make_encoder_with_profile. destruct c; cbn; try by intros [= <-].
  unfold opus_with_profile. intros (? & _ & (? & _ & (? & _ & (? & _ & [= <-])%bind_Some)%bind_Some)%bind_Some)%bind_Some.
  done.
Qed.

Lemma encode_codec e pcm : encoder_codec (encode e pcm).1 = encoder_codec e.
Proof.
  destruct e as [| g | o p | r]; cbn; [done | | | done]; unfold g722_encoder_encode, opus_encoder_encode;
    [by destruct g722_encode | by destruct opus_encode].
Qed.

Lemma encode_bytes e pcm b : (encode e pcm).2 = Some b -> are_bytes b.
Proof.
  destruct e as [| g | o p | r]; cbn; unfold g722_encoder_encode, opus_encoder_encode.
  - intros [= <-]. apply Forall_fmap, Forall_true. intros. apply ulaw_encode_u8.
  - pose proof (g722_encode_bytes g pcm). destruct g722_encode. by intros [= <-].
  - pose proof (opus_encode_bytes o pcm opus_max_packet) as H. destruct opus_encode as [o' b'].
    cbn in *. intros ->. by apply H.
  - intros [= <-]. apply l16_encode_bytes.
Qed.

(** The encoders are what the mixer asks of [AudioEncoder]. *)
#[export] Instance coders_encoder : AudioEncoder := {|
  Mixer.Encoder := Encoder;
  Mixer.OpusProfile := Sdp.OpusProfile;
  Mixer.make_encoder := make_encoder_with_profile;
  Mixer.encode := encode;
  Mixer.encoder_profile := encoder_opus_profile;
  Mixer.profile_eqb p q := bool_decide (p = q);
|}.

End coders.
End Coders.
