(* ===== verification/Transcode.v ===== *)
(** The transcoding path: the decoder and the resamplers of a source
    ([session/source_audio.rs]), the per-source decoder cache
    ([session/audio_analysis.rs]), the encoder of a destination
    ([media/transcode.rs]), and the branch of the routing loop that turns a
    packet of one codec into packets of another
    ([session/media_session.rs], [poll_and_route]). *)

From stdpp Require Import gmap list.
From S2P Require Import Prelude Media Sdp Mixer Resample Coders.
#[local] Open Scope Z_scope.
Import Codec.

Module SourceAudio.
Section source.
Context {CL : CodecLibs}.

(** [epoch]: SSRC, last sequence number, expected timestamp. *)
Record t := mk {
  decoder : Coders.AudioDecoder;
  epoch : option (Z * Z * Z);
  framer : PcmFrames.t;
  timestamp : Z;
  marker : bool;
  resamplers : gmap Z Resampler.t;
}.

Record PcmFrame := mkFrame {
  f_timestamp : Z;
  f_marker : bool;
  f_rates : gmap Z (list Z);
}.

Definition codec (s : t) : AudioCodec := Coders.decoder_codec (decoder s).

Definition from_decoder (d : Coders.AudioDecoder) : t :=
  mk d None (PcmFrames.new (sample_rate (Coders.decoder_codec d))) 0 true ∅.

Definition new (c : AudioCodec) : option t := from_decoder <$> Coders.make_decoder c.

Definition max_payload : Z := 16 * 1024.

Definition discontinuity (s : t) (p : RoutedRtpPacket) : bool :=
  match epoch s with
  | None => false
  | Some (ssrc, seq, ts) =>
      negb (ssrc =? Media.ssrc p) || negb (wrap16 (seq + 1) =? sequence_number p)
      || negb (ts =? Media.timestamp p)
  end.

(** [pcm.len() as u64 * clock / rate], as [u32]. *)
Definition duration (c : AudioCodec) (pcm : list Z) : outcome Z :=
  if sample_rate c =? 0 then Panic
  else Val (wrap32 (wrap64 (len pcm * rtp_clock_rate c) / sample_rate c)).

(** Decoding a packet; [None] for the errors.  A packet that does not continue
    the stream starts it over with a new decoder. *)
Definition restart (s : t) (p : RoutedRtpPacket) : option t :=
  if discontinuity s p then
    d ← Coders.make_decoder (codec s);
    Some (s {{ decoder := d }} {{ framer := PcmFrames.clear (framer s) }} {{ resamplers := ∅ }})
  else Some s.

Definition stamp (s : t) (p : RoutedRtpPacket) (jump : bool) : t :=
  if PcmFrames.is_empty (framer s) then
    s {{ timestamp := Media.timestamp p }}
      {{ marker := Media.marker p || jump || bool_decide (epoch s = None) }}
  else s.

Definition decode (s : t) (p : RoutedRtpPacket) : outcome (t * option (list Z)) :=
  let c := codec s in
  if max_payload <? len (payload p) then Val (s, None)
  else
    match restart s p with
    | None => Val (s, None)
    | Some s1 =>
        let s2 := stamp s1 p (discontinuity s p) in
        let '(d, decoded) := Coders.decode (decoder s2) (payload p) in
        let s3 := s2 {{ decoder := d }} in
        match decoded with
        | None => Val (s3, None)
        | Some pcm =>
            if ptime_samples c * 6 <? len pcm then Val (s3, None)
            else
              let! ticks := duration c pcm in
              Val (s3 {{ epoch := Some (Media.ssrc p, sequence_number p,
                                        wrap32 (Media.timestamp p + ticks)) }}, Some pcm)
        end
    end.

(** [entry(rate).or_insert_with(..)]. *)
Definition resampler_for (source_rate rate : Z) (rs : gmap Z Resampler.t) : outcome Resampler.t :=
  match rs !! rate with Some r => Val r | None => Resampler.new source_rate rate end.

(** One frame at every requested rate: the inner loop of [frames]. *)
Fixpoint convert (source_rate : Z) (samples : list Z) (rs : gmap Z Resampler.t)
    (converted : gmap Z (list Z)) (rates : list Z)
  : outcome (gmap Z Resampler.t * option (gmap Z (list Z))) :=
  match rates with
  | [] => Val (rs, Some converted)
  | rate :: rates =>
      if negb (existsb (Z.eqb rate) Resampler.media_rates) then Val (rs, None)
      else if (rate =? source_rate) || bool_decide (is_Some (converted !! rate)) then
        convert source_rate samples rs converted rates
      else
        let! r := resampler_for source_rate rate rs in
        let! (buffer, r) := Resampler.process r samples in
        let rs := <[rate := r]> rs in
        if len buffer =? rate / 50
        then convert source_rate samples rs (<[rate := buffer]> converted) rates
        else Val (rs, None)
  end.

(** The outer loop: every complete frame in turn. *)
Fixpoint emit (s : t) (increment : Z) (rates : list Z) (frames : list (list Z))
  : outcome (t * option (list PcmFrame)) :=
  match frames with
  | [] => Val (s, Some [])
  | samples :: frames =>
      let source_rate := sample_rate (codec s) in
      let! (rs, converted) := convert source_rate samples (resamplers s) ∅ rates in
      let s := s {{ resamplers := rs }} in
      match converted with
      | None => Val (s, None)
      | Some converted =>
          let f := mkFrame (timestamp s) (marker s) (<[source_rate := samples]> converted) in
          let s := s {{ timestamp := wrap32 (timestamp s + increment) }} {{ marker := false }} in
          let! (s, rest) := emit s increment rates frames in
          Val (s, cons f <$> rest)
      end
  end.

Definition frames (s : t) (pcm : list Z) (rates : list Z) : outcome (t * option (list PcmFrame)) :=
  let increment := rtp_clock_rate (codec s) / 50 in
  match PcmFrames.push (framer s) pcm with
  | (fr, None) => Val (s {{ framer := fr }}, None)
  | (fr, Some complete) => emit (s {{ framer := fr }}) increment rates complete
  end.

End source.
End SourceAudio.

(** ** The decoder of a source *)

Module Analysis.
Section analysis.
Context {CL : CodecLibs}.

Inductive AnalysisPcm :=
| Pcm (pcm : list Z)
| Empty
| DecoderInitFailed.

(** One decoder per source, replaced when the source changes its codec. *)
Definition decode_packet_pcm (pkt : RoutedRtpPacket) (codec : option AudioCodec)
    (decoders : gmap EndpointId SourceAudio.t)
  : outcome (gmap EndpointId SourceAudio.t * AnalysisPcm) :=
  match codec with
  | None => Val (decoders, Empty)
  | Some c =>
      let id := source_endpoint_id pkt in
      let dec := match decoders !! id with Some d => Some d | None => SourceAudio.new c end in
      match dec with
      | None => Val (decoders, DecoderInitFailed)
      | Some d =>
          let current := if bool_decide (SourceAudio.codec d = c) then Some d else SourceAudio.new c in
          match current with
          | None => Val (<[id := d]> decoders, DecoderInitFailed)
          | Some d =>
              let! (d, pcm) := SourceAudio.decode d pkt in
              Val (<[id := d]> decoders, match pcm with Some pcm => Pcm pcm | None => Empty end)
          end
      end
  end.

End analysis.
End Analysis.

Module TranscodePipeline.
Section pipeline.
Context {CL : CodecLibs}.

Record t := mk {
  decoder : option Coders.AudioDecoder;
  source : AudioCodec;
  profile : Sdp.OpusProfile;
  timeline : option (Z * Z);
  encoder : Coders.Encoder;
  resampler : option Resampler.t;
  passthrough : bool;
  framer : PcmFrames.t;
}.

Definition matches_codecs (p : t) (src destination : AudioCodec) : bool :=
  bool_decide (source p = src) && bool_decide (Coders.encoder_codec (encoder p) = destination).

Definition matches_profile (p : t) (pr : Sdp.OpusProfile) : bool :=
  negb (bool_decide (Coders.encoder_codec (encoder p) = Opus)) || bool_decide (profile p = pr).

(** [None] for a coder that cannot be made. *)
Definition new (from to : AudioCodec) : outcome (option t) :=
  let same := bool_decide (from = to) in
  match Coders.make_decoder from, Coders.make_encoder to with
  | Some d, Some e =>
      let framer := PcmFrames.new (sample_rate to) in
      if negb same && negb (sample_rate from =? sample_rate to) then
        let! r := Resampler.new (sample_rate from) (sample_rate to) in
        Val (Some (mk (Some d) from Sdp.default_profile None e (Some r) same framer))
      else Val (Some (mk (Some d) from Sdp.default_profile None e None same framer))
  | _, _ => Val None
  end.

Definition for_pcm_with_profile (from to : AudioCodec) (pr : Sdp.OpusProfile) : option t :=
  e ← Coders.make_encoder_with_profile to pr;
  Some (mk None from pr None e None false (PcmFrames.new (sample_rate to))).

(** The decoding and resampling both [process] functions start with. *)
Definition to_pcm (p : t) (input : bytes) : outcome (t * option (list Z)) :=
  match decoder p with
  | None => Val (p, None)
  | Some d =>
      let '(d, pcm) := Coders.decode d input in
      let p := p {{ decoder := Some d }} in
      match pcm, resampler p with
      | None, _ => Val (p, None)
      | Some pcm, None => Val (p, Some pcm)
      | Some pcm, Some r =>
          let! (out, r) := Resampler.process r pcm in
          Val (p {{ resampler := Some r }}, Some out)
      end
  end.

Definition process (p : t) (input : bytes) : outcome (t * option bytes) :=
  if passthrough p then Val (p, Some input)
  else
    let! (p, pcm) := to_pcm p input in
    match pcm with
    | None => Val (p, None)
    | Some pcm =>
        if len pcm =? ptime_samples (Coders.encoder_codec (encoder p)) then
          let '(e, out) := Coders.encode (encoder p) pcm in Val (p {{ encoder := e }}, out)
        else Val (p, None)
    end.

Fixpoint encode_frames (e : Coders.Encoder) (fs : list (list Z)) : Coders.Encoder * option (list bytes) :=
  match fs with
  | [] => (e, Some [])
  | f :: fs =>
      match Coders.encode e f with
      | (e, None) => (e, None)
      | (e, Some b) => let '(e, rest) := encode_frames e fs in (e, cons b <$> rest)
      end
  end.

Definition process_frames (p : t) (input : bytes) : outcome (t * option (list bytes)) :=
  if passthrough p then Val (p, Some [input])
  else
    let! (p, pcm) := to_pcm p input in
    match pcm with
    | None => Val (p, None)
    | Some pcm =>
        match PcmFrames.push (framer p) pcm with
        | (fr, None) => Val (p {{ framer := fr }}, None)
        | (fr, Some fs) =>
            let '(e, out) := encode_frames (encoder p) fs in
            Val (p {{ framer := fr }} {{ encoder := e }}, out)
        end
    end.

Definition map_timestamp (p : t) (timestamp source_rate dest_rate : Z) : t * Z :=
  let scale x := wrap32 (x * dest_rate / Z.max source_rate 1) in
  let mapped :=
    match timeline p with
    | Some (previous, output) => wrap32 (output + scale (wrap32 (timestamp - previous)))
    | None => scale timestamp
    end in
  (p {{ timeline := Some (timestamp, mapped) }}, mapped).

Definition encode_pcm (p : t) (samples : list Z) : t * option bytes :=
  if len samples =? ptime_samples (Coders.encoder_codec (encoder p)) then
    let '(e, out) := Coders.encode (encoder p) samples in (p {{ encoder := e }}, out)
  else (p, None).

End pipeline.
End TranscodePipeline.

(** ** The routing loop's transcoding branch *)

Module Route.
Section route.
Context {CL : CodecLibs}.

Record CachedTranscode := mkCached {
  pipeline : TranscodePipeline.t;
  last_used : Z;
}.

Abbreviation decoders := (gmap EndpointId SourceAudio.t).
Abbreviation cache := (gmap (EndpointId * EndpointId) CachedTranscode).

(** The decoding of a packet, once for all its destinations, at every rate they
    ask for.  A packet that cannot be decoded or converted yields no frame. *)
Definition source_frames (pkt : RoutedRtpPacket) (src_codec : option AudioCodec) (rates : list Z)
    (ds : decoders) : outcome (decoders * list SourceAudio.PcmFrame) :=
  let! (ds, analysed) := Analysis.decode_packet_pcm pkt src_codec ds in
  match analysed with
  | Analysis.Pcm pcm =>
      match ds !! source_endpoint_id pkt with
      | Some d =>
          let! (d, out) := SourceAudio.frames d pcm rates in
          Val (<[source_endpoint_id pkt := d]> ds, default [] out)
      | None => Val (ds, [])
      end
  | _ => Val (ds, [])
  end.

(** [min_by_key]: the first of the least recently used, in the map's order. *)
Definition oldest (order : list (EndpointId * EndpointId)) (tc : cache) : option (EndpointId * EndpointId) :=
  fold_left (fun best key =>
    match tc !! key with
    | None => best
    | Some entry =>
        match best with
        | None => Some key
        | Some b =>
            match tc !! b with
            | Some e => if last_used entry <? last_used e then Some key else best
            | None => best
            end
        end
    end) order None.

(** A stale codec epoch is dropped, a hit refreshed, a miss built; at capacity
    the oldest entry makes room. *)
Definition pipeline_for (key : EndpointId * EndpointId) (src_codec dest_codec : option AudioCodec)
    (profile : Sdp.OpusProfile) (transcode_cache_size : nat)
    (order : list (EndpointId * EndpointId)) (now : Z) (tc : cache)
  : cache * option TranscodePipeline.t :=
  let tc :=
    match src_codec, dest_codec, tc !! key with
    | Some s, Some d, Some cached =>
        if TranscodePipeline.matches_codecs (pipeline cached) s d then tc else delete key tc
    | _, _, _ => tc
    end in
  match tc !! key with
  | Some cached => (<[key := cached {{ last_used := now }}]> tc, Some (pipeline cached))
  | None =>
      match src_codec, dest_codec with
      | Some s, Some d =>
          match TranscodePipeline.for_pcm_with_profile s d profile with
          | None => (tc, None)
          | Some p =>
              let tc :=
                if (transcode_cache_size <=? size tc)%nat
                then match oldest order tc with Some k => delete k tc | None => tc end
                else tc in
              (<[key := mkCached p now]> tc, Some p)
          end
      | _, _ => (tc, None)
      end
  end.

(** The packets of the frames, for a destination. *)
Fixpoint encode_for (p : TranscodePipeline.t) (pkt : RoutedRtpPacket) (codec : AudioCodec)
    (dest_pt : option Z) (src_clock dest_clock : Z) (frames : list SourceAudio.PcmFrame)
  : TranscodePipeline.t * list RoutedRtpPacket :=
  match frames with
  | [] => (p, [])
  | f :: frames =>
      match SourceAudio.f_rates f !! sample_rate codec with
      | None => encode_for p pkt codec dest_pt src_clock dest_clock frames
      | Some samples =>
          let '(p, ts) := TranscodePipeline.map_timestamp p (SourceAudio.f_timestamp f) src_clock dest_clock in
          let '(p, data) := TranscodePipeline.encode_pcm p samples in
          let '(p, rest) := encode_for p pkt codec dest_pt src_clock dest_clock frames in
          match data with
          | Some data =>
              (p, mkPacket (source_endpoint_id pkt) (default (payload_type pkt) dest_pt)
                    (sequence_number pkt) ts (ssrc pkt) (SourceAudio.f_marker f) data :: rest)
          | None => (p, rest)
          end
      end
  end.

Definition transcode_to (dest_id : EndpointId) (pkt : RoutedRtpPacket)
    (src_codec dest_codec : option AudioCodec) (dest_pt : option Z) (src_clock dest_clock : Z)
    (profile : Sdp.OpusProfile) (transcode_cache_size : nat)
    (order : list (EndpointId * EndpointId)) (now : Z)
    (frames : list SourceAudio.PcmFrame) (tc : cache) : cache * list RoutedRtpPacket :=
  let key := (source_endpoint_id pkt, dest_id) in
  match pipeline_for key src_codec dest_codec profile transcode_cache_size order now tc with
  | (tc, None) => (tc, [])
  | (tc, Some p) =>
      match dest_codec with
      | None => (tc, [])
      | Some codec =>
          let '(p, out) := encode_for p pkt codec dest_pt src_clock dest_clock frames in
          (<[key := mkCached p now]> tc, out)
      end
  end.

(** One packet from the source to one transcoded destination, and a run of them. *)
Definition forward (c d : AudioCodec) (dest_id : EndpointId) (pt : Z) (rates : list Z)
    (profile : Sdp.OpusProfile) (transcode_cache_size : nat) (order : list (EndpointId * EndpointId))
    (st : decoders * cache) (arrival : RoutedRtpPacket * Z)
  : outcome ((decoders * cache) * list RoutedRtpPacket) :=
  let '(pkt, now) := arrival in
  let! (ds, frames) := source_frames pkt (Some c) rates st.1 in
  let '(tc, out) := transcode_to dest_id pkt (Some c) (Some d) (Some pt) (rtp_clock_rate c)
    (rtp_clock_rate d) profile transcode_cache_size order now frames st.2 in
  Val ((ds, tc), out).

Fixpoint forward_all (c d : AudioCodec) (dest_id : EndpointId) (pt : Z) (rates : list Z)
    (profile : Sdp.OpusProfile) (transcode_cache_size : nat) (order : list (EndpointId * EndpointId))
    (st : decoders * cache) (arrivals : list (RoutedRtpPacket * Z))
  : outcome ((decoders * cache) * list RoutedRtpPacket) :=
  match arrivals with
  | [] => Val (st, [])
  | a :: arrivals =>
      let! (st, out) := forward c d dest_id pt rates profile transcode_cache_size order st a in
      let! (st, rest) :=
        forward_all c d dest_id pt rates profile transcode_cache_size order st arrivals in
      Val (st, out ++ rest)
  end.

End route.
End Route.

(** ** A continuous stream, transcoded *)

Module Stream.
Section stream.
Context {CL : CodecLibs}.

(** Consecutive frames through one resampler. *)
Fixpoint resample_seq (r : Resampler.t) (fs : list (list Z)) : outcome (Resampler.t * list (list Z)) :=
  match fs with
  | [] => Val (r, [])
  | f :: fs =>
      let! (b, r) := Resampler.process r f in
      let! (r, rest) := resample_seq r fs in
      Val (r, b :: rest)
  end.

(** The reference: the frames of a stream at another rate, from a fresh
    resampler, or as they are when the rate is the same. *)
Definition at_rate (from to : Z) (fs : list (list Z)) : outcome (list (list Z)) :=
  if from =? to then Val fs
  else
    let! r := Resampler.new from to in
    let! (_, out) := resample_seq r fs in
    Val out.

Lemma resample_seq_app r fs gs r1 out1 r2 out2 :
  resample_seq r fs = Val (r1, out1) -> resample_seq r1 gs = Val (r2, out2) ->
  resample_seq r (fs ++ gs) = Val (r2, out1 ++ out2).
Proof.
  revert r out1. induction fs as [| f fs IH]; intros r out1; cbn.
  - by intros [= <- <-] ->.
  - destruct (Resampler.process r f) as [[b r'] |]; [| done]. cbn.
    destruct (resample_seq r' fs) as [[r1' o1'] |] eqn:E; [| done]. cbn.
    intros [= <- <-] E2. by rewrite (IH _ _ E E2).
Qed.

Variables (src rd : Z).
Hypothesis Hsrc : In src Resampler.exact_rates.

Lemma src_frame : 0 < src /\ src = 50 * (src / 50).
Proof. revert Hsrc. cbn. intuition (subst; done). Qed.

Lemma media_pos k : In k Resampler.media_rates -> 0 < k.
Proof. cbn. intuition lia. Qed.

(** Between frames every resampler of the source is at rest. *)
Definition rested (rs : gmap Z Resampler.t) : Prop :=
  forall k r, rs !! k = Some r -> Resampler.at_rest src k r.

Lemma rested_for rs k : rested rs -> In k Resampler.media_rates ->
  exists r, SourceAudio.resampler_for src k rs = Val r /\ Resampler.at_rest src k r.
Proof.
  intros R Hk. unfold SourceAudio.resampler_for. destruct (rs !! k) as [r |] eqn:E.
  - exists r. split; [done | by apply R].
  - apply Resampler.new_at_rest; [apply src_frame | by apply media_pos].
Qed.

(** A frame is converted to every rate asked for, in one pass, by the resampler
    of that rate; a rate asked for twice is converted once. *)
Lemma convert_spec samples rates rs conv :
  rested rs -> len samples = src / 50 -> Forall (fun k => In k Resampler.media_rates) rates ->
  exists rs' conv', SourceAudio.convert src samples rs conv rates = Val (rs', Some conv') /\
    rested rs' /\
    (forall k b, conv !! k = Some b -> conv' !! k = Some b /\ rs' !! k = rs !! k) /\
    (forall k, conv !! k = None -> In k rates -> k <> src ->
      exists r b r', SourceAudio.resampler_for src k rs = Val r /\
        Resampler.process r samples = Val (b, r') /\ len b = k / 50 /\
        conv' !! k = Some b /\ rs' !! k = Some r').
Proof.
  intros R L F. revert rs conv R. induction F as [| k rates Hk _ IH]; intros rs conv R; cbn.
  - exists rs, conv. split_and!; try done.
  - assert (existsb (Z.eqb k) Resampler.media_rates = true) as Ek.
    { apply existsb_exists. exists k. split; [exact Hk | apply Z.eqb_refl]. }
    cbn in Ek. rewrite Ek. cbn [negb].
    destruct ((k =? src) || bool_decide (is_Some (conv !! k))) eqn:Skip.
    + destruct (IH rs conv R) as (rs' & conv' & E & R' & Old & New).
      exists rs', conv'. split_and!; try done. intros k' Hn [-> | Hin] Hne; [| by apply New].
      apply orb_true_iff in Skip as [S | S]; [lia |].
      apply bool_decide_eq_true in S. rewrite Hn in S. by destruct S.
    + apply orb_false_iff in Skip as [Hne Hnone]. apply Z.eqb_neq in Hne.
      apply bool_decide_eq_false, eq_None_not_Some in Hnone.
      destruct (rested_for rs k R Hk) as (r & Er & Rr). rewrite Er. cbn.
      destruct (Resampler.exact_frame src k r samples) as (b & r' & Ep & Lb & _ & Rr');
        [done | done | congruence | done | done |].
      rewrite Ep. cbn. rewrite (proj2 (Z.eqb_eq _ _) Lb).
      destruct (IH (<[k := r']> rs) (<[k := b]> conv)) as (rs' & conv' & E & R' & Old & New).
      { intros k' x. destruct (decide (k' = k)) as [-> | Hd].
        - rewrite lookup_insert_eq. by intros [= <-].
        - rewrite lookup_insert_ne by done. apply R. }
      exists rs', conv'. split_and!; try done.
      * intros k' b' Hb. assert (k' <> k) by (by intros ->; rewrite Hb in Hnone).
        destruct (Old k' b') as [O1 O2]; [by rewrite lookup_insert_ne |].
        rewrite lookup_insert_ne in O2 by done. by split.
      * intros k' Hn Hin Hd. destruct (decide (k' = k)) as [-> | Hk'].
        -- exists r, b, r'. destruct (Old k b) as [O1 O2]; [by rewrite lookup_insert_eq |].
           rewrite lookup_insert_eq in O2. by split_and!.
        -- destruct Hin as [-> | Hin]; [done |].
           destruct (New k') as (x & y & z & N1 & N2 & N3 & N4 & N5); try done.
           { by rewrite lookup_insert_ne. }
           exists x, y, z. split_and!; try done.
           unfold SourceAudio.resampler_for in *. by rewrite lookup_insert_ne in N1.
Qed.

(** The resampler a stream at rate [rd] is converted with, if it needs one. *)
Definition follows (rs rs' : gmap Z Resampler.t) (fs outs : list (list Z)) : Prop :=
  if src =? rd then outs = fs
  else exists r r', SourceAudio.resampler_for src rd rs = Val r /\
    resample_seq r fs = Val (r', outs) /\ SourceAudio.resampler_for src rd rs' = Val r'.

Lemma follows_nil rs : rested rs -> In rd Resampler.media_rates -> follows rs rs [] [].
Proof.
  intros R Hd. unfold follows. destruct (Z.eqb_spec src rd); [done |].
  destruct (rested_for rs rd R Hd) as (r & E & _). exists r, r. by split_and!.
Qed.

Lemma follows_app rs1 rs2 rs3 fs1 fs2 o1 o2 :
  follows rs1 rs2 fs1 o1 -> follows rs2 rs3 fs2 o2 -> follows rs1 rs3 (fs1 ++ fs2) (o1 ++ o2).
Proof.
  unfold follows. destruct (src =? rd); [by intros -> -> |].
  intros (r1 & r2 & A1 & A2 & A3) (r2' & r3 & B1 & B2 & B3). rewrite A3 in B1. injection B1 as <-.
  exists r1, r3. split_and!; try done. by eapply resample_seq_app.
Qed.

Lemma follows_at_rate rs' fs outs : follows ∅ rs' fs outs -> at_rate src rd fs = Val outs.
Proof.
  unfold follows, at_rate. destruct (src =? rd); [by intros -> |].
  intros (r & r' & E1 & E2 & _). unfold SourceAudio.resampler_for in E1. rewrite lookup_empty in E1.
  rewrite E1. cbn. by rewrite E2.
Qed.

(** The frames produced: their times, their markers, their samples. *)
Definition framed (T inc : Z) (first : bool) (out : list SourceAudio.PcmFrame)
    (fs outs : list (list Z)) : Prop :=
  length out = length fs /\ length outs = length fs /\
  forall i f, out !! i = Some f ->
    SourceAudio.f_timestamp f = wrap32 (T + Z.of_nat i * inc) /\
    SourceAudio.f_marker f = first && (i =? 0)%nat /\
    exists b, outs !! i = Some b /\ SourceAudio.f_rates f !! rd = Some b /\ len b = rd / 50.

Lemma framed_cons T inc first f out s fs b outs :
  SourceAudio.f_timestamp f = wrap32 T -> SourceAudio.f_marker f = first ->
  SourceAudio.f_rates f !! rd = Some b -> len b = rd / 50 ->
  framed (T + inc) inc false out fs outs ->
  framed T inc first (f :: out) (s :: fs) (b :: outs).
Proof.
  intros Ht Hm Hb Lb (L1 & L2 & F). split_and!; [cbn; by rewrite L1 | cbn; by rewrite L2 |].
  intros [| i] g; cbn.
  - intros [= <-]. rewrite andb_true_r. split_and!; try done; [by rewrite Z.add_0_r |]. by exists b.
  - intros Hg. destruct (F i g Hg) as (F1 & F2 & F3). split_and!; try done.
    + rewrite F1. mlia.
    + by rewrite F2, andb_false_r.
Qed.

Variable rates : list Z.
Hypothesis Hrates : Forall (fun k => In k Resampler.media_rates) rates.
Hypothesis Hrd : In rd rates.

Lemma rd_media : In rd Resampler.media_rates.
Proof. rewrite List.Forall_forall in Hrates. by apply Hrates. Qed.

(** One frame at rate [rd]. *)
Lemma convert_follows samples rs :
  rested rs -> len samples = src / 50 ->
  exists rs' conv b, SourceAudio.convert src samples rs ∅ rates = Val (rs', Some conv) /\
    rested rs' /\ follows rs rs' [samples] [b] /\
    <[src := samples]> conv !! rd = Some b /\ len b = rd / 50.
Proof.
  intros R L. destruct (convert_spec samples rates rs ∅ R L Hrates) as (rs' & conv & E & R' & _ & New).
  unfold follows. destruct (Z.eqb_spec src rd) as [<- | Hne].
  - exists rs', conv, samples. rewrite lookup_insert_eq. by split_and!.
  - destruct (New rd) as (r & b & r' & N1 & N2 & N3 & N4 & N5); [apply lookup_empty | done | congruence |].
    exists rs', conv, b. rewrite lookup_insert_ne by done. split_and!; try done.
    exists r, r'. cbn. rewrite N2. cbn. unfold SourceAudio.resampler_for at 2. by rewrite N5.
Qed.

Lemma emit_spec fs s inc T :
  sample_rate (SourceAudio.codec s) = src -> rested (SourceAudio.resamplers s) ->
  SourceAudio.timestamp s = wrap32 T -> Forall (fun f => len f = src / 50) fs ->
  exists s' out outs, SourceAudio.emit s inc rates fs = Val (s', Some out) /\
    rested (SourceAudio.resamplers s') /\
    follows (SourceAudio.resamplers s) (SourceAudio.resamplers s') fs outs /\
    framed T inc (SourceAudio.marker s) out fs outs /\
    SourceAudio.decoder s' = SourceAudio.decoder s /\ SourceAudio.epoch s' = SourceAudio.epoch s /\
    SourceAudio.framer s' = SourceAudio.framer s /\
    SourceAudio.timestamp s' = wrap32 (T + len fs * inc) /\
    SourceAudio.marker s' = SourceAudio.marker s && bool_decide (fs = []).
Proof.
  intros Hc R Ht F. revert s T Hc R Ht. induction F as [| f fs Hf _ IH]; intros s T Hc R Ht.
  - exists s, [], []. cbn. rewrite andb_true_r, Z.add_0_r. split_and!; try done.
    by apply follows_nil, rd_media.
  - cbn [SourceAudio.emit]. rewrite Hc.
    destruct (convert_follows f _ R Hf) as (rs & conv & b & -> & R1 & Fo & Hb & Lb). cbn [obind].
    destruct s as [d ep fr ts mk rs0]; cbn in *. subst ts.
    destruct (IH (SourceAudio.mk d ep fr (wrap32 (wrap32 T + inc)) false rs) (T + inc))
      as (s' & out & outs & E & R2 & Fo2 & Fr & D & Ep & Fm & Ts & Mk); cbn; try done; [mlia |].
    cbn in *. rewrite E. cbn. eexists s', (_ :: out), (b :: outs). split_and!; try done.
    + exact (follows_app _ _ _ [f] fs [b] outs Fo Fo2).
    + by apply framed_cons.
    + rewrite Ts. unfold len. cbn [length]. f_equal. lia.
    + by rewrite Mk, andb_false_r.
Qed.

Variable c : AudioCodec.
Hypothesis Hc : sample_rate c = src.
#[local] Abbreviation n := (src / 50).
#[local] Abbreviation clock := (rtp_clock_rate c).
#[local] Abbreviation inc := (rtp_clock_rate c / 50).

Lemma clock_frame : 0 < clock /\ clock <= 192000 /\ src <= 192000 /\ clock = 50 * inc.
Proof.
  revert Hsrc Hc. destruct c; cbn; intros H E; subst; intuition (subst; done).
Qed.

Lemma frames_ticks k : k * n * clock / src = k * inc.
Proof.
  pose proof src_frame as [Hp Hs]. pose proof clock_frame as (_ & _ & _ & Hk).
  assert (k * n * clock = k * inc * src) as ->; [| apply Z_div_mult; lia].
  set (i := inc) in *. set (m := n) in *. rewrite Hk, Hs. ring.
Qed.

(** What a source has seen: samples [A], cut into [chunks] and a partial frame;
    its next packet has sequence number [seq] of stream [ss], which began at
    time [T0]. *)
Record tracks (T0 ss seq : Z) (A : list Z) (chunks outs : list (list Z)) (s : SourceAudio.t) : Prop := {
  tr_codec : SourceAudio.codec s = c;
  tr_frame : PcmFrames.frame (SourceAudio.framer s) = Z.to_nat n;
  tr_samples : concat chunks ++ PcmFrames.samples (SourceAudio.framer s) = A;
  tr_chunks : Forall (fun f => len f = n) chunks;
  tr_tail : len (PcmFrames.samples (SourceAudio.framer s)) < n;
  tr_rested : rested (SourceAudio.resamplers s);
  tr_follows : follows ∅ (SourceAudio.resamplers s) chunks outs;
  tr_ticks : (len A * clock) mod src = 0;
  tr_epoch : SourceAudio.epoch s = None /\ A = [] \/
    (exists q, SourceAudio.epoch s = Some (ss, q, wrap32 (T0 + len A * clock / src)) /\ wrap16 (q + 1) = seq) /\ A <> [];
  tr_stamp : PcmFrames.samples (SourceAudio.framer s) <> [] ->
    SourceAudio.timestamp s = wrap32 (T0 + len chunks * inc) /\
    SourceAudio.marker s = bool_decide (chunks = []);
}.

Lemma len_concat (fs : list (list Z)) k : Forall (fun f => len f = k) fs -> len (concat fs) = len fs * k.
Proof.
  induction 1 as [| f fs Hf _ IH]; [done |]. cbn. unfold len in *. rewrite length_app. cbn [length]. lia.
Qed.

(** A packet that continues the stream is stamped with the time and the marker
    of the next frame. *)
Lemma stamp_next T0 ss seq A chunks outs s p :
  tracks T0 ss seq A chunks outs s ->
  Media.timestamp p = wrap32 (T0 + len A * clock / src) -> (A <> [] -> Media.marker p = false) ->
  let s' := SourceAudio.stamp s p false in
  SourceAudio.timestamp s' = wrap32 (T0 + len chunks * inc) /\
  SourceAudio.marker s' = bool_decide (chunks = []).
Proof.
  intros [Ec Ef Es Ech Et _ _ _ Ep Est] Ht Hm. cbn. unfold SourceAudio.stamp, PcmFrames.is_empty.
  destruct (decide (PcmFrames.samples (SourceAudio.framer s) = [])) as [E | E];
    [rewrite (bool_decide_true (PcmFrames.samples _ = [])) by done
    | rewrite (bool_decide_false (PcmFrames.samples _ = [])) by done; by apply Est].
  rewrite E, app_nil_r in Es. pose proof (len_concat _ _ Ech) as L. rewrite Es in L.
  destruct s as [d ep fr ts mk rs]; cbn in *. rewrite Ht, L, frames_ticks. split; [done |].
  destruct Ep as [[-> ->] | [(q & -> & _) Hne]].
  - rewrite orb_true_r. symmetry. apply bool_decide_eq_true. destruct chunks; [done |].
    pose proof src_frame. unfold len in L. cbn in L. nia.
  - rewrite (Hm Hne). cbn. symmetry. apply bool_decide_eq_false. by intros ->.
Qed.

Lemma decode_step T0 ss seq A chunks outs s p d pcm :
  tracks T0 ss seq A chunks outs s ->
  ssrc p = ss -> sequence_number p = seq ->
  Media.timestamp p = wrap32 (T0 + len A * clock / src) -> (A <> [] -> Media.marker p = false) ->
  len (payload p) <= SourceAudio.max_payload ->
  Coders.decode (SourceAudio.decoder s) (payload p) = (d, Some pcm) -> len pcm <= n * 6 ->
  exists s1, SourceAudio.decode s p = Val (s1, Some pcm) /\
    SourceAudio.decoder s1 = d /\ SourceAudio.framer s1 = SourceAudio.framer s /\
    SourceAudio.resamplers s1 = SourceAudio.resamplers s /\
    SourceAudio.timestamp s1 = wrap32 (T0 + len chunks * inc) /\
    SourceAudio.marker s1 = bool_decide (chunks = []) /\
    SourceAudio.epoch s1 = Some (ss, seq, wrap32 (Media.timestamp p + len pcm * clock / src)).
Proof.
  intros Tr Hss Hseq Ht Hm Hp Hd Hl.
  pose proof (stamp_next _ _ _ _ _ _ _ p Tr Ht Hm) as [S1 S2].
  assert (SourceAudio.discontinuity s p = false) as Nd.
  { unfold SourceAudio.discontinuity. destruct (tr_epoch _ _ _ _ _ _ _ Tr) as [[-> _] | [(q & -> & Hq) _]]; [done |].
    rewrite Hss, Hq, Hseq, Ht, !Z.eqb_refl. done. }
  pose proof src_frame as [Hp0 Hsf]. pose proof clock_frame as (Hc0 & Hc1 & Hs1 & _).
  unfold SourceAudio.decode. rewrite (tr_codec _ _ _ _ _ _ _ Tr).
  rewrite (proj2 (Z.ltb_ge _ _) Hp). unfold SourceAudio.restart. rewrite Nd.
  assert (SourceAudio.decoder (SourceAudio.stamp s p false) = SourceAudio.decoder s) as ->
    by (unfold SourceAudio.stamp; destruct PcmFrames.is_empty, s; done).
  rewrite Hd. unfold ptime_samples. rewrite Hc, (proj2 (Z.ltb_ge _ _) Hl).
  unfold SourceAudio.duration. rewrite Hc, (proj2 (Z.eqb_neq src 0)) by lia. cbn [obind].
  assert (0 <= len pcm * clock < 2 ^ 63) by (unfold len in *; nia).
  assert (0 <= len pcm * clock / src < 2 ^ 32).
  { split; [apply Z.div_pos; lia |]. apply Z.div_lt_upper_bound; [lia |]. unfold len in *. nia. }
  eexists. split; [reflexivity |].
  assert (wrap32 (wrap64 (len pcm * clock) / src) = len pcm * clock / src) as ->.
  { unfold wrap64, wrap32. rewrite (Z.mod_small (len pcm * clock)), Z.mod_small by lia. done. }
  revert S1 S2. unfold SourceAudio.stamp. destruct PcmFrames.is_empty, s; cbn; intros -> ->;
    subst; by split_and!.
Qed.

Lemma push_spec f pcm :
  PcmFrames.frame f = Z.to_nat n -> len pcm <= n * 6 ->
  exists fs rest, PcmFrames.push f pcm = (PcmFrames.mk rest (PcmFrames.frame f), Some fs) /\
    concat fs ++ rest = PcmFrames.samples f ++ pcm /\ Forall (fun x => len x = n) fs /\ len rest < n.
Proof.
  intros Hf Hl. pose proof src_frame as [Hp Hs]. unfold PcmFrames.push. rewrite Hf.
  rewrite (proj2 (Nat.ltb_lt _ _)), (proj2 (Nat.leb_le _ _)) by (unfold len in Hl; lia). cbn [andb].
  pose proof (PcmFrames.split_frames_spec (length (PcmFrames.samples f ++ pcm)) (Z.to_nat n)
    (PcmFrames.samples f ++ pcm) ltac:(lia) (le_n _)) as S.
  destruct (PcmFrames.split_frames _ _ _) as [fs rest]. destruct S as (S1 & S2 & S3).
  exists fs, rest. split_and!; [by destruct f; cbn in *; subst | done | | unfold len; lia].
  eapply Forall_impl; [exact S2 |]. intros x Hx. cbn in Hx. unfold len. lia.
Qed.

Lemma ticks_app T0 (A pcm : list Z) : (len A * clock) mod src = 0 ->
  wrap32 (wrap32 (T0 + len A * clock / src) + len pcm * clock / src)
  = wrap32 (T0 + len (A ++ pcm) * clock / src).
Proof.
  pose proof src_frame as [Hs0 _]. intros Etk.
  unfold len in *. rewrite length_app, Nat2Z.inj_add, Z.mul_add_distr_r.
  rewrite (Z.div_mod (Z.of_nat (length A) * clock) src), Etk by lia.
  rewrite Z.add_0_r, (Z.mul_comm src), Z.div_mul, Z.div_add_l by lia. mlia.
Qed.

(** A packet of the stream: its samples join those of the stream, and every
    frame they complete is produced, on time and at every rate. *)
Lemma source_step T0 ss seq A chunks outs s p d pcm :
  tracks T0 ss seq A chunks outs s ->
  ssrc p = ss -> sequence_number p = seq -> wrap16 seq = seq ->
  Media.timestamp p = wrap32 (T0 + len A * clock / src) -> (A <> [] -> Media.marker p = false) ->
  len (payload p) <= SourceAudio.max_payload ->
  Coders.decode (SourceAudio.decoder s) (payload p) = (d, Some pcm) -> pcm <> [] -> len pcm <= n * 6 ->
  exists s1 s2 out fs os, SourceAudio.decode s p = Val (s1, Some pcm) /\
    SourceAudio.frames s1 pcm rates = Val (s2, Some out) /\
    framed (T0 + len chunks * inc) inc (bool_decide (chunks = [])) out fs os /\
    tracks T0 ss (wrap16 (seq + 1)) (A ++ pcm) (chunks ++ fs) (outs ++ os) s2 /\
    SourceAudio.codec s1 = c /\ SourceAudio.decoder s2 = d.
Proof.
  intros Tr Hss Hseq Hsq Ht Hm Hp Hd Hne Hl.
  destruct (decode_step _ _ _ _ _ _ _ _ _ _ Tr Hss Hseq Ht Hm Hp Hd Hl)
    as (s1 & D1 & D2 & D3 & D4 & D5 & D6 & D7).
  assert (SourceAudio.codec s1 = c) as C1.
  { unfold SourceAudio.codec. rewrite D2. rewrite <- (tr_codec _ _ _ _ _ _ _ Tr). unfold SourceAudio.codec.
    by rewrite <- (Coders.decode_codec (SourceAudio.decoder s) (payload p)), Hd. }
  destruct Tr as [Ec Ef Es Ech Et Er Efo Etk Eep Est].
  destruct (push_spec (SourceAudio.framer s) pcm Ef Hl) as (fs & rest & P & P1 & P2 & P3).
  destruct (emit_spec fs (s1 {{ SourceAudio.framer := PcmFrames.mk rest (PcmFrames.frame (SourceAudio.framer s)) }})
    inc (T0 + len chunks * inc))
    as (s2 & out & os & E & E1 & E2 & E3 & E4 & E5 & E6 & E7 & E8);
    try (destruct s1; cbn in *; subst; done).
  { destruct s1; cbn in *. unfold SourceAudio.codec in *. cbn in *. congruence. }
  exists s1, s2, out, fs, os. split_and!; try done.
  - unfold SourceAudio.frames. rewrite D3, P, C1. exact E.
  - destruct s1; cbn in *; subst. done.
  - assert ((len pcm * clock) mod src = 0) as Tk.
    { pose proof (Coders.decode_ticks (SourceAudio.decoder s) (payload p) pcm) as K.
      unfold SourceAudio.codec in Ec. rewrite Ec, Hc, Hd in K. apply K; [apply src_frame | done]. }
    pose proof src_frame as [Hs0 _].
    destruct s1 as [d1 ep1 fr1 ts1 mk1 rs1]; cbn in *. rewrite D4 in E2. split.
    + unfold SourceAudio.codec in *. by rewrite E4.
    + by rewrite E6.
    + rewrite E6. cbn. by rewrite concat_app, <- app_assoc, P1, app_assoc, Es.
    + by apply Forall_app.
    + by rewrite E6.
    + done.
    + by eapply follows_app; [exact Efo |].
    + unfold len in *. rewrite length_app, Nat2Z.inj_add, Z.mul_add_distr_r, Z.add_mod, Etk, Tk by lia.
      by apply Z.mod_small.
    + right. split; [| by intros [_ ?]%app_eq_nil]. eexists. split; [| reflexivity].
      by rewrite E5, D7, Ht, ticks_app.
    + intros _. rewrite E7, E8, D6. split.
      * unfold len. rewrite length_app. f_equal. lia.
      * destruct chunks, fs; done.
  - destruct s1; cbn in *; subst. done.
Qed.

(** *** The destination *)

Variable d : AudioCodec.
Hypothesis Hd : sample_rate d = rd.
#[local] Abbreviation dclock := (rtp_clock_rate d).
#[local] Abbreviation dinc := (rtp_clock_rate d / 50).

(** The destination's encoder takes every frame of 20 ms. *)
Hypothesis reliable : forall e pcm, Coders.encoder_codec e = d -> len pcm = ptime_samples d ->
  exists e' b, Coders.encode e pcm = (e', Some b).

Lemma dclock_frame : 0 < dclock <= 48000 /\ dclock = 50 * dinc.
Proof.
  pose proof rd_media as M. revert M Hd. destruct d; cbn; intros M E; subst; try done.
  intuition (subst; done).
Qed.

(** Times at the destination begin where the first timestamp maps to. *)
Definition mapped_start (T0 : Z) : Z := T0 * dclock / clock.

(** The last pair of timestamps after [k] frames. *)
Definition timeline_at (T0 k : Z) : option (Z * Z) :=
  if k =? 0 then None
  else Some (wrap32 (T0 + (k - 1) * inc), wrap32 (mapped_start T0 + (k - 1) * dinc)).

Lemma map_next p T0 k :
  is_u32 T0 -> 0 <= k -> TranscodePipeline.timeline p = timeline_at T0 k ->
  TranscodePipeline.map_timestamp p (wrap32 (T0 + k * inc)) clock dclock
  = (p {{ TranscodePipeline.timeline := timeline_at T0 (k + 1) }},
     wrap32 (mapped_start T0 + k * dinc)).
Proof.
  intros H0 Hk Tl. pose proof clock_frame as (Hc0 & Hc1 & _ & Hc50). pose proof dclock_frame as (Hd0 & Hd50).
  unfold TranscodePipeline.map_timestamp. rewrite Tl. unfold timeline_at, mapped_start.
  rewrite (proj2 (Z.eqb_neq (k + 1) 0)), Z.max_l by lia.
  replace (k + 1 - 1) with k by lia.
  destruct (Z.eqb_spec k 0) as [-> | Hk0].
  - replace (0 * inc) with 0 by lia. replace (0 * dinc) with 0 by lia. rewrite !Z.add_0_r.
    unfold is_u32 in H0. unfold wrap32. rewrite (Z.mod_small T0) by lia. by destruct p.
  - assert (wrap32 (wrap32 (T0 + k * inc) - wrap32 (T0 + (k - 1) * inc)) = inc) as ->.
    { replace (k * inc) with ((k - 1) * inc + inc) by lia. generalize ((k - 1) * inc). intros z. mlia. }
    assert (inc * dclock / clock = dinc) as ->.
    { assert (inc * dclock = dinc * clock) as ->; [| apply Z_div_mult; lia].
      set (i := inc) in *. set (j := dinc) in *. rewrite Hc50, Hd50. ring. }
    assert (wrap32 (wrap32 (T0 * dclock / clock + (k - 1) * dinc) + wrap32 dinc)
            = wrap32 (T0 * dclock / clock + k * dinc)) as ->; [| by destruct p].
    replace (k * dinc) with ((k - 1) * dinc + dinc) by lia. generalize ((k - 1) * dinc).
    generalize (T0 * dclock / clock). intros y z. mlia.
Qed.

Lemma framed_uncons T i first f out fs outs :
  framed T i first (f :: out) fs outs ->
  exists s fs' b outs', fs = s :: fs' /\ outs = b :: outs' /\
    SourceAudio.f_timestamp f = wrap32 T /\ SourceAudio.f_marker f = first /\
    SourceAudio.f_rates f !! rd = Some b /\ len b = rd / 50 /\
    framed (T + i) i false out fs' outs'.
Proof.
  intros (L1 & L2 & F). destruct fs as [| s fs'], outs as [| b outs']; try done.
  destruct (F 0%nat f eq_refl) as (F1 & F2 & b' & [= <-] & F4 & F5).
  exists s, fs', b, outs'. rewrite Z.add_0_r in F1. rewrite andb_true_r in F2. split_and!; try done.
  split; [cbn in *; lia |]. split; [cbn in *; lia |].
  intros j g Hg. destruct (F (S j) g Hg) as (G1 & G2 & G3). split_and!.
  - rewrite G1. f_equal. lia.
  - by rewrite G2, andb_false_r.
  - exact G3.
Qed.

(** What a packet made from frame [k] carries. *)
Definition outgoing (T0 : Z) (pt : Z) (first : bool) (k : Z) (out : list RoutedRtpPacket) : Prop :=
  forall i p, out !! i = Some p ->
    Media.timestamp p = wrap32 (mapped_start T0 + (k + Z.of_nat i) * dinc) /\
    Media.marker p = first && (i =? 0)%nat /\ payload_type p = pt.

Lemma encode_step p b :
  Coders.encoder_codec (TranscodePipeline.encoder p) = d -> len b = rd / 50 ->
  exists e data, Coders.encode (TranscodePipeline.encoder p) b = (e, Some data) /\
    Coders.encoder_codec e = d /\
    TranscodePipeline.encode_pcm p b = (p {{ TranscodePipeline.encoder := e }}, Some data).
Proof.
  intros He Hb. destruct (reliable _ b He) as (e & data & E); [unfold ptime_samples; by rewrite Hd |].
  exists e, data. split_and!; [done | |].
  - rewrite <- He, <- (Coders.encode_codec (TranscodePipeline.encoder p) b). by rewrite E.
  - unfold TranscodePipeline.encode_pcm, ptime_samples. rewrite He, Hd, (proj2 (Z.eqb_eq _ _) Hb), E. done.
Qed.

Lemma encode_for_spec pkt pt T0 out : forall k p first fs outs,
  is_u32 T0 -> 0 <= k -> framed (T0 + k * inc) inc first out fs outs ->
  TranscodePipeline.timeline p = timeline_at T0 k ->
  Coders.encoder_codec (TranscodePipeline.encoder p) = d ->
  exists p' pkts, Route.encode_for p pkt d (Some pt) clock dclock out = (p', pkts) /\
    length pkts = length out /\ outgoing T0 pt first k pkts /\
    TranscodePipeline.encode_frames (TranscodePipeline.encoder p) outs
      = (TranscodePipeline.encoder p', Some (Media.payload <$> pkts)) /\
    Coders.encoder_codec (TranscodePipeline.encoder p') = d /\
    TranscodePipeline.source p' = TranscodePipeline.source p /\
    TranscodePipeline.timeline p' = timeline_at T0 (k + len out).
Proof.
  induction out as [| f out IH]; intros k p first fs outs H0 Hk Fr Tl He.
  - exists p, []. destruct Fr as (L1 & L2 & _). destruct fs, outs; try done. cbn. rewrite Z.add_0_r.
    by split_and!.
  - apply framed_uncons in Fr as (s & fs' & b & outs' & -> & -> & F1 & F2 & F3 & F4 & F5).
    cbn [Route.encode_for]. rewrite Hd, F3, F1, (map_next p T0 k) by done.
    set (p1 := p {{ TranscodePipeline.timeline := timeline_at T0 (k + 1) }}).
    assert (TranscodePipeline.encoder p1 = TranscodePipeline.encoder p) as Ee by (by destruct p).
    destruct (encode_step p1 b) as (e & data & E1 & E2 & E3); [by rewrite Ee | done |].
    rewrite E3. rewrite Ee in E1.
    destruct (IH (k + 1) (p1 {{ TranscodePipeline.encoder := e }}) false fs' outs')
      as (p' & pkts & I1 & I2 & I3 & I4 & I5 & I6 & I7);
      [done | lia | | by destruct p | by destruct p |].
    { replace (T0 + (k + 1) * inc) with (T0 + k * inc + inc) by lia. exact F5. }
    rewrite I1. eexists p', (_ :: pkts). split; [reflexivity |]. split_and!.
    + cbn. by rewrite I2.
    + intros [| i] q; cbn.
      * intros [= <-]. cbn. rewrite F2, andb_true_r, Z.add_0_r. by split_and!.
      * intros Hq. destruct (I3 i q Hq) as (J1 & J2 & J3). rewrite J1, J2, J3, andb_false_r.
        split_and!; [f_equal; f_equal; f_equal; lia | done | done].
    + cbn. rewrite E1. replace (TranscodePipeline.encoder _) with e in I4 by (by destruct p). by rewrite I4.
    + done.
    + rewrite I6. by destruct p.
    + rewrite I7. f_equal. unfold len. cbn [length]. lia.
Qed.

Lemma outgoing_app T0 pt chunks out1 out2 :
  outgoing T0 pt true 0 out1 -> length out1 = length chunks ->
  outgoing T0 pt (bool_decide (chunks = ([] : list (list Z)))) (len chunks) out2 ->
  outgoing T0 pt true 0 (out1 ++ out2).
Proof.
  intros O1 L O2 i p Hp. apply lookup_app_Some in Hp as [Hp | [Hl Hp]]; [by apply O1 |].
  destruct (O2 _ _ Hp) as (P1 & P2 & P3). rewrite P1, P2, P3. split_and!; [| | done].
  - unfold len. f_equal. f_equal. f_equal. lia.
  - destruct chunks as [| x l]; cbn [length] in *.
    + rewrite bool_decide_true by done. do 2 f_equal. lia.
    + rewrite bool_decide_false by done. by destruct i; [lia |].
Qed.

Lemma encode_frames_app e fs gs e1 b1 e2 b2 :
  TranscodePipeline.encode_frames e fs = (e1, Some b1) ->
  TranscodePipeline.encode_frames e1 gs = (e2, Some b2) ->
  TranscodePipeline.encode_frames e (fs ++ gs) = (e2, Some (b1 ++ b2)).
Proof.
  revert e b1. induction fs as [| f fs IH]; intros e b1; cbn.
  - by intros [= <- <-].
  - destruct (Coders.encode e f) as [e' [b |]]; [| done].
    destruct (TranscodePipeline.encode_frames e' fs) as [e'' [bs |]] eqn:E; [| done].
    intros [= <- <-] G. by rewrite (IH _ _ E G).
Qed.

(** *** The whole path *)

Variables (id dst : EndpointId) (pt : Z) (profile : Sdp.OpusProfile) (cap : nat) (order : list (EndpointId * EndpointId)).
Variables (dec0 : Coders.AudioDecoder) (enc0 : Coders.Encoder).
Hypothesis Hdec : Coders.make_decoder c = Some dec0.
Hypothesis Henc : Coders.make_encoder_with_profile d profile = Some enc0.

(** Packets of one stream, each continuing the one before, with what they
    decode to. *)
Fixpoint continuous (ss : Z) (dec : Coders.AudioDecoder) (seq ts : Z) (first : bool)
    (pkts : list (RoutedRtpPacket * Z)) (pcms : list (list Z)) : Prop :=
  match pkts, pcms with
  | [], [] => True
  | (p, _) :: pkts, pcm :: pcms =>
      source_endpoint_id p = id /\ ssrc p = ss /\ sequence_number p = seq /\ Media.timestamp p = ts /\
      (first = false -> Media.marker p = false) /\
      len (payload p) <= SourceAudio.max_payload /\
      (Coders.decode dec (payload p)).2 = Some pcm /\ pcm <> [] /\ len pcm <= ptime_samples c * 6 /\
      continuous ss (Coders.decode dec (payload p)).1 (wrap16 (seq + 1))
        (wrap32 (ts + len pcm * clock / sample_rate c)) false pkts pcms
  | _, _ => False
  end.

(** The decoder and the pipeline of the call, in the state that [chunks] left
    them in, or about to be made. *)
Definition source_ready (dec : Coders.AudioDecoder) (T0 ss seq : Z) (A : list Z) (chunks outs : list (list Z)) (ds : gmap EndpointId SourceAudio.t) : Prop :=
  exists s, default (SourceAudio.from_decoder dec0) (ds !! id) = s /\
    tracks T0 ss seq A chunks outs s /\ SourceAudio.decoder s = dec.

Definition fresh_pipeline : TranscodePipeline.t :=
  TranscodePipeline.mk None c profile None enc0 None false (PcmFrames.new (sample_rate d)).

Definition pipeline_ready (T0 : Z) (chunks outs : list (list Z)) (datas : list bytes) (tc : gmap (EndpointId * EndpointId) Route.CachedTranscode) : Prop :=
  exists p, default fresh_pipeline (Route.pipeline <$> tc !! (id, dst)) = p /\
    TranscodePipeline.source p = c /\ Coders.encoder_codec (TranscodePipeline.encoder p) = d /\
    TranscodePipeline.timeline p = timeline_at T0 (len chunks) /\
    TranscodePipeline.encode_frames enc0 outs = (TranscodePipeline.encoder p, Some datas).

Lemma pipeline_for_ready T0 chunks outs datas tc now :
  pipeline_ready T0 chunks outs datas tc ->
  exists tc', Route.pipeline_for (id, dst) (Some c) (Some d) profile cap order now tc
    = (tc', Some (default fresh_pipeline (Route.pipeline <$> tc !! (id, dst)))).
Proof.
  intros (p & <- & Hs & He & _). unfold Route.pipeline_for.
  destruct (tc !! (id, dst)) as [[q u] |] eqn:E.
  - assert (TranscodePipeline.matches_codecs q c d = true) as Em.
    { cbn in Hs, He. unfold TranscodePipeline.matches_codecs. by rewrite Hs, He, !bool_decide_true. }
    cbn [Route.pipeline]. rewrite Em, E. by eexists.
  - rewrite E. unfold TranscodePipeline.for_pcm_with_profile. rewrite Henc. by eexists.
Qed.

(** One packet of the call. *)
Lemma forward_step T0 ss seq A chunks outs datas dec ds tc p now pcm :
  is_u32 T0 -> source_ready dec T0 ss seq A chunks outs ds -> pipeline_ready T0 chunks outs datas tc ->
  source_endpoint_id p = id -> ssrc p = ss -> sequence_number p = seq -> wrap16 seq = seq ->
  Media.timestamp p = wrap32 (T0 + len A * clock / src) -> (A <> [] -> Media.marker p = false) ->
  len (payload p) <= SourceAudio.max_payload ->
  (Coders.decode dec (payload p)).2 = Some pcm -> pcm <> [] -> len pcm <= n * 6 ->
  exists ds' tc' out fs os,
    Route.forward c d dst pt rates profile cap order (ds, tc) (p, now) = Val ((ds', tc'), out) /\
    length out = length fs /\ outgoing T0 pt (bool_decide (chunks = [])) (len chunks) out /\
    source_ready (Coders.decode dec (payload p)).1 T0 ss (wrap16 (seq + 1)) (A ++ pcm) (chunks ++ fs) (outs ++ os) ds' /\
    pipeline_ready T0 (chunks ++ fs) (outs ++ os) (datas ++ (Media.payload <$> out)) tc'.
Proof.
  intros H0 (s & Es & Tr & <-) Pr Hid Hss Hseq Hsq Hts Hm Hp Hdc Hne Hl.
  destruct (Coders.decode (SourceAudio.decoder s) (payload p)) as [dec' pcm'] eqn:Dc.
  cbn in Hdc. subst pcm'. cbn [fst].
  destruct (source_step _ _ _ _ _ _ _ _ _ _ Tr Hss Hseq Hsq Hts Hm Hp Dc Hne Hl)
    as (s1 & s2 & fr & fs & os & S1 & S2 & S3 & S4 & S5 & S6).
  destruct (pipeline_for_ready _ _ _ _ _ now Pr) as (tc1 & P1).
  destruct Pr as (q & Eq & Q1 & Q2 & Q3 & Q4). rewrite Eq in P1.
  destruct (encode_for_spec p pt T0 fr (len chunks) q (bool_decide (chunks = [])) fs os)
    as (q' & out & E1 & E2 & E3 & E4 & E5 & E6 & E7); try done; [unfold len; lia |].
  assert (Route.source_frames p (Some c) rates ds = Val (<[id := s2]> ds, fr)) as Sf.
  { unfold Route.source_frames, Analysis.decode_packet_pcm. rewrite Hid.
    assert ((match ds !! id with Some x => Some x | None => SourceAudio.new c end) = Some s) as ->.
    { unfold SourceAudio.new. rewrite Hdec. destruct (ds !! id); cbn in *; by subst. }
    rewrite bool_decide_true by (apply (tr_codec _ _ _ _ _ _ _ Tr)).
    rewrite S1. cbn [obind]. rewrite lookup_insert_eq, S2. cbn. by rewrite insert_insert_eq. }
  exists (<[id := s2]> ds), (<[(id, dst) := Route.mkCached q' now]> tc1), out, fs, os.
  assert (length fr = length fs) as Lfr by apply S3.
  split_and!.
  - cbn [Route.forward fst snd]. rewrite Sf. cbn [obind]. unfold Route.transcode_to.
    by rewrite Hid, P1, E1.
  - congruence.
  - exact E3.
  - exists s2. rewrite lookup_insert_eq. by split_and!.
  - exists q'. rewrite lookup_insert_eq. split_and!; try done.
    + by rewrite E6.
    + rewrite E7. unfold len. rewrite length_app, Lfr. f_equal. lia.
    + by eapply encode_frames_app.
Qed.

Lemma forward_all_spec ss T0 (H0 : is_u32 T0) pkts : forall pcms seq A chunks outs datas out0 dec ds tc,
  source_ready dec T0 ss seq A chunks outs ds -> pipeline_ready T0 chunks outs datas tc ->
  wrap16 seq = seq ->
  continuous ss dec seq (wrap32 (T0 + len A * clock / src)) (bool_decide (A = [])) pkts pcms ->
  length out0 = length chunks -> outgoing T0 pt true 0 out0 -> datas = Media.payload <$> out0 ->
  exists ds' tc' out chunks' outs' dec' seq',
    Route.forward_all c d dst pt rates profile cap order (ds, tc) pkts = Val ((ds', tc'), out) /\
    length (out0 ++ out) = length chunks' /\ outgoing T0 pt true 0 (out0 ++ out) /\
    source_ready dec' T0 ss seq' (A ++ concat pcms) chunks' outs' ds' /\
    pipeline_ready T0 chunks' outs' (Media.payload <$> (out0 ++ out)) tc'.
Proof.
  induction pkts as [| [p now] pkts IH]; intros pcms seq A chunks outs datas out0 dec ds tc Sr Pr Hsq Ct Lo Og Ed;
    destruct pcms as [| pcm pcms]; try done.
  - subst datas. eexists ds, tc, [], chunks, outs, dec, seq. rewrite !app_nil_r. by split_and!.
  - destruct Ct as (C1 & C2 & C3 & C4 & C5 & C6 & C7 & C8 & C9 & C10).
    unfold ptime_samples in C9. rewrite Hc in C9, C10.
    assert ((len A * clock) mod src = 0) as Tk by (destruct Sr as (s & _ & Tr & _); apply Tr).
    destruct (forward_step T0 ss seq A chunks outs datas dec ds tc p now pcm)
      as (ds1 & tc1 & out & fs & os & F1 & F2 & F3 & F4 & F5); try done.
    { intros HA. apply C5. by apply bool_decide_eq_false. }
    rewrite ticks_app in C10 by done.
    assert (bool_decide (A ++ pcm = []) = false) as Hb.
    { apply bool_decide_eq_false. by intros [_ ?]%app_eq_nil. }
    rewrite <- Hb in C10.
    destruct (IH pcms (wrap16 (seq + 1)) (A ++ pcm) (chunks ++ fs) (outs ++ os) _ (out0 ++ out) _ ds1 tc1 F4 F5)
      as (ds2 & tc2 & out2 & ch2 & outs2 & dec2 & seq2 & G1 & G2 & G3 & G4 & G5); try done.
    { mlia. }
    { rewrite !length_app. congruence. }
    { by eapply outgoing_app. }
    { by rewrite fmap_app, Ed. }
    exists ds2, tc2, (out ++ out2), ch2, outs2, dec2, seq2.
    cbn [Route.forward_all]. rewrite F1. cbn [obind]. rewrite G1. cbn [obind].
    rewrite <- !app_assoc in *. by split_and!.
Qed.

Lemma fresh_tracks T0 ss seq : Coders.decoder_codec dec0 = c ->
  tracks T0 ss seq [] [] [] (SourceAudio.from_decoder dec0).
Proof.
  intros E. pose proof src_frame as [Hp Hs]. split; cbn; try done.
  - by rewrite E, Hc.
  - unfold len. cbn. lia.
  - apply follows_nil; [done | apply rd_media].
  - by left.
Qed.

End stream.

(** C34: a packet stream that is transcoded arrives whole and in time.  Take a
    source whose rate the resampler converts exactly and consecutive packets
    from it, of any durations up to 120 ms, through the decoder cache, the
    reframer, the resampler, the transcode cache and the encoder of one
    destination that accepts every frame of 20 ms.  Nothing fails; one packet
    leaves per complete 20 ms of input; what they carry is the encoding of the decoded samples cut into 20 ms and
    converted, whatever the sizes of the packets they came in; and their
    timestamps start at the mapped first timestamp and advance by exactly 20 ms of
    the destination's clock, across the wrap of either clock. *)
Theorem transcoded_stream `{CodecLibs} c d rates (id dst : EndpointId) pt profile cap order
    dec0 enc0 ss seq T0 pkts pcms
  (exact : In (sample_rate c) Resampler.exact_rates)
  (media : Forall (fun k => In k Resampler.media_rates) rates)
  (asked : In (sample_rate d) rates)
  (reliable : forall e pcm, Coders.encoder_codec e = d -> len pcm = ptime_samples d ->
    exists e' b, Coders.encode e pcm = (e', Some b))
  (Hdec : Coders.make_decoder c = Some dec0)
  (Henc : Coders.make_encoder_with_profile d profile = Some enc0)
  (Hseq : is_u16 seq) (HT0 : is_u32 T0)
  (Hstream : continuous c id ss dec0 seq T0 true pkts pcms) :
  exists st out chunks tail frames enc,
    Route.forward_all c d dst pt rates profile cap order (∅, ∅) pkts = Val (st, out) /\
    concat chunks ++ tail = concat pcms /\
    Forall (fun f => len f = ptime_samples c) chunks /\ len tail < ptime_samples c /\
    length out = length chunks /\
    (forall i p, out !! i = Some p ->
      Media.timestamp p = wrap32 (T0 * rtp_clock_rate d / rtp_clock_rate c
                                  + Z.of_nat i * (rtp_clock_rate d / 50)) /\
      Media.marker p = (i =? 0)%nat /\ payload_type p = pt) /\
    at_rate (sample_rate c) (sample_rate d) chunks = Val frames /\
    TranscodePipeline.encode_frames enc0 frames = (enc, Some (Media.payload <$> out)).
Proof.
  pose proof (rd_media _ _ media asked) as Hm.
  destruct (forward_all_spec _ _ exact rates media asked c eq_refl d eq_refl reliable id dst pt profile
    cap order dec0 enc0 Hdec Henc ss T0 HT0 pkts pcms seq [] [] [] [] [] dec0 ∅ ∅)
    as (ds & tc & out & chunks & outs & dec' & seq' & F & L & O & (s & _ & Tr & _) & (p & _ & _ & _ & _ & E)).
  - exists (SourceAudio.from_decoder dec0). rewrite lookup_empty. split_and!; try done.
    eapply fresh_tracks; [done | exact media | done | done |]. by apply Coders.make_decoder_codec.
  - exists (fresh_pipeline c d profile enc0). rewrite lookup_empty. split_and!; try done. cbn.
    by eapply Coders.make_encoder_codec.
  - unfold is_u16 in Hseq. by apply Z.mod_small.
  - cbn. unfold is_u32 in HT0. rewrite Z.add_0_r. unfold wrap32. by rewrite Z.mod_small.
  - done.
  - intros i q. by rewrite lookup_nil.
  - done.
  - cbn in *. destruct Tr as [_ _ Es Ech Et _ Ef _ _ _].
    exists (ds, tc), out, chunks, (PcmFrames.samples (SourceAudio.framer s)), outs, (TranscodePipeline.encoder p).
    split_and!; try done. by eapply follows_at_rate.
Qed.

(** Coders for evaluating examples: the linear byte for mu-law, repeated samples
    for G.722, silence for Opus. *)
#[local] Instance plain_libs : CodecLibs.
Proof.
  refine {|
    ulaw_decode b := (b mod 256) * 128 - 16384;
    ulaw_encode s := (s / 128 + 128) mod 256;
    G722Dec := unit; g722_decoder := tt;
    g722_decode u b := (u, flat_map (fun x => [x mod 256; x mod 256]) b);
    G722Enc := unit; g722_encoder := tt;
    g722_encode u pcm := (u, map (fun x => x mod 256) pcm);
    OpusDec := unit; opus_decoder := Some tt;
    opus_decode u _ _ := (u, None);
    OpusEnc := unit; opus_encoder := Some tt;
    opus_set_bitrate e _ := Some e;
    opus_set_vbr e _ := Some e;
    opus_set_max_bandwidth e _ := Some e;
    opus_encode e _ _ := (e, None);
  |}.
  - intros b. unfold is_i16. mlia.
  - intros s. unfold is_u8. mlia.
  - intros u b. cbn. induction b as [| x b [L F]]; cbn in *; [by split |]. split; [lia |].
    repeat constructor; try done; unfold is_i16; mlia.
  - intros u pcm. cbn. apply Forall_map, Forall_true. intros x. unfold is_u8. mlia.
  - done.
  - done.
Defined.

Definition example_packets : list (RoutedRtpPacket * Z) :=
  [(mkPacket 7 0 65535 4294967200 1 true (repeat 200 160), 0);
   (mkPacket 7 0 0 64 1 false (repeat 100 80), 5)].

Lemma transcoded_stream_witness :
  exists st out,
    Route.forward_all Pcmu (L16 16000) 9 127 [48000; 16000] Sdp.default_profile 2 [] (∅, ∅) example_packets
      = Val (st, out) /\
    forall i p, out !! i = Some p ->
      Media.timestamp p = wrap32 (4294967200 * 16000 / 8000 + Z.of_nat i * 320).
Proof.
  destruct (transcoded_stream Pcmu (L16 16000) [48000; 16000] 7 9 127 Sdp.default_profile 2 []
    Coders.PcmuDecoder (Coders.L16Encoder 16000) 1 65535 4294967200 example_packets
    [repeat 9216 160; repeat (-3584) 80]) as (st & out & chunks & tail & frames & enc & F & _ & _ & _ & _ & O & _).
  - by left.
  - apply Forall_cons_2; [by right; right; left |]. apply Forall_singleton. by right; left.
  - by right; left.
  - intros [| | | r] pcm; cbn; try done. intros _ _. by do 2 eexists.
  - done.
  - done.
  - done.
  - done.
  - cbn -[repeat]. split_and!; try done; by vm_compute.
  - exists st, out. split; [exact F |]. intros i p Hp. by destruct (O i p Hp).
Defined.

(** ** A file at 11025 Hz *)

Section odd.
Context {CL : CodecLibs}.

(** Frames given to a source one after the other, whatever becomes of each. *)
Fixpoint feed (s : SourceAudio.t) (rates : list Z) (pcms : list (list Z))
  : outcome (list (option (list SourceAudio.PcmFrame))) :=
  match pcms with
  | [] => Val []
  | pcm :: pcms =>
      let! (s, r) := SourceAudio.frames s pcm rates in
      let! rest := feed s rates pcms in
      Val (r :: rest)
  end.

Lemma push_whole f pcm :
  PcmFrames.samples f = [] -> PcmFrames.frame f = length pcm -> pcm <> [] ->
  PcmFrames.push f pcm = (f, Some [pcm]).
Proof.
  intros Hs Hf Hne. assert (0 < length pcm)%nat as Hl by (destruct pcm; [done | cbn; lia]).
  unfold PcmFrames.push. rewrite Hs, Hf. rewrite (proj2 (Nat.ltb_lt _ _)), (proj2 (Nat.leb_le _ _)) by lia.
  cbn [andb app]. destruct (length pcm) as [| k] eqn:E; [lia |]. cbn [PcmFrames.split_frames].
  rewrite E, Nat.leb_refl, <- E, drop_all, take_ge by lia.
  destruct k; cbn; [by destruct f; cbn in *; subst |]. rewrite E. by destruct f; cbn in *; subst.
Qed.

(** The file's source between two frames. *)
Definition between (pos : F64.t) (s : SourceAudio.t) : Prop :=
  SourceAudio.codec s = L16 11025 /\ SourceAudio.framer s = PcmFrames.new 11025 /\
  exists r, SourceAudio.resampler_for 11025 48000 (SourceAudio.resamplers s) = Val r /\
    Resampler.from_rate r = 11025 /\ Resampler.to_rate r = 48000 /\ Resampler.frac_pos r = pos.

Lemma convert_fails rs r pcm out r' :
  SourceAudio.resampler_for 11025 48000 rs = Val r -> Resampler.process r pcm = Val (out, r') ->
  len out <> 960 -> SourceAudio.convert 11025 pcm rs ∅ [48000] = Val (<[48000 := r']> rs, None).
Proof.
  intros Er P L. cbn [SourceAudio.convert]. change (negb _) with false. cbn match.
  rewrite (bool_decide_false (is_Some ((∅ : gmap Z (list Z)) !! 48000))) by (by rewrite lookup_empty; intros []).
  change ((48000 =? 11025) || false) with false. cbn match. rewrite Er. cbn [obind]. rewrite P. cbn [obind].
  change (48000 / 50) with 960. by rewrite (proj2 (Z.eqb_neq _ _) L).
Qed.

Lemma short_frame_fails k pos s pcm :
  Resampler.short_frames 11025 48000 (S k) pos = true -> between pos s -> len pcm = 220 ->
  exists s' next, SourceAudio.frames s pcm [48000] = Val (s', None) /\ between next s' /\
    Resampler.short_frames 11025 48000 k next = true.
Proof.
  intros Sh (Hc & Hf & r & Er & R1 & R2 & R3) Hl. cbn [Resampler.short_frames] in Sh.
  change (11025 / 50) with 220 in Sh. change (48000 / 50) with 960 in Sh.
  destruct (Resampler.frame_step 11025 48000 220 pos) as [[n next] |] eqn:St; [| done].
  apply andb_true_iff in Sh as [Hn Sh]. apply Z.ltb_lt in Hn.
  destruct (Resampler.process_frame r pcm n next) as (out & P & L & _).
  { unfold Resampler.is_passthrough. by rewrite R1, R2. }
  { by intros ->. }
  { by rewrite R1, R2, R3, Hl. }
  assert (PcmFrames.push (SourceAudio.framer s) pcm = (SourceAudio.framer s, Some [pcm])) as Pu.
  { rewrite Hf. apply push_whole; [done | change (Z.to_nat 220 = length pcm); unfold len in Hl; lia | by intros ->]. }
  assert (s {{ SourceAudio.framer := SourceAudio.framer s }} = s) as Id by (by destruct s).
  eexists _, next. unfold SourceAudio.frames. rewrite Pu, Id. cbn [SourceAudio.emit]. rewrite Hc.
  change (sample_rate (L16 11025)) with 11025. rewrite (convert_fails _ _ _ _ _ Er P) by lia. cbn [obind].
  split_and!; [reflexivity | | done]. destruct s; cbn in *. split_and!; try done.
  cbn. unfold SourceAudio.resampler_for. rewrite lookup_insert_eq. eexists. split; [reflexivity |].
  by destruct r.
Qed.

Lemma feed_fails pcms : forall k pos s,
  Resampler.short_frames 11025 48000 k pos = true -> between pos s ->
  Forall (fun pcm => len pcm = 220) pcms -> (length pcms <= k)%nat ->
  feed s [48000] pcms = Val (replicate (length pcms) None).
Proof.
  induction pcms as [| pcm pcms IH]; intros k pos s Sh B F Hk; [done |].
  apply Forall_cons in F as [Hp F]. destruct k as [| k]; [cbn in Hk; lia |].
  destruct (short_frame_fails k pos s pcm Sh B Hp) as (s' & next & E & B' & Sh').
  cbn [feed]. rewrite E. cbn [obind]. rewrite (IH k next s' Sh' B' F) by (cbn in Hk; lia). done.
Qed.

End odd.

(** Audio of a rate that is no multiple of 50 Hz is lost.  A file at
    11025 Hz, which the file endpoint accepts, is cut into frames of 220 samples,
    a little less than 20 ms, and 220 samples are too few for the 960 samples of
    a frame at 48 kHz: whatever the file contains, the conversion of each of its
    first frames fails, and a 48 kHz destination hears none of them. *)
Theorem odd_rate_lost `{CodecLibs} pcms
  (frames_of_file : Forall (fun pcm => len pcm = 11025 / 50) pcms) (first : (length pcms <= 5)%nat) :
  feed (SourceAudio.from_decoder (Coders.L16Decoder 11025)) [48000] pcms
  = Val (replicate (length pcms) None).
Proof.
  apply (feed_fails pcms 5 F64.zero); [apply Resampler.telephone_rate_short | | done | done].
  split_and!; try done. eexists. split; [reflexivity |]. done.
Qed.

Lemma odd_rate_lost_witness :
  feed (SourceAudio.from_decoder (Coders.L16Decoder 11025)) [48000] [repeat 5000 220; repeat 100 220]
  = Val [None; None].
Proof.
  exact (odd_rate_lost [repeat 5000 220; repeat 100 220]
    ltac:(apply Forall_cons_2; [done | apply Forall_singleton; done]) ltac:(cbn; lia)).
Defined.

End Stream.
