(* ===== verification/RtpEndpoint.v ===== *)
(** The plain-RTP endpoint ([session/endpoint_rtp.rs]): source approval and
    symmetric-RTP latching, the inbound RTP and RTCP handlers with SRTP
    decryption and rekeying, and the outbound timeline.

    Every [Instant::now()] of a handler is the argument [now]; random numbers
    and the verdict of [send_to] are arguments.  The sockets, the receive tasks
    and the SDP text are not part of the state. *)

From stdpp Require Import strings.
From S2P Require Import Prelude Rtp Rtcp SrtpBase Srtp Srtcp Media Stats Routing SocketPool Text Net Sdp.
#[local] Open Scope Z_scope.

(** [ipnet::IpNet] and its membership test. *)
Class IpNetworks := {
  IpNet : Type;
  net_contains : IpNet -> SocketPool.IpAddr -> bool;
}.

Module RtpEndpoint.
Import SocketPool(IpAddr, V4, V6).
Import Routing(EndpointDirection, SendRecv, SendOnly, RecvOnly, Inactive).

Export Net(SocketAddr, mkAddr, ip, port, flowinfo, scope_id, SocketAddr_eq_dec, is_ipv6, to_canonical).
Export Sdp(SdpCodec, mkCodec, pt, name, clock_rate, channels, maxptime, fmtp, SdpCrypto, mkCrypto, tag, suite,
  key_b64, key_lifetime_packets, OpusProfile, mkProfile, bitrate, playback_rate, stereo, min_packet_ms, max_packet_ms).

Definition rtcp_addr_from_rtp (rtp_addr : SocketAddr) : option SocketAddr :=
  if port rtp_addr + 1 <=? u16_max then Some (mkAddr (ip rtp_addr) (port rtp_addr + 1) 0 0) else None.

(** ** State *)

Inductive EndpointState :=
| New | Buffering | Connecting | Connected | Playing | Paused | Disconnected | Finished.

Inductive EndpointDirectionUpdate :=
| AutoUpdate | SendRecvUpdate | RecvOnlyUpdate | SendOnlyUpdate | InactiveUpdate.

Definition as_direction (u : EndpointDirectionUpdate) : option EndpointDirection :=
  match u with
  | AutoUpdate => None
  | SendRecvUpdate => Some SendRecv
  | RecvOnlyUpdate => Some RecvOnly
  | SendOnlyUpdate => Some SendOnly
  | InactiveUpdate => Some Inactive
  end.

Definition endpoint_direction_from_sdp (remote_dir : string) : option EndpointDirection :=
  if String.eqb remote_dir "sendrecv" then Some SendRecv
  else if String.eqb remote_dir "recvonly" then Some RecvOnly
  else if String.eqb remote_dir "sendonly" then Some SendOnly
  else if String.eqb remote_dir "inactive" then Some Inactive
  else None.

Section endpoint.
Context {C : Crypto} {NW : IpNetworks}.

Record t := mk {
  id : EndpointId;
  direction : EndpointDirection;
  state : EndpointState;
  stats : Stats.EndpointStats;
  raw_recv : Stats.RawRecvCounters;
  local_rtp_addr : SocketAddr;
  remote_rtp_addr : option SocketAddr;
  remote_rtcp_addr : option SocketAddr;
  source_networks : list IpNet;
  rtcp_addr_locked : bool;
  our_ssrc : Z;
  remote_ssrc : option Z;
  codecs : list SdpCodec;
  send_codec : option SdpCodec;
  recv_clock_rate : Z;
  telephone_event_pt : option Z;
  telephone_event_clock_rate : Z;
  rtcp_stats : Rtcp.RtcpStats;
  last_rtcp_sent : Z;
  seq_no : Z;
  last_rtp_timestamp : Z;
  last_outbound_ts : option Z;
  last_source_id : option EndpointId;
  last_source_ts : option Z;
  learned_step : option Z;
  dtmf_wire_ts : option Z;
  srtp_tx : option Srtp.SrtpContext;
  srtp_rx : option Srtp.SrtpContext;
  srtp_rx_new : option Srtp.SrtpContext;
  rekey_switchover : option Z;
  srtp_rx_key_b64 : option bytes;
  srtp_tx_key_b64 : option bytes;
  srtp_optional : bool;
  srtcp_tx : option Srtcp.SrtcpContext;
  srtcp_rx : option Srtcp.SrtcpContext;
  srtcp_rx_new : option Srtcp.SrtcpContext;
  rtcp_mux : bool;
  addr_locked : bool;
  rtp_latch_reset_at : Z;
  rtcp_latch_reset_at : Z;
  direction_auto : bool;
  offer_codec_constrained : bool;
  opus_receive_profile : OpusProfile;
  last_remote_direction : option EndpointDirection;
}.

Definition new (i : EndpointId) (dir : EndpointDirection) (rtp_addr : SocketAddr)
    (default_networks : list IpNet) (profile : OpusProfile) (random_ssrc random_seq now : Z) : t :=
  {| id := i; direction := dir; state := New; stats := Stats.new now;
     raw_recv := Stats.default_raw; local_rtp_addr := rtp_addr; remote_rtp_addr := None;
     remote_rtcp_addr := None; source_networks := default_networks; rtcp_addr_locked := false;
     our_ssrc := random_ssrc; remote_ssrc := None; codecs := []; send_codec := None;
     recv_clock_rate := 8000; telephone_event_pt := None; telephone_event_clock_rate := 8000;
     rtcp_stats := Rtcp.new; last_rtcp_sent := now; seq_no := random_seq;
     last_rtp_timestamp := 0; last_outbound_ts := None; last_source_id := None;
     last_source_ts := None; learned_step := None; dtmf_wire_ts := None; srtp_tx := None;
     srtp_rx := None; srtp_rx_new := None; rekey_switchover := None; srtp_rx_key_b64 := None;
     srtp_tx_key_b64 := None; srtp_optional := false; srtcp_tx := None; srtcp_rx := None;
     srtcp_rx_new := None; rtcp_mux := false; addr_locked := false; rtp_latch_reset_at := now;
     rtcp_latch_reset_at := now; direction_auto := bool_decide (dir = SendRecv);
     offer_codec_constrained := false; opus_receive_profile := profile;
     last_remote_direction := None |}.

(** ** Control operations *)

Definition set_direction_override (e : t) (update : EndpointDirectionUpdate) : t :=
  match as_direction update with
  | Some dir => e {{ direction := dir; direction_auto := false }}
  | None => e {{ direction_auto := true;
                 direction := default SendRecv (last_remote_direction e) }}
  end.

Definition bump_outbound_ssrc (e : t) (random_ssrc random_seq random_ts : Z) : t :=
  e {{ our_ssrc := random_ssrc; seq_no := random_seq; last_outbound_ts := None;
       last_source_id := None; last_source_ts := None; dtmf_wire_ts := None;
       last_rtp_timestamp := random_ts;
       rtcp_stats := Rtcp.reset_remote_receiver_report (rtcp_stats e) }}.

Definition reset_addr_lock (e : t) (reset_at : Z) : t :=
  e {{ addr_locked := false; rtcp_addr_locked := false;
       rtp_latch_reset_at := reset_at; rtcp_latch_reset_at := reset_at }}.

Definition reject_family_change (e : t) (remote : option SocketAddr) : bool :=
  match remote with
  | Some remote => negb (Bool.eqb (is_ipv6 remote) (is_ipv6 (local_rtp_addr e)))
  | None => false
  end.

(** *** SRTP keys *)

Definition remote_srtp_packet_lifetime (crypto : SdpCrypto) : Z :=
  default MAX_SRTP_PACKETS_PER_MASTER_KEY (key_lifetime_packets crypto).

Definition remote_srtp_contexts (crypto : SdpCrypto)
    : result srtp_error (Srtp.SrtpContext * Srtcp.SrtcpContext) :=
  let packet_lifetime := remote_srtp_packet_lifetime crypto in
  match Srtp.from_sdes_key_with_lifetime (key_b64 crypto) packet_lifetime with
  | Err e => Err e
  | Ok srtp =>
      match Srtcp.from_sdes_key_with_lifetime (key_b64 crypto) packet_lifetime with
      | Err e => Err e
      | Ok srtcp => Ok (srtp, srtcp)
      end
  end.

Definition has_srtp (e : t) : bool :=
  bool_decide (is_Some (srtp_rx e)) || bool_decide (is_Some (srtp_rx_new e)).

(** [a.or(b)] *)
Definition or_else {A} (a b : option A) : option A := match a with Some _ => a | None => b end.

Inductive lifetime_error := NoReceiveContext | LifetimeExpanded.

Definition validate_remote_srtp_lifetime_update (e : t) (crypto : SdpCrypto)
    : result lifetime_error unit :=
  if negb (bool_decide (srtp_rx_key_b64 e = Some (key_b64 crypto))) then Ok tt
  else
    match Srtp.packet_lifetime <$> or_else (srtp_rx_new e) (srtp_rx e) with
    | None => Err NoReceiveContext
    | Some current_lifetime =>
        if current_lifetime <? remote_srtp_packet_lifetime crypto then Err LifetimeExpanded
        else Ok tt
    end.

Definition tighten_remote_srtp_lifetime (e : t) (crypto : SdpCrypto) : t :=
  let packet_lifetime := remote_srtp_packet_lifetime crypto in
  let e :=
    match srtp_rx_new e, srtp_rx e with
    | Some c, _ => e {{ srtp_rx_new := Some (Srtp.tighten_packet_lifetime c packet_lifetime) }}
    | None, Some c => e {{ srtp_rx := Some (Srtp.tighten_packet_lifetime c packet_lifetime) }}
    | None, None => e
    end in
  match srtcp_rx_new e, srtcp_rx e with
  | Some c, _ => e {{ srtcp_rx_new := Some (Srtcp.tighten_packet_lifetime c packet_lifetime) }}
  | None, Some c => e {{ srtcp_rx := Some (Srtcp.tighten_packet_lifetime c packet_lifetime) }}
  | None, None => e
  end.

Inductive rekey_error := SrtpInactive | RekeyFailed (e : srtp_error).

(** The new key is the base64 text of 30 random bytes; the SDP text returned
    on success is not modelled. *)
Definition srtp_rekey (e : t) (b64_encoded : bytes) : t * result rekey_error unit :=
  match srtp_tx e with
  | None => (e, Err SrtpInactive)
  | Some _ =>
      match Srtp.from_sdes_key b64_encoded with
      | Err err => (e, Err (RekeyFailed err))
      | Ok tx =>
          let e := e {{ srtp_tx := Some tx }} in
          match Srtcp.from_sdes_key b64_encoded with
          | Err err => (e, Err (RekeyFailed err))
          | Ok rtcp_tx =>
              (e {{ srtcp_tx := Some rtcp_tx; srtp_tx_key_b64 := Some b64_encoded }}, Ok tt)
          end
      end
  end.

Definition check_rekey_switchover (e : t) (now : Z) : t :=
  match rekey_switchover e with
  | Some deadline =>
      if deadline <=? now then
        let e := match srtp_rx_new e with
                 | Some c => e {{ srtp_rx := Some c; srtp_rx_new := None }}
                 | None => e
                 end in
        let e := match srtcp_rx_new e with
                 | Some c => e {{ srtcp_rx := Some c; srtcp_rx_new := None }}
                 | None => e
                 end in
        e {{ rekey_switchover := None }}
      else e
  | None => e
  end.

(** ** Approval of sources *)

Definition latch_remote_addr (e : t) (source : SocketAddr) : t :=
  let e := e {{ remote_rtp_addr := Some source }} in
  if rtcp_mux e then e {{ remote_rtcp_addr := Some source }} else e.

Definition source_allowed (e : t) (source : SocketAddr) (received_at : Z) (rtcp : bool) : bool :=
  if negb (Bool.eqb (is_ipv6 source) (is_ipv6 (local_rtp_addr e))) then false
  else
    match (if rtcp then remote_rtcp_addr e else remote_rtp_addr e) with
    | None => false
    | Some expected =>
        let locked := if rtcp && negb (rtcp_mux e) then rtcp_addr_locked e else addr_locked e in
        if locked then bool_decide (source = expected)
        else
          let latch_reset_at :=
            if rtcp && negb (rtcp_mux e) then rtcp_latch_reset_at e else rtp_latch_reset_at e in
          if received_at <? latch_reset_at then false
          else
            let i := to_canonical (ip source) in
            bool_decide (i = to_canonical (ip expected))
            || existsb (fun network => net_contains network i) (source_networks e)
    end.

(** The demultiplexing test on the RTP socket. *)
Definition is_rtcp_mux_packet (data : bytes) : outcome bool :=
  if 2 <=? len data then
    let! p := get data 1 in
    Val ((200 <=? p) && (p <=? 204))
  else Val false.

(** ** Inbound RTP *)

(** Decryption during and outside a rekey transition: the new context first,
    then the old one; [None] when the datagram is discarded. *)
Definition decrypt_rtp (e : t) (data : bytes) : outcome (t * option bytes) :=
  match srtp_rx_new e with
  | Some new_ctx =>
      let! (new_ctx, r) := Srtp.unprotect new_ctx data in
      match r with
      | Ok d => Val (e {{ srtp_rx := Some new_ctx; srtp_rx_new := None }}, Some d)
      | Err _ =>
          let e := e {{ srtp_rx_new := Some new_ctx }} in
          match srtp_rx e with
          | Some old_ctx =>
              let! (old_ctx, r) := Srtp.unprotect old_ctx data in
              Val (e {{ srtp_rx := Some old_ctx }}, match r with Ok d => Some d | Err _ => None end)
          | None => Val (e, None)
          end
      end
  | None =>
      match srtp_rx e with
      | Some ctx =>
          let! (ctx, r) := Srtp.unprotect ctx data in
          Val (e {{ srtp_rx := Some ctx }}, match r with Ok d => Some d | Err _ => None end)
      | None => Val (e, Some data)
      end
  end.

Definition known_payload_type (e : t) (p : Z) : bool :=
  existsb (fun codec => pt codec =? p) (codecs e)
  || match send_codec e with Some codec => pt codec =? p | None => false end
  || bool_decide (telephone_event_pt e = Some p).

(** Padding longer than the payload, or of length 0. *)
Definition bad_padding (header : RtpHeader.t) (data : bytes) : bool :=
  RtpHeader.padding header &&
  match last data with
  | None => true
  | Some padding => (padding =? 0) || (len data - RtpHeader.header_len header <? padding)
  end.

(** The state after a validated packet: identity, latch and statistics. *)
Definition accept_rtp (e : t) (header : RtpHeader.t) (payload : bytes) (source : SocketAddr)
    (now : Z) : t :=
  let e := e {{ remote_ssrc := Some (RtpHeader.ssrc header) }} in
  let e := if negb (addr_locked e) then (latch_remote_addr e source) {{ addr_locked := true }}
           else e in
  e {{ stats := Stats.record_inbound (stats e) (len payload) now;
       rtcp_stats := Rtcp.record_received (rtcp_stats e) (RtpHeader.ssrc header)
                       (RtpHeader.sequence_number header) (RtpHeader.timestamp header)
                       (len payload) (recv_clock_rate e) now }}.

Definition handle_rtp_at (e : t) (data : bytes) (source : SocketAddr) (received_at now : Z)
    : outcome (t * option RoutedRtpPacket) :=
  let e := check_rekey_switchover e now in
  if negb (source_allowed e source received_at false)
  then Val (e {{ raw_recv := Stats.record_source_rejection (raw_recv e) }}, None)
  else
    let! wire_header := RtpHeader.parse data in
    match wire_header with
    | None => Val (e, None)
    | Some wire_header =>
        if negb (known_payload_type e (RtpHeader.payload_type wire_header)) then Val (e, None)
        else
          let! (e, decrypted) := decrypt_rtp e data in
          match decrypted with
          | None => Val (e, None)
          | Some data =>
              let! header := RtpHeader.parse data in
              match header with
              | None => Val (e, None)
              | Some header =>
                  if bad_padding header data then Val (e, None)
                  else
                    let! payload := RtpHeader.payload header data in
                    Val (accept_rtp e header payload source now,
                         Some {| source_endpoint_id := id e;
                                 payload_type := RtpHeader.payload_type header;
                                 sequence_number := RtpHeader.sequence_number header;
                                 timestamp := RtpHeader.timestamp header;
                                 ssrc := RtpHeader.ssrc header;
                                 marker := RtpHeader.marker header;
                                 payload := payload |})
              end
          end
    end.

(** ** Inbound RTCP *)

Definition decrypt_rtcp (e : t) (data : bytes) : outcome (t * option bytes) :=
  match srtcp_rx_new e with
  | Some new_ctx =>
      let! (new_ctx, r) := Srtcp.unprotect_rtcp new_ctx data in
      match r with
      | Ok d => Val (e {{ srtcp_rx := Some new_ctx; srtcp_rx_new := None }}, Some d)
      | Err _ =>
          let e := e {{ srtcp_rx_new := Some new_ctx }} in
          match srtcp_rx e with
          | Some ctx =>
              let! (ctx, r) := Srtcp.unprotect_rtcp ctx data in
              Val (e {{ srtcp_rx := Some ctx }}, match r with Ok d => Some d | Err _ => None end)
          | None => Val (e, None)
          end
      end
  | None =>
      match srtcp_rx e with
      | Some ctx =>
          let! (ctx, r) := Srtcp.unprotect_rtcp ctx data in
          Val (e {{ srtcp_rx := Some ctx }}, match r with Ok d => Some d | Err _ => None end)
      | None => Val (e, Some data)
      end
  end.

Definition process_blocks (ssrc now : Z) (sys : Z * Z) (blocks : list Rtcp.ReportBlock)
    (s : Rtcp.RtcpStats) : Rtcp.RtcpStats :=
  fold_left (fun s block => Rtcp.process_rr s block ssrc now sys) blocks s.

Definition process_packet (ssrc now : Z) (sys : Z * Z)
    (acc : Rtcp.RtcpStats * option Rtcp.ByePacket) (p : Rtcp.RtcpPacket)
    : Rtcp.RtcpStats * option Rtcp.ByePacket :=
  let '(s, bye_result) := acc in
  match p with
  | Rtcp.SenderReportP sr =>
      (Rtcp.process_sr (process_blocks ssrc now sys (Rtcp.sr_report_blocks sr) s) sr now, bye_result)
  | Rtcp.ReceiverReportP rr => (process_blocks ssrc now sys (Rtcp.rr_report_blocks rr) s, bye_result)
  | Rtcp.ByeP bye => (s, Some bye)
  end.

(** The address latch of a validated compound packet. *)
Definition latch_rtcp (e : t) (source : SocketAddr) : t :=
  let e := e {{ remote_rtcp_addr := Some source; rtcp_addr_locked := true }} in
  if rtcp_mux e then e {{ remote_rtp_addr := Some source; addr_locked := true }} else e.

(** [sys] is the system clock read by [process_rr]. *)
Definition handle_rtcp_at (e : t) (data : bytes) (source : SocketAddr) (received_at now : Z)
    (sys : Z * Z) : outcome (t * (option Rtcp.ByePacket * option bytes)) :=
  let e := check_rekey_switchover e now in
  if negb (source_allowed e source received_at true)
  then Val (e {{ raw_recv := Stats.record_source_rejection (raw_recv e) }}, (None, None))
  else
    let! (e, decrypted) := decrypt_rtcp e data in
    match decrypted with
    | None => Val (e, (None, None))
    | Some plain =>
        let! valid := Rtcp.valid_compound plain in
        if negb valid then Val (e, (None, None))
        else
          let e := latch_rtcp e source in
          let! packets := Rtcp.parse_rtcp plain in
          let '(s, bye_result) :=
            fold_left (process_packet (our_ssrc e) now sys) packets (rtcp_stats e, None) in
          Val (e {{ rtcp_stats := s }}, (bye_result, Some plain))
    end.

(** ** Outbound media *)

Definition nominal_step (e : t) : Z :=
  match send_codec e with Some c => clock_rate c / 50 | None => 160 end.
Definition bump (e : t) : Z := default (nominal_step e) (learned_step e).

Definition advance_outbound_timeline (e : t) (source_id : EndpointId) (source_ts : Z)
    (source_marker : bool) : t * (Z * bool) :=
  let b := bump e in
  let changed last_out := (e, wrap32 (last_out + b), true) in
  let '(e, outbound_ts, marker_override) :=
    match last_outbound_ts e, last_source_id e, last_source_ts e with
    | Some last_out, Some last_src, Some last_src_ts =>
        if last_src =? source_id then
          let delta := wrap32 (source_ts - last_src_ts) in
          let max_safe := sat_mul32 b 10 in
          if delta =? 0 then (e, last_out, false)
          else if max_safe <? delta then (e, wrap32 (last_out + b), true)
          else
            let e := if delta <=? sat_mul32 b 2 then e {{ learned_step := Some delta }} else e in
            (e, wrap32 (last_out + delta), false)
        else changed last_out
    | Some last_out, _, _ => changed last_out
    | None, _, _ => (e, source_ts, source_marker)
    end in
  (e {{ last_outbound_ts := Some outbound_ts; last_source_id := Some source_id;
        last_source_ts := Some source_ts }},
   (outbound_ts, source_marker || marker_override)).

Definition dtmf_outbound_ts (e : t) (marker : bool) (fallback_ts : Z) : t * Z :=
  let anchored :=
    let b := telephone_event_clock_rate e / 50 in
    let anchor := match last_outbound_ts e with
                  | None => fallback_ts
                  | Some ts => wrap32 (ts + b)
                  end in
    (e {{ dtmf_wire_ts := Some anchor; last_outbound_ts := Some anchor }}, anchor) in
  if marker then anchored
  else match dtmf_wire_ts e with Some ts => (e, ts) | None => anchored end.

(** The timestamp and marker of an outbound packet. *)
Definition stamp (e : t) (packet : RoutedRtpPacket) : t * (Z * bool) :=
  if bool_decide (Some (payload_type packet) = telephone_event_pt e) then
    let '(e, ts) := dtmf_outbound_ts e (marker packet) (timestamp packet) in
    (e, (ts, marker packet))
  else advance_outbound_timeline e (source_endpoint_id packet) (timestamp packet) (marker packet).

Inductive write_error := NoRemoteAddress | ProtectFailed (e : srtp_error) | SendFailed.

(** What a write hands to the socket. *)
Definition datagram : Type := bytes * SocketAddr.

Definition send_datagram {A} (e : t) (d : bytes) (remote : SocketAddr) (send_ok : bool) (a : A)
    : t * list datagram * result write_error A :=
  (e, [(d, remote)], if send_ok then Ok a else Err SendFailed).

Definition write_rtp (e : t) (packet : RoutedRtpPacket) (send_ok : bool)
    : outcome (t * list datagram * result write_error (option bytes)) :=
  match remote_rtp_addr e with
  | None => Val (e, [], Err NoRemoteAddress)
  | Some remote =>
      if bool_decide (remote_ssrc e = None) then Val (e, [], Ok None)
      else
        let '(e, (outbound_ts, m)) := stamp e packet in
        let unencrypted := RtpHeader.build (payload_type packet) (seq_no e) outbound_ts (our_ssrc e)
                             m (payload packet) in
        let e := e {{ seq_no := wrap16 (seq_no e + 1); last_rtp_timestamp := outbound_ts;
                      stats := Stats.record_outbound (stats e) (len (payload packet));
                      rtcp_stats := Rtcp.record_sent (rtcp_stats e) (len (payload packet)) }} in
        match srtp_tx e with
        | Some ctx =>
            let! (ctx, r) := Srtp.protect ctx unencrypted in
            let e := e {{ srtp_tx := Some ctx }} in
            match r with
            | Err err => Val (e, [], Err (ProtectFailed err))
            | Ok encrypted => Val (send_datagram e encrypted remote send_ok (Some unencrypted))
            end
        | None => Val (send_datagram e unencrypted remote send_ok (Some unencrypted))
        end
  end.

Definition RTCP_INTERVAL : Z := 5 * ns_per_s.

Definition maybe_send_rtcp (e : t) (send_ok : bool) (now : Z) (sys : Z * Z)
    : outcome (t * list datagram * result write_error (option bytes)) :=
  if duration_since now (last_rtcp_sent e) <? RTCP_INTERVAL then Val (e, [], Ok None)
  else
    match remote_rtcp_addr e, remote_ssrc e with
    | Some remote_rtcp, Some remote_ssrc =>
        let rate := match send_codec e with Some c => clock_rate c | None => 8000 end in
        let '(rtcp_data, s) :=
          Rtcp.build_sr_rr (our_ssrc e) remote_ssrc (rtcp_stats e) (last_rtp_timestamp e) rate
            now sys in
        let e := e {{ rtcp_stats := s }} in
        let! (e, send_data) :=
          match srtcp_tx e with
          | Some ctx =>
              let! (ctx, r) := Srtcp.protect_rtcp ctx rtcp_data in
              Val (e {{ srtcp_tx := Some ctx }}, r)
          | None => Val (e, Ok rtcp_data)
          end in
        match send_data with
        | Err err => Val (e, [], Err (ProtectFailed err))
        | Ok send_data =>
            Val (send_datagram (if send_ok then e {{ last_rtcp_sent := now }} else e)
                   send_data remote_rtcp send_ok (Some rtcp_data))
        end
    | _, _ => Val (e, [], Ok None)
    end.

(** ** The session's use of the endpoint *)

Record InboundPacket := mkInbound {
  endpoint_id : EndpointId;
  source : SocketAddr;
  data : bytes;
  recv_at : Z;
  is_rtcp : bool;
  local : option SocketAddr;
}.

(** The plain-RTP arm of [process_inbound_packet]: the media packet, the RTCP
    to record and the BYE. *)
Definition receive (rep : t) (pkt : InboundPacket) (now : Z) (sys : Z * Z)
    : outcome (t * (option RoutedRtpPacket * option (EndpointId * bytes)
                    * option (EndpointId * Rtcp.ByePacket))) :=
  let! mux_rtcp := is_rtcp_mux_packet (data pkt) in
  if is_rtcp pkt || (rtcp_mux rep && mux_rtcp) then
    let! (rep, (bye, decrypted_rtcp)) :=
      handle_rtcp_at rep (data pkt) (source pkt) (recv_at pkt) now sys in
    Val (rep, (None, pair (endpoint_id pkt) <$> decrypted_rtcp, pair (endpoint_id pkt) <$> bye))
  else
    let! (rep, result) := handle_rtp_at rep (data pkt) (source pkt) (recv_at pkt) now in
    Val (rep, (result, None, None)).

Definition is_sending (d : EndpointDirection) : bool :=
  match d with SendRecv | RecvOnly => true | SendOnly | Inactive => false end.

(** The plain-RTP arm of [handle_update_direction]. *)
Definition handle_update_direction (rep : t) (u : EndpointDirectionUpdate)
    (now random_ssrc random_seq random_ts : Z) : t :=
  let prev_dir := direction rep in
  let rep := reset_addr_lock (set_direction_override rep u) now in
  if negb (is_sending prev_dir) && is_sending (direction rep)
  then bump_outbound_ssrc rep random_ssrc random_seq random_ts else rep.

(** What can happen to an endpoint between two SDP negotiations. *)
Inductive op :=
| Receive (pkt : InboundPacket) (now : Z) (sys : Z * Z)
| Write (packet : RoutedRtpPacket) (send_ok : bool)
| SendReport (send_ok : bool) (now : Z) (sys : Z * Z)
| UpdateDirection (u : EndpointDirectionUpdate) (now random_ssrc random_seq random_ts : Z)
| Rekey (b64_encoded : bytes)
| Switchover (now : Z).

Inductive outgoing := MediaOut (d : bytes) (to : SocketAddr) | ReportOut (d : bytes) (to : SocketAddr).

Definition apply_op (e : t) (o : op) : outcome (t * list outgoing) :=
  match o with
  | Receive pkt now sys => let! (e, _) := receive e pkt now sys in Val (e, [])
  | Write packet ok =>
      let! (e, ds, _) := write_rtp e packet ok in Val (e, (fun d => MediaOut d.1 d.2) <$> ds)
  | SendReport ok now sys =>
      let! (e, ds, _) := maybe_send_rtcp e ok now sys in
      Val (e, (fun d => ReportOut d.1 d.2) <$> ds)
  | UpdateDirection u now r1 r2 r3 => Val (handle_update_direction e u now r1 r2 r3, [])
  | Rekey key => Val ((srtp_rekey e key).1, [])
  | Switchover now => Val (check_rekey_switchover e now, [])
  end.

Fixpoint run (e : t) (ops : list op) : outcome (t * list outgoing) :=
  match ops with
  | [] => Val (e, [])
  | o :: ops =>
      let! (e, out) := apply_op e o in
      let! (e, rest) := run e ops in
      Val (e, out ++ rest)
  end.

(** ** Addressing: what may change where the endpoint sends *)

(** The part of the state that decides it. *)
Definition addressing (e : t) :=
  (local_rtp_addr e, source_networks e, rtcp_mux e, remote_rtp_addr e, remote_rtcp_addr e,
   addr_locked e, rtcp_addr_locked e, rtp_latch_reset_at e, rtcp_latch_reset_at e).

Lemma source_allowed_view e e' src at_ b :
  addressing e = addressing e' -> source_allowed e src at_ b = source_allowed e' src at_ b.
Proof. unfold addressing. intros [= H1 H2 H3 H4 H5 H6 H7 H8 H9]. unfold source_allowed.
  by rewrite H1, H2, H3, H4, H5, H6, H7, H8, H9. Qed.

Lemma switchover_addressing e now : addressing (check_rekey_switchover e now) = addressing e.
Proof.
  unfold check_rekey_switchover. destruct (rekey_switchover e); [| done]. split_if; [| done].
  destruct (srtp_rx_new e); destruct e as [? ? ? ? ? ? ? ? ? ? ? ? ? ? ? ? ? ? ? ? ? ? ? ? ? ? ? ? ? ?
    ? ? ? ? ? []]; done.
Qed.

(** Decryption touches the receive contexts only, and yields bytes. *)
Lemma decrypt_rtp_spec e d :
  are_bytes d ->
  exists rx rxn out, decrypt_rtp e d = Val (e {{ srtp_rx := rx; srtp_rx_new := rxn }}, out) /\
    forall x, out = Some x -> are_bytes x.
Proof.
  intros Hd. unfold decrypt_rtp. destruct (srtp_rx_new e) as [c |] eqn:En.
  - destruct (Srtp.unprotect_verdict c d Hd) as (c' & r & -> & _ & B). cbn [obind].
    destruct r as [x | err].
    + exists (Some c'), None, (Some x). split; [done |]. intros y [= <-]. by apply B.
    + replace (srtp_rx (e {{ srtp_rx_new := Some c' }})) with (srtp_rx e) by by destruct e.
      destruct (srtp_rx e) as [c2 |] eqn:Eo.
      * destruct (Srtp.unprotect_verdict c2 d Hd) as (c2' & r2 & -> & _ & B2). cbn [obind].
        exists (Some c2'), (Some c'). eexists. split; [by destruct e |]. destruct r2; [| done]. intros y [= <-]. by apply B2.
      * exists None, (Some c'), None. split; [| done]. destruct e. cbn in *. by subst.
  - destruct (srtp_rx e) as [c |] eqn:Eo.
    + destruct (Srtp.unprotect_verdict c d Hd) as (c' & r & -> & _ & B). cbn [obind].
      exists (Some c'), None. eexists. split; [destruct e; cbn in *; by subst |].
      destruct r; [| done]. intros y [= <-]. by apply B.
    + exists None, None, (Some d). split; [destruct e; cbn in *; by subst |]. by intros x [= <-].
Qed.

Lemma decrypt_rtcp_spec e d :
  are_bytes d ->
  exists rx rxn out, decrypt_rtcp e d = Val (e {{ srtcp_rx := rx; srtcp_rx_new := rxn }}, out) /\
    forall x, out = Some x -> are_bytes x.
Proof.
  intros Hd. unfold decrypt_rtcp. destruct (srtcp_rx_new e) as [c |] eqn:En.
  - destruct (Srtcp.unprotect_rtcp_cases c d Hd) as (c' & r & -> & _ & B). cbn [obind].
    destruct r as [x | err].
    + exists (Some c'), None, (Some x). split; [done |]. intros y [= <-]. by apply B.
    + replace (srtcp_rx (e {{ srtcp_rx_new := Some c' }})) with (srtcp_rx e) by by destruct e.
      destruct (srtcp_rx e) as [c2 |] eqn:Eo.
      * destruct (Srtcp.unprotect_rtcp_cases c2 d Hd) as (c2' & r2 & -> & _ & B2). cbn [obind].
        exists (Some c2'), (Some c'). eexists. split; [by destruct e |]. destruct r2; [| done]. intros y [= <-]. by apply B2.
      * exists None, (Some c'), None. split; [| done]. destruct e. cbn in *. by subst.
  - destruct (srtcp_rx e) as [c |] eqn:Eo.
    + destruct (Srtcp.unprotect_rtcp_cases c d Hd) as (c' & r & -> & _ & B). cbn [obind].
      exists (Some c'), None. eexists. split; [destruct e; cbn in *; by subst |].
      destruct r; [| done]. intros y [= <-]. by apply B.
    + exists None, None, (Some d). split; [destruct e; cbn in *; by subst |]. by intros x [= <-].
Qed.

(** The address latch of the inbound media handler. *)
Definition latched (e : t) (src : SocketAddr) : t :=
  if addr_locked e then e else (latch_remote_addr e src) {{ addr_locked := true }}.

Lemma accept_addressing e h p src now :
  addressing (accept_rtp e h p src now) = addressing (latched e src).
Proof.
  unfold accept_rtp, latched, latch_remote_addr. destruct e as []; cbn.
  destruct addr_locked0; cbn; [| destruct rtcp_mux0]; done.
Qed.

Lemma latched_addressing e src :
  addressing (latched e src) =
    if addr_locked e then addressing e
    else (local_rtp_addr e, source_networks e, rtcp_mux e, Some src,
          (if rtcp_mux e then Some src else remote_rtcp_addr e),
          true, rtcp_addr_locked e, rtp_latch_reset_at e, rtcp_latch_reset_at e).
Proof.
  unfold latched, latch_remote_addr. destruct e as []; cbn.
  destruct addr_locked0; [| destruct rtcp_mux0]; done.
Qed.

Lemma latch_rtcp_addressing e src :
  addressing (latch_rtcp e src) =
    (local_rtp_addr e, source_networks e, rtcp_mux e,
     (if rtcp_mux e then Some src else remote_rtp_addr e), Some src,
     (if rtcp_mux e then true else addr_locked e), true,
     rtp_latch_reset_at e, rtcp_latch_reset_at e).
Proof. unfold latch_rtcp. destruct e as []; cbn. destruct rtcp_mux0; done. Qed.

Lemma reset_addressing e now :
  addressing (reset_addr_lock e now) =
    (local_rtp_addr e, source_networks e, rtcp_mux e, remote_rtp_addr e, remote_rtcp_addr e,
     false, false, now, now).
Proof. by destruct e. Qed.

Lemma latched_view e e' src :
  addressing e = addressing e' -> addressing (latched e src) = addressing (latched e' src).
Proof.
  intros H. rewrite !latched_addressing, H. unfold addressing in H.
  injection H as H1 H2 H3 H4 H5 H6 H7 H8 H9. by rewrite ?H1, ?H2, ?H3, ?H4, ?H5, ?H6, ?H7, ?H8, ?H9.
Qed.

Lemma latch_rtcp_view e e' src :
  addressing e = addressing e' -> addressing (latch_rtcp e src) = addressing (latch_rtcp e' src).
Proof.
  intros H. rewrite !latch_rtcp_addressing. unfold addressing in H.
  injection H as H1 H2 H3 H4 H5 H6 H7 H8 H9. by rewrite ?H1, ?H2, ?H3, ?H4, ?H5, ?H6, ?H7, ?H8, ?H9.
Qed.

Lemma handle_rtp_at_spec e d src at_ now :
  are_bytes d ->
  exists e' out, handle_rtp_at e d src at_ now = Val (e', out) /\
    (addressing e' = addressing e \/
     source_allowed e src at_ false = true /\ addressing e' = addressing (latched e src)).
Proof.
  intros Hd. unfold handle_rtp_at. pose proof (switchover_addressing e now) as V.
  generalize dependent (check_rekey_switchover e now). intros e1 V.
  rewrite (source_allowed_view e1 e src at_ false V).
  destruct (source_allowed e src at_ false); cbn [negb];
    [| do 2 eexists; split; [done | left; rewrite <- V; by destruct e1]].
  destruct (RtpHeader.parse_cases d Hd) as [-> | (h & -> & _)]; cbn [obind]; [by eauto 6 |].
  split_if; [by eauto 6 |].
  destruct (decrypt_rtp_spec e1 d Hd) as (rx & rxn & out & -> & B). cbn [obind].
  assert (V2 : addressing (e1 {{ srtp_rx := rx; srtp_rx_new := rxn }}) = addressing e)
    by (rewrite <- V; by destruct e1).
  generalize dependent (e1 {{ srtp_rx := rx; srtp_rx_new := rxn }}). intros e2 V2.
  destruct out as [x |]; [| by eauto 6].
  specialize (B x eq_refl).
  destruct (RtpHeader.parse_cases x B) as [-> | (h2 & E2 & _)]; cbn [obind]; [by eauto 6 |].
  destruct (RtpHeader.payload_val x h2 B E2) as [pl Ep]. rewrite E2. cbn [obind].
  split_if; [by eauto 6 |]. rewrite Ep. cbn [obind]. do 2 eexists. split; [done |]. right.
  split; [done |]. by rewrite accept_addressing, (latched_view e2 e).
Qed.

Lemma handle_rtcp_at_spec e d src at_ now sys :
  are_bytes d ->
  exists e' out, handle_rtcp_at e d src at_ now sys = Val (e', out) /\
    (addressing e' = addressing e \/
     source_allowed e src at_ true = true /\ addressing e' = addressing (latch_rtcp e src)).
Proof.
  intros Hd. unfold handle_rtcp_at. pose proof (switchover_addressing e now) as V.
  generalize dependent (check_rekey_switchover e now). intros e1 V.
  rewrite (source_allowed_view e1 e src at_ true V).
  destruct (source_allowed e src at_ true); cbn [negb];
    [| do 2 eexists; split; [done | left; rewrite <- V; by destruct e1]].
  destruct (decrypt_rtcp_spec e1 d Hd) as (rx & rxn & out & -> & B). cbn [obind].
  assert (V2 : addressing (e1 {{ srtcp_rx := rx; srtcp_rx_new := rxn }}) = addressing e)
    by (rewrite <- V; by destruct e1).
  generalize dependent (e1 {{ srtcp_rx := rx; srtcp_rx_new := rxn }}). intros e2 V2.
  destruct out as [x |]; [| by eauto 6].
  specialize (B x eq_refl). destruct (Rtcp.valid_compound_total x B) as [v ->]. cbn [obind].
  split_if; [by eauto 6 |].
  destruct (Rtcp.parse_rtcp_val x B) as [ps ->]. cbn [obind].
  destruct (fold_left _ _ _) as [s bye]. do 2 eexists. split; [done |]. right. split; [done |].
  rewrite <- (latch_rtcp_view e2 e) by done. by destruct (latch_rtcp e2 src).
Qed.

(** The timeline operations change the timeline only. *)
Definition timeline (e e' : t) : Prop :=
  e' {{ last_outbound_ts := last_outbound_ts e; last_source_id := last_source_id e;
        last_source_ts := last_source_ts e; learned_step := learned_step e;
        dtmf_wire_ts := dtmf_wire_ts e }} = e.

Lemma advance_timeline e i ts m : timeline e (advance_outbound_timeline e i ts m).1.
Proof.
  unfold advance_outbound_timeline, timeline.
  destruct (last_outbound_ts e) as [lo |] eqn:E1, (last_source_id e) as [li |] eqn:E2,
    (last_source_ts e) as [lt |] eqn:E3; cbn zeta; split_ifs;
    destruct e as []; cbn in *; by subst.
Qed.

Lemma dtmf_timeline e m ts : timeline e (dtmf_outbound_ts e m ts).1.
Proof.
  unfold dtmf_outbound_ts, timeline.
  destruct m, (dtmf_wire_ts e) eqn:E; destruct e as []; cbn in *; by subst.
Qed.

Lemma stamp_timeline e packet : timeline e (stamp e packet).1.
Proof.
  unfold stamp. case_bool_decide; [| apply advance_timeline].
  pose proof (dtmf_timeline e (marker packet) (timestamp packet)).
  by destruct (dtmf_outbound_ts _ _ _).
Qed.

Lemma write_rtp_spec e p ok :
  are_bytes (payload p) ->
  exists e' ds r, write_rtp e p ok = Val (e', ds, r) /\ addressing e' = addressing e /\
    Forall (fun d => remote_rtp_addr e = Some d.2) ds.
Proof.
  intros Hp. unfold write_rtp.
  destruct (remote_rtp_addr e) as [remote |] eqn:Er; [| by do 3 eexists].
  case_bool_decide; [by do 3 eexists |].
  pose proof (stamp_timeline e p) as Es. destruct (stamp e p) as [e1 [ts m]]. cbn [fst] in Es.
  assert (V : addressing e1 = addressing e) by (rewrite <- Es; by destruct e1). clear Es.
  pose proof (RtpHeader.build_bytes (payload_type p) (seq_no e1) ts (our_ssrc e1) m (payload p) Hp) as Hb.
  destruct e1 as []; cbn zeta; cbn [srtp_tx].
  match goal with |- context [match ?x with Some _ => _ | None => _ end] => destruct x as [ctx |] end.
  - destruct (Srtp.protect_val ctx _ Hb) as (c' & r & ->). cbn [obind].
    destruct r; do 3 eexists; (split; [done | split; [exact V | repeat constructor]]).
  - do 3 eexists. split; [done | split; [exact V | repeat constructor]].
Qed.

Lemma maybe_send_rtcp_spec e ok now sys :
  exists e' ds r, maybe_send_rtcp e ok now sys = Val (e', ds, r) /\ addressing e' = addressing e /\
    Forall (fun d => remote_rtcp_addr e = Some d.2) ds.
Proof.
  unfold maybe_send_rtcp. split_if; [by do 3 eexists |].
  destruct (remote_rtcp_addr e) as [remote |] eqn:Er; [| by do 3 eexists].
  destruct (remote_ssrc e) as [rs |]; [| by do 3 eexists].
  destruct (Rtcp.build_sr_rr _ _ _ _ _ _ _) as [d s]. destruct e as []; cbn zeta; cbn [srtcp_tx].
  match goal with |- context [match ?x with Some _ => _ | None => _ end] => destruct x as [ctx |] end.
  - destruct (Srtcp.protect_rtcp_val ctx d) as (c' & r & ->). cbn [obind].
    destruct r; do 3 eexists; (split; [done |]); split; try (by repeat constructor); by destruct ok.
  - cbn [obind]. do 3 eexists. split; [done |]. split; [by destruct ok | by repeat constructor].
Qed.

(** *** One operation *)

Definition typed_op (o : op) : Prop :=
  match o with
  | Receive pkt _ _ => are_bytes (data pkt)
  | Write packet _ => are_bytes (payload packet)
  | _ => True
  end.

(** Where an operation may leave the addressing. *)
Inductive moves (e : t) : op -> t -> Prop :=
| Unmoved o e' : addressing e' = addressing e -> moves e o e'
| Latched pkt now sys e' :
    source_allowed e (source pkt) (recv_at pkt) false = true ->
    addressing e' = addressing (latched e (source pkt)) -> moves e (Receive pkt now sys) e'
| LatchedRtcp pkt now sys e' :
    source_allowed e (source pkt) (recv_at pkt) true = true ->
    addressing e' = addressing (latch_rtcp e (source pkt)) -> moves e (Receive pkt now sys) e'
| Released u now r1 r2 r3 e' :
    addressing e' = addressing (reset_addr_lock e now) ->
    moves e (UpdateDirection u now r1 r2 r3) e'.

Definition addressed (e : t) (o : outgoing) : Prop :=
  match o with
  | MediaOut _ a => remote_rtp_addr e = Some a
  | ReportOut _ a => remote_rtcp_addr e = Some a
  end.

Lemma is_rtcp_mux_packet_val d : exists b, is_rtcp_mux_packet d = Val b.
Proof. unfold is_rtcp_mux_packet. split_if; [| by eexists]. reads. by eexists. Qed.

Lemma receive_spec e pkt now sys :
  are_bytes (data pkt) ->
  exists e' r, receive e pkt now sys = Val (e', r) /\ moves e (Receive pkt now sys) e'.
Proof.
  intros Hd. unfold receive. destruct (is_rtcp_mux_packet_val (data pkt)) as [b ->]. cbn [obind].
  destruct (_ || _).
  - destruct (handle_rtcp_at_spec e (data pkt) (source pkt) (recv_at pkt) now sys Hd)
      as (e' & [bye dec] & -> & M). cbn [obind]. do 2 eexists. split; [done |].
    destruct M as [M | [A M]]; [by apply Unmoved | by apply LatchedRtcp].
  - destruct (handle_rtp_at_spec e (data pkt) (source pkt) (recv_at pkt) now Hd)
      as (e' & out & -> & M). cbn [obind]. do 2 eexists. split; [done |].
    destruct M as [M | [A M]]; [by apply Unmoved | by apply Latched].
Qed.

Lemma update_direction_addressing e u now r1 r2 r3 :
  addressing (handle_update_direction e u now r1 r2 r3) = addressing (reset_addr_lock e now).
Proof.
  unfold handle_update_direction, set_direction_override.
  destruct (as_direction u); cbn zeta; split_ifs; by destruct e.
Qed.

Lemma rekey_addressing e key : addressing (srtp_rekey e key).1 = addressing e.
Proof.
  unfold srtp_rekey. repeat case_match; try done; by destruct e.
Qed.

Lemma apply_op_spec e o :
  typed_op o -> exists e' out, apply_op e o = Val (e', out) /\ moves e o e' /\ Forall (addressed e) out.
Proof.
  intros T. destruct o as [pkt now sys | p ok | ok now sys | u now r1 r2 r3 | key | now]; cbn in *.
  - destruct (receive_spec e pkt now sys T) as (e' & r & -> & M). cbn [obind].
    by exists e', [].
  - destruct (write_rtp_spec e p ok T) as (e' & ds & r & -> & V & F). cbn [obind].
    do 2 eexists. split; [done |]. split; [by apply Unmoved |]. by apply Forall_fmap.
  - destruct (maybe_send_rtcp_spec e ok now sys) as (e' & ds & r & -> & V & F). cbn [obind].
    do 2 eexists. split; [done |]. split; [by apply Unmoved |]. by apply Forall_fmap.
  - do 2 eexists. split; [done |]. split; [| done]. apply Released, update_direction_addressing.
  - do 2 eexists. split; [done |]. split; [| done]. apply Unmoved, rekey_addressing.
  - do 2 eexists. split; [done |]. split; [| done]. apply Unmoved, switchover_addressing.
Qed.

(** An invariant of the operations holds along a run, and at every datagram. *)
Lemma run_invariant (I : t -> Prop) (Q : outgoing -> Prop) (ok : op -> Prop) ops :
  (forall e o e', I e -> ok o -> moves e o e' -> I e') ->
  (forall e o, I e -> addressed e o -> Q o) ->
  forall e, I e -> Forall typed_op ops -> Forall ok ops ->
  exists e' out, run e ops = Val (e', out) /\ I e' /\ Forall Q out.
Proof.
  intros Hstep HQ. induction ops as [| o ops IH]; intros e He T K; [by exists e, [] |].
  inversion T as [| ? ? T1 T2]; subst. inversion K as [| ? ? K1 K2]; subst. cbn [run].
  destruct (apply_op_spec e o T1) as (e1 & out1 & -> & M & F). cbn [obind].
  destruct (IH e1 (Hstep _ _ _ He K1 M) T2 K2) as (e2 & out2 & -> & He2 & F2). cbn [obind].
  do 2 eexists. split; [done |]. split; [done |]. apply Forall_app. split; [| done].
  eapply Forall_impl; [exact F |]. intros x. by apply HQ.
Qed.

(** *** Approved destinations *)

(** An address of the socket's family that lies in an approved network or has
    the IP of a negotiated address of [e]. *)
Definition approved (e : t) (a : SocketAddr) : Prop :=
  is_ipv6 a = is_ipv6 (local_rtp_addr e) /\
  (existsb (fun n => net_contains n (to_canonical (ip a))) (source_networks e) = true \/
   exists b, (remote_rtp_addr e = Some b \/ remote_rtcp_addr e = Some b) /\
             to_canonical (ip a) = to_canonical (ip b)).

Definition sends_to_approved (e0 e : t) : Prop :=
  local_rtp_addr e = local_rtp_addr e0 /\ source_networks e = source_networks e0 /\
  forall a, remote_rtp_addr e = Some a \/ remote_rtcp_addr e = Some a -> approved e0 a.

Lemma allowed_approved e0 e src at_ b :
  sends_to_approved e0 e -> source_allowed e src at_ b = true -> approved e0 src.
Proof.
  intros (L & N & A). unfold source_allowed. rewrite L.
  destruct (Bool.eqb _ _) eqn:F; [| done]. apply Bool.eqb_prop in F. cbn [negb].
  destruct (if b then remote_rtcp_addr e else remote_rtp_addr e) as [x |] eqn:Ex; [| done].
  assert (Hx : approved e0 x) by (apply A; destruct b; auto).
  cbn zeta. match goal with |- context [if ?l then bool_decide _ else _] => destruct l end.
  { intros ->%bool_decide_eq_true. done. }
  destruct (_ <? _); [done |]. rewrite N. intros [H | H]%orb_true_iff; split; try done.
  - apply bool_decide_eq_true in H. destruct Hx as [_ [Hn | (y & Hy & E)]]; [left | right].
    + by rewrite H.
    + exists y. split; [done | congruence].
  - by left.
Qed.

Lemma approved_moves e0 e o e' : sends_to_approved e0 e -> moves e o e' -> sends_to_approved e0 e'.
Proof.
  intros I M. pose proof I as (L & N & A). destruct M as [o e' V | pkt now sys e' S V | pkt now sys e' S V | u now r1 r2 r3 e' V].
  - unfold addressing in V. injection V as V1 V2 V3 V4 V5 V6 V7 V8 V9.
    unfold sends_to_approved. by rewrite V1, V2, V4, V5.
  - pose proof (allowed_approved _ _ _ _ _ I S) as P. rewrite latched_addressing in V.
    destruct (addr_locked e); unfold addressing in V; injection V as V1 V2 V3 V4 V5 V6 V7 V8 V9;
      unfold sends_to_approved; rewrite V1, V2, V4, V5; [done |].
    split_and!; try done. destruct (rtcp_mux e); intros a [[= <-] | H]; try done; [by simplify_eq | auto].
  - pose proof (allowed_approved _ _ _ _ _ I S) as P. rewrite latch_rtcp_addressing in V.
    unfold addressing in V; injection V as V1 V2 V3 V4 V5 V6 V7 V8 V9;
      unfold sends_to_approved; rewrite V1, V2, V4, V5.
    split_and!; try done. destruct (rtcp_mux e); intros a [H | [= <-]]; try done; [by simplify_eq | auto].
  - rewrite reset_addressing in V. injection V as V1 V2 V3 V4 V5 V6 V7 V8 V9.
    unfold sends_to_approved. by rewrite V1, V2, V4, V5.
Qed.

(** C12: whatever datagrams arrive from whatever sources, and however they
    interleave with sending, direction changes and rekeying, no handler panics
    and every datagram the endpoint sends goes to an address of its socket's
    family whose IP was negotiated or lies in an approved source network. *)
Theorem media_only_to_approved e ops
  (negotiated : forall a, remote_rtp_addr e = Some a \/ remote_rtcp_addr e = Some a ->
                reject_family_change e (Some a) = false)
  (typed : Forall typed_op ops) :
  exists e' out, run e ops = Val (e', out) /\
    forall d a, MediaOut d a ∈ out \/ ReportOut d a ∈ out -> approved e a.
Proof.
  destruct (run_invariant (sends_to_approved e)
    (fun o => match o with MediaOut _ a | ReportOut _ a => approved e a end) (fun _ => True) ops)
    with (e := e) as (e' & out & E & _ & F).
  - intros e1 o e2 I _ M. by eapply approved_moves.
  - intros e1 [d a | d a] (_ & _ & A) H; apply A; auto.
  - split_and!; try done. intros a Ha. specialize (negotiated a Ha). split; [| by eauto].
    unfold reject_family_change in negotiated. apply negb_false_iff in negotiated.
    by apply Bool.eqb_prop.
  - done.
  - by apply List.Forall_forall.
  - exists e', out. split; [done |]. rewrite List.Forall_forall in F.
    intros d a [H | H]; apply list_elem_of_In in H; by apply F in H.
Qed.

(** *** The latch *)

Definition locked_to (a : SocketAddr) (e : t) : Prop :=
  addr_locked e = true /\ remote_rtp_addr e = Some a /\
  (rtcp_mux e = true -> remote_rtcp_addr e = Some a).

Definition keeps_lock (o : op) : Prop :=
  match o with UpdateDirection _ _ _ _ _ => False | _ => True end.

Lemma locked_source a e src at_ :
  locked_to a e -> rtcp_mux e = true -> source_allowed e src at_ true = true -> src = a.
Proof.
  intros (L & _ & X) M. unfold source_allowed. rewrite (X M), M, L. cbn.
  destruct (negb _); [done |]. by intros ->%bool_decide_eq_true.
Qed.

Lemma locked_moves a e o e' : locked_to a e -> keeps_lock o -> moves e o e' -> locked_to a e'.
Proof.
  intros I K M. pose proof I as (L & R & X).
  destruct M as [o e' V | pkt now sys e' S V | pkt now sys e' S V | u now r1 r2 r3 e' V]; [| | | done].
  - injection V as V1 V2 V3 V4 V5 V6 V7 V8 V9. unfold locked_to. by rewrite V3, V4, V5, V6.
  - rewrite latched_addressing, L in V. injection V as V1 V2 V3 V4 V5 V6 V7 V8 V9.
    unfold locked_to. by rewrite V3, V4, V5, V6.
  - rewrite latch_rtcp_addressing in V. injection V as V1 V2 V3 V4 V5 V6 V7 V8 V9.
    unfold locked_to. rewrite V3, V4, V5, V6. destruct (rtcp_mux e) eqn:Em; [| done].
    by rewrite (locked_source a e _ _ I Em S).
Qed.

(** C13: once the first validated packet has latched the peer's address, no
    datagram from any source (authentic or not) moves the media: until the
    session resets the latch, every media packet goes to that address, and so
    does every report under rtcp-mux. *)
Theorem locked_address_never_migrates a e ops
  (lock : locked_to a e) (typed : Forall typed_op ops) (no_reset : Forall keeps_lock ops) :
  exists e' out, run e ops = Val (e', out) /\ remote_rtp_addr e' = Some a /\
    (forall d b, MediaOut d b ∈ out -> b = a) /\
    (rtcp_mux e = true -> forall d b, ReportOut d b ∈ out -> b = a).
Proof.
  destruct (run_invariant (fun e1 => locked_to a e1 /\ rtcp_mux e1 = rtcp_mux e)
    (fun o => match o with MediaOut _ b => b = a | ReportOut _ b => rtcp_mux e = true -> b = a end)
    keeps_lock ops) with (e := e) as (e' & out & E & [(_ & R & _) _] & F); try done.
  - intros e1 o e2 [I Em] K M. split; [by eapply locked_moves |]. rewrite <- Em.
    destruct M as [o e' V | pkt now sys e' S V | pkt now sys e' S V | u now r1 r2 r3 e' V]; [| | | done].
    + by injection V.
    + rewrite latched_addressing, (proj1 I) in V. by injection V.
    + rewrite latch_rtcp_addressing in V. by injection V.
  - intros e1 [d b | d b] [(_ & R & X) Em] A; cbn in A.
    + congruence.
    + intros M. rewrite <- Em in M. specialize (X M). congruence.
  - rewrite List.Forall_forall in F. exists e', out. split_and!; try done.
    + intros d b H. apply list_elem_of_In in H. by apply F in H.
    + intros M d b H. apply list_elem_of_In in H. apply F in H. by apply H.
Qed.

(** ** Forged datagrams *)

(** No receive context of the flow authenticates the datagram, and there is
    one. *)
Definition forged_rtp (e : t) (d : bytes) : Prop :=
  has_srtp e = true /\
  forall c, srtp_rx e = Some c \/ srtp_rx_new e = Some c -> ~ Srtp.authenticated c d.
Definition forged_rtcp (e : t) (d : bytes) : Prop :=
  (is_Some (srtcp_rx e) \/ is_Some (srtcp_rx_new e)) /\
  forall c, srtcp_rx e = Some c \/ srtcp_rx_new e = Some c -> ~ Srtcp.authenticated c d.

Lemma decrypt_forged_rtp e d : are_bytes d -> forged_rtp e d -> decrypt_rtp e d = Val (e, None).
Proof.
  intros Hd [S F]. unfold decrypt_rtp, has_srtp in *.
  assert (U : forall c, srtp_rx e = Some c \/ srtp_rx_new e = Some c ->
    exists err, Srtp.unprotect c d = Val (c, Err err)).
  { intros c Hc. destruct (Srtp.unprotect_verdict c d Hd) as (c' & r & -> & [[-> [err ->]] | A] & _);
      [by eexists | by apply F in A]. }
  destruct (srtp_rx_new e) as [c |] eqn:En.
  - destruct (U c ltac:(auto)) as [err ->]. cbn [obind].
    replace (e {{ srtp_rx_new := Some c }}) with e by (destruct e; cbn in *; by subst).
    destruct (srtp_rx e) as [c2 |] eqn:Eo; [| done].
    destruct (U c2 ltac:(auto)) as [err2 ->]. cbn [obind].
    replace (e {{ srtp_rx := Some c2 }}) with e by (destruct e; cbn in *; by subst). done.
  - destruct (srtp_rx e) as [c |] eqn:Eo; [| done].
    destruct (U c ltac:(auto)) as [err ->]. cbn [obind].
    replace (e {{ srtp_rx := Some c }}) with e by (destruct e; cbn in *; by subst). done.
Qed.

Lemma decrypt_forged_rtcp e d : are_bytes d -> forged_rtcp e d -> decrypt_rtcp e d = Val (e, None).
Proof.
  intros Hd [S F]. unfold decrypt_rtcp.
  assert (U : forall c, srtcp_rx e = Some c \/ srtcp_rx_new e = Some c ->
    exists err, Srtcp.unprotect_rtcp c d = Val (c, Err err)).
  { intros c Hc.
    destruct (Srtcp.unprotect_rtcp_cases c d Hd) as (c' & r & -> & [[-> [err ->]] | A] & _);
      [by eexists | by apply F in A]. }
  destruct (srtcp_rx_new e) as [c |] eqn:En.
  - destruct (U c ltac:(auto)) as [err ->]. cbn [obind].
    replace (e {{ srtcp_rx_new := Some c }}) with e by (destruct e; cbn in *; by subst).
    destruct (srtcp_rx e) as [c2 |] eqn:Eo; [| done].
    destruct (U c2 ltac:(auto)) as [err2 ->]. cbn [obind].
    replace (e {{ srtcp_rx := Some c2 }}) with e by (destruct e; cbn in *; by subst). done.
  - destruct (srtcp_rx e) as [c |] eqn:Eo; [| by destruct S as [[? ?] | [? ?]]].
    destruct (U c ltac:(auto)) as [err ->]. cbn [obind].
    replace (e {{ srtcp_rx := Some c }}) with e by (destruct e; cbn in *; by subst). done.
Qed.

(** C11: on an endpoint with SRTP, a datagram that neither the current nor the
    pending key authenticates produces nothing and changes nothing, whatever
    its source, length or contents: apart from a due key switchover, at most
    the counter of rejected sources moves.  In particular it cannot latch an
    address, teach an SSRC, feed the statistics or hang up the call. *)
Theorem forged_datagrams_ignored e pkt now sys
  (Hd : are_bytes (data pkt))
  (forged : let e1 := check_rekey_switchover e now in
            forged_rtp e1 (data pkt) /\ forged_rtcp e1 (data pkt)) :
  exists counters,
    receive e pkt now sys
    = Val ((check_rekey_switchover e now) {{ raw_recv := counters }}, (None, None, None)) /\
    (counters = raw_recv (check_rekey_switchover e now) \/
     counters = Stats.record_source_rejection (raw_recv (check_rekey_switchover e now))).
Proof.
  destruct forged as [F1 F2]. unfold receive, handle_rtp_at, handle_rtcp_at.
  destruct (is_rtcp_mux_packet_val (data pkt)) as [b ->]. cbn [obind].
  generalize dependent (check_rekey_switchover e now). intros e1 F1 F2.
  assert (R : e1 {{ raw_recv := raw_recv e1 }} = e1) by by destruct e1.
  destruct (_ || _); cbn zeta.
  - destruct (source_allowed _ _ _ _); cbn [negb obind]; [| by eauto].
    rewrite (decrypt_forged_rtcp e1) by done. cbn [obind]. exists (raw_recv e1).
    rewrite R. by auto.
  - destruct (source_allowed _ _ _ _); cbn [negb obind]; [| by eauto].
    exists (raw_recv e1). rewrite R. split; [| by left].
    destruct (RtpHeader.parse_cases _ Hd) as [-> | (h & -> & _)]; cbn [obind]; [done |].
    destruct (known_payload_type _ _); cbn [negb obind]; [| done].
    by rewrite (decrypt_forged_rtp e1).
Qed.

End endpoint.

(** ** Examples *)

Definition sample_networks : IpNetworks := {|
  IpNet := IpAddr;
  net_contains n a := bool_decide (n = a);
|}.

Module Examples.
#[local] Existing Instance sample_crypto.
#[local] Existing Instance sample_networks.

Definition host (a p : Z) : SocketAddr := mkAddr (V4 a) p 0 0.
Definition pcmu : SdpCodec := mkCodec 0 "PCMU" 8000 None None None.
Definition profile : OpusProfile := mkProfile 510000 48000 false 3 120.
Definition key (n : Z) : Srtp.SrtpContext :=
  match Srtp.from_sdes_key (seqZ n 30) with Ok c => c | Err _ => Srtp.mkContext [] [] [] ∅ 0 end.
Definition rtcp_key (n : Z) : Srtcp.SrtcpContext :=
  match Srtcp.from_sdes_key (seqZ n 30) with Ok c => c | Err _ => Srtcp.mkContext [] [] [] 0 ∅ ∅ 0 0 end.

(** An endpoint on 1:4000 negotiated with 2:5000, approving also host 3. *)
Definition endpoint : t :=
  (new 1 SendRecv (host 1 4000) [V4 3] profile 77 65534 0)
    {{ remote_rtp_addr := Some (host 2 5000); remote_rtcp_addr := Some (host 2 5001);
       codecs := [pcmu]; send_codec := Some pcmu; telephone_event_pt := Some 101 }}.

Definition secured (e : t) : t :=
  e {{ srtp_tx := Some (key 1); srtp_rx := Some (key 1);
       srtcp_tx := Some (rtcp_key 1); srtcp_rx := Some (rtcp_key 1) }}.

Definition media (seq ts : Z) : bytes := RtpHeader.build 0 seq ts 9 false [1; 2; 3].
Definition arrives (d : bytes) (src : SocketAddr) : op :=
  Receive (mkInbound 1 src d 10 false None) 10 (0, 0).
Definition sends (ts : Z) : op := Write (mkPacket 7 0 0 ts 0 false [5; 6]) true.
End Examples.
Import Examples.
#[local] Existing Instance sample_crypto.
#[local] Existing Instance sample_networks.

(** A packet from the approved host 3 moves the media there; one from host 4
    does not. *)
Lemma media_only_to_approved_witness :
  exists e' out, run endpoint [arrives (media 1 0) (host 4 9); sends 0;
                               arrives (media 1 0) (host 3 9); sends 160] = Val (e', out) /\
    out = [MediaOut (RtpHeader.build 0 65534 160 77 false [5; 6]) (host 3 9)] /\
    approved endpoint (host 3 9).
Proof.
  destruct (media_only_to_approved endpoint
    [arrives (media 1 0) (host 4 9); sends 0; arrives (media 1 0) (host 3 9); sends 160])
    as (e' & out & E & A).
  - intros a [[= <-] | [= <-]]; done.
  - repeat constructor; by vm_compute.
  - exists e', out. split; [done |].
    assert (out = [MediaOut (RtpHeader.build 0 65534 160 77 false [5; 6]) (host 3 9)]) as ->.
    { vm_compute in E. by injection E as <- <-. }
    split; [done |]. eapply A. left. by left.
Defined.

(** Once host 3 is latched, even the negotiated host 2 cannot move the media. *)
Lemma locked_address_never_migrates_witness :
  let e := endpoint {{ remote_rtp_addr := Some (host 3 9); addr_locked := true; remote_ssrc := Some 9 }} in
  exists e' out, run e [arrives (media 2 0) (host 2 5000); sends 0] = Val (e', out) /\
    remote_rtp_addr e' = Some (host 3 9) /\
    out = [MediaOut (RtpHeader.build 0 65534 0 77 false [5; 6]) (host 3 9)].
Proof.
  intros e.
  destruct (locked_address_never_migrates (host 3 9) e
    [arrives (media 2 0) (host 2 5000); sends 0]) as (e' & out & E & R & _).
  - done.
  - repeat constructor; by vm_compute.
  - by repeat constructor.
  - exists e', out. split_and!; [done | done |]. vm_compute in E. by injection E as <- <-.
Defined.

(** A datagram without a valid tag, from the negotiated peer itself. *)
Lemma forged_datagrams_ignored_witness :
  receive (secured endpoint) (mkInbound 1 (host 2 5000) (media 1 0 ++ replicate 10 0) 10 false None) 10 (0, 0)
  = Val (secured endpoint, (None, None, None)).
Proof.
  destruct (forged_datagrams_ignored (secured endpoint)
    (mkInbound 1 (host 2 5000) (media 1 0 ++ replicate 10 0) 10 false None) 10 (0, 0))
    as (counters & E & _).
  - repeat constructor; by vm_compute.
  - split.
    + split; [by vm_compute |]. intros c [[= <-] | [=]]. by vm_compute.
    + split; [left; by eexists |]. intros c [[= <-] | [=]]. by vm_compute.
  - rewrite E. vm_compute in E. injection E as <-. done.
Defined.

End RtpEndpoint.
