(* ===== verification/Timeline.v ===== *)
(** The outbound timeline of the plain-RTP endpoint
    ([advance_outbound_timeline], [dtmf_outbound_ts] and [write_rtp] of
    [session/endpoint_rtp.rs]) over whole sequences of packets, and the delivery
    of a call from one endpoint to another. *)

From stdpp Require Import strings.
From S2P Require Import Prelude Rtp Rtcp SrtpBase Srtp Srtcp Media Stats Routing SocketPool RtpEndpoint.
#[local] Open Scope Z_scope.

Module Timeline.
Import RtpEndpoint.
Section endpoint.
Context {C : Crypto} {NW : IpNetworks}.

(** The part of the state [stamp] reads. *)
Definition clock (e : t) :=
  (last_outbound_ts e, last_source_id e, last_source_ts e, learned_step e, dtmf_wire_ts e,
   send_codec e, telephone_event_pt e, telephone_event_clock_rate e).

(** The timestamps and markers of a sequence of packets. *)
Fixpoint stamps (e : t) (ps : list RoutedRtpPacket) : list (Z * bool) :=
  match ps with
  | [] => []
  | p :: ps => (stamp e p).2 :: stamps (stamp e p).1 ps
  end.

Lemma stamp_view e e' p :
  clock e = clock e' ->
  (stamp e p).2 = (stamp e' p).2 /\ clock (stamp e p).1 = clock (stamp e' p).1.
Proof.
  unfold clock at 1 2. intros [= H1 H2 H3 H4 H5 H6 H7 H8].
  unfold stamp, dtmf_outbound_ts, advance_outbound_timeline, bump, nominal_step.
  rewrite <- H1, <- H2, <- H3, <- H4, <- H5, <- H6, <- H7, <- H8.
  destruct (bool_decide _).
  - destruct (marker p), (dtmf_wire_ts e) eqn:E5; (split; [done |]);
      unfold clock; destruct e, e'; cbn in *; congruence.
  - destruct (last_outbound_ts e) eqn:E1, (last_source_id e) eqn:E2, (last_source_ts e) eqn:E3;
      cbn zeta; split_ifs; (split; [done |]); unfold clock; destruct e, e'; cbn in *; congruence.
Qed.

Lemma stamps_view ps : forall e e', clock e = clock e' -> stamps e ps = stamps e' ps.
Proof.
  induction ps as [| p ps IH]; intros e e' H; cbn; [done |].
  destruct (stamp_view e e' p H) as [-> H2]. by rewrite (IH _ _ H2).
Qed.

(** The state a write leaves when the packet is handed to the socket. *)
Definition after_write (e : t) (p : RoutedRtpPacket) (tx : option Srtp.SrtpContext) : t :=
  let e1 := (stamp e p).1 in
  e1 {{ seq_no := wrap16 (seq_no e1 + 1); last_rtp_timestamp := (stamp e p).2.1;
        stats := Stats.record_outbound (stats e1) (len (payload p));
        rtcp_stats := Rtcp.record_sent (rtcp_stats e1) (len (payload p));
        srtp_tx := tx }}.

Lemma stamp_keeps e p :
  let e1 := (stamp e p).1 in
  seq_no e1 = seq_no e /\ our_ssrc e1 = our_ssrc e /\ remote_rtp_addr e1 = remote_rtp_addr e /\
  remote_ssrc e1 = remote_ssrc e /\ srtp_tx e1 = srtp_tx e /\ local_rtp_addr e1 = local_rtp_addr e.
Proof.
  intros e1. pose proof (stamp_timeline e p) as T. fold e1 in T. unfold timeline in T.
  rewrite <- T. by destruct e1.
Qed.

(** The packet a write builds. *)
Definition outbound (e : t) (p : RoutedRtpPacket) : bytes :=
  RtpHeader.build (payload_type p) (seq_no e) (stamp e p).2.1 (our_ssrc e) (stamp e p).2.2 (payload p).

Lemma write_rtp_plain e p remote ok :
  remote_rtp_addr e = Some remote -> is_Some (remote_ssrc e) -> srtp_tx e = None ->
  write_rtp e p ok = Val (send_datagram (after_write e p None) (outbound e p) remote ok
                            (Some (outbound e p))).
Proof.
  intros Hr Hs Ht. unfold write_rtp, after_write, outbound. rewrite Hr.
  rewrite bool_decide_false by (intros E; rewrite E in Hs; by destruct Hs).
  destruct (stamp_keeps e p) as (K1 & K2 & _ & _ & K5 & _). destruct (stamp e p) as [e1 [ts m]].
  cbn [fst snd] in *. rewrite <- K1, <- K2. rewrite Ht in K5. destruct e1; cbn in *. by subst.
Qed.

Lemma write_rtp_srtp e p remote ok c c' w :
  remote_rtp_addr e = Some remote -> is_Some (remote_ssrc e) -> srtp_tx e = Some c ->
  Srtp.protect c (outbound e p) = Val (c', Ok w) ->
  write_rtp e p ok = Val (send_datagram (after_write e p (Some c')) w remote ok
                            (Some (outbound e p))).
Proof.
  intros Hr Hs Ht Hp. unfold write_rtp, after_write. unfold outbound in *. rewrite Hr.
  rewrite bool_decide_false by (intros E; rewrite E in Hs; by destruct Hs).
  destruct (stamp_keeps e p) as (K1 & K2 & _ & _ & K5 & _). destruct (stamp e p) as [e1 [ts m]].
  cbn [fst snd] in *. rewrite <- K1, <- K2 in *. rewrite Ht in K5.
  destruct e1; cbn [srtp_tx seq_no our_ssrc] in *. subst. cbn [obind]. cbn.
  cbn in Hp. rewrite Hp. done.
Qed.

Lemma after_write_clock e p tx : clock (after_write e p tx) = clock (stamp e p).1.
Proof. unfold after_write. by destruct (stamp e p).1. Qed.

Lemma after_write_keeps e p tx :
  let e' := after_write e p tx in
  seq_no e' = wrap16 (seq_no e + 1) /\ our_ssrc e' = our_ssrc e /\
  remote_rtp_addr e' = remote_rtp_addr e /\ remote_ssrc e' = remote_ssrc e /\ srtp_tx e' = tx /\
  local_rtp_addr e' = local_rtp_addr e.
Proof.
  unfold after_write. destruct (stamp_keeps e p) as (<- & <- & <- & <- & _ & <-).
  by destruct (stamp e p).1.
Qed.

(** *** A regular flow: every source sends a frame of [step] units at a time *)

Section flow.
Variables (event_pt : option Z) (step te : Z).

Definition is_event (p : RoutedRtpPacket) : bool := bool_decide (Some (payload_type p) = event_pt).
Definition event_start (p : RoutedRtpPacket) : bool := is_event p && marker p.

(** Consecutive audio packets of one source are one frame apart; sources may
    alternate at any point and with unrelated timestamps; an event starts with
    its marker packet. *)
Fixpoint regular (last : option (EndpointId * Z)) (anchored : bool) (ps : list RoutedRtpPacket)
    : Prop :=
  match ps with
  | [] => True
  | p :: ps =>
      if is_event p then (marker p = true \/ anchored = true) /\ regular last true ps
      else
        (forall ts, last = Some (source_endpoint_id p, ts) -> wrap32 (timestamp p - ts) = step) /\
        regular (Some (source_endpoint_id p, timestamp p)) anchored ps
  end.

(** How far the wire clock moves: one frame per audio packet and per event. *)
Definition tick (p : RoutedRtpPacket) : Z :=
  if is_event p then if marker p then te else 0 else step.
Definition ticks (ps : list RoutedRtpPacket) : Z := fold_right (fun p n => tick p + n) 0 ps.

(** The source of the last audio packet. *)
Definition last_audio (last : option EndpointId) (ps : list RoutedRtpPacket) : option EndpointId :=
  fold_left (fun l p => if is_event p then l else Some (source_endpoint_id p)) ps last.

(** The endpoint's timeline has been started at [t]. *)
Record flowing (e : t) (now : Z) (last : option (EndpointId * Z)) (anchor : option Z) : Prop := {
  fl_now : last_outbound_ts e = Some now;
  fl_id : last_source_id e = fst <$> last;
  fl_ts : last_source_ts e = snd <$> last;
  fl_step : nominal_step e = step;
  fl_learned : learned_step e = None \/ learned_step e = Some step;
  fl_event : telephone_event_pt e = event_pt;
  fl_te : telephone_event_clock_rate e / 50 = te;
  fl_anchor : dtmf_wire_ts e = anchor;
}.

Hypothesis step_range : 0 < step <= u32_max.

Lemma flowing_bump e now last a : flowing e now last a -> bump e = step.
Proof. intros []. unfold bump. destruct fl_learned0 as [-> | ->]; [done | done]. Qed.

Lemma flowing_audio e now last a n i ts :
  flowing e now last a ->
  flowing (e {{ last_outbound_ts := Some n; last_source_id := Some i; last_source_ts := Some ts }})
    n (Some (i, ts)) a.
Proof. intros []. unfold nominal_step in *. destruct e; split; cbn in *; assumption || reflexivity. Qed.

Lemma flowing_learned e now last a :
  flowing e now last a -> flowing (e {{ learned_step := Some step }}) now last a.
Proof.
  intros []. unfold nominal_step in *. destruct e; split; cbn in *; try assumption. by right.
Qed.

Lemma flowing_event e now last a n :
  flowing e now last a ->
  flowing (e {{ dtmf_wire_ts := Some n; last_outbound_ts := Some n }}) n last (Some n).
Proof. intros []. unfold nominal_step in *. destruct e; split; cbn in *; assumption || reflexivity. Qed.

Lemma frame_in_range : (sat_mul32 step 10 <? step) = false /\ (step <=? sat_mul32 step 2) = true.
Proof. mlia. Qed.

Lemma stamp_audio e now last a p :
  flowing e now last a -> is_event p = false ->
  (forall ts, last = Some (source_endpoint_id p, ts) -> wrap32 (timestamp p - ts) = step) ->
  (stamp e p).2 = (wrap32 (now + step),
                   marker p || bool_decide (fst <$> last <> Some (source_endpoint_id p))) /\
  flowing (stamp e p).1 (wrap32 (now + step)) (Some (source_endpoint_id p, timestamp p)) a.
Proof.
  intros F Ev R. pose proof (flowing_bump _ _ _ _ F) as B. destruct frame_in_range as [Hs Hs2].
  unfold stamp. rewrite (fl_event _ _ _ _ F). unfold is_event in Ev. rewrite Ev.
  unfold advance_outbound_timeline.
  rewrite B, (fl_now _ _ _ _ F), (fl_id _ _ _ _ F), (fl_ts _ _ _ _ F).
  destruct last as [[i ts] |]; cbn [fmap option_fmap option_map fst snd].
  - destruct (Z.eqb_spec i (source_endpoint_id p)) as [-> | Hi].
    + rewrite (R ts eq_refl), Hs, Hs2. rewrite (proj2 (Z.eqb_neq _ _)) by lia. cbn [fst snd].
      rewrite bool_decide_false by auto.
      split; [done |]. by eapply flowing_audio, flowing_learned.
    + rewrite bool_decide_true by congruence. split; [done |]. by eapply flowing_audio.
  - split; [done |]. by eapply flowing_audio.
Qed.

Lemma stamp_event_start e now last a p :
  flowing e now last a -> is_event p = true -> marker p = true ->
  (stamp e p).2 = (wrap32 (now + te), true) /\
  flowing (stamp e p).1 (wrap32 (now + te)) last (Some (wrap32 (now + te))).
Proof.
  intros F Ev M. unfold stamp. rewrite (fl_event _ _ _ _ F). unfold is_event in Ev. rewrite Ev.
  unfold dtmf_outbound_ts. rewrite M, (fl_now _ _ _ _ F), (fl_te _ _ _ _ F). split; [done |].
  by eapply flowing_event.
Qed.

Lemma stamp_event_held e now last a p :
  flowing e now last (Some a) -> is_event p = true -> marker p = false ->
  stamp e p = (e, (a, false)).
Proof.
  intros F Ev M. unfold stamp. rewrite (fl_event _ _ _ _ F). unfold is_event in Ev. rewrite Ev.
  unfold dtmf_outbound_ts. by rewrite M, (fl_anchor _ _ _ _ F).
Qed.

Lemma wrap32_add x y : wrap32 (wrap32 x + y) = wrap32 (x + y).
Proof. unfold wrap32. by rewrite Z.add_mod_idemp_l. Qed.

Lemma ticks_cons q ps : ticks (q :: ps) = tick q + ticks ps.
Proof. done. Qed.
Lemma last_audio_cons l q ps :
  last_audio l (q :: ps) = last_audio (if is_event q then l else Some (source_endpoint_id q)) ps.
Proof. done. Qed.

(** What is claimed of one stamp. *)
Definition stamped_as (now : Z) (last : option EndpointId) (ps : list RoutedRtpPacket) (k : nat)
    (p : RoutedRtpPacket) (s : Z * bool) : Prop :=
  (is_event p = false \/ marker p = true -> s.1 = wrap32 (now + ticks (take (S k) ps))) /\
  (is_event p = false ->
   s.2 = marker p || bool_decide (last_audio last (take k ps) <> Some (source_endpoint_id p))) /\
  (is_event p = true -> s.2 = marker p).

Lemma stamped_later now last q ps k p s n :
  wrap32 n = wrap32 (now + tick q) ->
  stamped_as n (if is_event q then last else Some (source_endpoint_id q)) ps k p s ->
  stamped_as now last (q :: ps) (S k) p s.
Proof.
  intros E (T & U & V). unfold stamped_as.
  change (take (S (S k)) (q :: ps)) with (q :: take (S k) ps).
  change (take (S k) (q :: ps)) with (q :: take k ps).
  rewrite ticks_cons, last_audio_cons. split_and!; try done.
  intros H. rewrite (T H), <- wrap32_add, E, wrap32_add. f_equal. lia.
Qed.

Lemma wrap32_idem n : wrap32 (wrap32 n) = wrap32 n.
Proof. unfold wrap32. by rewrite Z.mod_mod. Qed.

(** The flow after one packet. *)
Lemma flowing_step e now last a q ps :
  flowing e now last a -> regular last (bool_decide (is_Some a)) (q :: ps) ->
  exists now' last' a', flowing (stamp e q).1 now' last' a' /\
    regular last' (bool_decide (is_Some a')) ps /\ wrap32 now' = wrap32 (now + tick q) /\
    fst <$> last' = (if is_event q then fst <$> last else Some (source_endpoint_id q)) /\
    stamped_as now (fst <$> last) (q :: ps) 0 q (stamp e q).2.
Proof.
  intros F R. cbn [regular] in R. unfold stamped_as.
  change (take 1 (q :: ps)) with (q :: take 0 ps). rewrite ticks_cons, !take_0. unfold tick.
  destruct (is_event q) eqn:Ev; [destruct (marker q) eqn:M |].
  - destruct (stamp_event_start e now last a q F Ev M) as [E F']. destruct R as [_ R].
    exists (wrap32 (now + te)), last. eexists. split; [exact F' |]. rewrite E, wrap32_idem.
    cbn. rewrite Z.add_0_r. by split_and!.
  - destruct R as [[? | An] R]; [done |]. apply bool_decide_eq_true in An. destruct An as [x ->].
    rewrite (stamp_event_held e now last x q F Ev M). exists now, last, (Some x).
    rewrite Z.add_0_r. split_and!; try done. by intros [? | ?].
  - destruct R as [R1 R]. destruct (stamp_audio e now last a q F Ev R1) as [E F'].
    do 3 eexists. split; [exact F' |]. rewrite E, wrap32_idem. cbn. rewrite Z.add_0_r. by split_and!.
Qed.

(** Every stamp of a regular flow: the wire clock for audio and event starts. *)
Lemma stamps_regular ps : forall e now last a,
  flowing e now last a -> regular last (bool_decide (is_Some a)) ps ->
  forall k p, ps !! k = Some p ->
  exists s, stamps e ps !! k = Some s /\ stamped_as now (fst <$> last) ps k p s.
Proof.
  induction ps as [| q ps IH]; intros e now last a F R k p Hk; [done |].
  destruct (flowing_step e now last a q ps F R) as (now' & last' & a' & F' & R' & W & L & S).
  destruct k as [| k]; [injection Hk as <-; by exists (stamp e q).2 |].
  destruct (IH _ _ _ _ F' R' k p Hk) as (s & Es & Ss). exists s. split; [done |].
  eapply stamped_later; [exact W |]. by rewrite <- L.
Qed.

(** The running event's timestamp is held until the next event starts. *)
Lemma stamps_held ps : forall e now last x,
  flowing e now last (Some x) -> regular last true ps ->
  forall k p, ps !! k = Some p -> is_event p = true ->
  (forall j q, (j <= k)%nat -> ps !! j = Some q -> event_start q = false) ->
  stamps e ps !! k = Some (x, false).
Proof.
  induction ps as [| q ps IH]; intros e now last x F R k p Hk Hev Hno; [done |]. cbn [regular] in R.
  pose proof (Hno O q ltac:(lia) eq_refl) as Hq. unfold event_start in Hq.
  destruct (is_event q) eqn:Ev.
  - destruct R as [_ R]. pose proof (stamp_event_held e now last x q F Ev Hq) as E.
    destruct k as [| k]; cbn [stamps]; rewrite E; [done |].
    apply (IH e now last x F R k p Hk Hev). intros j r Hj Hr. by apply (Hno (S j) r); [lia |].
  - destruct R as [R1 R]. destruct (stamp_audio e now last (Some x) q F Ev R1) as [E F'].
    destruct k as [| k]; [cbn in Hk; simplify_eq; congruence |].
    apply (IH _ _ _ _ F' R k p Hk Hev). intros j r Hj Hr. by apply (Hno (S j) r); [lia |].
Qed.

Lemma stamps_running ps : forall e now last a j k q p,
  flowing e now last a -> regular last (bool_decide (is_Some a)) ps ->
  (j < k)%nat -> ps !! j = Some q -> event_start q = true ->
  ps !! k = Some p -> is_event p = true ->
  (forall i r, (j < i <= k)%nat -> ps !! i = Some r -> event_start r = false) ->
  stamps e ps !! k = Some (wrap32 (now + ticks (take (S j) ps)), false).
Proof.
  induction ps as [| x ps IH]; intros e now last a j k q p F R Hjk Hj Hq Hk Hp Hno; [done |].
  destruct k as [| k]; [lia |]. destruct j as [| j].
  - injection Hj as ->. unfold event_start in Hq. apply andb_true_iff in Hq as [Ev M].
    destruct (stamp_event_start e now last a q F Ev M) as [_ F'].
    change (take 1 (q :: ps)) with (q :: take 0 ps). rewrite take_0, ticks_cons.
    unfold tick. rewrite Ev, M. cbn [ticks fold_right]. rewrite Z.add_0_r.
    cbn [regular] in R. rewrite Ev in R. destruct R as [_ R].
    apply (stamps_held ps _ _ _ _ F' R k p Hk Hp). intros i r Hi Hr. apply (Hno (S i) r); [lia | done].
  - destruct (flowing_step e now last a x ps F R) as (now' & last' & a' & F' & R' & W & _ & _).
    change (stamps (stamp e x).1 ps !! k = Some (wrap32 (now + ticks (take (S (S j)) (x :: ps))), false)).
    rewrite (IH _ _ _ _ j k q p F' R' ltac:(lia) Hj Hq Hk Hp).
    + change (take (S (S j)) (x :: ps)) with (x :: take (S j) ps).
      rewrite ticks_cons, <- wrap32_add, W, wrap32_add. do 3 f_equal. lia.
    + intros i r Hi Hr. apply (Hno (S i) r); [lia | done].
Qed.

End flow.

(** *** Writing a sequence of packets *)

Fixpoint write_all (e : t) (ps : list RoutedRtpPacket) : outcome (t * list datagram) :=
  match ps with
  | [] => Val (e, [])
  | p :: ps =>
      let! (e, ds, _) := write_rtp e p true in
      let! (e, rest) := write_all e ps in
      Val (e, ds ++ rest)
  end.

(** Everything after the first packet of a write is stamped as if nothing but
    the timeline had changed. *)
Lemma stamps_after e p tx ps : stamps (after_write e p tx) ps = stamps (stamp e p).1 ps.
Proof. apply stamps_view, after_write_clock. Qed.

Lemma build_seq pt seq ts sc m pl :
  RtpHeader.build pt (wrap16 seq) ts sc m pl = RtpHeader.build pt seq ts sc m pl.
Proof. unfold RtpHeader.build, wrap16. by rewrite (to_be_mod 2). Qed.

(** A plain endpoint that may send: consecutive sequence numbers, one SSRC, and
    the stamps of the timeline. *)
Lemma write_all_plain ps : forall e remote,
  remote_rtp_addr e = Some remote -> is_Some (remote_ssrc e) -> srtp_tx e = None ->
  exists e' ds, write_all e ps = Val (e', ds) /\
    forall k p, ps !! k = Some p -> exists ts m, stamps e ps !! k = Some (ts, m) /\
      ds !! k = Some (RtpHeader.build (payload_type p) (wrap16 (seq_no e + Z.of_nat k)) ts
                        (our_ssrc e) m (payload p), remote).
Proof.
  induction ps as [| p ps IH]; intros e remote Hr Hs Ht; [by exists e, [] |].
  destruct (after_write_keeps e p None) as (K1 & K2 & K3 & K4 & K5 & _).
  destruct (IH (after_write e p None) remote) as (e' & ds & E & Hk); [congruence.. |].
  cbn [write_all]. rewrite (write_rtp_plain e p remote true Hr Hs Ht). cbn [obind send_datagram].
  rewrite E. cbn [obind]. do 2 eexists. split; [done |]. intros k q Hq. destruct k as [| k].
  - injection Hq as ->. exists (stamp e q).2.1, (stamp e q).2.2. rewrite Z.add_0_r, build_seq.
    split; [cbn; by rewrite <- surjective_pairing | done].
  - destruct (Hk k q Hq) as (ts & m & Hst & D). rewrite stamps_after in Hst. exists ts, m. split; [done |].
    change (ds !! k = Some (RtpHeader.build (payload_type q) (wrap16 (seq_no e + Z.of_nat (S k))) ts
                              (our_ssrc e) m (payload q), remote)).
    rewrite D, K1, K2. do 3 f_equal. mlia.
Qed.

(** C15: the wire timeline is one uninterrupted stream.  On a plain endpoint
    whose sources each send a frame at a time, whatever their own timestamps
    and however they alternate (mixer, passthrough, file, another leg) and
    whatever DTMF is interleaved, the packets on the wire have consecutive
    sequence numbers and one SSRC; every audio packet and every event start
    advances the RTP clock by exactly one frame; the packets of an event share
    the timestamp of its start, through any audio in between; and the marker
    is set exactly where the source set it or the source changed. *)
Theorem wire_timeline e remote now last a step ps
  (ready : remote_rtp_addr e = Some remote /\ is_Some (remote_ssrc e) /\ srtp_tx e = None)
  (frame : 0 < step <= u32_max) (event_pt := telephone_event_pt e)
  (te := telephone_event_clock_rate e / 50)
  (started : flowing event_pt step te e now last a)
  (sources : regular event_pt step last (bool_decide (is_Some a)) ps) :
  exists e' ds, write_all e ps = Val (e', ds) /\
    forall k p, ps !! k = Some p -> exists ts m,
      ds !! k = Some (RtpHeader.build (payload_type p) (wrap16 (seq_no e + Z.of_nat k)) ts
                        (our_ssrc e) m (payload p), remote) /\
      stamped_as event_pt step te now (fst <$> last) ps k p (ts, m) /\
      forall j q, (j < k)%nat -> ps !! j = Some q -> event_start event_pt q = true ->
        is_event event_pt p = true ->
        (forall i r, (j < i <= k)%nat -> ps !! i = Some r -> event_start event_pt r = false) ->
        ts = wrap32 (now + ticks event_pt step te (take (S j) ps)).
Proof.
  destruct ready as (Hr & Hs & Ht).
  destruct (write_all_plain ps e remote Hr Hs Ht) as (e' & ds & E & H). exists e', ds.
  split; [done |]. intros k p Hk. destruct (H k p Hk) as (ts & m & S & D). exists ts, m.
  split; [done |].
  destruct (stamps_regular _ _ _ frame ps e now last a started sources k p Hk) as (s & Es & A).
  rewrite S in Es. injection Es as <-. split; [done |]. intros j q Hj Hq Hst Hp Hno.
  pose proof (stamps_running _ _ _ frame ps e now last a j k q p started sources Hj Hq Hst Hk Hp Hno) as X.
  rewrite S in X. by injection X.
Qed.

(** *** A step learned too small *)

(** One short same-source delta shrinks the learned packet duration, and
    nothing enlarges it again: from then on a source with an ordinary frame of
    more than ten such steps is treated as discontinuous at every packet, so
    the wire clock crawls by the short step instead of the frame and every
    packet carries the marker, for as long as the source keeps sending. *)
Theorem small_step_never_recovers e i src_ts now s d ps
  (last : last_outbound_ts e = Some now /\ last_source_id e = Some i /\ last_source_ts e = Some src_ts)
  (learned : learned_step e = Some s) (short : 0 < s /\ 10 * s < d <= u32_max)
  (source : forall k p, ps !! k = Some p -> source_endpoint_id p = i /\
              timestamp p = wrap32 (src_ts + (Z.of_nat k + 1) * d) /\
              Some (payload_type p) <> telephone_event_pt e) :
  forall k, (k < length ps)%nat ->
    stamps e ps !! k = Some (wrap32 (now + (Z.of_nat k + 1) * s), true).
Proof.
  revert e src_ts now last learned source.
  induction ps as [| p ps IH]; intros e src_ts now (L1 & L2 & L3) Hl Hp k Hk; [cbn in Hk; lia |].
  destruct (Hp O p eq_refl) as (Hi & Hts & Hpt).
  assert (E : stamp e p = (e {{ last_outbound_ts := Some (wrap32 (now + s)); last_source_id := Some i;
                                last_source_ts := Some (timestamp p) }}, (wrap32 (now + s), true))).
  { unfold stamp. rewrite bool_decide_false by done. unfold advance_outbound_timeline, bump.
    rewrite L1, L2, L3, Hl, Hi, Z.eqb_refl. cbn [default from_option Datatypes.id].
    replace (wrap32 (timestamp p - src_ts)) with d by (rewrite Hts; mlia).
    rewrite (proj2 (Z.eqb_neq d 0)) by lia.
    rewrite (proj2 (Z.ltb_lt (sat_mul32 s 10) d)) by mlia. by rewrite orb_true_r. }
  destruct k as [| k]; cbn [stamps]; rewrite E.
  - cbn. do 3 f_equal. lia.
  - cbn [fst snd lookup list_lookup].
    rewrite (IH _ (timestamp p) (wrap32 (now + s))).
    + rewrite wrap32_add. do 3 f_equal. lia.
    + by destruct e.
    + by destruct e.
    + intros j q Hq. destruct (Hp (S j) q Hq) as (Q1 & Q2 & Q3). split_and!; [done | | by destruct e].
      rewrite Q2, Hts, wrap32_add. f_equal. lia.
    + cbn in Hk. lia.
Qed.

End endpoint.

(** ** Examples *)

Import Examples.
#[local] Existing Instance sample_crypto.
#[local] Existing Instance sample_networks.

Module Flow.
(** A PCMU endpoint in the middle of a stream from source 7. *)
Definition started : t :=
  endpoint {{ remote_ssrc := Some 9; last_outbound_ts := Some 4294967200;
              last_source_id := Some 7; last_source_ts := Some 1000 }}.
Definition audio (src ts : Z) : RoutedRtpPacket := mkPacket src 0 0 ts 0 false [src].
Definition event (m : bool) : RoutedRtpPacket := mkPacket 0 101 0 0 0 m [1; 0; 0; 80].
(** Source 7, a switch to source 8, and a digit over its audio. *)
Definition flow : list RoutedRtpPacket :=
  [audio 7 1160; audio 8 55; event true; audio 8 215; event false].
End Flow.
Import Flow.

Lemma wire_timeline_witness :
  exists e', write_all started flow = Val (e',
    (fun d => (d, host 2 5000)) <$>
    [RtpHeader.build 0 65534 64 77 false [7]; RtpHeader.build 0 65535 224 77 true [8];
     RtpHeader.build 101 0 384 77 true [1; 0; 0; 80]; RtpHeader.build 0 1 544 77 false [8];
     RtpHeader.build 101 2 384 77 false [1; 0; 0; 80]]).
Proof.
  destruct (wire_timeline started (host 2 5000) 4294967200 (Some (7, 1000)) None 160 flow)
    as (e' & ds & E & _).
  - split_and!; [done | by eexists | done].
  - done.
  - split; try done. by left.
  - cbn. split; [by intros ts [= <-] |]. split; [by intros ts [=] |].
    split; [by left |]. split; [by intros ts [= <-] |]. split; [by right | done].
  - exists e'. rewrite E. f_equal. f_equal. vm_compute in E. by injection E as <- <-.
Defined.

(** After a delta of 10, a stream of 20 ms frames advances by 10 per packet. *)
Lemma small_step_never_recovers_witness :
  let e := (stamp started (audio 7 1010)).1 in
  (stamp started (audio 7 1010)).2 = (4294967210, false) /\
  stamps e [audio 7 1170; audio 7 1330; audio 7 1490] !! 2%nat = Some (4294967240, true).
Proof.
  intros e. split; [done |].
  rewrite (small_step_never_recovers e 7 1010 4294967210 10 160
    [audio 7 1170; audio 7 1330; audio 7 1490]); try done; [| cbn; lia].
  intros j p Hp. by destruct j as [| [| [| ?]]]; cbn in Hp; simplify_eq.
Defined.

End Timeline.
