(* ===== verification/Call.v ===== *)
(** A call between two plain-RTP endpoints ([session/endpoint_rtp.rs]): what one
    endpoint writes, through SRTP, is what the other routes. *)

From stdpp Require Import strings.
From S2P Require Import Prelude Rtp Rtcp SrtpBase Srtp Srtcp Media Stats Routing SocketPool RtpEndpoint Timeline.
#[local] Open Scope Z_scope.

Module Call.
Import RtpEndpoint Timeline.
Section call.
Context {C : Crypto} {NW : IpNetworks}.

(** Datagrams arriving from [src], in order. *)
Fixpoint deliver (b : t) (ds : list datagram) (src : SocketAddr) (at_ now : Z)
    : outcome (t * list (option RoutedRtpPacket)) :=
  match ds with
  | [] => Val (b, [])
  | d :: ds =>
      let! (b, r) := handle_rtp_at b d.1 src at_ now in
      let! (b, rest) := deliver b ds src at_ now in
      Val (b, r :: rest)
  end.

(** [a] writes the packets; the network hands each datagram to [b]. *)
Fixpoint call (a b : t) (ps : list RoutedRtpPacket) (at_ now : Z)
    : outcome (list (option RoutedRtpPacket)) :=
  match ps with
  | [] => Val []
  | p :: ps =>
      let! (a', ds, _) := write_rtp a p true in
      let! (b', got) := deliver b ds (local_rtp_addr a) at_ now in
      let! rest := call a' b' ps at_ now in
      Val (got ++ rest)
  end.

(** ** The packets as SRTP sees them *)

Lemma build_header_len pt seq ts sc m pl :
  rtp_header_len (RtpHeader.build pt seq ts sc m pl) = Val (Some 12).
Proof.
  pose proof (RtpHeader.len_build pt seq ts sc m pl) as L. pose proof (len_nonneg pl).
  destruct (RtpHeader.build_fields pt seq ts sc m pl) as (B0 & _).
  unfold rtp_header_len. rewrite (proj2 (Z.ltb_ge _ _)) by lia. reads. rewrite B0.
  change (12 + Z.land 128 15 * 4) with 12. rewrite (proj2 (Z.ltb_ge _ _)) by lia. done.
Qed.

Lemma build_stream pt seq ts sc m pl j :
  are_bytes pl -> is_u32 sc -> wrap16 seq = wrap16 j ->
  Srtp.stream_packet sc j (RtpHeader.build pt seq ts sc m pl).
Proof.
  intros Hp Hs Hj. destruct (RtpHeader.build_fields pt seq ts sc m pl) as (_ & B2 & _ & B8).
  pose proof (RtpHeader.len_build pt seq ts sc m pl). pose proof (len_nonneg pl).
  split; [by apply RtpHeader.build_bytes |]. split; [rewrite B8; mlia |].
  split; [by rewrite B2 |]. exists 12. split; [apply build_header_len | lia].
Qed.

(** Encryption leaves the twelve header bytes alone. *)
Lemma wire_build s j pt seq ts sc m pl :
  exists body, Srtp.wire s 12 j (RtpHeader.build pt seq ts sc m pl) = RtpHeader.build pt seq ts sc m body.
Proof. eexists. unfold Srtp.wire, Srtp.wire_body. rewrite <- app_assoc. reflexivity. Qed.

Lemma deliverable_next js : forall h A,
  (forall x, x ∈ A -> x <= h) -> 0 <= h -> h + len js < 281474976710656 ->
  js = seqZ (h + 1) (len js) -> Srtp.deliverable (Some h) A js.
Proof.
  induction js as [| j js IH]; intros h A HA Hh Hb E; [done |].
  rewrite len_cons in *. pose proof (len_nonneg js).
  rewrite seqZ_cons in E by lia. injection E as -> E. cbn [Srtp.deliverable].
  split; [split_and!; try lia; intros H1; specialize (HA _ H1); lia |].
  rewrite Z.max_r by lia. apply IH; [| lia | lia |].
  - intros x [-> | Hx]%elem_add; [lia |]. specialize (HA _ Hx). lia.
  - rewrite E at 1. f_equal; lia.
Qed.

Lemma deliverable_first j n :
  0 <= j < 65536 -> 0 <= n -> j + n <= 281474976710656 -> Srtp.deliverable None ∅ (seqZ j n).
Proof.
  intros Hj Hn Hb. destruct (decide (n = 0)) as [-> | Hn0]; [done |].
  rewrite seqZ_cons by lia. cbn [Srtp.deliverable]. split; [done |].
  assert (L : len (seqZ (Z.succ j) (Z.pred n)) = n - 1) by (unfold len; rewrite length_seqZ; lia).
  apply deliverable_next; rewrite ?L; try lia; [by intros x ->%elem_of_singleton |].
  f_equal; lia.
Qed.

Lemma ascending_next js : forall i,
  0 <= i -> i + len js < 281474976710656 -> js = seqZ (i + 1) (len js) -> Srtp.ascending (Some i) js.
Proof.
  induction js as [| j js IH]; intros i Hi Hb E; [done |].
  rewrite len_cons in *. pose proof (len_nonneg js).
  rewrite seqZ_cons in E by lia. injection E as -> E. cbn [Srtp.ascending Srtp.next_index].
  split; [lia |]. apply IH; [lia | lia |]. rewrite E at 1. f_equal; lia.
Qed.

Lemma ascending_first j n :
  0 <= j < 65536 -> 0 <= n -> j + n <= 281474976710656 -> Srtp.ascending None (seqZ j n).
Proof.
  intros Hj Hn Hb. destruct (decide (n = 0)) as [-> | Hn0]; [done |].
  rewrite seqZ_cons by lia. cbn [Srtp.ascending]. split; [done |].
  assert (L : len (seqZ (Z.succ j) (Z.pred n)) = n - 1) by (unfold len; rewrite length_seqZ; lia).
  apply ascending_next; rewrite ?L; try lia. f_equal; lia.
Qed.

(** ** One packet *)

(** [b] accepts media from [src] under the context [r], outside a rekey. *)
Record listening (b : t) (src : SocketAddr) (at_ : Z) (r : Srtp.SrtpContext) : Prop := {
  ls_allowed : source_allowed b src at_ false = true;
  ls_rekey : rekey_switchover b = None;
  ls_new : srtp_rx_new b = None;
  ls_rx : srtp_rx b = Some r;
}.

Definition header_of (pt seq ts sc : Z) (m : bool) : RtpHeader.t :=
  RtpHeader.mk 2 false false 0 m pt (wrap16 seq) (wrap32 ts) (wrap32 sc) 12.

Lemma handle_delivered b src at_ now c c' pt seq ts sc m body pl :
  listening b src at_ c -> 0 <= pt < 128 -> known_payload_type b pt = true ->
  Srtp.unprotect c (RtpHeader.build pt seq ts sc m body) = Val (c', Ok (RtpHeader.build pt seq ts sc m pl)) ->
  handle_rtp_at b (RtpHeader.build pt seq ts sc m body) src at_ now =
    Val (accept_rtp (b {{ srtp_rx := Some c' }}) (header_of pt seq ts sc m) pl src now,
         Some (mkPacket (id b) pt (wrap16 seq) (wrap32 ts) (wrap32 sc) m pl)).
Proof.
  intros [] Hpt Hk Hu.
  assert (Ep : Z.land pt 127 = pt) by (rewrite land127; mlia).
  destruct (RtpHeader.parse_build pt seq ts sc m body ltac:(mlia)) as [P1 _].
  destruct (RtpHeader.parse_build pt seq ts sc m pl ltac:(mlia)) as [P2 P3].
  rewrite Ep in *. unfold handle_rtp_at, check_rekey_switchover. rewrite ls_rekey0, ls_allowed0.
  cbn [negb]. rewrite P1. cbn [obind RtpHeader.payload_type]. rewrite Hk. cbn [negb].
  unfold decrypt_rtp. rewrite ls_new0, ls_rx0, Hu. cbn [obind]. rewrite P2. cbn [obind].
  unfold bad_padding. cbn [RtpHeader.padding andb]. rewrite P3. cbn [obind]. by destruct b.
Qed.

Lemma allowed_latched b src at_ :
  source_allowed b src at_ false = true -> source_allowed (latched b src) src at_ false = true.
Proof.
  unfold latched. destruct (addr_locked b) eqn:L; [done |]. unfold source_allowed, latch_remote_addr.
  destruct (Bool.eqb _ _) eqn:F; [| done]. intros _. destruct b as []; cbn in *.
  destruct rtcp_mux0; cbn; rewrite F; cbn; by rewrite bool_decide_true.
Qed.

Lemma listening_after b src at_ now c c' h pl :
  listening b src at_ c ->
  let b' := accept_rtp (b {{ srtp_rx := Some c' }}) h pl src now in
  listening b' src at_ c' /\ id b' = id b /\ known_payload_type b' = known_payload_type b.
Proof.
  intros [] b'.
  assert (A : source_allowed b' src at_ false = true).
  { unfold b'. rewrite (source_allowed_view _ _ _ _ _ (accept_addressing _ _ _ _ _)).
    rewrite (source_allowed_view _ (latched b src)) by (apply latched_view; by destruct b).
    by apply allowed_latched. }
  assert (K : rekey_switchover b' = None /\ srtp_rx_new b' = None /\ srtp_rx b' = Some c' /\
    id b' = id b /\ codecs b' = codecs b /\ send_codec b' = send_codec b /\
    telephone_event_pt b' = telephone_event_pt b).
  { unfold b', accept_rtp, latch_remote_addr. clear b' A. destruct b as []; cbn in *. subst.
    destruct addr_locked0, rtcp_mux0; cbn; done. }
  destruct K as (K1 & K2 & K3 & K4 & K5 & K6 & K7). split; [by split |]. split; [done |].
  unfold known_payload_type. by rewrite K5, K6, K7.
Qed.

(** ** The whole call *)

(** What [b] routes for the [k]-th packet. *)
Definition routed_as (a b : t) (p : RoutedRtpPacket) (k : nat) (s : Z * bool) : RoutedRtpPacket :=
  mkPacket (id b) (payload_type p) (wrap16 (seq_no a + Z.of_nat k)) (wrap32 s.1) (our_ssrc a) s.2
    (payload p).

Definition sendable (b : t) (p : RoutedRtpPacket) : Prop :=
  0 <= payload_type p < 128 /\ known_payload_type b (payload_type p) = true /\ are_bytes (payload p).

Definition room_to_send (s : Srtp.SrtpContext) (ssrc n : Z) : Prop :=
  Srtp.over_cap s ssrc MAX_SEND_SSRCS = false /\ 0 <= Srtp.protected_packets (Srtp.entry s ssrc) /\
  Srtp.protected_packets (Srtp.entry s ssrc) + n <= Srtp.packet_lifetime s <= MAX_SRTP_PACKETS_PER_MASTER_KEY.
Definition room_to_accept (r : Srtp.SrtpContext) (ssrc n : Z) : Prop :=
  Srtp.over_cap r ssrc MAX_RECV_SSRCS = false /\ 0 <= Srtp.accepted_packets (Srtp.entry r ssrc) /\
  Srtp.accepted_packets (Srtp.entry r ssrc) + n <= Srtp.packet_lifetime r <= MAX_SRTP_PACKETS_PER_MASTER_KEY.

(** Sender and receiver agree that the next packet has index [j]. *)
Record in_step (a b : t) (at_ j n : Z) (s r : Srtp.SrtpContext) : Prop := {
  is_remote : is_Some (remote_rtp_addr a) /\ is_Some (remote_ssrc a);
  is_tx : srtp_tx a = Some s;
  is_fields : is_u32 (our_ssrc a) /\ seq_no a = wrap16 j /\ 0 <= j;
  is_listening : listening b (local_rtp_addr a) at_ r;
  is_keys : Srtp.same_keys s r;
  is_send : exists last, Srtp.send_state (Srtp.entry s (our_ssrc a)) last /\
              Srtp.ascending last (seqZ j n);
  is_recv : exists h A, Srtp.recv_state (Srtp.entry r (our_ssrc a)) h A /\
              Srtp.deliverable h A (seqZ j n);
  is_send_room : room_to_send s (our_ssrc a) n;
  is_recv_room : room_to_accept r (our_ssrc a) n;
}.

Lemma room_after_send s ssrc st n :
  room_to_send s ssrc n -> 1 <= n ->
  Srtp.protected_packets st = wrap64 (Srtp.protected_packets (Srtp.entry s ssrc) + 1) ->
  room_to_send (Srtp.put s ssrc st) ssrc (n - 1).
Proof.
  unfold room_to_send, MAX_SRTP_PACKETS_PER_MASTER_KEY. intros (_ & H1 & H2) Hn Hc.
  rewrite Srtp.entry_put, bool_decide_true, Hc by done.
  split; [by eapply Srtp.over_cap_known, Srtp.put_known |]. destruct s; cbn in *. mlia.
Qed.

Lemma room_after_accept r ssrc st n :
  room_to_accept r ssrc n -> 1 <= n ->
  Srtp.accepted_packets st = wrap64 (Srtp.accepted_packets (Srtp.entry r ssrc) + 1) ->
  room_to_accept (Srtp.put r ssrc st) ssrc (n - 1).
Proof.
  unfold room_to_accept, MAX_SRTP_PACKETS_PER_MASTER_KEY. intros (_ & H1 & H2) Hn Hc.
  rewrite Srtp.entry_put, bool_decide_true, Hc by done.
  split; [by eapply Srtp.over_cap_known, Srtp.put_known |]. destruct r; cbn in *. mlia.
Qed.

Lemma call_step a b at_ now j n s r p :
  in_step a b at_ j n s r -> 1 <= n -> sendable b p ->
  exists b' s' r' w remote,
    write_rtp a p true = Val (send_datagram (after_write a p (Some s')) w remote true
                                (Some (outbound a p))) /\
    handle_rtp_at b w (local_rtp_addr a) at_ now = Val (b', Some (routed_as a b p 0 (stamp a p).2)) /\
    in_step (after_write a p (Some s')) b' at_ (j + 1) (n - 1) s' r' /\
    id b' = id b /\ known_payload_type b' = known_payload_type b.
Proof.
  intros [[[remote Hr] Hs] Ht (Hu & Hq & Hj) Hl Hk (last & Hsend & Hasc) (h & A & Hrecv & Hdel) Rs Rr]
    Hn (Hpt & Hkn & Hb).
  pose proof Rs as (Os & Ns & Ls). pose proof Rr as (Or & Nr & Lr).
  rewrite seqZ_cons in Hasc, Hdel by lia. destruct Hasc as [Hnext Hasc].
  assert (Hp : Srtp.stream_packet (our_ssrc a) j (outbound a p)).
  { apply build_stream; [done | done |]. rewrite Hq. mlia. }
  assert (Hp' := Hp). destruct Hp' as (Bp & E8 & E2 & _).
  destruct (Srtp.protect_wire s (outbound a p) 12 last j) as (st & Hst & Hcnt & E); rewrite ?E8; try done.
  { apply build_header_len. }
  { unfold outbound. rewrite RtpHeader.len_build. pose proof (len_nonneg (payload p)). lia. }
  { lia. }
  rewrite E8 in Hcnt, E.
  assert (Hw : Srtp.wire_of s j (outbound a p) (Srtp.wire s 12 j (outbound a p))).
  { exists 12. split; [apply build_header_len |]. split; [| done]. unfold outbound.
    rewrite RtpHeader.len_build. pose proof (len_nonneg (payload p)). lia. }
  destruct (Srtp.deliver_step s r (our_ssrc a) h A j (outbound a p) _ _ Hk Hp Hw Hrecv Hdel Or ltac:(lia))
    as (rt & h' & A' & Eu & Hrecv' & Hdel' & Hacc).
  destruct (wire_build s j (payload_type p) (seq_no a) (stamp a p).2.1 (our_ssrc a) (stamp a p).2.2
    (payload p)) as [body Ew]. fold (outbound a p) in Ew. rewrite Ew in Eu.
  pose proof (handle_delivered b (local_rtp_addr a) at_ now r _ _ _ _ _ _ body _ Hl Hpt Hkn Eu) as Eh.
  destruct (listening_after b (local_rtp_addr a) at_ now r (Srtp.put r (our_ssrc a) rt)
    (header_of (payload_type p) (seq_no a) (stamp a p).2.1 (our_ssrc a) (stamp a p).2.2)
    (payload p) Hl) as (Hl' & Hid & Hkn').
  destruct (after_write_keeps a p (Some (Srtp.put s (our_ssrc a) st))) as (K1 & K2 & K3 & K4 & K5 & K6).
  do 5 eexists. split; [exact (write_rtp_srtp a p remote true s _ _ Hr Hs Ht E) |].
  rewrite Ew. split.
  { rewrite Eh. unfold routed_as. rewrite Z.add_0_r. do 4 f_equal. mlia. }
  split; [| done].
  split; rewrite ?K1, ?K2, ?K3, ?K4, ?K6; try done.
  - split; [done |]. rewrite Hq. split; mlia.
  - exists (Some j). rewrite Srtp.entry_put, bool_decide_true by done. split; [by split |].
    replace (seqZ (j + 1) (n - 1)) with (seqZ (Z.succ j) (Z.pred n)) by (f_equal; lia). done.
  - exists h', A'. rewrite Srtp.entry_put, bool_decide_true by done. split; [done |].
    replace (seqZ (j + 1) (n - 1)) with (seqZ (Z.succ j) (Z.pred n)) by (f_equal; lia). done.
  - by apply room_after_send.
  - by apply room_after_accept.
Qed.

Lemma call_delivers ps : forall a b at_ now j s r,
  in_step a b at_ j (len ps) s r -> Forall (sendable b) ps ->
  exists got, call a b ps at_ now = Val got /\ length got = length ps /\
    forall k p, ps !! k = Some p -> exists st,
      stamps a ps !! k = Some st /\ got !! k = Some (Some (routed_as a b p k st)).
Proof.
  induction ps as [| p ps IH]; intros a b at_ now j s r I F; [by exists [] |].
  inversion F as [| ? ? Hp F']; subst. rewrite len_cons in I. pose proof (len_nonneg ps).
  destruct (call_step a b at_ now j _ s r p I ltac:(lia) Hp)
    as (b' & s' & r' & w & remote & Ew & Eh & I' & Hid & Hkn).
  destruct (IH (after_write a p (Some s')) b' at_ now (j + 1) s' r') as (got & E & L & G).
  { by replace (len ps) with (1 + len ps - 1) by lia. }
  { eapply Forall_impl; [exact F' |]. intros q Hq2. unfold sendable. by rewrite Hkn. }
  exists (Some (routed_as a b p 0 (stamp a p).2) :: got). cbn [call]. rewrite Ew.
  cbn [obind send_datagram deliver fst]. rewrite Eh. cbn [obind]. rewrite E. cbn [obind].
  split; [done |]. split; [cbn; by rewrite L |]. intros k q Hq. destruct k as [| k].
  - injection Hq as <-. by exists (stamp a p).2.
  - destruct (G k q Hq) as (st & S1 & G1). rewrite stamps_after in S1. exists st. split; [done |].
    change (got !! k = Some (Some (routed_as a b q (S k) st))). rewrite G1.
    destruct (after_write_keeps a p (Some s')) as (K1 & K2 & _). unfold routed_as.
    rewrite Hid, K1, K2. do 3 f_equal. mlia.
Qed.

Lemma fresh_call_delivers a b s r ps at_ now
  (sender : is_Some (remote_rtp_addr a) /\ is_Some (remote_ssrc a) /\ srtp_tx a = Some s /\
            is_u32 (our_ssrc a) /\ is_u16 (seq_no a))
  (receiver : listening b (local_rtp_addr a) at_ r)
  (keys : Srtp.same_keys s r) (fresh : Srtp.streams s = ∅ /\ Srtp.streams r = ∅)
  (send_life : len ps <= Srtp.packet_lifetime s <= MAX_SRTP_PACKETS_PER_MASTER_KEY)
  (recv_life : len ps <= Srtp.packet_lifetime r <= MAX_SRTP_PACKETS_PER_MASTER_KEY)
  (index_space : seq_no a + len ps <= 281474976710656)
  (packets : Forall (sendable b) ps) :
  exists got, call a b ps at_ now = Val got /\ length got = length ps /\
    forall k p, ps !! k = Some p -> exists st,
      stamps a ps !! k = Some st /\ got !! k = Some (Some (routed_as a b p k st)).
Proof.
  destruct sender as (H1 & H2 & H3 & H4 & H5). destruct fresh as [F1 F2].
  pose proof (len_nonneg ps) as Hn.
  apply (call_delivers ps a b at_ now (seq_no a) s r); [| done].
  split; try done.
  - split_and!; try done; mlia.
  - exists None. rewrite Srtp.fresh_entry by done. split; [done |]. apply ascending_first; mlia.
  - exists None, ∅. rewrite Srtp.fresh_entry by done.
    split; [by split; [apply Srtp.recv_ok_default |] |]. apply deliverable_first; mlia.
  - unfold room_to_send. rewrite Srtp.fresh_entry by done.
    split; [exact (Srtp.fresh_over_cap s (our_ssrc a) F1) | cbn; lia].
  - unfold room_to_accept. rewrite Srtp.fresh_entry by done.
    split; [exact (Srtp.fresh_over_cap r (our_ssrc a) F2) | cbn; lia].
Qed.

(** C7: a call through SRTP, end to end.  One endpoint writes any sequence of
    audio and DTMF packets, the other receives the datagrams in order from an
    approved source, both starting fresh on the same key.  Then every write
    sends one datagram, every datagram is authenticated, decrypted and routed,
    and what is routed is the packet that was written: same payload type and
    payload, consecutive sequence numbers through rollovers of the 16-bit
    counter, one SSRC, and the timestamp and marker of the sender's timeline. *)
Theorem srtp_call_delivered a b s r ps at_ now
  (sender : is_Some (remote_rtp_addr a) /\ is_Some (remote_ssrc a) /\ srtp_tx a = Some s /\
            is_u32 (our_ssrc a) /\ is_u16 (seq_no a))
  (receiver : listening b (local_rtp_addr a) at_ r)
  (keys : Srtp.same_keys s r) (fresh : Srtp.streams s = ∅ /\ Srtp.streams r = ∅)
  (send_life : len ps <= Srtp.packet_lifetime s <= MAX_SRTP_PACKETS_PER_MASTER_KEY)
  (recv_life : len ps <= Srtp.packet_lifetime r <= MAX_SRTP_PACKETS_PER_MASTER_KEY)
  (index_space : seq_no a + len ps <= 281474976710656)
  (packets : Forall (sendable b) ps) :
  exists got, call a b ps at_ now = Val got /\ length got = length ps /\
    forall k p, ps !! k = Some p -> exists st,
      stamps a ps !! k = Some st /\ got !! k = Some (Some (routed_as a b p k st)).
Proof. by apply (fresh_call_delivers a b s r). Qed.

End call.

(** ** Example: a short call through a rollover of the sequence number *)

Import Examples Flow.
#[local] Existing Instance sample_crypto.
#[local] Existing Instance sample_networks.

Definition caller : t := (secured endpoint) {{ remote_ssrc := Some 9 }}.
Definition callee : t :=
  (secured endpoint) {{ id := 2; local_rtp_addr := host 2 5000;
                        remote_rtp_addr := Some (host 1 4000) }}.

Lemma srtp_call_delivered_witness :
  call caller callee [audio 7 0; audio 7 160; audio 7 320] 10 10 =
    Val [Some (mkPacket 2 0 65534 0 77 false [7]); Some (mkPacket 2 0 65535 160 77 false [7]);
         Some (mkPacket 2 0 0 320 77 false [7])].
Proof.
  destruct (srtp_call_delivered caller callee (key 1) (key 1) [audio 7 0; audio 7 160; audio 7 320] 10 10)
    as (got & E & _ & G).
  - split_and!; try (by eexists); by vm_compute.
  - split; by vm_compute.
  - done.
  - split; by vm_compute.
  - split; by vm_compute.
  - split; by vm_compute.
  - by vm_compute.
  - repeat constructor; by vm_compute.
  - rewrite E. f_equal. vm_compute in E. by injection E as <-.
Defined.

End Call.
