(* ===== verification/Negotiate.v ===== *)
(** Offer and answer of the plain-RTP endpoint ([session/endpoint_rtp.rs]): the
    endpoint made from an offer, the offer made by an endpoint, the answer
    accepted, the re-INVITE and the rekeying offer, over the text of
    [media/sdp.rs].

    The thirty random bytes of a key are an argument. *)

From stdpp Require Import strings.
From Stdlib Require Import Ascii.
From S2P Require Import Prelude Rtp Rtcp SrtpBase Srtp Srtcp Media Stats Routing SocketPool Text Net Sdp SdpText RtpEndpoint Timeline Call.
#[local] Open Scope Z_scope.
#[local] Open Scope text_scope.

(** [base64::STANDARD.encode]: decoding gives the bytes back, and the text has
    no blank and no vertical bar. *)
Class Base64 `{Crypto} := {
  base64_encode : bytes -> bytes;
  encode_bytes : forall b, are_bytes b -> are_bytes (base64_encode b);
  decode_encode : forall b, are_bytes b -> base64_decode (base64_encode b) = Some b;
  encode_word : forall b, are_bytes b -> b <> [] -> Text.word (Text.of_bytes (base64_encode b)) = true;
  encode_no_bar : forall b, are_bytes b -> Text.all (Text.isnt "|"%char) (Text.of_bytes (base64_encode b)) = true;
}.

Module Negotiate.
Import SocketPool(IpAddr, V4, V6).
Import Routing(EndpointDirection, SendRecv, SendOnly, RecvOnly, Inactive).
Import Text Net Sdp RtpEndpoint.

Inductive RtpMediaSecurity := PlainRtp | OptionalSrtp | SecureRtp.
#[global] Instance RtpMediaSecurity_eq_dec : EqDecision RtpMediaSecurity.
Proof. solve_decision. Defined.

Inductive sdp_failure :=
| BadSdp (e : sdp_error) | CodecAbsent | RxInit (e : srtp_error) | TxInit (e : srtp_error)
| SecurityMismatch | SecurityRemoved | FamilyChange | NoAddress | UnofferedPayloadType | NoSupportedCodec
| NoCommonCodec | BadLifetimeUpdate (e : lifetime_error).

Section negotiate.
Context {C : Crypto} {B64 : Base64} {NW : IpNetworks}.

(** What [RtpEndpoint::new] is given: the socket pair, the configured networks,
    the clock and the random numbers. *)
Record Setup := mkSetup {
  s_id : Z;
  s_direction : EndpointDirection;
  s_rtp_addr : SocketAddr;
  s_networks : list IpNet;
  s_ssrc : Z;
  s_seq : Z;
  s_now : Z;
}.
Definition set_up (s : Setup) : t :=
  new (s_id s) (s_direction s) (s_rtp_addr s) (s_networks s) advertised_default (s_ssrc s) (s_seq s) (s_now s).

Definition apply_direction (e : t) (p : ParsedSdp) : t :=
  match p_direction p with
  | Some d =>
      match endpoint_direction_from_sdp d with
      | Some dir =>
          let e := e {{ last_remote_direction := Some dir }} in
          if direction_auto e then e {{ direction := dir }} else e
      | None => e
      end
  | None => e
  end.

(** The RTCP address follows the mode. *)
Definition apply_rtcp_addr (e : t) (p : ParsedSdp) : t :=
  match remote_addr p with
  | Some addr =>
      if rtcp_mux e then e {{ remote_rtcp_addr := Some addr }}
      else e {{ remote_rtcp_addr := match p_remote_rtcp_addr p with Some a => Some a | None => rtcp_addr_from_rtp addr end }}
  | None => e
  end.

Definition apply_addr (e : t) (p : ParsedSdp) : t :=
  let e := e {{ remote_rtp_addr := remote_addr p }} in
  let e := if p_rtcp_mux p then e {{ rtcp_mux := true }} else e in
  apply_rtcp_addr e p.

(** The contexts of a fresh key of ours. *)
Definition new_tx (e : t) (key : bytes) : t * result sdp_failure unit :=
  match Srtp.from_sdes_key key with
  | Err err => (e, Err (TxInit err))
  | Ok tx =>
      let e := e {{ srtp_tx := Some tx }} in
      match Srtcp.from_sdes_key key with
      | Err err => (e, Err (TxInit err))
      | Ok rtcp_tx => (e {{ srtcp_tx := Some rtcp_tx; srtp_tx_key_b64 := Some key }}, Ok tt)
      end
  end.

(** The send codec first. *)
Definition answer_codecs (e : t) : list SdpCodec :=
  match send_codec e with
  | Some send => send :: List.filter (fun c => negb (pt send =? pt c)) (codecs e)
  | None => codecs e
  end.

Definition local_codec (c : SdpCodec) : SdpCodec :=
  if String.eqb (name c) "opus" then c {{ fmtp := fmtp CODEC_OPUS }} else c.

Definition session_id (e : t) : Z := wrap64 (id e).

Definition choose_codec (p : ParsedSdp) (codec : option string) : result sdp_failure (option SdpCodec) :=
  match codec with
  | Some n =>
      match find (fun c => eq_ignore_ascii_case (name c) n && negb (is_te c)) (p_codecs p) with
      | Some c => Ok (Some c)
      | None => Err CodecAbsent
      end
  | None => Ok (select_answer_codec (p_codecs p))
  end.

(** The receiving key of the offer and a sending key of our own. *)
Definition offered_keys (e : t) (p : ParsedSdp) (random : bytes) : result sdp_failure (t * option SdpCrypto) :=
  match crypto p with
  | None => Ok (e, None)
  | Some c =>
      match remote_srtp_contexts c with
      | Err err => Err (RxInit err)
      | Ok (rx, rtcp_rx) =>
          let e := e {{ srtp_rx := Some rx; srtcp_rx := Some rtcp_rx; srtp_rx_key_b64 := Some (key_b64 c) }} in
          match new_tx e (base64_encode random) with
          | (_, Err err) => Err err
          | (e, Ok _) => Ok (e, Some (mkCrypto (tag c) (suite c) (base64_encode random) None))
          end
      end
  end.

Definition from_offer_with_codec (s : Setup) (bind_ip : IpAddr) (offer_sdp : string) (codec : option string)
    (random : bytes) : outcome (result sdp_failure (t * string)) :=
  let p := parse_sdp offer_sdp in
  match validate_plain_offer p with
  | Err err => Val (Err (BadSdp err))
  | Ok _ =>
      let e := apply_direction (set_up s) p in
      let e := e {{ remote_rtp_addr := remote_addr p; rtcp_mux := p_rtcp_mux p }} in
      let e := apply_rtcp_addr e p in
      match choose_codec p codec with
      | Err err => Val (Err err)
      | Ok send =>
          let e := e {{ send_codec := send; recv_clock_rate := match send with Some c => clock_rate c | None => 8000 end }} in
          let te := select_telephone_event_codec (p_codecs p) (recv_clock_rate e) in
          let e := e {{ telephone_event_pt := pt <$> te;
                        telephone_event_clock_rate := match te with Some c => clock_rate c | None => 8000 end }} in
          let e := e {{ codecs := match send with Some c => [c] | None => [] end
                          ++ take 1 (List.filter (fun c => bool_decide (Some (pt c) = telephone_event_pt e)) (p_codecs p)) }} in
          match offered_keys e p random with
          | Err err => Val (Err err)
          | Ok (e, answer_crypto) =>
              let port := port (local_rtp_addr e) in
              let! r := generate_sdp_answer_for_offer (socket_addr bind_ip port) port (map local_codec (answer_codecs e))
                          answer_crypto (session_id e) p in
              match r with
              | Err err => Val (Err (BadSdp err))
              | Ok answer => Val (Ok (e {{ state := Connected }}, answer))
              end
          end
      end
  end.

Definition create_offer (s : Setup) (bind_ip : IpAddr) (cs : list SdpCodec) (media_security : RtpMediaSecurity)
    (random : bytes) : outcome (result sdp_failure (t * string)) :=
  let e := set_up s in
  let profile := match find (fun c => String.eqb (name c) "opus") cs with
                 | Some c => from_codec c
                 | None => default_profile
                 end in
  let te := find is_te cs in
  let e := e {{ codecs := cs; opus_receive_profile := profile {{ max_packet_ms := 20 }};
                offer_codec_constrained := len (List.filter (fun c => negb (is_te c)) cs) =? 1;
                send_codec := find (fun c => negb (is_te c)) cs;
                telephone_event_pt := pt <$> te;
                telephone_event_clock_rate := match te with Some c => clock_rate c | None => 8000 end }} in
  let keyed :=
    if bool_decide (media_security = PlainRtp) then Ok (e, None)
    else match new_tx e (base64_encode random) with
         | (_, Err err) => Err err
         | (e, Ok _) => Ok (e, Some (mkCrypto 1 SUITE (base64_encode random) None))
         end in
  match keyed with
  | Err err => Val (Err err)
  | Ok (e, key) =>
      let e := e {{ srtp_optional := bool_decide (media_security = OptionalSrtp) }} in
      let port := port (local_rtp_addr e) in
      let! offer :=
        if srtp_optional e then
          match key with
          | Some key => generate_osrtp_sdp_offer (socket_addr bind_ip port) port (codecs e) key (session_id e)
          | None => Panic
          end
        else generate_sdp_offer (socket_addr bind_ip port) port (codecs e) key (session_id e) in
      Val (Ok (e {{ state := Connecting }}, offer))
  end.

(** The key of the other side: the first one, a new one beside the old one for
    five seconds, or the same one with a shorter life. *)
Definition install_rx (e : t) (c : SdpCrypto) (now : Z) : result sdp_failure t :=
  match srtp_rx e with
  | None =>
      match remote_srtp_contexts c with
      | Err err => Err (RxInit err)
      | Ok (rx, rtcp_rx) =>
          Ok (e {{ srtp_rx := Some rx; srtcp_rx := Some rtcp_rx; srtp_rx_key_b64 := Some (key_b64 c) }})
      end
  | Some _ =>
      if negb (bool_decide (srtp_rx_key_b64 e = Some (key_b64 c))) then
        match remote_srtp_contexts c with
        | Err err => Err (RxInit err)
        | Ok (rx, rtcp_rx) =>
            Ok (e {{ srtp_rx_new := Some rx; srtcp_rx_new := Some rtcp_rx;
                     rekey_switchover := Some (now + 5 * ns_per_s); srtp_rx_key_b64 := Some (key_b64 c) }})
        end
      else Ok (tighten_remote_srtp_lifetime e c)
  end.

Definition ensure_tx (e : t) (random : bytes) : t * result sdp_failure unit :=
  match srtp_tx e with Some _ => (e, Ok tt) | None => new_tx e (base64_encode random) end.

(** The endpoint after the keys of a description; on an error, as it was left. *)
Definition apply_keys (e : t) (p : ParsedSdp) (random : bytes) (now : Z) : t * result sdp_failure unit :=
  match crypto p with
  | None => (e, Ok tt)
  | Some c =>
      match install_rx e c now with
      | Err err => (e, Err err)
      | Ok e => ensure_tx e random
      end
  end.

Definition unoffered (e : t) (p : ParsedSdp) : bool :=
  match selected_audio_section p with
  | Some index =>
      match media_sections p !! index with
      | Some section =>
          existsb (fun format => match parse_uint u8_max format with
                                 | Some n => negb (existsb (fun c => pt c =? n) (codecs e))
                                 | None => true
                                 end) (formats section)
      | None => false
      end
  | None => false
  end.

Definition same_mapping (c d : SdpCodec) : bool :=
  (pt c =? pt d) && String.eqb (to_ascii_uppercase (name c)) (to_ascii_uppercase (name d)) && (clock_rate c =? clock_rate d).
Definition acceptable (e : t) (c : SdpCodec) : bool :=
  bool_decide (codecs e = [])
  || if offer_codec_constrained e then existsb (same_mapping c) (codecs e)
     else existsb (fun original => eq_ignore_ascii_case (name original) (name c)) (codecs e).

(** The checks of an answer; nothing is changed before they pass. *)
Definition check_answer (e : t) (p : ParsedSdp) (selected_plain_rtp : bool) : result sdp_failure (list SdpCodec) :=
  let offered_srtp := bool_decide (is_Some (srtp_tx_key_b64 e)) in
  let answered_srtp := bool_decide (is_Some (crypto p)) in
  if negb (Bool.eqb offered_srtp answered_srtp) && negb selected_plain_rtp then Err SecurityMismatch
  else if reject_family_change e (remote_addr p) then Err FamilyChange
  else if bool_decide (remote_addr p = None) then Err NoAddress
  else if offer_codec_constrained e && unoffered e p then Err UnofferedPayloadType
  else if bool_decide (p_codecs p = []) then Err NoSupportedCodec
  else
    let valid := List.filter (acceptable e) (p_codecs p) in
    if negb (existsb (fun c => negb (is_te c)) valid) then Err NoCommonCodec
    else
      match crypto p with
      | Some c =>
          match validate_remote_srtp_lifetime_update e c with
          | Err err => Err (BadLifetimeUpdate err)
          | Ok _ => Ok valid
          end
      | None => Ok valid
      end.

Definition plain_selected (e : t) (p : ParsedSdp) : bool :=
  bool_decide (is_Some (srtp_tx_key_b64 e)) && negb (bool_decide (is_Some (crypto p))) && srtp_optional e
  && bool_decide (srtp_rx e = None) && bool_decide (srtp_rx_new e = None).

Definition apply_codecs (e : t) (p : ParsedSdp) (valid : list SdpCodec) : t :=
  let previous := clock_rate <$> send_codec e in
  let e := e {{ codecs := valid; send_codec := find (fun c => negb (is_te c)) valid }} in
  let e := if negb (bool_decide (previous = clock_rate <$> send_codec e))
              && bool_decide (is_Some (Rtcp.remote_receiver_report (rtcp_stats e)))
           then e {{ rtcp_stats := Rtcp.reset_remote_receiver_report (rtcp_stats e) }} else e in
  let e := e {{ telephone_event_pt := p_telephone_event_pt p;
                telephone_event_clock_rate := default 8000 (p_telephone_event_clock_rate p) }} in
  match send_codec e with Some c => e {{ recv_clock_rate := clock_rate c }} | None => e end.

Definition accept_answer (e : t) (answer_sdp : string) (random : bytes) (now : Z) : t * result sdp_failure unit :=
  let p := parse_sdp answer_sdp in
  match validate_plain_transport p with
  | Err err => (e, Err (BadSdp err))
  | Ok _ =>
      let plain := plain_selected e p in
      match check_answer e p plain with
      | Err err => (e, Err err)
      | Ok valid =>
          let e := if plain
                   then e {{ srtp_tx := None; srtcp_tx := None; srtp_tx_key_b64 := None; srtp_optional := false }}
                   else e in
          let e := apply_codecs (apply_addr (apply_direction e p) p) p valid in
          match apply_keys e p random now with
          | (e, Err err) => (e, Err err)
          | (e, Ok _) =>
              let e := e {{ state := Connected }} in
              ((reset_addr_lock e now) {{ remote_ssrc := None }}, Ok tt)
          end
      end
  end.

Definition update_remote_sdp (e : t) (sdp : string) (random : bytes) (now : Z)
    : outcome (t * result sdp_failure string) :=
  let p := parse_sdp sdp in
  match validate_plain_offer p with
  | Err err => Val (e, Err (BadSdp err))
  | Ok _ =>
      if has_srtp e && negb (bool_decide (is_Some (crypto p))) then Val (e, Err SecurityRemoved)
      else if reject_family_change e (remote_addr p) then Val (e, Err FamilyChange)
      else
        match (match crypto p with Some c => validate_remote_srtp_lifetime_update e c | None => Ok tt end) with
        | Err err => Val (e, Err (BadLifetimeUpdate err))
        | Ok _ =>
            let e := apply_addr (apply_direction e p) p in
            match apply_keys e p random now with
            | (e, Err err) => Val (e, Err err)
            | (e, Ok _) =>
                let e := (reset_addr_lock e now) {{ remote_ssrc := None }} in
                let answer_crypto :=
                  (fun key => match crypto p with
                              | Some c => mkCrypto (tag c) (suite c) key None
                              | None => mkCrypto 1 SUITE key None
                              end) <$> srtp_tx_key_b64 e in
                let port := port (local_rtp_addr e) in
                let! r := generate_sdp_answer_for_offer (socket_addr (ip (local_rtp_addr e)) port) port (answer_codecs e)
                            answer_crypto (session_id e) p in
                match r with
                | Err err => Val (e, Err (BadSdp err))
                | Ok answer => Val (e, Ok answer)
                end
            end
        end
  end.

(** [srtp_rekey] with the offer it returns. *)
Definition rekey_offer (e : t) (random : bytes) : outcome (t * result rekey_error string) :=
  match srtp_rekey e (base64_encode random) with
  | (e, Err err) => Val (e, Err err)
  | (e, Ok _) =>
      let key := mkCrypto 1 SUITE (base64_encode random) None in
      let port := port (local_rtp_addr e) in
      let local_addr := socket_addr (ip (local_rtp_addr e)) port in
      let! offer := if srtp_optional e then generate_osrtp_sdp_offer local_addr port (codecs e) key (session_id e)
                    else generate_sdp_offer local_addr port (codecs e) (Some key) (session_id e) in
      Val (e, Ok offer)
  end.

(** ** Keys *)

Definition is_key (random : bytes) : Prop := are_bytes random /\ len random = 30.

Lemma key_contexts random :
  is_key random ->
  exists s sc, Srtp.from_sdes_key (base64_encode random) = Ok s /\ Srtcp.from_sdes_key (base64_encode random) = Ok sc /\
    Srtp.streams s = ∅ /\ Srtp.packet_lifetime s = MAX_SRTP_PACKETS_PER_MASTER_KEY /\
    forall i n, remote_srtp_contexts (mkCrypto i n (base64_encode random) None) = Ok (s, sc).
Proof.
  intros [Hb Hl]. unfold remote_srtp_contexts, remote_srtp_packet_lifetime, Srtp.from_sdes_key, Srtcp.from_sdes_key,
    Srtp.from_sdes_key_with_lifetime, Srtcp.from_sdes_key_with_lifetime. cbn [key_b64 key_lifetime_packets default].
  rewrite decode_encode, Hl by done. cbn. do 2 eexists. split_and!; done.
Qed.

Lemma new_tx_ok e random :
  is_key random -> exists s sc, Srtp.from_sdes_key (base64_encode random) = Ok s /\
    Srtcp.from_sdes_key (base64_encode random) = Ok sc /\
    new_tx e (base64_encode random) =
      (e {{ srtp_tx := Some s; srtcp_tx := Some sc; srtp_tx_key_b64 := Some (base64_encode random) }}, Ok tt).
Proof.
  intros H. destruct (key_contexts random H) as (s & sc & E1 & E2 & _). exists s, sc. split; [done |]. split; [done |].
  unfold new_tx. by rewrite E1, E2.
Qed.

Lemma supported_contexts c : supported_sdes_key c = true -> exists rx, remote_srtp_contexts c = Ok rx.
Proof.
  unfold supported_sdes_key, remote_srtp_contexts, remote_srtp_packet_lifetime. fold (lifetime_of c).
  unfold Srtp.from_sdes_key_with_lifetime, Srtcp.from_sdes_key_with_lifetime.
  destruct (_ || _); [done |]. destruct (base64_decode _); [| done]. destruct (negb _); [done |]. by eexists.
Qed.

(** ** What the checks of a description give *)

Lemma valid_media p :
  validate_selected_plain_media p = Ok tt ->
  (forall c, crypto p = Some c -> supported_sdes_key c = true) /\ is_Some (remote_addr p) /\
  is_Some (selected_audio_section p) /\ existsb incomplete (media_sections p) = false.
Proof.
  unfold validate_selected_plain_media. destruct (_ || _) eqn:E; [done |]. apply orb_false_iff in E as [E1 E2].
  apply bool_decide_eq_false in E1. destruct (profile_security _); [| done]. destruct (_ && _); [done |].
  destruct (crypto p) as [c |].
  - destruct (supported_sdes_key c) eqn:S; [| done]. cbn. destruct (invalid_rtcp p); [done |].
    destruct (remote_addr p); [| done]. intros _. split_and!; [by intros ? [= <-] | by eexists | | done].
    destruct (selected_audio_section p); [by eexists | done].
  - destruct (invalid_rtcp p); [done |]. destruct (remote_addr p); [| done]. intros _.
    split_and!; [done | by eexists | | done]. destruct (selected_audio_section p); [by eexists | done].
Qed.
Lemma valid_offer p : validate_plain_offer p = Ok tt -> validate_selected_plain_media p = Ok tt.
Proof. unfold validate_plain_offer. by destruct (_ =? _). Qed.
Lemma valid_transport p : validate_plain_transport p = Ok tt -> validate_selected_plain_media p = Ok tt.
Proof. unfold validate_plain_transport. by destruct (negb _). Qed.

Lemma select_section_audio secs index count best n i q :
  select_section secs index count best = (n, Some (i, q)) ->
  best = Some (i, q) \/ exists s, (index <= i)%nat /\ secs !! (i - index)%nat = Some s /\ media s = "audio"%string.
Proof.
  revert index count best. induction secs as [| s secs IH]; intros index count best; cbn [select_section].
  { intros [= _ ->]. by left. }
  assert (Later : forall i0, (exists s', (S index <= i0)%nat /\ secs !! (i0 - S index)%nat = Some s' /\ media s' = "audio"%string) ->
    exists s', (index <= i0)%nat /\ (s :: secs) !! (i0 - index)%nat = Some s' /\ media s' = "audio"%string).
  { intros i0 (s' & H1 & H2 & H3). exists s'. split; [lia |]. by replace (i0 - index)%nat with (S (i0 - S index)) by lia. }
  destruct (audio_section_preference s) as [pref |] eqn:P; intros [H | H]%IH; try (right; by apply Later); [| by left].
  destruct best as [[j b] |]; [destruct (b <? pref) |]; try (by left); injection H as -> ->.
  all: right; exists s; rewrite Nat.sub_diag.
  all: split_and!; [lia | done |]; unfold audio_section_preference in P.
  all: by destruct (String.eqb_spec (media s) "audio").
Qed.

Lemma parse_sections t :
  media_sections (parse_sdp t) = fold_left scan_line (map trim (lines t)) [] /\
  selected_audio_section (parse_sdp t) = fst <$> (select_section (fold_left scan_line (map trim (lines t)) []) 0 0 None).2.
Proof.
  unfold parse_sdp. destruct (select_section _ 0 0 None) as [count best].
  destruct (fold_left (add_codec _) _ _) as [cs pr]. done.
Qed.

Lemma parse_selected t i :
  selected_audio_section (parse_sdp t) = Some i ->
  exists s, media_sections (parse_sdp t) !! i = Some s /\ media s = "audio"%string.
Proof.
  destruct (parse_sections t) as [-> ->]. destruct (select_section _ 0 0 None) as [n [[j q] |]] eqn:E; [| done].
  intros [= <-]. destruct (select_section_audio _ _ _ _ _ _ _ E) as [| (s & _ & H & A)]; [done |].
  rewrite Nat.sub_0_r in H. by exists s.
Qed.

(** An answer to a valid offer can always be written. *)
Lemma answer_written a port cs key sid t i :
  selected_audio_section (parse_sdp t) = Some i ->
  exists answer, generate_sdp_answer_for_offer a port cs key sid (parse_sdp t) = Val (Ok answer) /\
    generate_sdp a port cs key sid false (Some (media_sections (parse_sdp t), i)) = Val answer.
Proof.
  intros Hi. destruct (parse_selected t i Hi) as (s & Hs & Ha). unfold generate_sdp_answer_for_offer. rewrite Hi, Hs, Ha.
  cbn [String.eqb Ascii.eqb Bool.eqb]. unfold generate_sdp. rewrite Hs. cbn [obind]. by eexists.
Qed.

(** ** The keys are installed *)

Lemma install_rx_ok e c now : supported_sdes_key c = true -> exists e', install_rx e c now = Ok e'.
Proof.
  intros [[rx rtcp_rx] H]%supported_contexts. unfold install_rx. destruct (srtp_rx e); rewrite H; [| by eexists].
  destruct (negb _); by eexists.
Qed.
Lemma ensure_tx_ok e random : is_key random -> exists e', ensure_tx e random = (e', Ok tt).
Proof.
  intros H. unfold ensure_tx. destruct (srtp_tx e); [by eexists |].
  destruct (new_tx_ok e random H) as (s & sc & _ & _ & ->). by eexists.
Qed.
Lemma apply_keys_ok e p random now :
  is_key random -> validate_selected_plain_media p = Ok tt -> exists e', apply_keys e p random now = (e', Ok tt).
Proof.
  intros Hk (Hc & _)%valid_media. unfold apply_keys. destruct (crypto p) as [c |]; [| by eexists].
  destruct (install_rx_ok e c now (Hc c eq_refl)) as [e' ->]. by apply ensure_tx_ok.
Qed.

Lemma update_remote_sdp_val e text random now :
  is_key random -> exists e' r, update_remote_sdp e text random now = Val (e', r) /\ (forall err, r = Err err -> e' = e).
Proof.
  intros Hk. unfold update_remote_sdp. destruct (validate_plain_offer _) as [[] |] eqn:V; [| by do 2 eexists].
  apply valid_offer in V. destruct (_ && _); [by do 2 eexists |]. destruct (reject_family_change _ _); [by do 2 eexists |].
  destruct (match crypto _ with Some c => validate_remote_srtp_lifetime_update e c | None => Ok tt end); [| by do 2 eexists].
  match goal with |- context [apply_keys ?x _ _ _] => destruct (apply_keys_ok x _ _ now Hk V) as [e1 ->] end.
  destruct (valid_media _ V) as (_ & _ & [i Hi] & _).
  match goal with |- context [generate_sdp_answer_for_offer ?a ?b ?c ?d ?f _] =>
    destruct (answer_written a b c d f text i Hi) as (answer & -> & _) end.
  cbn [obind]. do 2 eexists. split; [done |]. done.
Qed.

(** C10: Negotiation is atomic.  Whatever text arrives, accepting an answer and a
    re-INVITE either succeed or leave the endpoint exactly as it was: no check
    fails after the first assignment, neither the keys nor the text of the
    answer can fail once the description was validated, and no text makes them
    panic. *)
Theorem renegotiation_atomic e text random now (key : is_key random) :
  (forall e' err, accept_answer e text random now = (e', Err err) -> e' = e) /\
  exists e' r, update_remote_sdp e text random now = Val (e', r) /\ (forall err, r = Err err -> e' = e).
Proof.
  split; [| by apply update_remote_sdp_val].
  intros e' err. unfold accept_answer. destruct (validate_plain_transport _) as [[] |] eqn:V; [| by intros [= <-]].
  apply valid_transport in V. destruct (check_answer _ _ _) as [valid |]; [| by intros [= <-]].
  match goal with |- context [apply_keys ?x _ _ _] => destruct (apply_keys_ok x _ _ now key V) as [e1 ->] end. done.
Qed.

(** ** Encryption for good *)

(** A key for each direction and each protocol. *)
Definition keys (e : t) := (srtp_tx e, srtp_rx e, srtcp_tx e, srtcp_rx e).
Definition keyed (e : t) : Prop :=
  is_Some (srtp_tx e) /\ is_Some (srtp_rx e) /\ is_Some (srtcp_tx e) /\ is_Some (srtcp_rx e).

(** A datagram made by the sending context the endpoint has. *)
Definition sealed (e : t) (o : outgoing) : Prop :=
  match o with
  | MediaOut d _ => exists c plain c', srtp_tx e = Some c /\ Srtp.protect c plain = Val (c', Ok d)
  | ReportOut d _ => exists c plain c', srtcp_tx e = Some c /\ Srtcp.protect_rtcp c plain = Val (c', Ok d)
  end.

Lemma keyed_view e e' : keys e' = keys e -> keyed e -> keyed e'.
Proof. unfold keys, keyed. intros [= -> -> -> ->]. done. Qed.

Lemma switchover_keyed e now : keyed e -> keyed (check_rekey_switchover e now).
Proof.
  intros (H1 & H2 & H3 & H4). unfold check_rekey_switchover. destruct (rekey_switchover e); [| done]. split_if; [| done].
  destruct (srtp_rx_new e) eqn:E1, (srtcp_rx_new e) eqn:E2; destruct e; cbn in *; subst; done.
Qed.

Lemma decrypt_rtp_keyed e d e' out : keyed e -> decrypt_rtp e d = Val (e', out) -> keyed e'.
Proof.
  intros (H1 & H2 & H3 & H4). unfold decrypt_rtp. destruct (srtp_rx_new e) as [c |].
  - destruct (Srtp.unprotect c d) as [[c' [x |]] |]; [cbn [obind] | cbn [obind] | done].
    + intros [= <- <-]. by destruct e.
    + replace (srtp_rx (e {{ srtp_rx_new := Some c' }})) with (srtp_rx e) by by destruct e.
      destruct (srtp_rx e) as [c2 |]; [| by destruct H2].
      destruct (Srtp.unprotect c2 d) as [[c2' r] |]; [| done]. intros [= <- <-]. by destruct e.
  - destruct (srtp_rx e) as [c |]; [| by destruct H2].
    destruct (Srtp.unprotect c d) as [[c' r] |]; [| done]. intros [= <- <-]. by destruct e.
Qed.

Lemma decrypt_rtcp_keyed e d e' out : keyed e -> decrypt_rtcp e d = Val (e', out) -> keyed e'.
Proof.
  intros (H1 & H2 & H3 & H4). unfold decrypt_rtcp. destruct (srtcp_rx_new e) as [c |].
  - destruct (Srtcp.unprotect_rtcp c d) as [[c' [x |]] |]; [cbn [obind] | cbn [obind] | done].
    + intros [= <- <-]. by destruct e.
    + replace (srtcp_rx (e {{ srtcp_rx_new := Some c' }})) with (srtcp_rx e) by by destruct e.
      destruct (srtcp_rx e) as [c2 |]; [| by destruct H4].
      destruct (Srtcp.unprotect_rtcp c2 d) as [[c2' r] |]; [| done]. intros [= <- <-]. by destruct e.
  - destruct (srtcp_rx e) as [c |]; [| by destruct H4].
    destruct (Srtcp.unprotect_rtcp c d) as [[c' r] |]; [| done]. intros [= <- <-]. by destruct e.
Qed.

Lemma accept_keys e h p src now : keys (accept_rtp e h p src now) = keys e.
Proof. unfold accept_rtp, latch_remote_addr. destruct e; cbn. by destruct addr_locked0, rtcp_mux0. Qed.
Lemma latch_keys e src : keys (latch_rtcp e src) = keys e.
Proof. unfold latch_rtcp. destruct e; cbn. by destruct rtcp_mux0. Qed.
Lemma stamp_keys e p : keys (stamp e p).1 = keys e.
Proof.
  pose proof (stamp_timeline e p) as H. destruct (stamp e p) as [e1 r]. cbn [fst] in *. rewrite <- H. by destruct e1.
Qed.

Lemma handle_rtp_keyed e d src at_ now e' out : keyed e -> handle_rtp_at e d src at_ now = Val (e', out) -> keyed e'.
Proof.
  intros K%(switchover_keyed e now). unfold handle_rtp_at. generalize dependent (check_rekey_switchover e now).
  intros e1 K. destruct (negb _); [intros [= <- _]; by apply (keyed_view e1); [by destruct e1 |] |].
  destruct (RtpHeader.parse d) as [[h |] |]; cbn [obind]; [| by intros [= <- _] | done].
  destruct (negb _); [by intros [= <- _] |].
  destruct (decrypt_rtp e1 d) as [[e2 [x |]] |] eqn:D; cbn [obind]; [| | done].
  all: apply decrypt_rtp_keyed in D; [| done].
  2: by intros [= <- _].
  destruct (RtpHeader.parse x) as [[h2 |] |]; cbn [obind]; [| by intros [= <- _] | done].
  destruct (bad_padding _ _); [by intros [= <- _] |]. destruct (RtpHeader.payload h2 x); cbn [obind]; [| done].
  intros [= <- _]. by eapply keyed_view; [apply accept_keys |].
Qed.

Lemma handle_rtcp_keyed e d src at_ now sys e' out : keyed e -> handle_rtcp_at e d src at_ now sys = Val (e', out) -> keyed e'.
Proof.
  intros K%(switchover_keyed e now). unfold handle_rtcp_at. generalize dependent (check_rekey_switchover e now).
  intros e1 K. destruct (negb _); [intros [= <- _]; by apply (keyed_view e1); [by destruct e1 |] |].
  destruct (decrypt_rtcp e1 d) as [[e2 [x |]] |] eqn:D; cbn [obind]; [| | done].
  all: apply decrypt_rtcp_keyed in D; [| done].
  2: by intros [= <- _].
  destruct (Rtcp.valid_compound x) as [v |]; cbn [obind]; [| done]. destruct (negb v); [by intros [= <- _] |].
  destruct (Rtcp.parse_rtcp x) as [ps |]; cbn [obind]; [| done].
  destruct (fold_left _ _ _) as [s bye]. intros [= <- _]. apply (keyed_view e2); [| done].
  rewrite <- (latch_keys e2 src). by destruct (latch_rtcp e2 src).
Qed.

Lemma write_rtp_keyed e p ok e' ds r :
  keyed e -> write_rtp e p ok = Val (e', ds, r) ->
  keyed e' /\ Forall (fun d => sealed e (MediaOut d.1 d.2)) ds.
Proof.
  intros K. unfold write_rtp. destruct (remote_rtp_addr e) as [remote |]; [| by intros [= <- <- _]].
  case_bool_decide; [by intros [= <- <- _] |].
  pose proof (stamp_keys e p) as Ek. pose proof (keyed_view e _ Ek K) as K1.
  destruct (stamp e p) as [e1 [ts m]]. cbn [fst] in K1, Ek. clear K.
  destruct K1 as ([c Hc] & H2 & H3 & H4). injection Ek as Etx _ _ _. rewrite Hc in Etx.
  destruct e1; cbn zeta; cbn in Hc, H2, H3, H4 |- *. subst. cbn [srtp_tx].
  match goal with |- context [Srtp.protect ?c ?x] => destruct (Srtp.protect c x) as [[c' [enc |]] |] eqn:E end; cbn [obind]; [| | done].
  - intros [= <- <- _]. split; [done |]. constructor; [by do 3 eexists; split; [symmetry |] | done].
  - intros [= <- <- _]. split; done.
Qed.

Lemma send_rtcp_keyed e ok now sys e' ds r :
  keyed e -> maybe_send_rtcp e ok now sys = Val (e', ds, r) ->
  keyed e' /\ Forall (fun d => sealed e (ReportOut d.1 d.2)) ds.
Proof.
  intros K. unfold maybe_send_rtcp. split_if; [by intros [= <- <- _] |].
  destruct (remote_rtcp_addr e) as [remote |]; [| by intros [= <- <- _]].
  destruct (remote_ssrc e) as [rs |]; [| by intros [= <- <- _]].
  destruct (Rtcp.build_sr_rr _ _ _ _ _ _ _) as [d s]. destruct K as (H1 & H2 & [c Hc] & H4).
  destruct e; cbn zeta; cbn in Hc, H1, H2, H4 |- *. subst. cbn [srtcp_tx].
  destruct (Srtcp.protect_rtcp c d) as [[c' [enc |]] |] eqn:E; cbn [obind]; [| | done].
  - destruct ok; intros [= <- <- _]; (split; [done |]); (constructor; [by do 3 eexists | done]).
  - intros [= <- <- _]. split; done.
Qed.

Lemma rekey_keyed e key : keyed e -> keyed (srtp_rekey e key).1.
Proof.
  intros (H1 & H2 & H3 & H4). unfold srtp_rekey. destruct (srtp_tx e) eqn:E; [| done].
  destruct (Srtp.from_sdes_key key); [| done]. destruct (Srtcp.from_sdes_key key); by destruct e.
Qed.
Lemma direction_keyed e u now r1 r2 r3 : keyed e -> keyed (handle_update_direction e u now r1 r2 r3).
Proof.
  intros K. apply (keyed_view e); [| done]. unfold handle_update_direction, set_direction_override.
  destruct (as_direction u); cbn zeta; split_ifs; by destruct e.
Qed.

Lemma op_keyed e o :
  keyed e -> typed_op o -> exists e' out, apply_op e o = Val (e', out) /\ keyed e' /\ Forall (sealed e) out.
Proof.
  intros K T. destruct (apply_op_spec e o T) as (e' & out & E & _). exists e', out. split; [done |]. revert E.
  destruct o as [pkt now sys | p ok | ok now sys | u now r1 r2 r3 | key | now]; cbn [apply_op].
  - destruct (receive e pkt now sys) as [[e1 r] |] eqn:E; [| done]. intros [= <- <-]. split; [| done]. revert E.
    unfold receive. destruct (is_rtcp_mux_packet _); cbn [obind]; [| done]. destruct (_ || _).
    + destruct (handle_rtcp_at _ _ _ _ _ _) as [[e2 [x y]] |] eqn:E; [| done]. intros [= <- _]. by eapply handle_rtcp_keyed.
    + destruct (handle_rtp_at _ _ _ _ _) as [[e2 x] |] eqn:E; [| done]. intros [= <- _]. by eapply handle_rtp_keyed.
  - destruct (write_rtp e p ok) as [[[e1 ds] r] |] eqn:E; [| done]. intros [= <- <-].
    destruct (write_rtp_keyed _ _ _ _ _ _ K E) as [K1 F]. split; [done |]. by apply Forall_fmap.
  - destruct (maybe_send_rtcp e ok now sys) as [[[e1 ds] r] |] eqn:E; [| done]. intros [= <- <-].
    destruct (send_rtcp_keyed _ _ _ _ _ _ _ K E) as [K1 F]. split; [done |]. by apply Forall_fmap.
  - intros [= <- <-]. split; [by apply direction_keyed | done].
  - intros [= <- <-]. split; [by apply rekey_keyed | done].
  - intros [= <- <-]. split; [by apply switchover_keyed | done].
Qed.

(** What happens to an endpoint: media and signalling. *)
Inductive step :=
| Media (o : op)
| Answer (text : string) (random : bytes) (now : Z)
| Reinvite (text : string) (random : bytes) (now : Z)
| RekeyOffer (random : bytes).

Definition apply_step (e : t) (s : step) : outcome (t * list outgoing) :=
  match s with
  | Media o => apply_op e o
  | Answer text random now => Val ((accept_answer e text random now).1, [])
  | Reinvite text random now => let! (e, _) := update_remote_sdp e text random now in Val (e, [])
  | RekeyOffer random => let! (e, _) := rekey_offer e random in Val (e, [])
  end.

(** Everything that is sent, with the endpoint that sent it as it was. *)
Fixpoint live (e : t) (ss : list step) : outcome (t * list (t * outgoing)) :=
  match ss with
  | [] => Val (e, [])
  | s :: ss =>
      let! (e', out) := apply_step e s in
      let! (e'', rest) := live e' ss in
      Val (e'', map (pair e) out ++ rest)
  end.

Definition typed_step (s : step) : Prop :=
  match s with
  | Media o => typed_op o
  | Answer _ random _ | Reinvite _ random _ | RekeyOffer random => is_key random
  end.

Lemma apply_direction_keys e p : keys (apply_direction e p) = keys e.
Proof.
  unfold apply_direction. destruct (p_direction p); [| done]. destruct (endpoint_direction_from_sdp _); [| done].
  destruct e; cbn. by destruct direction_auto0.
Qed.
Lemma apply_addr_keys e p : keys (apply_addr e p) = keys e.
Proof.
  unfold apply_addr, apply_rtcp_addr. destruct e; cbn. destruct (p_rtcp_mux p), (remote_addr p), rtcp_mux0; done.
Qed.
Lemma apply_codecs_keys e p valid : keys (apply_codecs e p valid) = keys e.
Proof.
  unfold apply_codecs. destruct e; cbn.
  match goal with |- context [if ?b then _ else _] => destruct b end; cbn; by destruct (find _ valid).
Qed.

Lemma tighten_keyed e c : keyed e -> keyed (tighten_remote_srtp_lifetime e c).
Proof.
  intros (H1 & [x H2] & H3 & [y H4]). unfold tighten_remote_srtp_lifetime. destruct e; cbn in *. subst.
  destruct srtp_rx_new0, srtcp_rx_new0; done.
Qed.

Lemma apply_keys_keyed e p random now : keyed e -> keyed (apply_keys e p random now).1.
Proof.
  intros K. unfold apply_keys. destruct (crypto p) as [c |]; [| done].
  destruct (install_rx e c now) as [e1 |] eqn:I; [| done].
  assert (K1 : keyed e1).
  { revert I. unfold install_rx. destruct K as (H1 & [x H2] & H3 & H4). rewrite H2.
    destruct (negb _); [| intros [= <-]; by apply tighten_keyed; split_and!].
    destruct (remote_srtp_contexts c) as [[rx rr] |]; [| done]. intros [= <-]. apply (keyed_view e); [by destruct e |].
    by split_and!. }
  unfold ensure_tx. destruct (srtp_tx e1) eqn:E; [done |]. by destruct K1 as [[? ?] _]; simplify_eq.
Qed.

Lemma answer_keyed e text random now : keyed e -> keyed (accept_answer e text random now).1.
Proof.
  intros K. unfold accept_answer. destruct (validate_plain_transport _); [| done].
  assert (P : plain_selected e (parse_sdp text) = false).
  { unfold plain_selected. destruct K as (_ & [x ->] & _). rewrite (bool_decide_false (Some x = None)) by done. by rewrite !andb_false_r. }
  rewrite P. destruct (check_answer _ _ _) as [valid |]; [| done].
  assert (K1 : keyed (apply_codecs (apply_addr (apply_direction e (parse_sdp text)) (parse_sdp text)) (parse_sdp text) valid)).
  { apply (keyed_view e); [| done]. by rewrite apply_codecs_keys, apply_addr_keys, apply_direction_keys. }
  pose proof (apply_keys_keyed _ (parse_sdp text) random now K1) as K2.
  destruct (apply_keys _ _ _ _) as [e1 [] ]; [| done]. by apply (keyed_view e1); [destruct e1 |].
Qed.

Lemma reinvite_keyed e text random now e' r :
  keyed e -> update_remote_sdp e text random now = Val (e', r) -> keyed e'.
Proof.
  intros K. unfold update_remote_sdp. destruct (validate_plain_offer _); [| by intros [= <- _]].
  destruct (_ && _); [by intros [= <- _] |]. destruct (reject_family_change _ _); [by intros [= <- _] |].
  destruct (match crypto _ with Some c => validate_remote_srtp_lifetime_update e c | None => Ok tt end); [| by intros [= <- _]].
  assert (K1 : keyed (apply_addr (apply_direction e (parse_sdp text)) (parse_sdp text))).
  { apply (keyed_view e); [| done]. by rewrite apply_addr_keys, apply_direction_keys. }
  pose proof (apply_keys_keyed _ (parse_sdp text) random now K1) as K2.
  destruct (apply_keys _ _ _ _) as [e1 [] ]; [| by intros [= <- _]].
  assert (K3 : keyed ((reset_addr_lock e1 now) {{ remote_ssrc := None }})) by (by apply (keyed_view e1); [destruct e1 |]).
  match goal with |- context [generate_sdp_answer_for_offer ?a ?b ?c ?d ?f ?g] =>
    destruct (generate_sdp_answer_for_offer a b c d f g) as [[] |] end; cbn [obind]; intros H; by simplify_eq.
Qed.

Lemma step_keyed e s :
  keyed e -> typed_step s -> exists e' out, apply_step e s = Val (e', out) /\ keyed e' /\ Forall (sealed e) out.
Proof.
  intros K T. destruct s as [o | text random now | text random now | random]; cbn [apply_step typed_step] in *.
  - by apply op_keyed.
  - do 2 eexists. split; [done |]. split; [by apply answer_keyed | done].
  - destruct (update_remote_sdp_val e text random now T) as (e' & r & E & _). rewrite E. cbn [obind].
    do 2 eexists. split; [done |]. split; [by eapply reinvite_keyed | done].
  - unfold rekey_offer. pose proof (rekey_keyed e (base64_encode random) K) as K1.
    destruct (srtp_rekey e _) as [e1 [] ]; cbn [fst] in K1; [| cbn; by do 2 eexists].
    unfold generate_osrtp_sdp_offer, generate_sdp_offer, generate_sdp. destruct (srtp_optional e1); cbn [obind]; by do 2 eexists.
Qed.

(** C9: Encryption is never given up.  Once an endpoint has SRTP and SRTCP keys
    in both directions, no sequence of datagrams, answers, re-INVITEs, direction
    changes and rekeyings, with any texts, takes one of them away or makes a
    handler panic, and every datagram the endpoint sends was made by the SRTP or
    SRTCP sending context it had at that moment: none leaves in the clear. *)
Theorem srtp_never_downgraded e ss (secure : keyed e) (typed : Forall typed_step ss) :
  exists e' out, live e ss = Val (e', out) /\ keyed e' /\ Forall (fun x => sealed x.1 x.2) out.
Proof.
  revert e secure. induction typed as [| s ss Hs _ IH]; intros e K; [by exists e, [] |]. cbn [live].
  destruct (step_keyed e s K Hs) as (e1 & out1 & -> & K1 & F1). cbn [obind].
  destruct (IH e1 K1) as (e2 & out2 & -> & K2 & F2). cbn [obind]. do 2 eexists. split; [done |]. split; [done |].
  apply Forall_app. split; [by apply Forall_fmap | done].
Qed.

(** ** An offer, its answer, and the call *)

Lemma select_answer_spec l :
  existsb (fun c => negb (is_te c)) l = true ->
  exists q, select_answer_codec l = Some q /\ q ∈ l /\ is_te q = false /\
    forall d, d ∈ l -> is_te d = false -> codec_quality d <= codec_quality q.
Proof.
  intros E. unfold select_answer_codec.
  assert (F : forall d, d ∈ List.filter (fun c => negb (is_te c)) l <-> d ∈ l /\ is_te d = false).
  { intros d. rewrite !list_elem_of_In, filter_In, negb_true_iff. done. }
  destruct (List.filter _ l) as [| c cs] eqn:L.
  { apply existsb_exists in E as (x & H1 & H2). apply negb_true_iff in H2. apply list_elem_of_In in H1.
    assert (x ∈ []) as X by (apply F; done). by apply not_elem_of_nil in X. }
  assert (G : forall cs c, fold_left better cs c ∈ c :: cs /\
    forall d, d ∈ c :: cs -> codec_quality d <= codec_quality (fold_left better cs c)).
  { clear. induction cs as [| d cs IH]; intros c; cbn [fold_left].
    - split; [by left |]. intros d [-> | []%not_elem_of_nil]%elem_of_cons. lia.
    - destruct (IH (better c d)) as [H1 H2]. unfold better in *. split.
      + destruct (_ <? _); apply elem_of_cons in H1 as [-> | H]; rewrite !elem_of_cons; auto.
      + pose proof (H2 _ (list_elem_of_here _ _)) as H3. destruct (codec_quality c <? codec_quality d) eqn:Q; bool_prop.
        * intros x [-> | [-> | H]%elem_of_cons]%elem_of_cons; [lia | lia |]. apply H2. by right.
        * intros x [-> | [-> | H]%elem_of_cons]%elem_of_cons; [lia | lia |]. apply H2. by right. }
  destruct (G cs c) as [H1 H2]. exists (fold_left better cs c). split; [done |]. apply F in H1 as [H1 H3].
  split; [done |]. split; [done |]. intros d Hd Ht. apply H2, F. done.
Qed.

Lemma find_spec {A} (f : A -> bool) l : existsb f l = true -> exists x, find f l = Some x /\ x ∈ l /\ f x = true.
Proof.
  induction l as [| y l IH]; [done |]. cbn. destruct (f y) eqn:E; [intros _; exists y; split_and!; [done | by left | done] |].
  cbn. intros (x & H1 & H2 & H3)%IH. exists x. split_and!; [done | by right | done].
Qed.

Lemma select_te_spec l r :
  existsb is_te l = true -> exists c, select_telephone_event_codec l r = Some c /\ c ∈ l /\ is_te c = true.
Proof.
  intros H. unfold select_telephone_event_codec. destruct (find_spec _ _ H) as (x & -> & H1 & H2).
  destruct (find (fun c => is_te c && _) l) as [y |] eqn:E; [| by exists x].
  apply find_some in E as [E1 [E2 _]%andb_true_iff]. exists y. by rewrite list_elem_of_In.
Qed.

Lemma filter_pt l c :
  NoDup (map pt l) -> c ∈ l -> List.filter (fun x => bool_decide (Some (pt x) = Some (pt c))) l = [c].
Proof.
  induction l as [| x l IH]; intros Hnd Hin; [by apply not_elem_of_nil in Hin |]. cbn [map List.filter] in *.
  apply NoDup_cons in Hnd as [Hx Hnd]. apply elem_of_cons in Hin as [-> | Hin].
  - rewrite bool_decide_true by done. f_equal. clear IH Hnd. induction l as [| y l IH]; [done |]. cbn in *.
    apply not_elem_of_cons in Hx as [Hne Hx]. rewrite bool_decide_false by congruence. by apply IH.
  - rewrite bool_decide_false; [by apply IH |]. intros [= E]. apply Hx. rewrite E. by apply list_elem_of_fmap_2.
Qed.

Lemma heard_same c :
  pt (SdpText.heard c) = pt c /\ name (SdpText.heard c) = name c /\ clock_rate (SdpText.heard c) = clock_rate c /\
  is_te (SdpText.heard c) = is_te c /\ codec_quality (SdpText.heard c) = codec_quality c.
Proof. unfold SdpText.heard. destruct (String.eqb (name c) "opus"); by destruct c. Qed.
Lemma local_same c :
  pt (local_codec c) = pt c /\ name (local_codec c) = name c /\ clock_rate (local_codec c) = clock_rate c /\
  is_te (local_codec c) = is_te c.
Proof. unfold local_codec. destruct (String.eqb (name c) "opus"); by destruct c. Qed.

Lemma local_te c : is_te c = true -> local_codec c = c.
Proof. unfold is_te, local_codec. destruct (String.eqb_spec (name c) "opus") as [-> |]; done. Qed.

Lemma local_heard_offerable c : SdpText.offerable c -> SdpText.offerable (local_codec (SdpText.heard c)).
Proof.
  intros [p H | p H | p r H H' | p m f H Hf Hm].
  - by apply SdpText.offer_pcmu.
  - by apply SdpText.offer_g722.
  - by apply SdpText.offer_te.
  - refine (SdpText.offer_opus p (Some 20) (fmtp CODEC_OPUS) H _ _); [by intros ? [= <-] | by vm_compute].
Qed.

(** *** The offer *)

#[local] Arguments generate_sdp : simpl never.
#[local] Arguments parse_sdp : simpl never.
#[local] Arguments Srtp.from_sdes_key : simpl never.
#[local] Arguments Srtcp.from_sdes_key : simpl never.

(** An endpoint that can be reached where it says. *)
Record reachable (s : Setup) : Prop := {
  rc_ip : ip_ok (ip (s_rtp_addr s));
  rc_port : 0 < port (s_rtp_addr s) <= u16_max;
  rc_addr : s_rtp_addr s = socket_addr (ip (s_rtp_addr s)) (port (s_rtp_addr s));
  rc_random : is_u32 (s_ssrc s) /\ is_u16 (s_seq s);
}.
(** A list of codecs with telephone events and some audio. *)
Record complete (cs : list SdpCodec) : Prop := {
  cp_ok : SdpText.codecs_ok cs;
  cp_te : existsb is_te cs = true;
  cp_audio : existsb (fun c => negb (is_te c)) cs = true;
}.

Definition own_key (sec : RtpMediaSecurity) (random : bytes) : option SdpCrypto :=
  if bool_decide (sec = PlainRtp) then None else Some (mkCrypto 1 SUITE (base64_encode random) None).
Definition offer_proto (sec : RtpMediaSecurity) : string :=
  match sec with SecureRtp => "RTP/SAVP" | _ => "RTP/AVP" end.

Lemma own_key_ok sec random c : is_key random -> own_key sec random = Some c -> SdpText.key_ok c.
Proof.
  intros [Hb Hl]. unfold own_key. case_bool_decide; [done |]. intros [= <-]. split; [done | done | | done].
  split; [by apply encode_bytes |]. split; [| by apply encode_no_bar]. apply encode_word; [done |]. by intros ->.
Qed.

Lemma complete_all cs : complete cs -> all_codecs cs = cs.
Proof. intros [_ H _]. unfold all_codecs. by rewrite H. Qed.

(** What an offer leaves of the endpoint, with the contexts of its key. *)
Record offering (s : Setup) (cs : list SdpCodec) (sec : RtpMediaSecurity) (random : bytes) (a : t) : Prop := {
  of_id : id a = s_id s;
  of_local : local_rtp_addr a = s_rtp_addr s;
  of_codecs : codecs a = cs;
  of_key : srtp_tx_key_b64 a = key_b64 <$> own_key sec random;
  of_optional : srtp_optional a = bool_decide (sec = OptionalSrtp);
  of_rx : srtp_rx a = None /\ srtp_rx_new a = None /\ srtp_rx_key_b64 a = None /\ rekey_switchover a = None;
  of_tx : sec <> PlainRtp -> exists x y, srtp_tx a = Some x /\ srtcp_tx a = Some y /\
            Srtp.from_sdes_key (base64_encode random) = Ok x /\ Srtcp.from_sdes_key (base64_encode random) = Ok y;
  of_plain : sec = PlainRtp -> srtp_tx a = None /\ srtcp_tx a = None /\ srtcp_rx a = None;
  of_numbers : our_ssrc a = s_ssrc s /\ seq_no a = s_seq s;
}.

Lemma offer_text s cs sec random avp :
  reachable s -> complete cs -> is_key random -> (sec = OptionalSrtp <-> avp = true) ->
  exists offer,
    generate_sdp (socket_addr (ip (s_rtp_addr s)) (port (s_rtp_addr s))) (port (s_rtp_addr s)) cs (own_key sec random)
      (wrap64 (s_id s)) avp None = Val offer /\
    SdpText.reads (parse_sdp offer) (ip (s_rtp_addr s)) (port (s_rtp_addr s)) (offer_proto sec) cs (own_key sec random)
      [mkSection "audio" (offer_proto sec) ["0"%string] true false false] 0.
Proof.
  intros [R1 R2 R3 R4] Hc Hk Hav. pose proof (complete_all cs Hc) as All.
  destruct (SdpText.generate_reads (socket_addr (ip (s_rtp_addr s)) (port (s_rtp_addr s))) (port (s_rtp_addr s)) cs
      (own_key sec random) (wrap64 (s_id s)) avp None) as (offer & E & Rd); try done.
  - mlia.
  - rewrite All. apply Hc.
  - intros c. by apply own_key_ok.
  - exists offer. split; [done |]. rewrite All in Rd. cbn zeta in Rd.
    assert (P : SdpText.proto_of (own_key sec random) avp None = offer_proto sec).
    { unfold SdpText.proto_of, own_key. destruct sec, avp; try done; destruct Hav as [H1 H2]; by (specialize (H1 eq_refl) || specialize (H2 eq_refl)). }
    rewrite P in Rd. done.
Qed.

Lemma create_offer_reads s cs sec random :
  reachable s -> complete cs -> is_key random ->
  exists a offer, create_offer s (ip (s_rtp_addr s)) cs sec random = Val (Ok (a, offer)) /\ offering s cs sec random a /\
    SdpText.reads (parse_sdp offer) (ip (s_rtp_addr s)) (port (s_rtp_addr s)) (offer_proto sec) cs (own_key sec random)
      [mkSection "audio" (offer_proto sec) ["0"%string] true false false] 0.
Proof.
  intros Hr Hc Hk. destruct (key_contexts random Hk) as (x & y & X & Y & _).
  destruct (offer_text s cs sec random (bool_decide (sec = OptionalSrtp)) Hr Hc Hk) as (offer & E & Rd).
  { symmetry. apply bool_decide_eq_true. }
  unfold create_offer, generate_sdp_offer, generate_osrtp_sdp_offer, new_tx, session_id. rewrite X, Y.
  unfold own_key in E.
  destruct sec; rewrite ?(bool_decide_true (PlainRtp = PlainRtp)), ?(bool_decide_true (OptionalSrtp = OptionalSrtp)),
    ?bool_decide_false in E |- * by done; cbn; rewrite E; cbn [obind]; do 2 eexists; (split; [done |]); (split; [| done]).
  all: split; try done; try (by intros _; do 2 eexists); by destruct s.
Qed.

(** *** The answer *)

Lemma own_key_None sec random : own_key sec random = None -> sec = PlainRtp.
Proof. unfold own_key. by case_bool_decide. Qed.

Lemma own_key_supported sec random c :
  is_key random -> own_key sec random = Some c ->
  exists s sc, remote_srtp_contexts c = Ok (s, sc) /\ supported_sdes_key c = true /\ sec <> PlainRtp /\
    Srtp.from_sdes_key (base64_encode random) = Ok s /\ Srtcp.from_sdes_key (base64_encode random) = Ok sc.
Proof.
  intros Hk. unfold own_key. case_bool_decide; [done |]. intros [= <-].
  destruct (key_contexts random Hk) as (s & sc & E1 & E2 & _ & _ & E3). exists s, sc. split; [apply E3 |]. split; [| done].
  change (match Srtp.from_sdes_key (base64_encode random) with Ok _ => true | Err _ => false end = true). by rewrite E1.
Qed.

(** A description of one section passes the checks. *)
Lemma reads_valid p a port sec cs random s0 :
  SdpText.reads p a port (offer_proto sec) cs (own_key sec random) [s0] 0 -> is_key random -> cs <> [] ->
  validate_plain_offer p = Ok tt /\ validate_plain_transport p = Ok tt.
Proof.
  intros [R1 (R2 & R3 & R4) R5 (R6 & R7) (R8 & R9) R10 (R11 & R12 & R13) R14] Hk Hne.
  assert (V : validate_selected_plain_media p = Ok tt).
  { unfold validate_selected_plain_media. rewrite R9, R10, R13, R7, R6, R3, R1, R2. rewrite bool_decide_false by done.
    assert (I : existsb incomplete (SdpText.answered 0 0 (SdpText.ours (offer_proto sec) cs (own_key sec random)) [s0]) = false).
    { destruct cs; [done |]. by destruct sec. }
    rewrite I. destruct (own_key sec random) as [c |] eqn:K.
    - destruct (own_key_supported sec random c Hk K) as (x & y & _ & -> & Hsec & _). by destruct sec.
    - by rewrite (own_key_None _ _ K). }
  unfold validate_plain_offer, validate_plain_transport. rewrite R8. done.
Qed.

Lemma pt_inj l x y : NoDup (map pt l) -> x ∈ l -> y ∈ l -> pt x = pt y -> x = y.
Proof.
  intros Hnd Hx Hy E. pose proof (filter_pt l x Hnd Hx) as F. assert (I : y ∈ [x]); [| by apply list_elem_of_singleton in I].
  rewrite <- F. apply list_elem_of_In, filter_In. rewrite <- list_elem_of_In. by rewrite bool_decide_true by congruence.
Qed.

Lemma heard_pts cs : map pt (map SdpText.heard cs) = map pt cs.
Proof. rewrite map_map. apply map_ext. intros c. apply heard_same. Qed.
Lemma heard_existsb (f : SdpCodec -> bool) cs :
  (forall c, f (SdpText.heard c) = f c) -> existsb f (map SdpText.heard cs) = existsb f cs.
Proof. intros H. induction cs as [| c cs IH]; [done |]. cbn. by rewrite H, IH. Qed.

(** The codec both sides use and the telephone events beside it. *)
Record chosen (cs : list SdpCodec) (c d : SdpCodec) : Prop := {
  ch_in : c ∈ cs /\ d ∈ cs;
  ch_kind : is_te c = false /\ is_te d = true;
  ch_best : forall x, x ∈ cs -> is_te x = false -> codec_quality x <= codec_quality c;
  ch_pts : pt c <> pt d;
}.

Lemma choice cs :
  complete cs -> exists c d, chosen cs c d /\
    select_answer_codec (map SdpText.heard cs) = Some (SdpText.heard c) /\
    select_telephone_event_codec (map SdpText.heard cs) (clock_rate c) = Some (SdpText.heard d).
Proof.
  intros [[_ Hnd _] Hte Hau].
  destruct (select_answer_spec (map SdpText.heard cs)) as (q & Q1 & Q2 & Q3 & Q4).
  { rewrite heard_existsb; [done |]. intros c. by destruct (heard_same c) as (_ & _ & _ & -> & _). }
  apply list_elem_of_fmap in Q2 as (c & -> & Hc). destruct (heard_same c) as (_ & _ & _ & Tc & _).
  destruct (select_te_spec (map SdpText.heard cs) (clock_rate c)) as (r & R1 & R2 & R3).
  { rewrite heard_existsb; [done |]. intros x. by destruct (heard_same x) as (_ & _ & _ & -> & _). }
  apply list_elem_of_fmap in R2 as (d & -> & Hd). destruct (heard_same d) as (_ & _ & _ & Td & _).
  rewrite Tc in Q3. rewrite Td in R3. exists c, d. split; [| done]. split; [done | done | |].
  - intros x Hx Ht. destruct (heard_same x) as (_ & _ & _ & Tx & Qx), (heard_same c) as (_ & _ & _ & _ & Qc).
    rewrite <- Qx, <- Qc. apply Q4; [by apply list_elem_of_fmap_2 | by rewrite Tx].
  - intros E. by rewrite (pt_inj cs c d Hnd Hc Hd E), R3 in Q3.
Qed.

(** What the answer carries is itself a complete list. *)
Lemma answer_complete cs c d :
  complete cs -> chosen cs c d -> complete [local_codec (SdpText.heard c); SdpText.heard d].
Proof.
  intros [[Ho Hnd Hl] Hte Hau] [[Hc Hd] [Tc Td] _ Hp].
  destruct (heard_same c) as (P1 & _ & _ & T1 & _), (heard_same d) as (P2 & N2 & _ & T2 & _),
    (local_same (SdpText.heard c)) as (P3 & _ & _ & T3).
  rewrite List.Forall_forall in Ho. setoid_rewrite <- list_elem_of_In in Ho.
  split; [split | |].
  - repeat constructor; [by apply local_heard_offerable, Ho |].
    assert (H : local_codec (SdpText.heard d) = SdpText.heard d) by (apply local_te; by rewrite T2).
    rewrite <- H. by apply local_heard_offerable, Ho.
  - cbn. rewrite P3, P1, P2. apply NoDup_cons. split; [| by apply NoDup_singleton]. by intros H%list_elem_of_singleton.
  - done.
  - cbn. by rewrite T2, Td, orb_true_r.
  - cbn. by rewrite T3, T1, Tc.
Qed.

(** What answering leaves of the endpoint. *)
Record answering (s : Setup) (peer : SocketAddr) (sec : RtpMediaSecurity) (c d : SdpCodec) (ours theirs : bytes) (b : t) : Prop := {
  an_id : id b = s_id s;
  an_state : state b = Connected;
  an_local : local_rtp_addr b = s_rtp_addr s;
  an_peer : remote_rtp_addr b = Some peer;
  an_codecs : codecs b = [SdpText.heard c; SdpText.heard d] /\ send_codec b = Some (SdpText.heard c);
  an_te : telephone_event_pt b = Some (pt d) /\ telephone_event_clock_rate b = clock_rate d;
  an_clock : recv_clock_rate b = clock_rate c;
  an_latch : addr_locked b = false /\ rtp_latch_reset_at b = s_now s;
  an_rekey : srtp_rx_new b = None /\ rekey_switchover b = None;
  an_keys : sec <> PlainRtp -> exists x y x' y',
    srtp_tx b = Some x /\ srtcp_tx b = Some y /\ srtp_rx b = Some x' /\ srtcp_rx b = Some y' /\
    Srtp.from_sdes_key (base64_encode ours) = Ok x /\ Srtcp.from_sdes_key (base64_encode ours) = Ok y /\
    Srtp.from_sdes_key (base64_encode theirs) = Ok x' /\ Srtcp.from_sdes_key (base64_encode theirs) = Ok y';
  an_plain : sec = PlainRtp -> keys b = (None, None, None, None);
  an_numbers : our_ssrc b = s_ssrc s /\ seq_no b = s_seq s;
  an_waits : remote_ssrc b = None;
}.

(** The endpoint before its keys, and the codecs it answers with. *)
Lemma answer_codecs_pair e q d :
  send_codec e = Some q -> codecs e = [q; d] -> pt q <> pt d -> answer_codecs e = [q; d].
Proof.
  intros H1 H2 Hne. unfold answer_codecs. rewrite H1, H2. cbn. rewrite Z.eqb_refl. cbn.
  by rewrite (proj2 (Z.eqb_neq _ _)).
Qed.

Lemma answer_text s sec cs c d random offer s0 :
  reachable s -> complete cs -> chosen cs c d -> is_key random ->
  selected_audio_section (parse_sdp offer) = Some 0%nat ->
  media_sections (parse_sdp offer) = [s0] -> protocol s0 = offer_proto sec -> SdpText.section_ok s0 ->
  exists answer,
    generate_sdp_answer_for_offer (socket_addr (ip (s_rtp_addr s)) (port (s_rtp_addr s))) (port (s_rtp_addr s))
      [local_codec (SdpText.heard c); SdpText.heard d] (own_key sec random) (wrap64 (s_id s)) (parse_sdp offer) = Val (Ok answer) /\
    SdpText.reads (parse_sdp answer) (ip (s_rtp_addr s)) (port (s_rtp_addr s)) (offer_proto sec)
      [local_codec (SdpText.heard c); SdpText.heard d] (own_key sec random) [s0] 0.
Proof.
  intros [R1 R2 R3 R4] Hc Hch Hk Hsel Hsec Hp Hs0. pose proof (answer_complete cs c d Hc Hch) as Ha.
  destruct (answer_written (socket_addr (ip (s_rtp_addr s)) (port (s_rtp_addr s))) (port (s_rtp_addr s))
    [local_codec (SdpText.heard c); SdpText.heard d] (own_key sec random) (wrap64 (s_id s)) offer 0%nat Hsel) as (answer & -> & G).
  exists answer. split; [done |]. rewrite Hsec in G.
  destruct (SdpText.generate_reads (socket_addr (ip (s_rtp_addr s)) (port (s_rtp_addr s))) (port (s_rtp_addr s))
    [local_codec (SdpText.heard c); SdpText.heard d] (own_key sec random) (wrap64 (s_id s)) false (Some ([s0], 0%nat)))
    as (answer' & G' & Rd); try done.
  - mlia.
  - rewrite (complete_all _ Ha). apply Ha.
  - intros k. by apply own_key_ok.
  - intros secs sel [= <- <-]. split; [by apply Forall_singleton | cbn; lia].
  - rewrite G in G'. assert (E : answer = answer') by congruence. subst answer'.
    rewrite (complete_all _ Ha) in Rd. cbn in Rd. by rewrite Hp in Rd.
Qed.

Lemma from_offer_reads s sec cs ours theirs offer peer_ip peer_port s0 :
  reachable s -> complete cs -> is_key ours -> is_key theirs ->
  SdpText.reads (parse_sdp offer) peer_ip peer_port (offer_proto sec) cs (own_key sec theirs) [s0] 0 ->
  exists c d b answer, chosen cs c d /\
    from_offer_with_codec s (ip (s_rtp_addr s)) offer None ours = Val (Ok (b, answer)) /\
    answering s (socket_addr peer_ip peer_port) sec c d ours theirs b /\
    SdpText.reads (parse_sdp answer) (ip (s_rtp_addr s)) (port (s_rtp_addr s)) (offer_proto sec)
      [local_codec (SdpText.heard c); SdpText.heard d] (own_key sec ours)
      [SdpText.ours (offer_proto sec) cs (own_key sec theirs)] 0.
Proof.
  intros Hr Hc Hk Ht Rd. destruct (choice cs Hc) as (c & d & Hch & Sel & Te). exists c, d.
  assert (Hne : cs <> []) by (intros ->; by destruct Hc as [_ ? _]).
  destruct (reads_valid _ _ _ _ _ _ _ Rd Ht Hne) as [V _].
  destruct Rd as [R1 (R2 & R3 & R4) R5 (R6 & R7) (R8 & R9) R10 (R11 & R12 & R13) R14 R15].
  assert (Hs0 : SdpText.section_ok (SdpText.ours (offer_proto sec) cs (own_key sec theirs))).
  { split; [done | by destruct sec |]. destruct Hc as [[Ho _ _] _ _]. split; [by destruct cs |].
    pose proof (SdpText.audio_words 1 "x" cs ltac:(lia) eq_refl Ho) as W. by apply andb_true_iff in W as [_ W]. }
  destruct (answer_text s sec cs c d ours offer _ Hr Hc Hch Hk R9 R10 eq_refl Hs0) as (answer & G & RdA).
  destruct (heard_same c) as (P1 & N1 & C1 & T1 & _), (heard_same d) as (P2 & N2 & C2 & T2 & _).
  assert (F : take 1 (List.filter (fun x => bool_decide (Some (pt x) = Some (pt (SdpText.heard d)))) (map SdpText.heard cs)) = [SdpText.heard d]).
  { rewrite filter_pt; [done | |]. { rewrite heard_pts. apply Hc. } apply list_elem_of_fmap_2, Hch. }
  destruct Hch as [Hin Hkind Hbest Hpts].
  assert (LD : local_codec (SdpText.heard d) = SdpText.heard d) by (apply local_te; rewrite T2; apply Hkind).
  unfold from_offer_with_codec. rewrite V. unfold choose_codec. rewrite R5, Sel.
  unfold apply_direction, apply_rtcp_addr, offered_keys. rewrite R12, R1, R4, R6. cbn.
  assert (NE : (pt (SdpText.heard c) =? pt (SdpText.heard d)) = false) by (rewrite P1, P2; by apply Z.eqb_neq).
  destruct (key_contexts ours Hk) as (x & y & X & Y & _).
  rewrite C1, Te. cbn [fmap option_fmap option_map]. rewrite F.
  destruct (own_key sec theirs) as [k |] eqn:K.
  - destruct (own_key_supported sec theirs k Ht K) as (x' & y' & -> & _ & Hsec & X' & Y').
    assert (O : own_key sec ours = Some (mkCrypto (tag k) (suite k) (base64_encode ours) None)).
    { revert K. unfold own_key. rewrite !bool_decide_false by done. by intros [= <-]. }
    rewrite O in G. unfold new_tx. rewrite X, Y.
    destruct (bool_decide (s_direction s = SendRecv)); cbn; unfold answer_codecs, session_id; cbn;
      rewrite Z.eqb_refl, NE; cbn; rewrite LD, G; cbn [obind]; do 2 eexists; (split; [by split |]); (split; [done |]); (split; [| done]).
    all: split; try done; rewrite ?P2, ?C2; try done; intros _; by exists x, y, x', y'.
  - assert (O : own_key sec ours = None) by (by rewrite (own_key_None _ _ K)). rewrite O in G.
    destruct (bool_decide (s_direction s = SendRecv)); cbn; unfold answer_codecs, session_id; cbn;
      rewrite Z.eqb_refl, NE; cbn; rewrite LD, G; cbn [obind]; do 2 eexists; (split; [by split |]); (split; [done |]); (split; [| done]).
    all: split; try done; rewrite ?P2, ?C2; try done; by rewrite (own_key_None _ _ K).
Qed.

(** *** The answer accepted *)

(** One side of a call that was negotiated. *)
Record joined (s : Setup) (peer : SocketAddr) (sec : RtpMediaSecurity) (c d : SdpCodec) (ours theirs : bytes)
    (since : Z) (b : t) : Prop := {
  jn_id : id b = s_id s;
  jn_state : state b = Connected;
  jn_local : local_rtp_addr b = s_rtp_addr s;
  jn_peer : remote_rtp_addr b = Some peer;
  jn_send : exists x, send_codec b = Some x /\ pt x = pt c /\ name x = name c /\ clock_rate x = clock_rate c;
  jn_known : forall p, known_payload_type b p = true <-> p = pt c \/ p = pt d;
  jn_te : telephone_event_pt b = Some (pt d) /\ telephone_event_clock_rate b = clock_rate d;
  jn_clock : recv_clock_rate b = clock_rate c;
  jn_latch : addr_locked b = false /\ rtp_latch_reset_at b = since;
  jn_rekey : srtp_rx_new b = None /\ rekey_switchover b = None;
  jn_keys : sec <> PlainRtp -> exists x y x' y',
    srtp_tx b = Some x /\ srtcp_tx b = Some y /\ srtp_rx b = Some x' /\ srtcp_rx b = Some y' /\
    Srtp.from_sdes_key (base64_encode ours) = Ok x /\ Srtcp.from_sdes_key (base64_encode ours) = Ok y /\
    Srtp.from_sdes_key (base64_encode theirs) = Ok x' /\ Srtcp.from_sdes_key (base64_encode theirs) = Ok y';
  jn_plain : sec = PlainRtp -> keys b = (None, None, None, None);
  jn_numbers : our_ssrc b = s_ssrc s /\ seq_no b = s_seq s;
  jn_waits : remote_ssrc b = None;
}.

(** Exactly the two payload types are known. *)
Lemma known_pair b x y c d :
  codecs b = [x; y] -> send_codec b = Some x -> telephone_event_pt b = Some (pt d) -> pt x = pt c -> pt y = pt d ->
  forall p, known_payload_type b p = true <-> p = pt c \/ p = pt d.
Proof.
  intros H1 H2 H3 H4 H5 p. unfold known_payload_type. rewrite H1, H2, H3. cbn. rewrite H4, H5.
  rewrite !orb_true_iff, !Z.eqb_eq, bool_decide_eq_true. split; [intros; naive_solver | naive_solver].
Qed.

Lemma answering_joined s peer sec c d ours theirs b :
  answering s peer sec c d ours theirs b -> joined s peer sec c d ours theirs (s_now s) b.
Proof.
  intros [A1 A2 A3 A4 [A5 A6] [A7 A8] A9 A10 A11 A12 A13 A14 A15].
  destruct (heard_same c) as (P1 & N1 & C1 & T1 & _), (heard_same d) as (P2 & N2 & C2 & T2 & _).
  split; try done; [by exists (SdpText.heard c) |]. by apply (known_pair b (SdpText.heard c) (SdpText.heard d)).
Qed.

Lemma eq_ignore_case_refl x : eq_ignore_ascii_case x x = true.
Proof. unfold eq_ignore_ascii_case. induction x as [| a x IH]; cbn; [done |]. by rewrite Ascii.eqb_refl. Qed.

Lemma acceptable_same e x y :
  x ∈ codecs e -> pt y = pt x -> name y = name x -> clock_rate y = clock_rate x -> acceptable e y = true.
Proof.
  intros Hx H1 H2 H3. unfold acceptable. apply orb_true_iff. right. apply list_elem_of_In in Hx.
  destruct (offer_codec_constrained e); apply existsb_exists; exists x; (split; [done |]).
  - unfold same_mapping. by rewrite H1, H2, H3, !Z.eqb_refl, String.eqb_refl.
  - rewrite H2. apply eq_ignore_case_refl.
Qed.

Lemma words_offered e ws :
  (forall w, w ∈ ws -> exists x, x ∈ codecs e /\ w = show (pt x) /\ 0 <= pt x <= u8_max) ->
  existsb (fun format => match parse_uint u8_max format with
                         | Some n => negb (existsb (fun c => pt c =? n) (codecs e))
                         | None => true
                         end) ws = false.
Proof.
  induction ws as [| w ws IH]; intros H; [done |]. cbn [existsb].
  rewrite IH by (intros v Hv; apply H; by right). rewrite orb_false_r.
  destruct (H w ltac:(by left)) as (x & Hx & -> & Hp). rewrite parse_show by (unfold u8_max, u64_max in *; lia).
  apply negb_false_iff, existsb_exists. exists x. rewrite <- list_elem_of_In. by rewrite Z.eqb_refl.
Qed.

(** The checks of the answer pass, with the two codecs. *)
Lemma check_answer_ok s cs sec ours theirs a p peer_ip peer_port c d s0 :
  offering s cs sec ours a -> complete cs -> chosen cs c d ->
  SocketPool.is_ipv6 peer_ip = is_ipv6 (s_rtp_addr s) ->
  SdpText.reads p peer_ip peer_port (offer_proto sec) [local_codec (SdpText.heard c); SdpText.heard d] (own_key sec theirs) [s0] 0 ->
  plain_selected a p = false /\
  check_answer a p false = Ok [SdpText.heard (local_codec (SdpText.heard c)); SdpText.heard (SdpText.heard d)].
Proof.
  intros Ho Hc [[Hin1 Hin2] [K1 K2] _ _] Hfam Rd.
  destruct Rd as [R1 _ R5 (R6 & _) (_ & R9) R10 _ _ _]. destruct Ho as [_ O2 O3 O4 O5 (O6 & O7 & O8 & _) _ _ _].
  destruct (heard_same c) as (P1 & N1 & C1 & T1 & _), (heard_same d) as (P2 & N2 & C2 & T2 & _),
    (local_same (SdpText.heard c)) as (P3 & N3 & C3 & T3),
    (heard_same (local_codec (SdpText.heard c))) as (P4 & N4 & C4 & T4 & _),
    (heard_same (SdpText.heard d)) as (P5 & N5 & C5 & T5 & _).
  assert (Sec : bool_decide (is_Some (srtp_tx_key_b64 a)) = bool_decide (is_Some (crypto p))).
  { rewrite O4, R6. unfold own_key. by destruct (bool_decide (sec = PlainRtp)). }
  split.
  { unfold plain_selected. rewrite Sec. by destruct (bool_decide (is_Some (crypto p))). }
  unfold check_answer. rewrite Sec, Bool.eqb_reflx. cbn [negb andb].
  assert (Fam : reject_family_change a (remote_addr p) = false).
  { unfold reject_family_change. rewrite R1, O2. unfold is_ipv6 at 1. cbn [ip socket_addr]. by rewrite Hfam, Bool.eqb_reflx. }
  rewrite Fam, R1. rewrite bool_decide_false by done.
  assert (Un : unoffered a p = false).
  { unfold unoffered. rewrite R9, R10. cbn [lookup list_lookup SdpText.answered Nat.eqb]. apply words_offered.
    destruct Hc as [[Hof _ _] _ _]. rewrite List.Forall_forall in Hof. setoid_rewrite <- list_elem_of_In in Hof.
    intros w [-> | [-> | []%not_elem_of_nil]%elem_of_cons]%elem_of_cons; rewrite O3.
    - exists c. rewrite P3, P1. split_and!; try done; by apply SdpText.offerable_pt, Hof.
    - exists d. rewrite P2. split_and!; try done; by apply SdpText.offerable_pt, Hof. }
  rewrite Un, andb_false_r, R5. cbn [map]. rewrite bool_decide_false by done. cbn [List.filter].
  rewrite (acceptable_same a c), (acceptable_same a d) by (rewrite ?O3; congruence). cbn [existsb].
  rewrite T4, T3, T1, K1. cbn [negb orb]. destruct (crypto p) as [k |]; [| done].
  unfold validate_remote_srtp_lifetime_update. by rewrite O8.
Qed.

(** The endpoint after the addresses and the codecs of the answer. *)
Record settled (a : t) (peer : SocketAddr) (c d x y : SdpCodec) (b : t) : Prop := {
  st_fixed : id b = id a /\ local_rtp_addr b = local_rtp_addr a /\ our_ssrc b = our_ssrc a /\ seq_no b = seq_no a;
  st_peer : remote_rtp_addr b = Some peer;
  st_codecs : codecs b = [x; y] /\ send_codec b = Some x /\ recv_clock_rate b = clock_rate c;
  st_te : telephone_event_pt b = Some (pt d) /\ telephone_event_clock_rate b = clock_rate d;
  st_keys : keys b = keys a /\ srtp_rx_new b = srtp_rx_new a /\ rekey_switchover b = rekey_switchover a;
}.

Lemma settle a p peer_ip peer_port sec cs key secs c d x y :
  SdpText.reads p peer_ip peer_port sec cs key secs 0 -> map SdpText.heard cs = [x; y] ->
  is_te x = false -> is_te y = true -> clock_rate x = clock_rate c -> pt y = pt d -> clock_rate y = clock_rate d ->
  settled a (socket_addr peer_ip peer_port) c d x y (apply_codecs (apply_addr (apply_direction a p) p) p [x; y]).
Proof.
  intros [R1 (_ & _ & R4) _ _ _ _ (_ & R12 & _) _ R15] Hcs Tx Ty Cx Py Cy. rewrite Hcs in R15.
  destruct (R15 x y) as [R16 R17].
  { unfold select_answer_codec. cbn [List.filter]. by rewrite Tx, Ty. }
  { unfold select_telephone_event_codec. cbn [find]. rewrite Tx, Ty. cbn [andb]. by destruct (_ =? _). }
  unfold apply_direction, apply_addr, apply_rtcp_addr, apply_codecs. rewrite R12, R4, R1, R16, R17.
  cbn [endpoint_direction_from_sdp String.eqb Ascii.eqb Bool.eqb find]. rewrite Tx. cbn [negb].
  destruct a; cbn. destruct direction_auto0; cbn.
  all: match goal with |- context [if ?b then _ else _] => destruct b end; cbn.
  all: split; cbn; by rewrite ?Py, ?Cy, ?Cx.
Qed.

(** First keys on a settled endpoint. *)
Lemma first_keys e p sec theirs random now :
  crypto p = own_key sec theirs -> is_key theirs -> srtp_rx e = None -> (sec <> PlainRtp -> is_Some (srtp_tx e)) ->
  exists e', apply_keys e p random now = (e', Ok tt) /\
    e' = e {{ srtp_rx := srtp_rx e'; srtcp_rx := srtcp_rx e'; srtp_rx_key_b64 := srtp_rx_key_b64 e' }} /\
    (sec <> PlainRtp -> exists x y, srtp_rx e' = Some x /\ srtcp_rx e' = Some y /\
       Srtp.from_sdes_key (base64_encode theirs) = Ok x /\ Srtcp.from_sdes_key (base64_encode theirs) = Ok y) /\
    (sec = PlainRtp -> e' = e).
Proof.
  intros Hc Hk Hr Ht. unfold apply_keys. rewrite Hc. destruct (own_key sec theirs) as [k |] eqn:K.
  - destruct (own_key_supported sec theirs k Hk K) as (x & y & E & _ & Hsec & X & Y).
    unfold install_rx, ensure_tx. rewrite Hr, E. destruct (Ht Hsec) as [z Hz].
    destruct e; cbn in Hz |- *. subst. eexists. split; [done |]. cbn. split; [done |]. split; [| done].
    intros _. by exists x, y.
  - rewrite (own_key_None _ _ K). exists e. split; [done |]. split; [by destruct e | done].
Qed.

Lemma accept_answer_joins s cs sec ours theirs a answer peer_ip peer_port c d s0 random now :
  offering s cs sec ours a -> complete cs -> chosen cs c d -> is_key theirs ->
  SocketPool.is_ipv6 peer_ip = is_ipv6 (s_rtp_addr s) ->
  SdpText.reads (parse_sdp answer) peer_ip peer_port (offer_proto sec)
    [local_codec (SdpText.heard c); SdpText.heard d] (own_key sec theirs) [s0] 0 ->
  exists a', accept_answer a answer random now = (a', Ok tt) /\
    joined s (socket_addr peer_ip peer_port) sec c d ours theirs now a'.
Proof.
  intros Ho Hc Hch Ht Hfam Rd. destruct (check_answer_ok _ _ _ _ _ _ _ _ _ _ _ _ Ho Hc Hch Hfam Rd) as [Hp Hv].
  destruct (reads_valid _ _ _ _ _ _ _ Rd Ht ltac:(done)) as [_ V].
  unfold accept_answer. rewrite V, Hp, Hv.
  destruct (heard_same c) as (P1 & N1 & C1 & T1 & _), (heard_same d) as (P2 & N2 & C2 & T2 & _),
    (local_same (SdpText.heard c)) as (P3 & N3 & C3 & T3),
    (heard_same (local_codec (SdpText.heard c))) as (P4 & N4 & C4 & T4 & _),
    (heard_same (SdpText.heard d)) as (P5 & N5 & C5 & T5 & _).
  destruct Hch as [_ [K1 K2] _ _].
  set (x := SdpText.heard (local_codec (SdpText.heard c))) in *. set (y := SdpText.heard (SdpText.heard d)) in *.
  pose proof (settle a _ _ _ _ _ _ _ c d x y Rd eq_refl ltac:(congruence) ltac:(congruence) ltac:(congruence) ltac:(congruence)
    ltac:(congruence)) as S.
  destruct S as [(S1 & S2 & S3 & S4) S5 (S6 & S7 & S8) [S9 S10] (S11 & S12 & S13)].
  destruct Ho as [O1 O2 O3 O4 O5 (O6 & O7 & O8 & O9) O10 O11 O12]. destruct Rd as [_ _ _ [R6 _] _ _ _ _ _].
  generalize dependent (apply_codecs (apply_addr (apply_direction a (parse_sdp answer)) (parse_sdp answer)) (parse_sdp answer) [x; y]).
  intros e S1 S2 S3 S4 S5 S6 S7 S8 S9 S10 S11 S12 S13. unfold keys in S11. injection S11 as Q1 Q2 Q3 Q4.
  destruct (first_keys e (parse_sdp answer) sec theirs random now R6 Ht) as (e' & -> & E & Hsec & Hpl); [congruence | |].
  { intros H. destruct (O10 H) as (z & _ & H1 & _). exists z. congruence. }
  eexists. split; [done |].
  assert (Kx : forall b, codecs b = [x; y] -> send_codec b = Some x -> telephone_event_pt b = Some (pt d) ->
    forall p, known_payload_type b p = true <-> p = pt c \/ p = pt d).
  { intros b H1 H2 H3. apply (known_pair b x y); congruence. }
  revert Hsec Hpl. generalize dependent (srtp_rx e'). intros r1. generalize dependent (srtcp_rx e'). intros r2.
  generalize dependent (srtp_rx_key_b64 e'). intros r3 -> Hsec Hpl. destruct e; cbn in *. subst.
  split; cbn; try done; try congruence.
  - exists x. split_and!; congruence.
  - by apply Kx.
  - intros H. destruct (O10 H) as (u & v & U1 & U2 & U3 & U4), (Hsec H) as (u' & v' & V1 & V2 & V3 & V4).
    exists u, v, u', v'. by subst.
  - intros H. specialize (Hpl H). destruct (O11 H) as (U1 & U2 & U3). unfold keys. cbn. congruence.
Qed.

(** *** The call *)

(** A joined endpoint hears its peer. *)
Lemma joined_listening s peer_setup sec c d ours theirs since b at_ x :
  joined s (s_rtp_addr peer_setup) sec c d ours theirs since b -> since <= at_ ->
  is_ipv6 (s_rtp_addr peer_setup) = is_ipv6 (s_rtp_addr s) -> srtp_rx b = Some x ->
  Call.listening b (s_rtp_addr peer_setup) at_ x.
Proof.
  intros [_ _ J3 J4 _ _ _ _ [J9 J9'] [J10 J10'] _ _ _ _] Hat Hfam Hx. split; try done.
  unfold source_allowed. rewrite J3, Hfam, J4, J9, J9', Bool.eqb_reflx. cbn.
  rewrite (proj2 (Z.ltb_ge _ _)) by lia. by rewrite bool_decide_true.
Qed.

Lemma joined_delivers sa sb sec c d ka kb ta tb a b ps at_ now z :
  joined sa (s_rtp_addr sb) sec c d ka kb ta a -> joined sb (s_rtp_addr sa) sec c d kb ka tb b ->
  reachable sa -> is_key ka -> sec <> PlainRtp -> is_ipv6 (s_rtp_addr sa) = is_ipv6 (s_rtp_addr sb) -> tb <= at_ ->
  s_seq sa + len ps <= MAX_SRTP_PACKETS_PER_MASTER_KEY ->
  Forall (fun p => (payload_type p = pt c \/ payload_type p = pt d) /\ 0 <= payload_type p < 128 /\ are_bytes (payload p)) ps ->
  exists got, Call.call (a {{ remote_ssrc := Some z }}) b ps at_ now = Val got /\ length got = length ps /\
    forall k p, ps !! k = Some p -> exists st,
      Timeline.stamps (a {{ remote_ssrc := Some z }}) ps !! k = Some st /\
      got !! k = Some (Some (Call.routed_as (a {{ remote_ssrc := Some z }}) b p k st)).
Proof.
  intros Ja Jb [_ _ _ [Hu Hq]] Hk Hsec Hfam Hat Hl Hp. pose proof (len_nonneg ps).
  destruct (jn_keys _ _ _ _ _ _ _ _ _ Ja Hsec) as (x & _ & _ & _ & Ax & _ & _ & _ & X & _).
  destruct (jn_keys _ _ _ _ _ _ _ _ _ Jb Hsec) as (_ & _ & x' & _ & _ & _ & Bx & _ & _ & _ & X' & _).
  destruct (key_contexts ka Hk) as (w & _ & W & _ & F & L & _).
  assert (x = w) as -> by congruence. assert (x' = w) as -> by congruence.
  pose proof (jn_known _ _ _ _ _ _ _ _ _ Jb) as Hkn.
  pose proof (joined_listening _ _ _ _ _ _ _ _ _ at_ w Jb Hat Hfam Bx) as Ls.
  destruct Ja as [_ _ J3 J4 _ _ _ _ _ _ _ _ [J13 J13'] _].
  assert (Loc : local_rtp_addr (a {{ remote_ssrc := Some z }}) = s_rtp_addr sa) by (by destruct a).
  apply (Call.fresh_call_delivers _ _ w w).
  - destruct a; cbn in *; subst. split_and!; try done; by eexists.
  - by rewrite Loc.
  - done.
  - done.
  - rewrite L. unfold is_u16 in Hq. lia.
  - rewrite L. unfold is_u16 in Hq. lia.
  - destruct a; cbn in *; subst. exact Hl.
  - eapply Forall_impl; [exact Hp |]. intros p (H1 & H2 & H3). split; [done |]. split; [by apply Hkn | done].
Qed.

Lemma joined_silent s peer sec c d ours theirs since b p ok :
  joined s peer sec c d ours theirs since b -> write_rtp b p ok = Val (b, [], Ok None).
Proof. intros [_ _ _ J4 _ _ _ _ _ _ _ _ _ J14]. unfold write_rtp. rewrite J4, J14. by rewrite bool_decide_true. Qed.

(** What [a] sends under the negotiated keys, once it has heard from the other
    side, is what [b] routes. *)
Definition delivers (a b : t) (c d : SdpCodec) : Prop :=
  forall ps at_ now z,
    rtp_latch_reset_at b <= at_ -> seq_no a + len ps <= MAX_SRTP_PACKETS_PER_MASTER_KEY ->
    Forall (fun p => (payload_type p = pt c \/ payload_type p = pt d) /\ 0 <= payload_type p < 128 /\ are_bytes (payload p)) ps ->
    exists got, Call.call (a {{ remote_ssrc := Some z }}) b ps at_ now = Val got /\ length got = length ps /\
      forall k p, ps !! k = Some p -> exists st,
        Timeline.stamps (a {{ remote_ssrc := Some z }}) ps !! k = Some st /\
        got !! k = Some (Some (Call.routed_as (a {{ remote_ssrc := Some z }}) b p k st)).

(** C8: Offer, answer and call, end to end.  One endpoint makes an offer of any
    list of codecs with any security, the other answers the text, the first
    accepts the text of the answer: none of the three fails or panics.  Both
    sides are connected to the address the other is bound to, agree on the best
    codec of the offer, on its payload type and clock and on that of the
    telephone events, accept these two payload types and no other, and neither
    sends before it has heard from the other.  With SRTP each side decrypts with
    the key the other encrypts with, for RTP and RTCP, and every packet written
    on one side after that is routed unchanged on the other; with plain RTP
    neither has a key. *)
Theorem offer_answer_call sa sb cs sec ka kb random now
  (A : reachable sa) (B : reachable sb) (family : is_ipv6 (s_rtp_addr sa) = is_ipv6 (s_rtp_addr sb))
  (offered : complete cs) (key_a : is_key ka) (key_b : is_key kb) :
  exists a offer b answer a' c d,
    create_offer sa (ip (s_rtp_addr sa)) cs sec ka = Val (Ok (a, offer)) /\
    from_offer_with_codec sb (ip (s_rtp_addr sb)) offer None kb = Val (Ok (b, answer)) /\
    accept_answer a answer random now = (a', Ok tt) /\
    chosen cs c d /\
    joined sa (s_rtp_addr sb) sec c d ka kb now a' /\ joined sb (s_rtp_addr sa) sec c d kb ka (s_now sb) b /\
    (forall p ok, write_rtp a' p ok = Val (a', [], Ok None) /\ write_rtp b p ok = Val (b, [], Ok None)) /\
    (sec <> PlainRtp -> delivers a' b c d /\ delivers b a' c d).
Proof.
  destruct (create_offer_reads sa cs sec ka A offered key_a) as (a & offer & E1 & Ho & R1).
  destruct (from_offer_reads sb sec cs kb ka offer _ _ _ B offered key_b key_a R1) as (c & d & b & answer & Hch & E2 & Ha & R2).
  destruct (accept_answer_joins sa cs sec ka kb a answer _ _ c d _ random now Ho offered Hch key_b (eq_sym family) R2) as (a' & E3 & J1).
  apply answering_joined in Ha. rewrite <- (rc_addr sb B) in J1. rewrite <- (rc_addr sa A) in Ha.
  exists a, offer, b, answer, a', c, d. split_and!; try done.
  - intros p ok. split; by eapply joined_silent.
  - intros Hsec. split; intros ps at_ now' z Hat Hl Hp.
    + eapply (joined_delivers sa sb); try done.
      * by rewrite (proj2 (jn_latch _ _ _ _ _ _ _ _ _ Ha)) in Hat.
      * by rewrite (proj2 (jn_numbers _ _ _ _ _ _ _ _ _ J1)) in Hl.
    + eapply (joined_delivers sb sa); try done.
      * by rewrite (proj2 (jn_latch _ _ _ _ _ _ _ _ _ J1)) in Hat.
      * by rewrite (proj2 (jn_numbers _ _ _ _ _ _ _ _ _ Ha)) in Hl.
Qed.

End negotiate.

(** ** Examples *)

(** A text encoding with the laws: two letters a byte. *)
Fixpoint letters (b : bytes) : bytes :=
  match b with [] => [] | x :: b => 65 + x / 16 :: 65 + x mod 16 :: letters b end.
Fixpoint unletters (s : bytes) : option bytes :=
  match s with
  | [] => Some []
  | h :: l :: s =>
      if (65 <=? h) && (h <=? 80) && (65 <=? l) && (l <=? 80)
      then match unletters s with Some b => Some ((h - 65) * 16 + (l - 65) :: b) | None => None end
      else None
  | _ => None
  end.

Lemma unletters_bytes s : forall d, unletters s = Some d -> are_bytes d.
Proof.
  induction s as [s IH] using (induction_ltof1 _ (@length Z)). unfold ltof in IH.
  destruct s as [| h [| l s]]; intros d; cbn [unletters]; [by intros [= <-]; constructor | done |].
  destruct (_ && _) eqn:E; [| done]. destruct (unletters s) as [b |] eqn:U; [| done]. intros [= <-].
  bool_prop. constructor; [unfold is_u8; lia |]. apply (IH s); [cbn; lia | done].
Qed.
Lemma letter_range x : is_u8 x -> 65 <= 65 + x / 16 <= 80 /\ 65 <= 65 + x mod 16 <= 80.
Proof. unfold is_u8. intros H. split; Z.div_mod_to_equations; lia. Qed.
Lemma letters_bytes b : are_bytes b -> are_bytes (letters b).
Proof.
  induction 1 as [| x b Hx _ IH]; cbn; [constructor |]. destruct (letter_range x Hx).
  repeat constructor; try done; unfold is_u8; lia.
Qed.
Lemma unletters_letters b : are_bytes b -> unletters (letters b) = Some b.
Proof.
  induction 1 as [| x b Hx _ IH]; [done |]. cbn [letters unletters]. rewrite IH. destruct (letter_range x Hx) as [H1 H2].
  rewrite !(proj2 (Z.leb_le _ _)) by lia. cbn [andb]. do 2 f_equal. Z.div_mod_to_equations. lia.
Qed.
Lemma letters_all (f : ascii -> bool) b :
  are_bytes b -> forallb (fun n => f (char (65 + n))) (seqZ 0 16) = true -> all f (of_bytes (letters b)) = true.
Proof.
  intros Hb Hf. rewrite forallb_forall in Hf.
  assert (G : forall n, 0 <= n < 16 -> f (char (65 + n)) = true).
  { intros n Hn. apply Hf, list_elem_of_In, elem_of_seqZ. lia. }
  induction Hb as [| x b Hx _ IH]; [done |]. cbn [letters of_bytes all]. unfold is_u8 in Hx.
  rewrite !G, IH by (Z.div_mod_to_equations; lia). done.
Qed.

Definition letter_crypto : Crypto := {|
  aes_ctr := sample_keystream;
  hmac_sha1 key msg := to_be 20 (from_be (key ++ msg) + 3);
  base64_decode := unletters;
  aes_ctr_length key iv n := eq_trans (length_map _ _) (length_seq _ _);
  aes_ctr_bytes := sample_keystream_bytes;
  hmac_sha1_length key msg := length_to_be 20 _;
  hmac_sha1_bytes key msg := to_be_bytes 20 _;
  base64_decode_bytes := unletters_bytes;
|}.

Lemma letters_word b : are_bytes b -> b <> [] -> word (of_bytes (letters b)) = true.
Proof.
  intros Hb Hne. unfold word. destruct b as [| x b]; [done |].
  apply andb_true_iff. split; [done |]. by apply letters_all.
Qed.
Lemma letters_no_bar b : are_bytes b -> all (isnt "|"%char) (of_bytes (letters b)) = true.
Proof. intros Hb. by apply letters_all. Qed.

Definition letter_base64 : Base64 (H := letter_crypto) :=
  @Build_Base64 letter_crypto letters letters_bytes unletters_letters letters_word letters_no_bar.

Module Examples.
#[local] Existing Instance letter_crypto.
#[local] Existing Instance letter_base64.
#[local] Existing Instance sample_networks.

Definition caller : Setup := mkSetup 1 SendRecv (mkAddr (V4 1) 4000 0 0) [] 77 65534 0.
Definition callee : Setup := mkSetup 2 SendRecv (mkAddr (V4 2) 5000 0 0) [] 78 9 0.
Definition key_a : bytes := seqZ 1 30.
Definition key_b : bytes := seqZ 100 30.
Definition listed : list SdpCodec := offer_codec_list None.

Lemma listed_complete : complete listed.
Proof.
  split; [split | |]; [| by apply (bool_decide_unpack _); vm_compute | by vm_compute | by vm_compute | by vm_compute].
  unfold listed. cbn [offer_codec_list app].
  apply Forall_cons_2; [| apply Forall_cons_2; [| apply Forall_cons_2; [| apply Forall_cons_2; [| by apply Forall_nil]]]].
  - refine (SdpText.offer_opus 111 None _ _ _ _); [lia | | by vm_compute]. by intros ? [= <-].
  - refine (SdpText.offer_g722 9 _). by left.
  - refine (SdpText.offer_pcmu 0 _). by left.
  - refine (SdpText.offer_te 101 8000 _ _); [lia | done].
Qed.
Lemma key_a_ok : is_key key_a.
Proof. split; [| by vm_compute]. apply Srtp.Examples.bytes_check. by vm_compute. Qed.
Lemma key_b_ok : is_key key_b.
Proof. split; [| by vm_compute]. apply Srtp.Examples.bytes_check. by vm_compute. Qed.
Lemma setups_ok : reachable caller /\ reachable callee.
Proof. split; by repeat split. Qed.

(** A keyed endpoint on the same address. *)
Definition secure : t :=
  let e := set_up caller in
  match Srtp.from_sdes_key (base64_encode key_a), Srtcp.from_sdes_key (base64_encode key_a) with
  | Ok x, Ok y => e {{ srtp_tx := Some x; srtp_rx := Some x; srtcp_tx := Some y; srtcp_rx := Some y }}
  | _, _ => e
  end.
Definition plain_text : string :=
  "v=0" ^^ CRLF ^^ "c=IN IP4 1.2.3.4" ^^ CRLF ^^ "m=audio 4000 RTP/AVP 0" ^^ CRLF.
End Examples.
Import Examples.
#[local] Existing Instance letter_crypto.
#[local] Existing Instance letter_base64.
#[local] Existing Instance sample_networks.

(** An SRTP call between two bridges, through opus. *)
Lemma offer_answer_call_witness :
  exists a offer b answer a' c d,
    create_offer caller (V4 1) listed SecureRtp key_a = Val (Ok (a, offer)) /\
    from_offer_with_codec callee (V4 2) offer None key_b = Val (Ok (b, answer)) /\
    accept_answer a answer key_b 10 = (a', Ok tt) /\
    chosen listed c d /\
    joined caller (mkAddr (V4 2) 5000 0 0) SecureRtp c d key_a key_b 10 a' /\
    joined callee (mkAddr (V4 1) 4000 0 0) SecureRtp c d key_b key_a 0 b /\
    (forall p ok, write_rtp a' p ok = Val (a', [], Ok None) /\ write_rtp b p ok = Val (b, [], Ok None)) /\
    (SecureRtp <> PlainRtp -> delivers a' b c d /\ delivers b a' c d).
Proof.
  exact (offer_answer_call caller callee listed SecureRtp key_a key_b key_b 10 (proj1 setups_ok) (proj2 setups_ok)
    eq_refl listed_complete key_a_ok key_b_ok).
Defined.

(** A plain re-INVITE to a secure endpoint is refused and changes nothing. *)
Lemma renegotiation_atomic_witness :
  exists e' r, update_remote_sdp secure plain_text key_b 10 = Val (e', r) /\ (forall err, r = Err err -> e' = secure).
Proof. exact (proj2 (renegotiation_atomic secure plain_text key_b 10 key_b_ok)). Defined.

Lemma srtp_never_downgraded_witness :
  exists e' out, live secure [Reinvite plain_text key_b 10; Answer plain_text key_b 11; RekeyOffer key_b] = Val (e', out) /\
    keyed e' /\ Forall (fun x => sealed x.1 x.2) out.
Proof.
  apply (srtp_never_downgraded secure).
  - split_and!; by eexists.
  - apply Forall_cons_2; [exact key_b_ok | apply Forall_cons_2; [exact key_b_ok | apply Forall_cons_2; [exact key_b_ok | by apply Forall_nil]]].
Defined.

End Negotiate.
