(* ===== verification/SessionDtmf.v ===== *)
(** DTMF of a session ([session/session_dtmf.rs]). *)

From S2P Require Import Prelude Dtmf Media.
#[local] Open Scope Z_scope.

Module SessionDtmf.

Record EndpointDtmf := mkDtmf { detector : Dtmf.DtmfDetector; te_pt : option Z }.

Definition classify_dtmf (pkt : RoutedRtpPacket) (dtmf_state : gmap EndpointId EndpointDtmf) : bool :=
  let pt := match dtmf_state !! source_endpoint_id pkt with Some ds => te_pt ds | None => None end in
  Dtmf.is_telephone_event_pt (payload_type pkt) pt.

(** [should_record_inbound] of the session. *)
Definition should_record_inbound (pkt : RoutedRtpPacket) (dtmf_state : gmap EndpointId EndpointDtmf)
    (sensitive : gset EndpointId) : bool :=
  negb (bool_decide (source_endpoint_id pkt ∈ sensitive)) || negb (classify_dtmf pkt dtmf_state).

End SessionDtmf.
