(* ===== verification/Transfer.v ===== *)
(** Moving an endpoint between sessions ([session/transfer.rs] and the transfer
    commands of [session/media_session.rs]).

    The coordinator of a transfer, the two session tasks and the controller run
    concurrently and share the transfer's slot; a system of any number of
    sessions and transfers is a step relation.  What a session derives from its
    endpoints on every change (routing, mixers, playout policy), its recordings
    and its events are not part of the state, and a session task does not end
    while a transfer it takes part in is under way. *)

From stdpp Require Import strings.
From S2P Require Import Prelude Media Dtmf SessionDtmf Routing RtpEndpoint.
#[local] Open Scope Z_scope.

Module Transfer.
Import SessionDtmf.

Definition SessionId : Type := Z.
Definition TransferId : Type := Z.

Inductive EndpointKind := WebRtc | Rtp | File | Tone | Bridge | WebSocket.

(** What the transfer reads of an endpoint. *)
Record Endpoint := mkEndpoint {
  ep_id : EndpointId;
  ep_kind : EndpointKind;
  ep_direction : Routing.EndpointDirection;
  ep_telephone_event_pt : option Z;
}.

Section transfer.
(** Per-endpoint monitors and decoders that travel with the endpoint, and the
    transcoders that do not. *)
Context {VadMonitor FaxDetector SourceAudio FileRtpState Transcoder : Type}.

Record EndpointTransferBundle := mkBundle {
  endpoint : Endpoint;
  source_session_id : SessionId;
  b_dtmf_state : option EndpointDtmf;
  b_sensitive_dtmf : bool;
  b_vad_monitor : option VadMonitor;
  b_fax_detector : option FaxDetector;
  b_analysis_decoder : option SourceAudio;
  b_file_rtp_state : option FileRtpState;
  b_url_source : option string;
  b_media_timeout_was_emitted : bool;
}.

Record SessionState := mkSession {
  session_id : SessionId;
  max_endpoints : Z;
  endpoints : gmap EndpointId Endpoint;
  dtmf_state : gmap EndpointId EndpointDtmf;
  sensitive_dtmf_endpoints : gset EndpointId;
  vad_monitors : gmap EndpointId VadMonitor;
  fax_detectors : gmap EndpointId FaxDetector;
  analysis_decoders : gmap EndpointId SourceAudio;
  file_rtp_states : gmap EndpointId FileRtpState;
  url_sources : gmap EndpointId string;
  media_timeout_emitted : gset EndpointId;
  dtmf_injection : option EndpointId;
  transcode_cache : gmap (EndpointId * EndpointId) Transcoder;
  reserved_transfers : gset EndpointId;
}.

Inductive transfer_error :=
| NotTransferable | EndpointNotFound | MaxEndpoints | AlreadyExists | Cancelled | AlreadyPending
| NoEndpoint | TransferBusy | TransferTimeout | TransferFailed.

Definition transferable (k : EndpointKind) : bool :=
  match k with File | Tone | WebSocket => false | WebRtc | Rtp | Bridge => true end.

Definition handle_extract_endpoint (s : SessionState) (i : EndpointId)
    : SessionState * result transfer_error EndpointTransferBundle :=
  match endpoints s !! i with
  | None => (s, Err EndpointNotFound)
  | Some ep =>
      if negb (transferable (ep_kind ep)) then (s, Err NotTransferable)
      else
        (s {{ endpoints := delete i (endpoints s);
              dtmf_state := delete i (dtmf_state s);
              sensitive_dtmf_endpoints := sensitive_dtmf_endpoints s ∖ {[i]};
              vad_monitors := delete i (vad_monitors s);
              fax_detectors := delete i (fax_detectors s);
              analysis_decoders := delete i (analysis_decoders s);
              file_rtp_states := delete i (file_rtp_states s);
              url_sources := delete i (url_sources s);
              media_timeout_emitted := media_timeout_emitted s ∖ {[i]};
              dtmf_injection := if bool_decide (dtmf_injection s = Some i) then None
                                else dtmf_injection s;
              transcode_cache :=
                filter (fun kv => kv.1.1 <> i /\ kv.1.2 <> i) (transcode_cache s) }},
         Ok {| endpoint := ep; source_session_id := session_id s;
               b_dtmf_state := dtmf_state s !! i;
               b_sensitive_dtmf := bool_decide (i ∈ sensitive_dtmf_endpoints s);
               b_vad_monitor := vad_monitors s !! i;
               b_fax_detector := fax_detectors s !! i;
               b_analysis_decoder := analysis_decoders s !! i;
               b_file_rtp_state := file_rtp_states s !! i;
               b_url_source := url_sources s !! i;
               b_media_timeout_was_emitted := bool_decide (i ∈ media_timeout_emitted s) |})
  end.

(** [if let Some(v) = taken { map.insert(id, v) }] *)
Definition insert_some {V} (i : EndpointId) (v : option V) (m : gmap EndpointId V) : gmap EndpointId V :=
  match v with Some v => <[i := v]> m | None => m end.
Definition insert_if (i : EndpointId) (b : bool) (m : gset EndpointId) : gset EndpointId :=
  if b then {[i]} ∪ m else m.

(** The number of endpoints a session has or has promised a way back. *)
Definition occupancy (s : SessionState) : Z :=
  Z.of_nat (size (endpoints s)) + Z.of_nat (size (reserved_transfers s)).
Definition full (s : SessionState) : bool :=
  (0 <? max_endpoints s) && (max_endpoints s <=? occupancy s).

Definition handle_insert_endpoint (s : SessionState) (b : EndpointTransferBundle)
    : result transfer_error SessionState :=
  let i := ep_id (endpoint b) in
  if negb (bool_decide (i ∈ reserved_transfers s)) && full s then Err MaxEndpoints
  else if bool_decide (is_Some (endpoints s !! i)) then Err AlreadyExists
  else
    let d := insert_some i (b_dtmf_state b) (dtmf_state s) in
    let d := if bool_decide (is_Some (d !! i)) then d
             else <[i := mkDtmf Dtmf.new_detector (ep_telephone_event_pt (endpoint b))]> d in
    Ok (s {{ endpoints := <[i := endpoint b]> (endpoints s);
             dtmf_state := d;
             sensitive_dtmf_endpoints :=
               insert_if i (b_sensitive_dtmf b) (sensitive_dtmf_endpoints s);
             vad_monitors := insert_some i (b_vad_monitor b) (vad_monitors s);
             fax_detectors := insert_some i (b_fax_detector b) (fax_detectors s);
             analysis_decoders := insert_some i (b_analysis_decoder b) (analysis_decoders s);
             file_rtp_states := insert_some i (b_file_rtp_state b) (file_rtp_states s);
             url_sources := insert_some i (b_url_source b) (url_sources s);
             media_timeout_emitted :=
               insert_if i (b_media_timeout_was_emitted b) (media_timeout_emitted s) }}).

(** ** The slot and the three commands *)

Record TransferState := mkSlot {
  bundle : option EndpointTransferBundle;
  reserved : bool;
  cancelled : bool;
  committed : bool;
}.
Definition default_slot : TransferState := mkSlot None false false false.

(** [PrepareTransfer] up to the point where the receive tasks are stopped: an
    immediate reply, or the extracted bundle in the session's hands. *)
Definition prepare_transfer (s : SessionState) (t : TransferState) (i : EndpointId)
    : SessionState * TransferState * result transfer_error EndpointTransferBundle :=
  if cancelled t then (s, t, Err Cancelled)
  else if bool_decide (i ∈ reserved_transfers s) then (s, t, Err AlreadyPending)
  else
    let s1 := s {{ reserved_transfers := {[i]} ∪ reserved_transfers s }} in
    match handle_extract_endpoint s1 i with
    | (s2, Ok b) => (s2, t {{ reserved := true }}, Ok b)
    | (s2, Err e) =>
        (s2 {{ reserved_transfers := reserved_transfers s2 ∖ {[i]} }}, t {{ reserved := false }}, Err e)
    end.

Definition commit_transfer (s : SessionState) (t : TransferState)
    : SessionState * TransferState * result transfer_error unit :=
  if cancelled t then (s, t, Err Cancelled)
  else
    match bundle t with
    | None => (s, t, Err NoEndpoint)
    | Some b =>
        match handle_insert_endpoint s b with
        | Err e => (s, t, Err e)
        | Ok s' => (s', t {{ committed := true; bundle := None }}, Ok tt)
        end
    end.

(** The last component says whether a bundle was dropped. *)
Definition finish_transfer (s : SessionState) (t : TransferState) (i : EndpointId)
    : SessionState * TransferState * bool :=
  if negb (reserved t) then (s, t, false)
  else
    let release (s : SessionState) := s {{ reserved_transfers := reserved_transfers s ∖ {[i]} }} in
    if committed t then (release s, t {{ reserved := false }}, false)
    else
      match bundle t with
      | None => (release s, t {{ reserved := false }}, false)
      | Some b =>
          match handle_insert_endpoint s b with
          | Ok s' => (release s', t {{ bundle := None; reserved := false }}, false)
          | Err _ => (release s, t {{ bundle := None; reserved := false }}, true)
          end
      end.

(** [FinishGuard::drop]. *)
Definition drop_guard (t : TransferState) : TransferState := t {{ cancelled := negb (committed t) }}.

(** ** The system *)

(** Where the coordinator of [transfer] is: [Refused] is [TRANSFER_BUSY], and
    [Finished None] a coordinator that panicked or was aborted. *)
Inductive Phase :=
| Reserving | Refused | WaitPrepare | WaitCommit
| Closing (r : result transfer_error unit)
| Finished (r : option (result transfer_error unit)).

Record Operation := mkOperation {
  source : SessionId;
  target : SessionId;
  endpoint_id : EndpointId;
  slot : TransferState;
  phase : Phase;
  prepared : option (result transfer_error unit);
}.

Inductive Command :=
| PrepareTransfer (t : TransferId) | CommitTransfer (t : TransferId) | FinishTransfer (t : TransferId).
#[global] Instance Command_eq_dec : EqDecision Command.
Proof. solve_decision. Defined.

(** A session task: its state, the commands it has not taken yet, and the
    bundle it holds while it stops the receive tasks of an extracted endpoint. *)
Record Task := mkTask {
  session : SessionState;
  queue : list Command;
  in_hand : option (TransferId * EndpointTransferBundle);
}.

Record System := mkSystem {
  tasks : gmap SessionId Task;
  operations : gmap TransferId Operation;
}.

Definition put_task (y : System) (i : SessionId) (k : Task) : System :=
  y {{ tasks := <[i := k]> (tasks y) }}.
Definition put_operation (y : System) (t : TransferId) (o : Operation) : System :=
  y {{ operations := <[t := o]> (operations y) }}.
Definition push (k : Task) (c : Command) : Task := k {{ queue := queue k ++ [c] }}.

(** The endpoint [e] is in one of three kinds of places. *)
Inductive Place := InSession (i : SessionId) | InHand (i : SessionId) | InSlot (t : TransferId).

Definition at_place (y : System) (l : Place) (e : EndpointId) : Prop :=
  match l with
  | InSession i => exists k, tasks y !! i = Some k /\ is_Some (endpoints (session k) !! e)
  | InHand i => exists k t b, tasks y !! i = Some k /\ in_hand k = Some (t, b) /\ ep_id (endpoint b) = e
  | InSlot t => exists o b, operations y !! t = Some o /\ bundle (slot o) = Some b /\ ep_id (endpoint b) = e
  end.
Definition somewhere (y : System) (e : EndpointId) : Prop := exists l, at_place y l e.

(** The coordinator's last act: the guard is dropped and schedules the
    source's [FinishTransfer]. *)
Definition close (o : Operation) (r : option (result transfer_error unit)) : Operation :=
  o {{ slot := drop_guard (slot o); phase := Finished r }}.

(** What a step is seen to do: [Commits t] inserts the endpoint of [t] in its target. *)
Inductive event := Internal | Commits (t : TransferId) | Removes (e : EndpointId).

Inductive step (y : System) : event -> System -> Prop :=
(* the controller asks for a transfer between two sessions *)
| StepRequest t src tgt e k1 k2 :
    operations y !! t = None -> tasks y !! src = Some k1 -> tasks y !! tgt = Some k2 ->
    step y Internal (put_operation y t (mkOperation src tgt e default_slot Reserving None))
| StepBusy t o :
    operations y !! t = Some o -> phase o = Reserving ->
    step y Internal (put_operation y t (o {{ phase := Refused }}))
| StepReserved t o k :
    operations y !! t = Some o -> phase o = Reserving -> tasks y !! source o = Some k ->
    step y Internal (put_task (put_operation y t (o {{ phase := WaitPrepare }}))
                       (source o) (push k (PrepareTransfer t)))
| StepPrepared t o k :
    operations y !! t = Some o -> phase o = WaitPrepare -> prepared o = Some (Ok tt) ->
    tasks y !! target o = Some k ->
    step y Internal (put_task (put_operation y t (o {{ phase := WaitCommit }}))
                       (target o) (push k (CommitTransfer t)))
(* the deadline passed, the reply was an error, or the reply channel closed *)
| StepPrepareFailed t o err :
    operations y !! t = Some o -> phase o = WaitPrepare ->
    step y Internal (put_operation y t (o {{ phase := Closing (Err err) }}))
(* the reply arrived, or the deadline passed: the slot decides *)
| StepCommitDecided t o err :
    operations y !! t = Some o -> phase o = WaitCommit ->
    step y Internal (put_operation y t
      (if committed (slot o) then o {{ phase := Closing (Ok tt) }}
       else o {{ slot := (slot o) {{ cancelled := true }}; phase := Closing (Err err) }}))
| StepClose t o r k :
    operations y !! t = Some o -> phase o = Closing r -> tasks y !! source o = Some k ->
    step y Internal (put_task (put_operation y t (close o (Some r)))
                       (source o) (push k (FinishTransfer t)))
| StepAbort t o k :
    operations y !! t = Some o -> phase o = WaitPrepare \/ phase o = WaitCommit ->
    tasks y !! source o = Some k ->
    step y Internal (put_task (put_operation y t (close o None))
                       (source o) (push k (FinishTransfer t)))
(* the session tasks take their commands in order *)
| StepPrepareRefused i k t q o s' t' err :
    tasks y !! i = Some k -> queue k = PrepareTransfer t :: q -> in_hand k = None ->
    operations y !! t = Some o ->
    prepare_transfer (session k) (slot o) (endpoint_id o) = (s', t', Err err) ->
    step y Internal (put_task (put_operation y t (o {{ slot := t'; prepared := Some (Err err) }}))
                       i (k {{ session := s'; queue := q }}))
| StepPrepareExtracts i k t q o s' t' b :
    tasks y !! i = Some k -> queue k = PrepareTransfer t :: q -> in_hand k = None ->
    operations y !! t = Some o ->
    prepare_transfer (session k) (slot o) (endpoint_id o) = (s', t', Ok b) ->
    step y Internal (put_task (put_operation y t (o {{ slot := t' }}))
                       i (k {{ session := s'; in_hand := Some (t, b) }}))
| StepExtracted i k t b q o :
    tasks y !! i = Some k -> in_hand k = Some (t, b) -> queue k = PrepareTransfer t :: q ->
    operations y !! t = Some o ->
    step y Internal (put_task
      (put_operation y t (o {{ slot := (slot o) {{ bundle := Some b }}; prepared := Some (Ok tt) }}))
      i (k {{ queue := q; in_hand := None }}))
| StepCommit i k t q o s' t' r :
    tasks y !! i = Some k -> queue k = CommitTransfer t :: q -> in_hand k = None ->
    operations y !! t = Some o -> commit_transfer (session k) (slot o) = (s', t', r) ->
    step y (match r with Ok _ => Commits t | Err _ => Internal end) (put_task (put_operation y t (o {{ slot := t' }}))
                       i (k {{ session := s'; queue := q }}))
| StepFinish i k t q o s' t' lost :
    tasks y !! i = Some k -> queue k = FinishTransfer t :: q -> in_hand k = None ->
    operations y !! t = Some o ->
    finish_transfer (session k) (slot o) (endpoint_id o) = (s', t', lost) ->
    step y Internal (put_task (put_operation y t (o {{ slot := t' }}))
                       i (k {{ session := s'; queue := q }}))
(* other commands of the controller: new endpoints get fresh identifiers *)
| StepCreate i k ep :
    tasks y !! i = Some k -> in_hand k = None -> full (session k) = false ->
    ~ somewhere y (ep_id ep) ->
    step y Internal (put_task y i (k {{ session := (session k)
      {{ endpoints := <[ep_id ep := ep]> (endpoints (session k)) }} }}))
| StepRemove i k e :
    tasks y !! i = Some k -> in_hand k = None -> is_Some (endpoints (session k) !! e) ->
    step y (Removes e) (put_task y i (k {{ session := (session k)
      {{ endpoints := delete e (endpoints (session k)) }} }})).

Definition initial (y : System) : Prop :=
  operations y = ∅ /\
  (forall i k, tasks y !! i = Some k -> queue k = [] /\ in_hand k = None /\ reserved_transfers (session k) = ∅ /\
     forall e ep, endpoints (session k) !! e = Some ep -> ep_id ep = e) /\
  forall i j e, at_place y (InSession i) e -> at_place y (InSession j) e -> i = j.

Inductive reachable : System -> Prop :=
| reach_initial y : initial y -> reachable y
| reach_step y ev y' : reachable y -> step y ev y' -> reachable y'.

(** ** The invariant *)

Definition early (p : Phase) : bool :=
  match p with Reserving | Refused | WaitPrepare => true | _ => false end.
Definition unsent (p : Phase) : bool := match p with Reserving | Refused => true | _ => false end.
Definition is_finished (p : Phase) : bool := match p with Finished _ => true | _ => false end.
Definition failed (p : Phase) : bool :=
  match p with Closing (Err _) | Finished (Some (Err _)) => true | _ => false end.
Definition succeeded (p : Phase) : bool :=
  match p with Closing (Ok _) | Finished (Some (Ok _)) => true | _ => false end.

(** What a single operation satisfies. *)
Record op_ok (o : Operation) : Prop := {
  op_bundle : forall b, bundle (slot o) = Some b ->
    ep_id (endpoint b) = endpoint_id o /\ reserved (slot o) = true /\ committed (slot o) = false;
  op_prepared : prepared o = None -> bundle (slot o) = None /\ committed (slot o) = false;
  op_early : early (phase o) = true -> committed (slot o) = false;
  op_unsent : unsent (phase o) = true -> reserved (slot o) = false /\ prepared o = None;
  op_finished : is_finished (phase o) = true -> committed (slot o) = false -> cancelled (slot o) = true;
  op_failed : failed (phase o) = true -> committed (slot o) = false;
  op_succeeded : succeeded (phase o) = true -> committed (slot o) = true;
}.

(** What a task and an operation satisfy together. *)
Record pair_ok (i : SessionId) (k : Task) (t : TransferId) (o : Operation) : Prop := {
  pair_hand : forall b, in_hand k = Some (t, b) ->
    source o = i /\ endpoint_id o = ep_id (endpoint b) /\ reserved (slot o) = true /\
    bundle (slot o) = None /\ prepared o = None /\ unsent (phase o) = false;
  pair_reserved : source o = i -> reserved (slot o) = true ->
    endpoint_id o ∈ reserved_transfers (session k);
  pair_prepare : PrepareTransfer t ∈ queue k ->
    source o = i /\ prepared o = None /\ unsent (phase o) = false;
  pair_commit : CommitTransfer t ∈ queue k ->
    target o = i /\ early (phase o) = false /\ (failed (phase o) = true -> cancelled (slot o) = true);
  pair_finish : FinishTransfer t ∈ queue k -> source o = i /\ is_finished (phase o) = true;
  pair_settle : source o = i -> is_finished (phase o) = true -> reserved (slot o) = true ->
    FinishTransfer t ∈ queue k;
}.

Definition command_of (c : Command) : TransferId :=
  match c with PrepareTransfer t | CommitTransfer t | FinishTransfer t => t end.

Record task_ok (y : System) (k : Task) : Prop := {
  task_ids : forall e ep, endpoints (session k) !! e = Some ep -> ep_id ep = e;
  task_nodup : NoDup (queue k);
  task_known : forall c, c ∈ queue k -> is_Some (operations y !! command_of c);
  task_hand : forall t b, in_hand k = Some (t, b) -> is_Some (operations y !! t);
}.

Record inv (y : System) : Prop := {
  inv_task : forall i k, tasks y !! i = Some k -> task_ok y k;
  inv_op : forall t o, operations y !! t = Some o -> op_ok o /\ is_Some (tasks y !! source o);
  inv_pair : forall i k t o, tasks y !! i = Some k -> operations y !! t = Some o -> pair_ok i k t o;
  inv_exclusive : forall t1 o1 t2 o2,
    operations y !! t1 = Some o1 -> operations y !! t2 = Some o2 ->
    reserved (slot o1) = true -> reserved (slot o2) = true -> source o1 = source o2 ->
    endpoint_id o1 = endpoint_id o2 -> t1 = t2;
  inv_unique : forall e l1 l2, at_place y l1 e -> at_place y l2 e -> l1 = l2;
}.

Lemma lookup_put_task y i k j :
  tasks (put_task y i k) !! j = if bool_decide (j = i) then Some k else tasks y !! j.
Proof.
  destruct y; cbn. case_bool_decide; subst; [apply lookup_insert_eq | by apply lookup_insert_ne].
Qed.

Lemma lookup_put_operation y t o u :
  operations (put_operation y t o) !! u = if bool_decide (u = t) then Some o else operations y !! u.
Proof.
  destruct y; cbn. case_bool_decide; subst; [apply lookup_insert_eq | by apply lookup_insert_ne].
Qed.

(** One task and one operation change. *)
Definition update (y : System) (i : SessionId) (k : Task) (t : TransferId) (o : Operation) : System :=
  put_task (put_operation y t o) i k.

Lemma tasks_update y i k t o j :
  tasks (update y i k t o) !! j = if bool_decide (j = i) then Some k else tasks y !! j.
Proof. unfold update. rewrite lookup_put_task. by destruct y. Qed.
Lemma operations_update y i k t o u :
  operations (update y i k t o) !! u = if bool_decide (u = t) then Some o else operations y !! u.
Proof. rewrite <- lookup_put_operation. by destruct y. Qed.

(** The invariant but for the places. *)
Lemma inv_update y i k k' t o o' :
  inv y -> tasks y !! i = Some k -> operations y !! t = Some o ->
  source o' = source o -> op_ok o' -> pair_ok i k' t o' ->
  (forall j k2, j <> i -> pair_ok j k2 t o -> pair_ok j k2 t o') ->
  (forall u o2, u <> t -> operations y !! u = Some o2 -> pair_ok i k u o2 -> pair_ok i k' u o2) ->
  (forall e ep, endpoints (session k') !! e = Some ep -> ep_id ep = e) ->
  NoDup (queue k') -> (forall c, c ∈ queue k' -> c ∈ queue k \/ command_of c = t) ->
  (forall u b, in_hand k' = Some (u, b) -> in_hand k = Some (u, b) \/ u = t) ->
  (reserved (slot o') = true -> forall u o2, u <> t -> operations y !! u = Some o2 ->
     reserved (slot o2) = true -> source o2 = source o' -> endpoint_id o2 <> endpoint_id o') ->
  (forall e l1 l2, at_place (update y i k' t o') l1 e -> at_place (update y i k' t o') l2 e -> l1 = l2) ->
  inv (update y i k' t o').
Proof.
  intros [T O P X U] Hk Ho Hs Hop Hp Hother Hops Hids Hnd Hq Hh Hres Huniq.
  assert (known : forall u, is_Some (operations y !! u) \/ u = t ->
    is_Some (operations (update y i k' t o') !! u)).
  { intros u Hu. rewrite operations_update. case_bool_decide; [by eexists |]. by destruct Hu. }
  split; [| | | | exact Huniq].
  - intros j k2 Hj. rewrite tasks_update in Hj. case_bool_decide.
    + injection Hj as <-. destruct (T i k Hk). split; try done.
      * intros c Hc. apply known. destruct (Hq c Hc); [left; by apply task_known0 | by right].
      * intros u b Hb. apply known. destruct (Hh u b Hb); [left; by eapply task_hand0 | by right].
    + destruct (T j k2 Hj). split; try done; intros; apply known; left; eauto.
  - intros u o2 Hu. rewrite operations_update in Hu.
    assert (Hex : is_Some (tasks y !! source o2)).
    { case_bool_decide; [injection Hu as <-; rewrite Hs; by apply (O t o Ho) | by apply (O u o2)]. }
    split; [case_bool_decide; [by injection Hu as <- | by apply (O u o2)] |]. clear Hu.
    rewrite tasks_update. case_bool_decide; [by eexists | done].
  - intros j k2 u o2 Hj Hu. rewrite tasks_update in Hj. rewrite operations_update in Hu.
    repeat case_bool_decide; simplify_eq; auto.
  - intros u1 o1 u2 o2 H1 H2 R1 R2 Hsrc He. rewrite operations_update in H1, H2.
    repeat case_bool_decide; simplify_eq; [done | | | by eapply X].
    + exfalso. by apply (Hres R2 u1 o1).
    + exfalso. by apply (Hres R1 u2 o2).
Qed.

(** *** Places *)

Definition task_has (k : Task) (e : EndpointId) : Prop := is_Some (endpoints (session k) !! e).
Definition hand_has (k : Task) (e : EndpointId) : Prop :=
  exists t b, in_hand k = Some (t, b) /\ ep_id (endpoint b) = e.
Definition slot_has (o : Operation) (e : EndpointId) : Prop :=
  exists b, bundle (slot o) = Some b /\ ep_id (endpoint b) = e.

Lemma at_update y i k t o l e :
  at_place (update y i k t o) l e <->
  match l with
  | InSession j => if bool_decide (j = i) then task_has k e else at_place y l e
  | InHand j => if bool_decide (j = i) then hand_has k e else at_place y l e
  | InSlot u => if bool_decide (u = t) then slot_has o e else at_place y l e
  end.
Proof.
  unfold task_has, hand_has, slot_has. destruct l as [j | j | u]; unfold at_place.
  - rewrite tasks_update. case_bool_decide; [| done]. split; [by intros (? & [= <-] & ?) | by eauto].
  - rewrite tasks_update. case_bool_decide; [| done].
    split; [intros (? & ? & ? & [= <-] & ? & ?); by eauto | intros (? & ? & ? & ?); by eauto 6].
  - rewrite operations_update. case_bool_decide; [| done].
    split; [intros (? & ? & [= <-] & ? & ?); by eauto | intros (? & ? & ?); by eauto 6].
Qed.

Lemma at_task y i k e : tasks y !! i = Some k -> at_place y (InSession i) e <-> task_has k e.
Proof. intros H. unfold at_place, task_has. rewrite H. split; [by intros (? & [= <-] & ?) | by eauto]. Qed.
Lemma at_hand y i k e : tasks y !! i = Some k -> at_place y (InHand i) e <-> hand_has k e.
Proof.
  intros H. unfold at_place, hand_has. rewrite H.
  split; [intros (? & ? & ? & [= <-] & ? & ?); by eauto | intros (? & ? & ? & ?); by eauto 6].
Qed.
Lemma at_slot y t o e : operations y !! t = Some o -> at_place y (InSlot t) e <-> slot_has o e.
Proof.
  intros H. unfold at_place, slot_has. rewrite H.
  split; [intros (? & ? & [= <-] & ? & ?); by eauto | intros (? & ? & ?); by eauto 6].
Qed.

(** The change touches no endpoint but [e0]. *)
Definition moves_only (e0 : EndpointId) (k k' : Task) (o o' : Operation) : Prop :=
  forall e, e <> e0 -> (task_has k' e <-> task_has k e) /\ (hand_has k' e <-> hand_has k e) /\
                       (slot_has o' e <-> slot_has o e).

Lemma at_moved y i k k' t o o' e0 l e :
  tasks y !! i = Some k -> operations y !! t = Some o -> moves_only e0 k k' o o' -> e <> e0 ->
  at_place (update y i k' t o') l e <-> at_place y l e.
Proof.
  intros Hk Ho M He. destruct (M e He) as (M1 & M2 & M3). rewrite at_update.
  destruct l as [j | j | u]; case_bool_decide; subst; [| done | | done | | done].
  - by rewrite (at_task y i k).
  - by rewrite (at_hand y i k).
  - by rewrite (at_slot y t o).
Qed.

(** [e0] ends up at [l0] and was nowhere but at places of [k] and [o]. *)
Lemma unique_moved y i k k' t o o' e0 l0 :
  inv y -> tasks y !! i = Some k -> operations y !! t = Some o -> moves_only e0 k k' o o' ->
  (forall l, at_place y l e0 -> l = InSession i \/ l = InHand i \/ l = InSlot t) ->
  (task_has k' e0 -> l0 = InSession i) -> (hand_has k' e0 -> l0 = InHand i) ->
  (slot_has o' e0 -> l0 = InSlot t) ->
  forall e l1 l2, at_place (update y i k' t o') l1 e -> at_place (update y i k' t o') l2 e -> l1 = l2.
Proof.
  intros I Hk Ho M Hwas H1 H2 H3 e l1 l2 A1 A2. destruct (decide (e = e0)) as [-> | He].
  - assert (G : forall l, at_place (update y i k' t o') l e0 -> l = l0).
    { intros l A. pose proof A as A'. rewrite at_update in A.
      destruct l as [j | j | u]; case_bool_decide; subst; try (symmetry; by auto);
        apply Hwas in A; destruct A as [| [|]]; congruence. }
    by rewrite (G l1 A1), (G l2 A2).
  - rewrite (at_moved y i k k' t o o' e0) in A1, A2 by done. by eapply inv_unique.
Qed.

Lemma hand_some k t b e : in_hand k = Some (t, b) -> hand_has k e <-> ep_id (endpoint b) = e.
Proof. intros H. unfold hand_has. rewrite H. split; [by intros (? & ? & [= <- <-] & ?) | by eauto]. Qed.
Lemma hand_none k e : in_hand k = None -> hand_has k e <-> False.
Proof. intros H. unfold hand_has. rewrite H. split; [by intros (? & ? & ? & ?) | done]. Qed.
Lemma slot_some o b e : bundle (slot o) = Some b -> slot_has o e <-> ep_id (endpoint b) = e.
Proof. intros H. unfold slot_has. rewrite H. split; [by intros (? & [= <-] & ?) | by eauto]. Qed.
Lemma slot_none o e : bundle (slot o) = None -> slot_has o e <-> False.
Proof. intros H. unfold slot_has. rewrite H. split; [by intros (? & ? & ?) | done]. Qed.

(** From the session into its hands, from there to the slot, and from the slot
    into a session. *)
Lemma moves_extract k k' o o' t b i :
  endpoints (session k') = delete i (endpoints (session k)) -> in_hand k = None ->
  in_hand k' = Some (t, b) -> ep_id (endpoint b) = i -> bundle (slot o') = bundle (slot o) ->
  moves_only i k k' o o'.
Proof.
  intros Hs Hh Hh' Hid Hb e He. unfold task_has at 1, slot_has. rewrite Hs, Hb, lookup_delete_ne by done.
  rewrite (hand_none k), (hand_some k' t b) by done. naive_solver.
Qed.

Lemma moves_extracted k k' o o' t b :
  endpoints (session k') = endpoints (session k) -> in_hand k = Some (t, b) -> in_hand k' = None ->
  bundle (slot o) = None -> bundle (slot o') = Some b -> moves_only (ep_id (endpoint b)) k k' o o'.
Proof.
  intros Hs Hh Hh' Hb Hb' e He. unfold task_has. rewrite Hs.
  rewrite (hand_none k'), (hand_some k t b), (slot_none o), (slot_some o' b) by done. naive_solver.
Qed.

Lemma moves_inserted k k' o o' b :
  endpoints (session k') = <[ep_id (endpoint b) := endpoint b]> (endpoints (session k)) ->
  in_hand k' = in_hand k -> bundle (slot o) = Some b -> bundle (slot o') = None ->
  moves_only (ep_id (endpoint b)) k k' o o'.
Proof.
  intros Hs Hh Hb Hb' e He. unfold task_has, hand_has. rewrite Hs, Hh, lookup_insert_ne by done.
  rewrite (slot_none o'), (slot_some o b) by done. naive_solver.
Qed.

(** Nothing moved. *)
Lemma unique_kept y i k k' t o o' :
  inv y -> tasks y !! i = Some k -> operations y !! t = Some o ->
  endpoints (session k') = endpoints (session k) -> in_hand k' = in_hand k ->
  bundle (slot o') = bundle (slot o) ->
  forall e l1 l2, at_place (update y i k' t o') l1 e -> at_place (update y i k' t o') l2 e -> l1 = l2.
Proof.
  intros I Hk Ho H1 H2 H3 e l1 l2 A1 A2.
  assert (M : moves_only (e + 1) k k' o o').
  { intros e' _. unfold task_has, hand_has, slot_has. by rewrite H1, H2, H3. }
  rewrite (at_moved y i k k' t o o' (e + 1)) in A1, A2 by (done || lia). by eapply inv_unique.
Qed.

(** *** The commands *)

Lemma insert_cases s b :
  match handle_insert_endpoint s b with
  | Ok s' => endpoints s !! ep_id (endpoint b) = None /\
             endpoints s' = <[ep_id (endpoint b) := endpoint b]> (endpoints s) /\
             reserved_transfers s' = reserved_transfers s
  | Err _ => (ep_id (endpoint b) ∉ reserved_transfers s) \/ is_Some (endpoints s !! ep_id (endpoint b))
  end.
Proof.
  unfold handle_insert_endpoint. case_bool_decide as R; cbn [negb andb].
  - case_bool_decide as E; [by right |]. apply eq_None_not_Some in E. by destruct s.
  - destruct (full s); [by left |]. case_bool_decide as E; [by right |].
    apply eq_None_not_Some in E. by destruct s.
Qed.

Lemma prepare_refused s t i s' t' err :
  prepare_transfer s t i = (s', t', Err err) ->
  (reserved t = true -> i ∈ reserved_transfers s) -> s' = s /\ t' = t.
Proof.
  unfold prepare_transfer, handle_extract_endpoint. intros H Hr.
  destruct (cancelled t); [by simplify_eq |]. case_bool_decide as R; [by simplify_eq |].
  assert (Ht : t {{ reserved := false }} = t).
  { destruct t as [? [] ? ?]; cbn in *; [by destruct R; apply Hr | done]. }
  assert (Hset : ({[i]} ∪ reserved_transfers s) ∖ {[i]} = reserved_transfers s) by set_solver.
  destruct s; cbn in *.
  destruct (_ !! i) as [ep |]; [destruct (negb _) |]; simplify_eq; cbn in *; by rewrite Hset, Ht.
Qed.

Lemma prepare_extracts s t i s' t' b :
  prepare_transfer s t i = (s', t', Ok b) ->
  cancelled t = false /\ (i ∉ reserved_transfers s) /\ endpoints s !! i = Some (endpoint b) /\
  endpoints s' = delete i (endpoints s) /\ reserved_transfers s' = {[i]} ∪ reserved_transfers s /\
  t' = t {{ reserved := true }}.
Proof.
  unfold prepare_transfer, handle_extract_endpoint. intros H.
  destruct (cancelled t); [done |]. case_bool_decide as R; [done |].
  destruct s; cbn in *. by destruct (_ !! i) as [ep |]; [destruct (negb _) |]; simplify_eq.
Qed.

(** *** Changes of the coordinator *)

Lemma same_operation y i k t o : tasks y !! i = Some k -> update y i k t o = put_operation y t o.
Proof. intros H. destruct y; cbn in *. unfold update, put_task, put_operation; cbn. by rewrite insert_id. Qed.

Lemma inv_operation y t o o' :
  inv y -> operations y !! t = Some o -> source o' = source o -> endpoint_id o' = endpoint_id o ->
  reserved (slot o') = reserved (slot o) -> bundle (slot o') = bundle (slot o) -> op_ok o' ->
  (forall j k, pair_ok j k t o -> pair_ok j k t o') -> inv (put_operation y t o').
Proof.
  intros I Ho Hs He Hr Hb Hok Hp. destruct (inv_op y I t o Ho) as [_ [k Hk]].
  rewrite <- (same_operation y (source o) k t o' Hk).
  destruct (inv_task y I _ k Hk) as [Ti Tn Tk Th].
  apply (inv_update y (source o) k k t o o'); auto.
  - apply Hp. by apply (inv_pair y I).
  - rewrite Hr, Hs, He. intros R u o2 Hu Ho2 R2 S2 E2. by apply Hu, (inv_exclusive y I u o2 t o).
  - by eapply unique_kept.
Qed.

Lemma elem_push k c c' : c' ∈ queue (push k c) <-> c' ∈ queue k \/ c' = c.
Proof. destruct k; cbn. set_solver. Qed.

Lemma in_hand_push k c : in_hand (push k c) = in_hand k.
Proof. by destruct k. Qed.
Lemma session_push k c : session (push k c) = session k.
Proof. by destruct k. Qed.

Lemma pair_push i k t o c : command_of c <> t -> pair_ok i k t o -> pair_ok i (push k c) t o.
Proof.
  intros Hc [H1 H2 H3 H4 H5 H6].
  assert (G : forall c', command_of c' = t -> c' ∈ queue (push k c) -> c' ∈ queue k).
  { intros c' E Hin. apply elem_push in Hin as [|]; congruence. }
  split; [by destruct k | by destruct k | | | |].
  - intros Hin. by apply H3, G.
  - intros Hin. by apply H4, G.
  - intros Hin. by apply H5, G.
  - intros A B C. apply elem_push. left. by apply H6.
Qed.

(** The coordinator moves on and sends a command of its own. *)
Lemma inv_push y i k t o o' c :
  inv y -> operations y !! t = Some o -> tasks y !! i = Some k -> command_of c = t -> c ∉ queue k ->
  source o' = source o -> endpoint_id o' = endpoint_id o ->
  reserved (slot o') = reserved (slot o) -> bundle (slot o') = bundle (slot o) -> op_ok o' ->
  (pair_ok i k t o -> pair_ok i (push k c) t o') ->
  (forall j k2, j <> i -> pair_ok j k2 t o -> pair_ok j k2 t o') ->
  inv (put_task (put_operation y t o') i (push k c)).
Proof.
  intros I Ho Hk Hc Hnew Hs He Hr Hb Hok Hp Hother.
  destruct (inv_task y I _ k Hk) as [Ti Tn Tk Th].
  apply (inv_update y i k (push k c) t o o'); auto.
  - apply Hp. by apply (inv_pair y I).
  - intros u o2 Hu _. apply pair_push. congruence.
  - destruct k; cbn in *. apply NoDup_app. split; [done |]. split; [set_solver | apply NoDup_singleton].
  - intros c' Hin. apply elem_push in Hin as [|]; [by left | right; by subst].
  - rewrite Hr, Hs, He. intros R u o2 Hu Ho2 R2 S2 E2. by apply Hu, (inv_exclusive y I u o2 t o).
  - by apply (unique_kept y i k (push k c) t o o').
Qed.

(** Forward chaining on the fields of the invariant. *)
Ltac settle :=
  repeat match goal with
    | H : ?x = ?x -> _ |- _ => specialize (H eq_refl)
    | H : true = false -> _ |- _ => clear H
    | H : false = true -> _ |- _ => clear H
    | H : false = true |- _ => discriminate H
    | H : true = false |- _ => discriminate H
    | H : None = Some _ |- _ => discriminate H
    | H : _ /\ _ |- _ => destruct H
    | H : _ \/ _ |- _ => destruct H
    | H : forall b, Some ?x = Some b -> _ |- _ => specialize (H x eq_refl)
    | H : forall b, ?x = Some b -> _, H' : ?x = Some ?c |- _ => specialize (H c H')
    | H : forall b, ?x = Some (?u, b) -> _, H' : ?x = Some (?u, ?c) |- _ => specialize (H c H')
    | H : ?A \/ ?B -> _ |- _ =>
        pose proof (fun a => H (or_introl a)); pose proof (fun b => H (or_intror b)); clear H
    | H : ?P -> _, H' : ?P |- _ =>
        lazymatch type of P with Prop => specialize (H H') end
    | |- forall _, _ => intros ?
    | |- _ /\ _ => split
    end; try done; try congruence; auto.
Ltac op_cases o := destruct o as [? ? ? [? ? ? ?] ph ?]; cbn in *; subst; cbn in *.

Lemma busy_inv y t o :
  inv y -> operations y !! t = Some o -> phase o = Reserving ->
  inv (put_operation y t (o {{ phase := Refused }})).
Proof.
  intros I Ho Hp. destruct (inv_op y I t o Ho) as [[] _].
  apply (inv_operation y t o); try done; op_cases o; [by split; auto |].
  intros j k []; cbn in *. split; cbn; settle.
Qed.

Lemma prepare_failed_inv y t o err :
  inv y -> operations y !! t = Some o -> phase o = WaitPrepare ->
  inv (put_operation y t (o {{ phase := Closing (Err err) }})).
Proof.
  intros I Ho Hp. destruct (inv_op y I t o Ho) as [[] _].
  apply (inv_operation y t o); try done; op_cases o; [by split; auto |].
  intros j k []; cbn in *. split; cbn; settle.
Qed.

Lemma commit_decided_inv y t o err :
  inv y -> operations y !! t = Some o -> phase o = WaitCommit ->
  inv (put_operation y t
    (if committed (slot o) then o {{ phase := Closing (Ok tt) }}
     else o {{ slot := (slot o) {{ cancelled := true }}; phase := Closing (Err err) }})).
Proof.
  intros I Ho Hp. destruct (inv_op y I t o Ho) as [[] _].
  destruct (committed (slot o)) eqn:C;
    (apply (inv_operation y t o); try done; op_cases o; [by split; cbn; auto |]);
    intros j k []; cbn in *; split; cbn; settle.
Qed.

#[local] Arguments push : simpl never.

(** The pair after one more command of the same transfer. *)
Ltac pushed :=
  intros []; cbn in *; split; cbn; rewrite ?elem_push, ?in_hand_push, ?session_push; settle.

Lemma reserved_inv y t o k :
  inv y -> operations y !! t = Some o -> phase o = Reserving -> tasks y !! source o = Some k ->
  inv (put_task (put_operation y t (o {{ phase := WaitPrepare }})) (source o) (push k (PrepareTransfer t))).
Proof.
  intros I Ho Hp Hk. destruct (inv_op y I t o Ho) as [[] _].
  apply (inv_push y (source o) k t o); try done.
  - intros Hin. destruct (inv_pair y I _ k t o Hk Ho). rewrite Hp in *. settle.
  - op_cases o. split; cbn; settle.
  - op_cases o. pushed.
  - op_cases o. intros j k2 Hj []; cbn in *. split; cbn; settle.
Qed.

Lemma prepared_inv y t o k :
  inv y -> operations y !! t = Some o -> phase o = WaitPrepare -> tasks y !! target o = Some k ->
  inv (put_task (put_operation y t (o {{ phase := WaitCommit }})) (target o) (push k (CommitTransfer t))).
Proof.
  intros I Ho Hp Hk. destruct (inv_op y I t o Ho) as [[] _].
  apply (inv_push y (target o) k t o); try done.
  - intros Hin. destruct (inv_pair y I _ k t o Hk Ho). rewrite Hp in *. settle.
  - op_cases o. pushed.
  - op_cases o. intros j k2 Hj []; cbn in *. split; cbn; settle.
Qed.

(** Dropping the guard, with the result the slot bears out. *)
Lemma close_inv y t o r k :
  inv y -> operations y !! t = Some o -> unsent (phase o) = false -> is_finished (phase o) = false ->
  failed (Finished r) = failed (phase o) -> succeeded (Finished r) = succeeded (phase o) ->
  tasks y !! source o = Some k ->
  inv (put_task (put_operation y t (close o r)) (source o) (push k (FinishTransfer t))).
Proof.
  intros I Ho Hu Hn Hf Hg Hk. destruct (inv_op y I t o Ho) as [[] _].
  assert (Hcancels : failed (Finished r) = true -> negb (committed (slot o)) = true).
  { rewrite Hf. intros F. by rewrite (op_failed0 F). }
  apply (inv_push y (source o) k t o); try done.
  - intros Hin. destruct (inv_pair y I _ k t o Hk Ho). settle.
  - unfold close, drop_guard. op_cases o. split; cbn; rewrite ?Hf, ?Hg; auto; [settle..|].
    intros _ ->. done.
  - unfold close, drop_guard. op_cases o. pushed.
  - unfold close, drop_guard. op_cases o. intros j k2 Hj []; cbn in *. split; cbn; settle.
Qed.

(** *** Changes of a session task *)

Lemma pair_task i k k' u o :
  pair_ok i k u o ->
  (forall b, in_hand k' = Some (u, b) -> in_hand k = Some (u, b)) ->
  (source o = i -> reserved (slot o) = true -> endpoint_id o ∈ reserved_transfers (session k) ->
     endpoint_id o ∈ reserved_transfers (session k')) ->
  (forall c, command_of c = u -> c ∈ queue k' <-> c ∈ queue k) ->
  pair_ok i k' u o.
Proof. intros [] Hh Hr Hq. split; rewrite ?Hq by done; settle. Qed.

(** The head of the queue is taken. *)
Lemma inv_taken y i k k' t o o' c :
  inv y -> tasks y !! i = Some k -> operations y !! t = Some o -> command_of c = t ->
  queue k = c :: queue k' ->
  source o' = source o -> op_ok o' -> (c ∉ queue k' -> pair_ok i k' t o') ->
  (forall j k2, j <> i -> pair_ok j k2 t o -> pair_ok j k2 t o') ->
  (forall u b, in_hand k' = Some (u, b) -> in_hand k = Some (u, b)) ->
  (forall u o2, u <> t -> operations y !! u = Some o2 -> source o2 = i -> reserved (slot o2) = true ->
     endpoint_id o2 ∈ reserved_transfers (session k) -> endpoint_id o2 ∈ reserved_transfers (session k')) ->
  (reserved (slot o') = true -> reserved (slot o) = true /\ endpoint_id o' = endpoint_id o) ->
  (forall e ep, endpoints (session k') !! e = Some ep -> ep_id ep = e) ->
  (forall e l1 l2, at_place (update y i k' t o') l1 e -> at_place (update y i k' t o') l2 e -> l1 = l2) ->
  inv (update y i k' t o').
Proof.
  intros I Hk Ho Hc Hq Hs Hok Hp Hother Hh Hr Hres Hids Huniq.
  destruct (inv_task y I i k Hk) as [Ti Tn Tk Th]. rewrite Hq in Tn. apply NoDup_cons in Tn as [Hnew Tn].
  apply (inv_update y i k k' t o o'); auto.
  - intros u o2 Hu Ho2 P. apply (pair_task i k); [done | by auto | by eauto |].
    intros c' Hc'. rewrite Hq, elem_of_cons. split; [by right |]. intros [-> |]; congruence.
  - intros c' Hin. left. rewrite Hq. by right.
  - intros R u o2 Hu Ho2 R2 S2 E2. destruct (Hres R) as [R' E']. rewrite Hs in S2. rewrite E' in E2.
    by apply Hu, (inv_exclusive y I u o2 t o).
Qed.

Lemma prepare_refused_inv y i k t q o s' t' err :
  inv y -> tasks y !! i = Some k -> queue k = PrepareTransfer t :: q -> in_hand k = None ->
  operations y !! t = Some o ->
  prepare_transfer (session k) (slot o) (endpoint_id o) = (s', t', Err err) ->
  inv (put_task (put_operation y t (o {{ slot := t'; prepared := Some (Err err) }}))
         i (k {{ session := s'; queue := q }})).
Proof.
  intros I Hk Hq Hh Ho Hprep. destruct (inv_op y I t o Ho) as [[] _].
  pose proof (inv_pair y I i k t o Hk Ho) as Hpair. pose proof (inv_task y I i k Hk) as [].
  destruct Hpair as [P1 P2 P3 P4 P5 P6]. destruct (P3 ltac:(rewrite Hq; by left)) as (E1 & E2 & E3).
  apply prepare_refused in Hprep as [-> ->]; [| by auto].
  apply (inv_taken y i k _ t o _ (PrepareTransfer t)); try done; destruct k as [s ? ?]; cbn in *; subst.
  - op_cases o. split; cbn; settle.
  - intros Hnew. op_cases o. rewrite elem_of_cons in P3, P4, P5, P6. split; cbn; settle.
  - op_cases o. intros j k2 Hj []; cbn in *. split; cbn; settle.
  - by apply (unique_kept y (source o) (mkTask s (PrepareTransfer t :: q) None) _ t o).
Qed.

Lemma prepare_extracts_inv y i k t q o s' t' b :
  inv y -> tasks y !! i = Some k -> queue k = PrepareTransfer t :: q -> in_hand k = None ->
  operations y !! t = Some o ->
  prepare_transfer (session k) (slot o) (endpoint_id o) = (s', t', Ok b) ->
  inv (put_task (put_operation y t (o {{ slot := t' }})) i (k {{ session := s'; in_hand := Some (t, b) }})).
Proof.
  intros I Hk Hq Hh Ho Hprep. destruct (inv_op y I t o Ho) as [[] _].
  pose proof (inv_pair y I i k t o Hk Ho) as Hpair. pose proof (inv_task y I i k Hk) as [].
  destruct Hpair as [P1 P2 P3 P4 P5 P6]. destruct (P3 ltac:(rewrite Hq; by left)) as (E1 & E2 & E3).
  apply prepare_extracts in Hprep as (C & Hnew & He & Hs & Hr & ->).
  assert (Hid : ep_id (endpoint b) = endpoint_id o) by by eapply task_ids0.
  apply (inv_update y i k _ t o); try done; destruct k as [s ? ?]; cbn in *; subst.
  - op_cases o. split; cbn; settle.
  - op_cases o. split; cbn; try settle. set_solver.
  - op_cases o. intros j k2 Hj []; cbn in *. split; cbn; settle.
  - intros u o2 Hu Ho2 P. eapply pair_task; [exact P | cbn; settle | cbn; set_solver | done].
  - intros e ep. rewrite Hs. intros [_ Hl]%lookup_delete_Some. by apply task_ids0.
  - by left.
  - intros u b' [= <- _]. by right.
  - intros _ u o2 Hu Ho2 R2 S2 E4. op_cases o.
    pose proof (inv_pair y I _ _ u o2 Hk Ho2) as []. cbn in *. apply Hnew. rewrite <- E4. auto.
  - assert (Hwas : forall l, at_place y l (endpoint_id o) -> l = InSession (source o)).
    { intros l Hl. eapply (inv_unique y I); [exact Hl |]. eexists. split; [exact Hk |]. cbn. by rewrite He. }
    eapply (unique_moved y _ _ _ t o _ (endpoint_id o) (InHand (source o))); try done.
    + by eapply moves_extract.
    + intros l Hl. left. auto.
    + unfold task_has; cbn. rewrite Hs, lookup_delete_eq. by intros [].
    + intros Hin. apply slot_none in Hin; [done |]. destruct o as [? ? ? [] ? ?]; cbn in *. settle.
Qed.

Lemma extracted_inv y i k t b q o :
  inv y -> tasks y !! i = Some k -> in_hand k = Some (t, b) -> queue k = PrepareTransfer t :: q ->
  operations y !! t = Some o ->
  inv (put_task
    (put_operation y t (o {{ slot := (slot o) {{ bundle := Some b }}; prepared := Some (Ok tt) }}))
    i (k {{ queue := q; in_hand := None }})).
Proof.
  intros I Hk Hh Hq Ho. destruct (inv_op y I t o Ho) as [[] _].
  pose proof (inv_pair y I i k t o Hk Ho) as [P1 P2 P3 P4 P5 P6]. pose proof (inv_task y I i k Hk) as [].
  destruct (P1 b Hh) as (E1 & E2 & E3 & E4 & E5 & E6).
  apply (inv_taken y i k _ t o _ (PrepareTransfer t)); try done; destruct k as [s ? ?]; cbn in *; subst.
  - op_cases o. split; cbn; settle.
  - intros Hnew. op_cases o. rewrite elem_of_cons in P3, P4, P5, P6. split; cbn; settle.
  - op_cases o. intros j k2 Hj []; cbn in *. split; cbn; settle.
  - assert (Hwas : forall l, at_place y l (endpoint_id o) -> l = InHand (source o)).
    { intros l Hl. eapply (inv_unique y I); [exact Hl |]. by repeat eexists. }
    eapply (unique_moved y _ _ _ t o _ (endpoint_id o) (InSlot t)); try done.
    + rewrite E2. by eapply moves_extracted.
    + intros l Hl. right. left. auto.
    + intros Hl. assert (Hin : at_place y (InSession (source o)) (endpoint_id o)) by (by eapply at_task).
      by apply Hwas in Hin.
    + by intros (? & ? & ? & ?).
Qed.

(** An endpoint inserted from the slot, into the session that took the command. *)
Lemma unique_inserted y i k k' t o o' b :
  inv y -> tasks y !! i = Some k -> operations y !! t = Some o -> bundle (slot o) = Some b ->
  endpoints (session k') = <[ep_id (endpoint b) := endpoint b]> (endpoints (session k)) ->
  in_hand k = None -> in_hand k' = None -> bundle (slot o') = None ->
  forall e l1 l2, at_place (update y i k' t o') l1 e -> at_place (update y i k' t o') l2 e -> l1 = l2.
Proof.
  intros I Hk Ho Hb Hs Hh Hh' Hb'.
  assert (Hwas : forall l, at_place y l (ep_id (endpoint b)) -> l = InSlot t).
  { intros l Hl. eapply (inv_unique y I); [exact Hl |]. by repeat eexists. }
  eapply (unique_moved y i k k' t o o' (ep_id (endpoint b)) (InSession i)); try done.
  - apply moves_inserted; congruence.
  - intros l Hl. right. right. auto.
  - intros (? & ? & ? & ?). congruence.
  - intros (? & ? & ?). congruence.
Qed.

Lemma inserted_ids (s s' : SessionState) b :
  endpoints s' = <[ep_id (endpoint b) := endpoint b]> (endpoints s) ->
  (forall e ep, endpoints s !! e = Some ep -> ep_id ep = e) ->
  forall e ep, endpoints s' !! e = Some ep -> ep_id ep = e.
Proof. intros -> H e ep. rewrite lookup_insert_Some. intros [[? ?] | [_ ?]]; [by subst | auto]. Qed.

Lemma commit_cases s t s' t' r :
  commit_transfer s t = (s', t', r) ->
  (s' = s /\ t' = t /\ exists e, r = Err e) \/
  exists b, cancelled t = false /\ bundle t = Some b /\
    endpoints s' = <[ep_id (endpoint b) := endpoint b]> (endpoints s) /\
    reserved_transfers s' = reserved_transfers s /\ t' = t {{ committed := true; bundle := None }} /\ r = Ok tt.
Proof.
  unfold commit_transfer. intros Hc. destruct (cancelled t) eqn:C; [left; simplify_eq; eauto |].
  destruct (bundle t) as [b |]; [| left; simplify_eq; eauto].
  pose proof (insert_cases s b) as Hi.
  destruct (handle_insert_endpoint s b) as [s1 | e]; simplify_eq; [right | left; eauto].
  exists b. split_and!; try done; apply Hi.
Qed.

Lemma commit_inv y i k t q o s' t' r :
  inv y -> tasks y !! i = Some k -> queue k = CommitTransfer t :: q -> in_hand k = None ->
  operations y !! t = Some o -> commit_transfer (session k) (slot o) = (s', t', r) ->
  inv (put_task (put_operation y t (o {{ slot := t' }})) i (k {{ session := s'; queue := q }})).
Proof.
  intros I Hk Hq Hh Ho Hc. destruct (inv_op y I t o Ho) as [[] _].
  pose proof (inv_pair y I i k t o Hk Ho) as [P1 P2 P3 P4 P5 P6]. pose proof (inv_task y I i k Hk) as [].
  destruct (P4 ltac:(rewrite Hq; by left)) as (_ & E1 & E2).
  apply commit_cases in Hc.
  destruct Hc as [(-> & -> & _) | (b & C & Hb & Hs & Hr & -> & _)];
    (apply (inv_taken y i k _ t o _ (CommitTransfer t)); try done; destruct k as [s ? ?]; cbn in *; subst).
  - intros Hnew. op_cases o. rewrite elem_of_cons in P3, P4, P5, P6. split; cbn; settle.
  - by op_cases o.
  - by apply (unique_kept y i (mkTask s (CommitTransfer t :: q) None) _ t o).
  - op_cases o. split; cbn; settle.
  - intros Hnew. op_cases o. rewrite elem_of_cons in P3, P4, P5, P6. split; cbn; rewrite ?Hr; settle.
  - op_cases o. intros j k2 Hj []; cbn in *. split; cbn; settle.
  - by rewrite Hr.
  - by eapply inserted_ids.
  - by apply (unique_inserted y i (mkTask s (CommitTransfer t :: q) None) _ t o _ b).
Qed.

(** Cleanup finds room for the endpoint and nobody in its place: the bundle is
    never dropped. *)
Lemma finish_cases y i k t q o s' t' lost :
  inv y -> tasks y !! i = Some k -> queue k = FinishTransfer t :: q -> operations y !! t = Some o ->
  finish_transfer (session k) (slot o) (endpoint_id o) = (s', t', lost) ->
  lost = false /\
  ((s' = session k /\ t' = slot o /\ reserved (slot o) = false) \/
   (reserved (slot o) = true /\ bundle (slot o) = None /\ endpoints s' = endpoints (session k) /\
    reserved_transfers s' = reserved_transfers (session k) ∖ {[endpoint_id o]} /\
    t' = (slot o) {{ reserved := false }}) \/
   (exists b, reserved (slot o) = true /\ bundle (slot o) = Some b /\
    endpoints s' = <[ep_id (endpoint b) := endpoint b]> (endpoints (session k)) /\
    reserved_transfers s' = reserved_transfers (session k) ∖ {[endpoint_id o]} /\
    t' = (slot o) {{ bundle := None; reserved := false }})).
Proof.
  intros I Hk Hq Ho Hf. destruct (inv_op y I t o Ho) as [[] _].
  pose proof (inv_pair y I i k t o Hk Ho) as []. destruct pair_finish0; [rewrite Hq; by left |].
  unfold finish_transfer in Hf. destruct (reserved (slot o)) eqn:R; cbn [negb] in Hf;
    [| simplify_eq; split; [done | by left]].
  destruct (committed (slot o)) eqn:C.
  { simplify_eq. split; [done |]. right. left. destruct (bundle (slot o)) eqn:B; [settle |].
    split_and!; try done; by destruct (session k). }
  destruct (bundle (slot o)) as [b |] eqn:B; cycle 1.
  { simplify_eq. split; [done |]. right. left. split_and!; try done; by destruct (session k). }
  pose proof (insert_cases (session k) b) as Hi. destruct (op_bundle0 b eq_refl) as (Hid & _).
  destruct (handle_insert_endpoint (session k) b) as [s1 | e] eqn:Hins; [| exfalso].
  - simplify_eq. split; [done |]. right. right. exists b. destruct Hi as (_ & Hi & Hr).
    split_and!; try done; destruct s1; cbn in *; congruence.
  - rewrite Hid in Hi. destruct Hi as [Hi | Hi]; [by apply Hi, pair_reserved0 |].
    assert (InSession i = InSlot t); [| done].
    eapply (inv_unique y I (endpoint_id o)); [by apply (at_task y i k) |].
    apply (at_slot y t o); [done |]. by exists b.
Qed.

Lemma finish_inv y i k t q o s' t' lost :
  inv y -> tasks y !! i = Some k -> queue k = FinishTransfer t :: q -> in_hand k = None ->
  operations y !! t = Some o ->
  finish_transfer (session k) (slot o) (endpoint_id o) = (s', t', lost) ->
  inv (put_task (put_operation y t (o {{ slot := t' }})) i (k {{ session := s'; queue := q }})).
Proof.
  intros I Hk Hq Hh Ho Hf.
  pose proof (finish_cases y i k t q o s' t' lost I Hk Hq Ho Hf) as (_ & Hcases).
  destruct (inv_op y I t o Ho) as [[] _].
  pose proof (inv_pair y I i k t o Hk Ho) as [P1 P2 P3 P4 P5 P6]. pose proof (inv_task y I i k Hk) as [].
  destruct (P5 ltac:(rewrite Hq; by left)) as [E1 E2].
  assert (Hkeep : reserved (slot o) = true ->
    reserved_transfers s' = reserved_transfers (session k) ∖ {[endpoint_id o]} ->
    forall u o2, u <> t -> operations y !! u = Some o2 -> source o2 = i -> reserved (slot o2) = true ->
      endpoint_id o2 ∈ reserved_transfers (session k) -> endpoint_id o2 ∈ reserved_transfers s').
  { intros R Hr u o2 Hu Ho2 Hs2 R2 Hin. rewrite Hr. apply elem_of_difference. split; [done |].
    intros He%elem_of_singleton. apply Hu. apply (inv_exclusive y I u o2 t o); congruence. }
  destruct Hcases as [(-> & -> & R) | [(R & B & Hs & Hr & ->) | (b & R & B & Hs & Hr & ->)]];
    (apply (inv_taken y i k _ t o _ (FinishTransfer t)); try done; destruct k as [s ? ?]; cbn in *; subst).
  - intros Hnew. op_cases o. rewrite elem_of_cons in P3, P4, P5, P6. split; cbn; settle.
  - by op_cases o.
  - by apply (unique_kept y (source o) (mkTask s (FinishTransfer t :: q) None) _ t o).
  - op_cases o. split; cbn; settle.
  - intros Hnew. op_cases o. rewrite elem_of_cons in P3, P4, P5, P6. split; cbn; settle.
  - op_cases o. intros j k2 Hj []; cbn in *. split; cbn; settle.
  - by apply Hkeep.
  - by rewrite Hs.
  - by apply (unique_kept y (source o) (mkTask s (FinishTransfer t :: q) None) _ t o).
  - op_cases o. split; cbn; settle.
  - intros Hnew. op_cases o. rewrite elem_of_cons in P3, P4, P5, P6. split; cbn; settle.
  - op_cases o. intros j k2 Hj []; cbn in *. split; cbn; settle.
  - by apply Hkeep.
  - by eapply inserted_ids.
  - by apply (unique_inserted y (source o) (mkTask s (FinishTransfer t :: q) None) _ t o _ b).
Qed.

Lemma request_inv y t src tgt e k :
  inv y -> operations y !! t = None -> tasks y !! src = Some k ->
  inv (put_operation y t (mkOperation src tgt e default_slot Reserving None)).
Proof.
  intros [T O P X U] Ht Hk. set (o := mkOperation _ _ _ _ _ _). set (y' := put_operation y t o).
  assert (mono : forall u, is_Some (operations y !! u) -> is_Some (operations y' !! u)).
  { intros u Hu. unfold y'. rewrite lookup_put_operation. by case_bool_decide. }
  assert (Hat : forall l e', at_place y' l e' -> at_place y l e').
  { intros [| | u] e'; [by destruct y | by destruct y |]. intros (o2 & b & Ho2 & Hb & He).
    unfold y' in Ho2. rewrite lookup_put_operation in Ho2. case_bool_decide; simplify_eq. by exists o2, b. }
  split.
  - intros i k2 Hi. assert (Hi' : tasks y !! i = Some k2) by (by destruct y).
    destruct (T i k2 Hi'). split; try done; eauto.
  - intros u o2 Hu. unfold y' in Hu. rewrite lookup_put_operation in Hu.
    assert (Hs : is_Some (tasks y !! source o2) -> is_Some (tasks y' !! source o2)) by (by destruct y).
    case_bool_decide; [| by split; [| apply Hs]; apply (O u o2)].
    injection Hu as <-. split; [split; done | apply Hs; by exists k].
  - intros i k2 u o2 Hi Hu. assert (Hi' : tasks y !! i = Some k2) by (by destruct y). destruct (T i k2 Hi').
    unfold y' in Hu. rewrite lookup_put_operation in Hu. case_bool_decide; [| by apply P].
    injection Hu as <-. subst u.
    assert (N : forall c, command_of c = t -> c ∉ queue k2).
    { intros c <- Hin. apply task_known0 in Hin as [? ?]. congruence. }
    split; try done; [| intros Hin; by apply N in Hin..].
    intros b Hb. apply task_hand0 in Hb as [? ?]. congruence.
  - intros u1 o1 u2 o2 H1 H2 R1 R2. unfold y' in H1, H2. rewrite lookup_put_operation in H1, H2.
    repeat case_bool_decide; simplify_eq. by eapply X.
  - intros e' l1 l2 H1 H2. by eapply U; apply Hat.
Qed.

(** The controller creates or removes an endpoint of a session. *)
Lemma inv_endpoints y i k m :
  inv y -> tasks y !! i = Some k -> (forall e ep, m !! e = Some ep -> ep_id ep = e) ->
  (forall e, is_Some (m !! e) -> task_has k e \/ ~ somewhere y e) ->
  inv (put_task y i (k {{ session := (session k) {{ endpoints := m }} }})).
Proof.
  intros [T O P X U] Hk Hids Hm. set (k' := k {{ session := _ }}). set (y' := put_task y i k').
  assert (look : forall j, tasks y' !! j = if bool_decide (j = i) then Some k' else tasks y !! j)
    by apply lookup_put_task.
  assert (same : operations y' = operations y) by (by destruct y).
  assert (Hat : forall l e, at_place y' l e -> at_place y l e \/ (l = InSession i /\ ~ somewhere y e)).
  { intros [j | j | u] e; cbn; rewrite ?look, ?same; try case_bool_decide; subst; eauto.
    - intros (? & [= <-] & He). destruct (Hm e); [by destruct k as [[] ? ?] | left; by exists k | by right].
    - intros (? & u & b & [= <-] & He). left. exists k, u, b. destruct k; done. }
  split; rewrite ?same.
  - intros j k2 Hj. rewrite look in Hj. case_bool_decide.
    + injection Hj as <-. destruct (T i k Hk). destruct k as [[] ? ?]; cbn in *. by split; rewrite ?same.
    + destruct (T j k2 Hj). by split; rewrite ?same.
  - intros u o Hu. destruct (O u o Hu). split; [done |]. rewrite look. by case_bool_decide.
  - intros j k2 u o Hj Hu. rewrite look in Hj. case_bool_decide; [| by apply P].
    injection Hj as <-. subst. destruct (P i k u o Hk Hu). destruct k as [[] ? ?]; cbn in *. by split.
  - done.
  - intros e l1 l2 H1 H2. destruct (Hat _ _ H1) as [|[? N1]], (Hat _ _ H2) as [|[? N2]]; try congruence.
    + by eapply U.
    + destruct N2. by eexists.
    + destruct N1. by eexists.
Qed.

Lemma step_inv y ev y' : inv y -> step y ev y' -> inv y'.
Proof.
  intros I [].
  - by eapply request_inv.
  - by apply busy_inv.
  - by apply reserved_inv.
  - by apply prepared_inv.
  - by apply prepare_failed_inv.
  - by apply commit_decided_inv.
  - match goal with H : phase _ = _ |- _ => apply close_inv; try done; by rewrite H; destruct r end.
  - match goal with H : _ \/ _ |- _ => apply close_inv; try done; by destruct H as [-> | ->] end.
  - by eapply prepare_refused_inv.
  - by eapply prepare_extracts_inv.
  - by eapply extracted_inv.
  - by eapply commit_inv.
  - by eapply finish_inv.
  - apply inv_endpoints; try done.
    + intros e ep' [[<- <-] | [_ ?]]%lookup_insert_Some; [done | by eapply (inv_task y I)].
    + intros e [<- | [_ ?]]%lookup_insert_is_Some; [by right | by left].
  - apply inv_endpoints; try done.
    + intros e' ep' [_ ?]%lookup_delete_Some. by eapply (inv_task y I).
    + intros e' [_ ?]%lookup_delete_is_Some. by left.
Qed.

Lemma initial_inv y : initial y -> inv y.
Proof.
  intros (Ho & Ht & Hu). split; rewrite ?Ho.
  - intros i k Hk. destruct (Ht i k Hk) as (Hq & Hh & _ & Hid).
    split; rewrite ?Hq, ?Hh; try done; [constructor | by intros c ?%elem_of_nil].
  - done.
  - done.
  - done.
  - assert (only : forall l e, at_place y l e -> exists i, l = InSession i).
    { intros [i | i | t] e; cbn; [by eauto | |].
      - intros (k & t & b & Hk & Hh & _). destruct (Ht i k Hk) as (_ & ? & _). congruence.
      - rewrite Ho. by intros (? & ? & ? & _). }
    intros e l1 l2 H1 H2. destruct (only _ _ H1) as [i ->], (only _ _ H2) as [j ->].
    f_equal. by eapply Hu.
Qed.

Lemma reachable_inv y : reachable y -> inv y.
Proof. induction 1; [by apply initial_inv | by eapply step_inv]. Qed.

(** ** Where an endpoint is *)

(** The session that owns the endpoint of a committed transfer. *)
Definition destination (y : System) (t : TransferId) : option SessionId :=
  match operations y !! t with
  | Some o => if committed (slot o) then Some (target o) else None
  | None => None
  end.

Definition dest (o : Operation) : option SessionId := if committed (slot o) then Some (target o) else None.

Lemma destination_update y i k t o u :
  destination (update y i k t o) u = if bool_decide (u = t) then dest o else destination y u.
Proof. unfold destination. rewrite operations_update. by case_bool_decide. Qed.

(** The session an endpoint at a place belongs to: one in transit to the session
    it came from. *)
Definition home (y : System) (l : Place) : option SessionId :=
  match l with InSession i | InHand i => Some i | InSlot t => source <$> operations y !! t end.

(** What a step does to the places: nothing is lost; it may move the endpoint
    of one transfer out of its source session or back; commit a transfer; or
    remove an endpoint. *)
Inductive effect (y y' : System) : event -> Prop :=
| Quiet :
    (forall l e, at_place y l e -> at_place y' l e) ->
    (forall u, destination y' u = destination y u) -> effect y y' Internal
| Moves t o l0 l :
    operations y !! t = Some o ->
    at_place y l0 (endpoint_id o) -> home y l0 = Some (source o) ->
    at_place y' l (endpoint_id o) -> home y' l = Some (source o) ->
    (forall l e, e <> endpoint_id o -> at_place y l e -> at_place y' l e) ->
    (forall u, destination y' u = destination y u) -> effect y y' Internal
| Committed t o :
    operations y !! t = Some o ->
    at_place y (InSlot t) (endpoint_id o) -> at_place y' (InSession (target o)) (endpoint_id o) ->
    (forall l e, e <> endpoint_id o -> at_place y l e -> at_place y' l e) ->
    destination y t = None -> destination y' t = Some (target o) ->
    (forall u, u <> t -> destination y' u = destination y u) -> effect y y' (Commits t)
| Removed e0 :
    (forall l e, e <> e0 -> at_place y l e -> at_place y' l e) ->
    (forall u, destination y' u = destination y u) -> effect y y' (Removes e0).

Lemma quiet_update y i k k' t o o' :
  tasks y !! i = Some k -> operations y !! t = Some o ->
  endpoints (session k') = endpoints (session k) -> in_hand k' = in_hand k ->
  bundle (slot o') = bundle (slot o) -> dest o' = dest o ->
  effect y (update y i k' t o') Internal.
Proof.
  intros Hk Ho H1 H2 H3 H4. apply Quiet.
  - intros l e A. apply (at_moved y i k k' t o o' (e + 1)); try done; [| lia].
    intros e' _. unfold task_has, hand_has, slot_has. by rewrite H1, H2, H3.
  - intros u. rewrite destination_update. case_bool_decide; [subst | done].
    unfold destination. by rewrite Ho.
Qed.

Lemma quiet_operation y t o o' :
  inv y -> operations y !! t = Some o -> bundle (slot o') = bundle (slot o) -> dest o' = dest o ->
  effect y (put_operation y t o') Internal.
Proof.
  intros I Ho Hb Hd. destruct (inv_op y I t o Ho) as [_ [k Hk]].
  rewrite <- (same_operation y _ k t o' Hk). by apply (quiet_update y _ k k t o o').
Qed.

Lemma destination_some y t o : operations y !! t = Some o -> destination y t = dest o.
Proof. unfold destination. by intros ->. Qed.

(** The endpoint of transfer [t] goes from [l0] to [l], within its home. *)
Lemma moves_update y i k k' t o o' l0 l :
  tasks y !! i = Some k -> operations y !! t = Some o -> moves_only (endpoint_id o) k k' o o' ->
  dest o' = dest o -> source o' = source o ->
  at_place y l0 (endpoint_id o) -> home y l0 = Some (source o) ->
  at_place (update y i k' t o') l (endpoint_id o) ->
  match l with InSession j | InHand j => j = source o | InSlot u => u = t end ->
  effect y (update y i k' t o') Internal.
Proof.
  intros Hk Ho M Hd Hs Hl0 Hh0 Hl Hh. eapply (Moves _ _ t o l0 l); try done.
  - destruct l as [j | j | u]; cbn [home]; subst; try done.
    by rewrite operations_update, bool_decide_true, <- Hs by done.
  - intros l' e He A. by eapply at_moved.
  - intros u. rewrite destination_update. case_bool_decide; [subst | done]. by rewrite (destination_some y t o Ho).
Qed.

Lemma push_effect y t o o' i k c :
  tasks y !! i = Some k -> operations y !! t = Some o -> bundle (slot o') = bundle (slot o) ->
  dest o' = dest o -> effect y (put_task (put_operation y t o') i (push k c)) Internal.
Proof. intros Hk Ho Hb Hd. apply (quiet_update y i k (push k c) t o o'); by destruct k. Qed.

Lemma extracts_effect y i k t q o s' t' b :
  inv y -> tasks y !! i = Some k -> queue k = PrepareTransfer t :: q -> in_hand k = None ->
  operations y !! t = Some o ->
  prepare_transfer (session k) (slot o) (endpoint_id o) = (s', t', Ok b) ->
  effect y (put_task (put_operation y t (o {{ slot := t' }})) i
              (k {{ session := s'; in_hand := Some (t, b) }})) Internal.
Proof.
  intros I Hk Hq Hh Ho Hprep. destruct (inv_op y I t o Ho) as [[] _].
  destruct (inv_pair y I i k t o Hk Ho) as [_ _ P3 _ _ _]. pose proof (inv_task y I i k Hk) as [].
  destruct (P3 ltac:(rewrite Hq; by left)) as (E1 & E2 & _).
  apply prepare_extracts in Hprep as (_ & _ & He & Hs & _ & ->).
  assert (Hid : ep_id (endpoint b) = endpoint_id o) by (by eapply task_ids0).
  apply (moves_update y i k _ t o _ (InSession i) (InHand i)); try done.
  - eapply moves_extract; try done; by destruct k, o as [? ? ? [] ? ?].
  - apply (at_task y i k); [done |]. by eexists.
  - cbn. by rewrite E1.
  - apply at_update. rewrite bool_decide_true by done. eapply hand_some; [| exact Hid]. by destruct k.
Qed.

Lemma extracted_effect y i k t b q o :
  inv y -> tasks y !! i = Some k -> in_hand k = Some (t, b) -> operations y !! t = Some o ->
  effect y (put_task
    (put_operation y t (o {{ slot := (slot o) {{ bundle := Some b }}; prepared := Some (Ok tt) }}))
    i (k {{ queue := q; in_hand := None }})) Internal.
Proof.
  intros I Hk Hh Ho. destruct (inv_op y I t o Ho) as [[] _].
  destruct (inv_pair y I i k t o Hk Ho) as [P1 _ _ _ _ _].
  destruct (P1 b Hh) as (E1 & E2 & _ & E4 & E5 & _).
  apply (moves_update y i k _ t o _ (InHand i) (InSlot t)); try done.
  - rewrite E2. eapply moves_extracted; try done; by destruct k.
  - apply (at_hand y i k); [done |]. by eapply hand_some.
  - cbn. by rewrite E1.
  - apply at_update. rewrite bool_decide_true by done. by eapply slot_some.
Qed.

(** An endpoint inserted from the slot. *)
Lemma inserted_at y i k k' t o o' b :
  inv y -> tasks y !! i = Some k -> operations y !! t = Some o -> bundle (slot o) = Some b ->
  endpoints (session k') = <[ep_id (endpoint b) := endpoint b]> (endpoints (session k)) ->
  in_hand k' = in_hand k -> bundle (slot o') = None ->
  moves_only (endpoint_id o) k k' o o' /\ at_place y (InSlot t) (endpoint_id o) /\
  at_place (update y i k' t o') (InSession i) (endpoint_id o).
Proof.
  intros I Hk Ho Hb Hs Hh Hb'. destruct (inv_op y I t o Ho) as [[] _].
  destruct (op_bundle0 b Hb) as (Hid & _). split_and!.
  - rewrite <- Hid. by apply moves_inserted.
  - apply (at_slot y t o); [done |]. by eapply slot_some.
  - apply at_update. rewrite bool_decide_true by done. unfold task_has.
    rewrite Hs, Hid, lookup_insert_eq. by eexists.
Qed.

Lemma at_put_endpoints y i k m l e :
  tasks y !! i = Some k ->
  at_place (put_task y i (k {{ session := (session k) {{ endpoints := m }} }})) l e <->
  match l with
  | InSession j => if bool_decide (j = i) then is_Some (m !! e) else at_place y l e
  | _ => at_place y l e
  end.
Proof.
  intros Hk. destruct l as [j | j | u]; cbn [at_place]; rewrite ?lookup_put_task.
  - case_bool_decide; [| done]. split; [intros (? & [= <-] & G) | intros G; eexists; split; [done |]];
      by destruct k as [[] ? ?].
  - case_bool_decide; [| done]. subst. rewrite Hk.
    split; intros (? & t & b & [= <-] & G); eexists _, t, b; (split; [done |]); by destruct k as [[] ? ?].
  - by destruct y.
Qed.

Lemma step_effect y ev y' : inv y -> step y ev y' -> effect y y' ev.
Proof.
  intros I Hstep. pose proof (inv_op y I) as O. pose proof (inv_pair y I) as P. destruct Hstep.
  - assert (look := lookup_put_operation y t (mkOperation src tgt e default_slot Reserving None)).
    apply Quiet.
    + intros [j | j | u] e'; [by destruct y | by destruct y |]. cbn [at_place]. rewrite look.
      case_bool_decide; [| done]. intros (? & ? & ? & _). congruence.
    + intros u. unfold destination. rewrite look. case_bool_decide; [| done]. subst. by rewrite H.
  - by eapply quiet_operation.
  - by eapply push_effect.
  - by eapply push_effect.
  - by eapply quiet_operation.
  - eapply quiet_operation; try done; unfold dest; destruct (committed (slot o)) eqn:C; try done;
      destruct o as [? ? ? [] ? ?]; cbn in *; by rewrite C.
  - by eapply push_effect.
  - by eapply push_effect.
  - apply prepare_refused in H3 as [-> ->]; [by apply (quiet_update y i k _ t o) |].
    destruct (P i k t o) as [_ R Q _ _ _]; [done.. |]. apply R, Q. rewrite H0. by left.
  - by eapply extracts_effect.
  - by eapply extracted_effect.
  - destruct (P i k t o) as [_ _ _ C _ _]; [done.. |]. destruct C as (E & _); [rewrite H0; by left |].
    apply commit_cases in H3 as [(-> & -> & err & ->) | (b & _ & Hb & Hs & _ & -> & ->)].
    + by apply (quiet_update y i k _ t o).
    + match goal with |- effect y (put_task (put_operation y t ?o') i ?k') _ =>
        destruct (inserted_at y i k k' t o o' b) as (M & A & A'); try done end.
      destruct (O t o H2) as [[] _]. destruct (op_bundle0 b Hb) as (_ & _ & C). subst i.
      apply (Committed _ _ t o); try done.
      * intros l e He At. by eapply at_moved.
      * by rewrite (destination_some y t o H2); unfold dest; rewrite C.
      * change (put_task (put_operation y t ?o') (target o) ?k') with (update y (target o) k' t o').
        by rewrite destination_update, bool_decide_true by done.
      * intros u Hu. change (put_task (put_operation y t ?o') (target o) ?k') with (update y (target o) k' t o').
        by rewrite destination_update, bool_decide_false by done.
  - destruct (P i k t o) as [_ _ _ _ F _]; [done.. |]. destruct F as (E & _); [rewrite H0; by left |].
    destruct (O t o H2) as [[] _].
    pose proof (finish_cases y i k t q o s' t' lost I H H0 H2 H3) as (_ & Hc).
    destruct Hc as [(-> & -> & _) | [(_ & B & Hs & _ & ->) | (b & _ & B & Hs & _ & ->)]].
    + by apply (quiet_update y i k _ t o).
    + apply (quiet_update y i k _ t o); try done; by destruct k, o as [? ? ? [] ? ?].
    + match goal with |- effect y (put_task (put_operation y t ?o') i ?k') _ =>
        destruct (inserted_at y i k k' t o o' b) as (M & A & A'); try done end.
      apply (moves_update y i k _ t o _ (InSlot t) (InSession i)); try done.
      cbn. by rewrite H2.
  - apply Quiet; [| by destruct y]. intros l e A. apply at_put_endpoints; [done |].
    destruct l; try done. case_bool_decide; [subst | done]. apply lookup_insert_is_Some.
    destruct (decide (ep_id ep = e)); [by left | right]. split; [done |]. by apply (at_task y i k).
  - apply Removed; [| by destruct y]. intros l e' Hne A. apply at_put_endpoints; [done |].
    destruct l; try done. case_bool_decide; [subst | done]. rewrite lookup_delete_ne by done.
    by apply (at_task y i k).
Qed.

(** ** What a transfer guarantees *)

(** C6: whatever the interleaving of coordinators, session tasks, deadlines
    and controllers, an endpoint is never in two places, and no step but its
    own removal makes it disappear: in particular the rollback of a failed
    transfer always finds its way back into the source session. *)
Theorem transfer_conserves y ev y' e :
  reachable y -> step y ev y' ->
  (forall l1 l2, at_place y' l1 e -> at_place y' l2 e -> l1 = l2) /\
  (somewhere y e -> somewhere y' e \/ ev = Removes e).
Proof.
  intros R%reachable_inv S. split; [apply (inv_unique y'); by eapply step_inv |].
  intros [l Hl]. destruct (step_effect y ev y' R S) as [K _ | t o l0 l' _ _ _ Hl' _ K _ | t o _ _ Hl' K _ _ _ | e0 K _].
  - left. exists l. auto.
  - left. destruct (decide (e = endpoint_id o)) as [-> |]; [by exists l' | exists l; auto].
  - left. destruct (decide (e = endpoint_id o)) as [-> |]; [by eexists | exists l; auto].
  - destruct (decide (e = e0)) as [-> |]; [by right | left; exists l; auto].
Qed.

(** *** Histories *)

(** A step changes no transfer's sessions and endpoint, and forgets none. *)
Definition names (o : Operation) : SessionId * SessionId * EndpointId := (source o, target o, endpoint_id o).
Lemma step_names y ev y' t o :
  inv y -> step y ev y' -> operations y !! t = Some o ->
  exists o', operations y' !! t = Some o' /\ names o' = names o.
Proof.
  intros I Hstep Ho.
  assert (K : forall u o1 o2, operations y !! u = Some o1 -> names o2 = names o1 ->
    exists o', <[u := o2]> (operations y) !! t = Some o' /\ names o' = names o).
  { intros u o1 o2 H1 H2. destruct (decide (t = u)) as [-> | Hne].
    - exists o2. split; [apply lookup_insert_eq | congruence].
    - exists o. by rewrite lookup_insert_ne. }
  destruct Hstep; destruct y as [ts os]; cbn in *; try (by exists o); try (by eapply K).
  - destruct (decide (t = t0)) as [-> |]; [congruence |]. exists o. by rewrite lookup_insert_ne.
  - eapply K; [done |]. by destruct (committed (slot o0)).
Qed.

(** The transfers of [e] that took effect, with the sessions they name. *)
Definition Move : Type := TransferId * SessionId * SessionId.
Definition commits (e : EndpointId) (y : System) (ev : event) : list Move :=
  match ev with
  | Commits t =>
      match operations y !! t with
      | Some o => if bool_decide (endpoint_id o = e) then [(t, source o, target o)] else []
      | None => []
      end
  | _ => []
  end.

(** Any sequence of steps in which [e] is not removed, and what took effect. *)
Inductive run (e : EndpointId) (y0 : System) : list Move -> System -> Prop :=
| run_start : run e y0 [] y0
| run_step ms y ev y' :
    run e y0 ms y -> step y ev y' -> ev <> Removes e -> run e y0 (ms ++ commits e y ev) y'.

(** Where the moves lead, each starting where the one before it ended. *)
Fixpoint leads (src : SessionId) (ms : list Move) (last : SessionId) : Prop :=
  match ms with [] => last = src | (_, s, d) :: ms => s = src /\ leads d ms last end.

Lemma leads_snoc src ms cur t d : leads src ms cur -> leads src (ms ++ [(t, cur, d)]) d.
Proof. revert src. induction ms as [| [[u s] d'] ms IH]; intros src; cbn; [by intros -> | intros [-> ?]; auto]. Qed.

(** Every transfer of [e] has been refused, has not begun, or has returned and
    its source session has taken the cleanup command. *)
Definition settled (y : System) (e : EndpointId) : Prop :=
  forall t o, operations y !! t = Some o -> endpoint_id o = e ->
    match phase o with
    | Reserving | Refused => True
    | Finished _ => forall k, tasks y !! source o = Some k -> FinishTransfer t ∉ queue k
    | WaitPrepare | WaitCommit | Closing _ => False
    end.

Lemma run_reachable e y0 ms y : reachable y0 -> run e y0 ms y -> reachable y.
Proof. intros R. induction 1; [done | by eapply reach_step]. Qed.

(** [e] belongs to [cur], where the moves led. *)
Definition belongs (y : System) (e : EndpointId) (cur : SessionId) : Prop :=
  exists l, at_place y l e /\ home y l = Some cur.

Lemma home_step y ev y' l cur :
  inv y -> step y ev y' -> home y l = Some cur -> home y' l = Some cur.
Proof.
  intros I S. destruct l as [i | i | t]; cbn; try done. intros (o & Ho & E)%fmap_Some.
  destruct (step_names y ev y' t o I S Ho) as (o' & -> & En). cbn. unfold names in En. congruence.
Qed.

Lemma run_belongs e y0 ms y src :
  reachable y0 -> at_place y0 (InSession src) e -> run e y0 ms y ->
  exists cur, leads src ms cur /\ belongs y e cur.
Proof.
  intros R Hat. induction 1 as [| ms y ev y' Hrun (cur & Hl & l & Al & Hl') S Hev].
  { exists src. split; [done |]. by exists (InSession src). }
  assert (I : inv y) by (eapply reachable_inv, run_reachable; eauto).
  destruct (step_effect y ev y' I S)
    as [K _ | t o l0 l1 Ho A0 H0 A1 H1 K _ | t o Ho A0 A1 K _ _ _ | e0 K _]; cbn [commits].
  - exists cur. rewrite app_nil_r. split; [done |]. exists l. split; [auto | by eapply home_step].
  - exists cur. rewrite app_nil_r. split; [done |]. destruct (decide (e = endpoint_id o)) as [-> | Hne].
    + assert (l0 = l) as -> by (by eapply (inv_unique y I)). exists l1. split; [done | congruence].
    + exists l. split; [auto | by eapply home_step].
  - rewrite Ho. destruct (decide (endpoint_id o = e)) as [<- | Hne].
    + rewrite bool_decide_true by done. assert (InSlot t = l) as <- by (by eapply (inv_unique y I)).
      cbn in Hl'. rewrite Ho in Hl'. injection Hl' as <-. exists (target o). split; [by apply leads_snoc |].
      by exists (InSession (target o)).
    + rewrite bool_decide_false, app_nil_r by done. exists cur. split; [done |]. exists l. split; [auto | by eapply home_step].
  - exists cur. rewrite app_nil_r. split; [done |]. exists l. split; [apply K; [congruence | done] | by eapply home_step].
Qed.

(** What took effect is what is committed. *)
Lemma step_destination y ev y' u :
  inv y -> step y ev y' ->
  destination y' u = destination y u \/
  ev = Commits u /\ destination y u = None /\ is_Some (destination y' u).
Proof.
  intros I S. destruct (step_effect y ev y' I S) as [_ D | t o l0 l1 _ _ _ _ _ _ D | t o Ho _ _ _ D0 D1 D | e0 _ D]; auto.
  destruct (decide (u = t)) as [-> | Hne]; [right | left; auto]. by rewrite D1.
Qed.

Lemma commit_effect y t y' :
  inv y -> step y (Commits t) y' ->
  exists o, operations y !! t = Some o /\ destination y t = None /\ destination y' t = Some (target o).
Proof. intros I S. pose proof (step_effect y _ y' I S) as E. inversion E as [| | t1 o Ho _ _ _ D0 D1 _ |]. by exists o. Qed.

Record ledger (e : EndpointId) (y0 : System) (ms : list Move) (y : System) : Prop := {
  ledger_nodup : NoDup ms.*1.*1;
  ledger_sound : forall t s d, (t, s, d) ∈ ms ->
    exists o, operations y !! t = Some o /\ committed (slot o) = true /\ names o = (s, d, e);
  ledger_complete : forall t o, operations y !! t = Some o -> endpoint_id o = e -> operations y0 !! t = None ->
    committed (slot o) = true -> (t, source o, target o) ∈ ms;
}.

Lemma run_ledger e y0 ms y : reachable y0 -> run e y0 ms y -> ledger e y0 ms y.
Proof.
  intros R. induction 1 as [| ms y ev y' Hrun [L1 L2 L3] S Hev].
  { split; [constructor | by intros t s d ?%elem_of_nil | by intros t o -> _ ?]. }
  assert (I : inv y) by (eapply reachable_inv, run_reachable; eauto).
  assert (keeps : forall t s d, (t, s, d) ∈ ms ->
    exists o, operations y' !! t = Some o /\ committed (slot o) = true /\ names o = (s, d, e)).
  { intros t s d Hin. destruct (L2 t s d Hin) as (o & Ho & C & N).
    destruct (step_names y ev y' t o I S Ho) as (o' & Ho' & N'). exists o'. split_and!; [done | | congruence].
    destruct (step_destination y ev y' t I S) as [D | (_ & D & _)]; unfold destination in D; rewrite Ho, C in D;
      [| done]. rewrite Ho' in D. by destruct (committed (slot o')). }
  assert (Hnew : forall t o, ev = Commits t -> operations y !! t = Some o -> destination y t = None /\
    exists o', operations y' !! t = Some o' /\ committed (slot o') = true /\ names o' = names o).
  { intros t o -> Ho. destruct (step_names y _ y' t o I S Ho) as (o' & Ho' & N').
    destruct (commit_effect y t y' I S) as (o1 & Ho1 & D0 & D1). split; [done |]. exists o'. split_and!; try done.
    unfold destination in D1. rewrite Ho' in D1. by destruct (committed (slot o')). }
  split.
  - rewrite !fmap_app. apply NoDup_app. split_and!; [done | |].
    + intros t Hin Ht. destruct ev as [| u | e0]; cbn [commits] in Ht; try (by apply elem_of_nil in Ht).
      destruct (operations y !! u) as [o |] eqn:Ho; [| by apply elem_of_nil in Ht].
      case_bool_decide; [| by apply elem_of_nil in Ht]. cbn in Ht. apply list_elem_of_singleton in Ht as ->.
      apply list_elem_of_fmap in Hin as ([t' s] & -> & Hin). apply list_elem_of_fmap in Hin as ([[t2 s2] d2] & [= -> ->] & Hin).
      destruct (L2 _ _ _ Hin) as (o1 & Ho1 & C1 & _). destruct (Hnew t2 o eq_refl Ho) as [D _].
      unfold destination in D. by rewrite Ho1, C1 in D.
    + destruct ev as [| u | e0]; cbn [commits]; try constructor. destruct (operations y !! u); [| constructor].
      case_bool_decide; [apply NoDup_singleton | constructor].
  - intros t s d [Hin | Hin]%elem_of_app; [by apply keeps |].
    destruct ev as [| u | e0]; cbn [commits] in Hin; try (by apply elem_of_nil in Hin).
    destruct (operations y !! u) as [o |] eqn:Ho; [| by apply elem_of_nil in Hin].
    case_bool_decide as He; [| by apply elem_of_nil in Hin]. apply list_elem_of_singleton in Hin as [= -> -> ->].
    destruct (Hnew u o eq_refl Ho) as (_ & o' & E1 & E2 & E3). exists o'. split_and!; try done. unfold names in *. congruence.
  - intros t o' Ho' He Hn C. apply elem_of_app.
    destruct (step_destination y ev y' t I S) as [D | (-> & D & _)].
    + left. unfold destination in D. rewrite Ho', C in D. destruct (operations y !! t) as [o |] eqn:Ho; [| done].
      destruct (committed (slot o)) eqn:Co; [| done]. destruct (step_names y ev y' t o I S Ho) as (o2 & Ho2 & N).
      assert (o2 = o') as -> by congruence. injection N as N1 N2 N3. rewrite N1, N2. apply L3; congruence.
    + right. destruct (commit_effect y t y' I S) as (o1 & Ho1 & _). cbn [commits]. rewrite Ho1.
      destruct (step_names y _ y' t o1 I S Ho1) as (o2 & Ho2 & N). assert (o2 = o') as -> by congruence.
      injection N as N1 N2 N3. rewrite bool_decide_true by congruence. apply list_elem_of_singleton. congruence.
Qed.

(** A settled endpoint is in a session. *)
Lemma settled_home y e cur :
  inv y -> settled y e -> belongs y e cur -> forall l, at_place y l e <-> l = InSession cur.
Proof.
  intros I Hs (l0 & A0 & H0).
  assert (free : forall t o, operations y !! t = Some o -> endpoint_id o = e -> reserved (slot o) = false).
  { intros t o Ho He. specialize (Hs t o Ho He). destruct (inv_op y I t o Ho) as [[] [k Hk]].
    destruct (inv_pair y I _ k t o Hk Ho) as [_ _ _ _ _ P6].
    destruct (reserved (slot o)) eqn:E; [exfalso | done].
    destruct (phase o) eqn:Eph; cbn in *; try done; [by destruct (op_unsent0 eq_refl) | by destruct (op_unsent0 eq_refl) |].
    apply (Hs k Hk). auto. }
  assert (l0 = InSession cur) as ->.
  { destruct l0 as [i | i | t]; [by injection H0 as -> | exfalso | exfalso].
    - destruct A0 as (k & u & b & Hk & Hh & Hid). pose proof Hh as Hknown.
      apply (inv_task y I i k Hk) in Hknown as [o Ho]. destruct (inv_pair y I i k u o Hk Ho) as [P1 _ _ _ _ _].
      destruct (P1 b Hh) as (_ & E2 & E3 & _). rewrite (free u o Ho) in E3; congruence.
    - destruct A0 as (o & b & Ho & Hb & Hid). destruct (inv_op y I t o Ho) as [[B _ _ _ _ _ _] _].
      destruct (B b Hb) as (E2 & E3 & _). rewrite (free t o Ho) in E3; congruence. }
  intros l. split; [intros A; by eapply (inv_unique y I) | by intros ->].
Qed.

(** C5: transfers are atomic.  Take any history of the system: any number of
    transfers of an endpoint, one after the other or at the same time, refused,
    failed, timed out, aborted or successful, interleaved with the rest of the
    system in any way, during which the endpoint is not removed.  The transfers
    that took effect form one chain of moves from the session it started in, each
    of a different transfer and from the session the one before it left the
    endpoint in; a transfer that returned reported success exactly if it is one
    of these moves; and whenever every transfer of the endpoint is settled, it is
    in the session the chain leads to and nowhere else: back in (or never out of)
    its session after a failure, in the target after a success. *)
Theorem transfer_atomic y0 y e src ms :
  reachable y0 -> at_place y0 (InSession src) e -> run e y0 ms y ->
  NoDup ms.*1.*1 /\
  (forall t o r, operations y0 !! t = None -> operations y !! t = Some o -> endpoint_id o = e ->
     phase o = Finished (Some r) -> r = Ok tt <-> (t, source o, target o) ∈ ms) /\
  exists last, leads src ms last /\ (settled y e -> forall l, at_place y l e <-> l = InSession last).
Proof.
  intros R Hat Hrun. assert (I : inv y) by (eapply reachable_inv, run_reachable; eauto).
  destruct (run_ledger e y0 ms y R Hrun) as [L1 L2 L3].
  destruct (run_belongs e y0 ms y src R Hat Hrun) as (last & Hl & B).
  split; [done |]. split; [| exists last; split; [done |]; intros Hs; by apply settled_home].
  intros t o r Hn Ho He Hph. destruct (inv_op y I t o Ho) as [[] _]. rewrite Hph in *; cbn in *. split.
  - intros ->. by apply L3; auto.
  - intros Hin. destruct (L2 _ _ _ Hin) as (o' & Ho' & C & _). assert (o' = o) as -> by congruence.
    destruct r as [[] | err]; [done |]. rewrite op_failed0 in C; done.
Qed.

(** Everything the session keeps for the endpoint. *)
Record Belongings := mkBelongings {
  of_endpoint : option Endpoint; of_dtmf : option EndpointDtmf; of_sensitive : bool;
  of_vad : option VadMonitor; of_fax : option FaxDetector; of_decoder : option SourceAudio;
  of_file_rtp : option FileRtpState; of_url : option string; of_timeout : bool;
}.
Definition belongings (s : SessionState) (i : EndpointId) : Belongings :=
  mkBelongings (endpoints s !! i) (dtmf_state s !! i) (bool_decide (i ∈ sensitive_dtmf_endpoints s))
    (vad_monitors s !! i) (fax_detectors s !! i) (analysis_decoders s !! i) (file_rtp_states s !! i)
    (url_sources s !! i) (bool_decide (i ∈ media_timeout_emitted s)).
Definition nothing : Belongings := mkBelongings None None false None None None None None false.

Lemma lookup_insert_some {V} i (v : option V) m : m !! i = None -> insert_some i v m !! i = v.
Proof. destruct v; cbn; [intros _; apply lookup_insert_eq | done]. Qed.
Lemma lookup_insert_some_ne {V} i j (v : option V) m : i <> j -> insert_some i v m !! j = m !! j.
Proof. destruct v; cbn; [apply lookup_insert_ne | done]. Qed.
Lemma elem_insert_if i j b m : bool_decide (j ∈ insert_if i b m) = (b && bool_decide (j = i)) || bool_decide (j ∈ m).
Proof. destruct b; cbn; [| done]. repeat case_bool_decide; set_solver. Qed.

Lemma elem_remove i j (m : gset EndpointId) :
  bool_decide (j ∈ m ∖ {[i]}) = negb (bool_decide (j = i)) && bool_decide (j ∈ m).
Proof. repeat case_bool_decide; set_solver. Qed.

Lemma extract_belongings s i s1 b :
  handle_extract_endpoint s i = (s1, Ok b) ->
  belongings s1 i = nothing /\ (forall j, j <> i -> belongings s1 j = belongings s j) /\
  belongings s i = mkBelongings (Some (endpoint b)) (b_dtmf_state b) (b_sensitive_dtmf b) (b_vad_monitor b)
    (b_fax_detector b) (b_analysis_decoder b) (b_file_rtp_state b) (b_url_source b)
    (b_media_timeout_was_emitted b).
Proof.
  unfold handle_extract_endpoint. intros He. destruct (endpoints s !! i) as [ep |] eqn:E; [| done].
  destruct (negb _); [done |]. injection He as <- <-. unfold belongings, nothing; cbn.
  split_and!; [| intros j Hj |]; rewrite ?elem_remove, ?E; try done.
  - by rewrite !lookup_delete_eq, bool_decide_true.
  - by rewrite !lookup_delete_ne, bool_decide_false.
Qed.

Lemma insert_belongings s b s' :
  handle_insert_endpoint s b = Ok s' -> belongings s (ep_id (endpoint b)) = nothing ->
  belongings s' (ep_id (endpoint b)) =
    mkBelongings (Some (endpoint b))
      (Some (default (mkDtmf Dtmf.new_detector (ep_telephone_event_pt (endpoint b))) (b_dtmf_state b)))
      (b_sensitive_dtmf b) (b_vad_monitor b) (b_fax_detector b) (b_analysis_decoder b) (b_file_rtp_state b)
      (b_url_source b) (b_media_timeout_was_emitted b) /\
  forall j, j <> ep_id (endpoint b) -> belongings s' j = belongings s j.
Proof.
  unfold handle_insert_endpoint. destruct (_ && _); [done |]. case_bool_decide; [done |].
  intros [= <-]. unfold belongings at 1, nothing. intros [= N1 N2 N3 N4 N5 N6 N7 N8 N9].
  set (i := ep_id (endpoint b)) in *. split; [| intros j Hj]; unfold belongings; cbn; rewrite ?elem_insert_if.
  - rewrite N3, N9, (bool_decide_true (i = i)), !andb_true_r, !orb_false_r by done.
    f_equal; try (by apply lookup_insert_some); [by apply lookup_insert_eq |].
    rewrite lookup_insert_some by done. destruct (b_dtmf_state b); apply lookup_insert_eq.
  - rewrite (bool_decide_false (j = i)), !andb_false_r by done.
    f_equal; try (by apply lookup_insert_some_ne); [by apply lookup_insert_ne |].
    destruct (bool_decide (is_Some _)); [by apply lookup_insert_some_ne |].
    rewrite lookup_insert_ne by done. by apply lookup_insert_some_ne.
Qed.

(** An endpoint takes everything with it.  What a session held for the
    endpoint it extracts (its DTMF detector, sensitivity, monitors, decoder,
    file timeline, source and reported media timeout) is what the session it is
    inserted in holds for it, with a new DTMF detector if it had none; nothing
    stays behind, and neither session's other endpoints are affected. *)
Theorem transfer_keeps_belongings s i s1 b s2 s3 :
  handle_extract_endpoint s i = (s1, Ok b) -> ep_id (endpoint b) = i ->
  belongings s2 i = nothing -> handle_insert_endpoint s2 b = Ok s3 ->
  belongings s1 i = nothing /\
  belongings s3 i = (belongings s i)
    {{ of_dtmf := Some (default (mkDtmf Dtmf.new_detector (ep_telephone_event_pt (endpoint b)))
                          (of_dtmf (belongings s i))) }} /\
  forall j, j <> i -> belongings s1 j = belongings s j /\ belongings s3 j = belongings s2 j.
Proof.
  intros He <- Hn Hi. destruct (extract_belongings s _ s1 b He) as (E1 & E2 & E3).
  destruct (insert_belongings s2 b s3 Hi Hn) as (I1 & I2). rewrite E3, I1. cbn. split_and!; auto.
Qed.

End transfer.

(** ** Examples *)
Module Examples.

Definition Session : Type := @SessionState unit unit unit unit unit.
Definition STask : Type := @Task unit unit unit unit unit.
Definition SSystem : Type := @System unit unit unit unit unit.
Definition SBundle : Type := @EndpointTransferBundle unit unit unit unit.
Definition SOperation : Type := @Operation unit unit unit unit.

Definition phone : Endpoint := mkEndpoint 7 Rtp Routing.SendRecv (Some 101).

Definition empty_session (i : SessionId) : Session :=
  {| session_id := i; max_endpoints := 1; endpoints := ∅; dtmf_state := ∅; sensitive_dtmf_endpoints := ∅;
     vad_monitors := ∅; fax_detectors := ∅; analysis_decoders := ∅; file_rtp_states := ∅; url_sources := ∅;
     media_timeout_emitted := ∅; dtmf_injection := None; transcode_cache := ∅; reserved_transfers := ∅ |}.
Definition with_phone : Session :=
  (empty_session 1) {{ endpoints := {[7 := phone]}; sensitive_dtmf_endpoints := {[7]}; vad_monitors := {[7 := tt]} }}.
Definition idle (s : Session) : STask := mkTask s [] None.

Definition start : SSystem :=
  mkSystem {[1 := idle with_phone; 2 := idle (empty_session 2)]} ∅.

(** The phone in transit. *)
Definition bundled : SBundle :=
  mkBundle phone 1 None true (Some tt) None None None None false.
Definition extracted : Session := (empty_session 1) {{ reserved_transfers := {[7]} }}.
Definition op (b : option SBundle) (r c d : bool) (p : Phase)
    (reply : option (result transfer_error unit)) : SOperation :=
  mkOperation 1 2 7 (mkSlot b r c d) p reply.
Definition sys (k1 k2 : STask) (o : SOperation)
    : SSystem := mkSystem {[1 := k1; 2 := k2]} {[9 := o]}.

(** The deadline passes while the target has not answered: the phone goes back. *)
Definition home_again : Session :=
  with_phone {{ dtmf_state := {[7 := mkDtmf Dtmf.new_detector (Some 101)]} }}.
Definition target_task (q : list Command) : STask := mkTask (empty_session 2) q None.
Definition late : SSystem :=
  sys (mkTask home_again [] None) (target_task [CommitTransfer 9])
      (op None false true false (Finished (Some (Err TransferTimeout))) (Some (Ok tt))).

Lemma start_initial : initial start.
Proof.
  split; [done |]. split.
  - intros i k Hk. unfold start in Hk; cbn in Hk.
    apply lookup_insert_Some in Hk as [[_ <-] | [_ Hk]]; [| apply lookup_singleton_Some in Hk as [_ <-]];
      (split_and!; [done.. |]); intros e ep He; cbn in He.
    + by apply lookup_singleton_Some in He as [<- <-].
    + by apply lookup_empty_Some in He.
  - intros i j e (k1 & Hk1 & He1) (k2 & Hk2 & He2). unfold start in Hk1, Hk2; cbn in Hk1, Hk2.
    apply lookup_insert_Some in Hk1 as [[<- <-] | [_ Hk1]], Hk2 as [[<- <-] | [_ Hk2]]; try done;
      apply lookup_singleton_Some in Hk1 as [_ <-] || apply lookup_singleton_Some in Hk2 as [_ <-];
      cbn in *; by (destruct He1 + destruct He2).
Qed.

Lemma step_to {V F S A T} (y : @System V F S A T) ev y1 y' : step y ev y1 -> y1 = y' -> step y ev y'.
Proof. by intros ? <-. Qed.

Tactic Notation "hop" constr(state) open_constr(rule) :=
  apply (run_step 7 start [] state Internal);
  [| eapply step_to; [eapply rule; by vm_compute | vm_compute; reflexivity] | done].

Definition timed_out : SSystem :=
  sys (mkTask extracted [FinishTransfer 9] None) (target_task [CommitTransfer 9])
      (op (Some bundled) true true false (Finished (Some (Err TransferTimeout))) (Some (Ok tt))).

Lemma timed_out_run : run 7 start [] timed_out.
Proof.
  hop (sys (mkTask extracted [] None) (target_task [CommitTransfer 9])
         (op (Some bundled) true true false (Closing (Err TransferTimeout)) (Some (Ok tt)))) (StepClose _ 9).
  hop (sys (mkTask extracted [] None) (target_task [CommitTransfer 9])
         (op (Some bundled) true false false WaitCommit (Some (Ok tt)))) (StepCommitDecided _ 9 _ TransferTimeout).
  hop (sys (mkTask extracted [] None) (target_task [])
         (op (Some bundled) true false false WaitPrepare (Some (Ok tt)))) (StepPrepared _ 9).
  hop (sys (mkTask extracted [PrepareTransfer 9] (Some (9, bundled))) (target_task [])
         (op None true false false WaitPrepare None)) (StepExtracted _ 1 _ 9).
  hop (sys (mkTask with_phone [PrepareTransfer 9] None) (target_task [])
         (op None false false false WaitPrepare None)) (StepPrepareExtracts _ 1 _ 9).
  hop (sys (mkTask with_phone [] None) (target_task [])
         (op None false false false Reserving None)) (StepReserved _ 9).
  hop start (StepRequest _ 9 1 2 7).
  apply run_start.
Qed.

Lemma rollback_step : step timed_out Internal late.
Proof. eapply step_to; [eapply (StepFinish _ 1 _ 9); by vm_compute | by vm_compute]. Qed.

Lemma start_reachable : reachable start.
Proof. apply reach_initial, start_initial. Qed.

End Examples.

Import Examples.

Lemma transfer_conserves_witness :
  (forall l1 l2, at_place late l1 7 -> at_place late l2 7 -> l1 = l2) /\
  (somewhere timed_out 7 -> somewhere late 7 \/ Internal = Removes 7).
Proof.
  apply (transfer_conserves timed_out Internal late 7); [| exact rollback_step].
  exact (run_reachable _ _ _ _ start_reachable timed_out_run).
Defined.

(** Two transfers of the phone at the same time: the second finds it on its way
    and is refused, the first succeeds. *)
Tactic Notation "then_step" ident(R) open_constr(rule) :=
  let R' := fresh "R" in
  epose proof (run_step 7 start _ _ _ _ R ltac:(eapply rule; vm_compute; reflexivity) ltac:(done)) as R';
  clear R; rename R' into R;
  match type of R with run 7 start ?ms ?y =>
    let ms' := eval vm_compute in ms in let y' := eval vm_compute in y in change (run 7 start ms' y') in R end.

Lemma transfer_atomic_witness :
  exists ms y, run 7 start ms y /\ ms = [(9, 1, 2)] /\
    (phase <$> operations y !! 9) = Some (Finished (Some (Ok tt))) /\
    (phase <$> operations y !! 10) = Some (Finished (Some (Err AlreadyPending))) /\
    forall l, at_place y l 7 <-> l = InSession 2.
Proof.
  pose proof (run_start 7 start) as R.
  then_step R (StepRequest _ 9 1 2 7).
  then_step R (StepReserved _ 9).
  then_step R (StepRequest _ 10 1 2 7).
  then_step R (StepReserved _ 10).
  then_step R (StepPrepareExtracts _ 1 _ 9).
  then_step R (StepExtracted _ 1 _ 9).
  then_step R (StepPrepareRefused _ 1 _ 10).
  then_step R (StepPrepared _ 9).
  then_step R (StepPrepareFailed _ 10 _ AlreadyPending).
  then_step R (StepCommit _ 2 _ 9).
  then_step R (StepClose _ 10).
  then_step R (StepCommitDecided _ 9 _ TransferTimeout).
  then_step R (StepFinish _ 1 _ 10).
  then_step R (StepClose _ 9).
  then_step R (StepFinish _ 1 _ 9).
  assert (H : at_place start (InSession 1) 7).
  { exists (idle with_phone). split; [by vm_compute | exists phone; by vm_compute]. }
  match type of R with run 7 start ?ms ?y => exists ms, y;
    destruct (transfer_atomic start y 7 1 ms start_reachable H R) as (_ & _ & last & L & A) end.
  split; [exact R |]. do 3 (split; [by vm_compute |]). cbn in L. destruct L as [_ ->]. apply A.
  apply map_Forall_to_list. match goal with |- Forall _ ?l => let l' := eval vm_compute in l in change l with l' end.
  repeat constructor; cbn; intros _ k Hk; vm_compute in Hk; injection Hk as <-; apply not_elem_of_nil.
Defined.

Lemma transfer_keeps_belongings_witness :
  let s1 := fst (handle_extract_endpoint with_phone 7) in
  belongings s1 7 = nothing /\
  (exists s3, handle_insert_endpoint (empty_session 2) bundled = Ok s3 /\
    belongings s3 7 = (belongings with_phone 7)
      {{ of_dtmf := Some (mkDtmf Dtmf.new_detector (Some 101)) }}).
Proof.
  destruct (handle_insert_endpoint (empty_session 2) bundled) as [s3 | e] eqn:E; [| by vm_compute in E].
  destruct (transfer_keeps_belongings with_phone 7 (fst (handle_extract_endpoint with_phone 7)) bundled
              (empty_session 2) s3) as (H1 & H2 & _); [by vm_compute.. | exact E |].
  split; [exact H1 | exists s3; split; [done | exact H2]].
Defined.

End Transfer.
