(* ===== verification/Manager.v ===== *)
(** The session manager ([session/mod.rs]) and the shutdown coordinator
    ([shutdown.rs]): creation, destruction, attachment and orphaning of sessions,
    their tasks and orphan timers, as a step relation in which every access to
    shared state is a step of its own. *)

From stdpp Require Import gmap relations.
From S2P Require Import Prelude.
#[local] Open Scope Z_scope.

(** ** Sums over finite maps *)

Module Total.
Section total.
Context {K V : Type} `{Countable K} (w : V -> Z).

Definition total (m : gmap K V) : Z := map_fold (fun _ v acc => w v + acc) 0 m.

Lemma total_empty : total ∅ = 0.
Proof. apply map_fold_empty. Qed.

Lemma total_fresh m k v : m !! k = None -> total (<[k := v]> m) = w v + total m.
Proof. intros Hk. unfold total. rewrite map_fold_insert_L; [done | | done]. intros. lia. Qed.

Lemma total_delete m k v : m !! k = Some v -> total (delete k m) = total m - w v.
Proof.
  intros Hk. rewrite <- (insert_delete_id m k v Hk) at 2.
  rewrite total_fresh by apply lookup_delete_eq. lia.
Qed.

Lemma total_update m k u v : m !! k = Some u -> total (<[k := v]> m) = total m - w u + w v.
Proof.
  intros Hk. rewrite <- insert_delete_eq, total_fresh, (total_delete m k u) by (done || apply lookup_delete_eq).
  lia.
Qed.

Lemma total_nonneg m : (forall v, 0 <= w v) -> 0 <= total m.
Proof.
  intros W. unfold total. apply (map_fold_weak_ind (fun r _ => 0 <= r)); [lia |].
  intros k v m' r _ Hr. specialize (W v). lia.
Qed.

Lemma total_lookup m k v : (forall v, 0 <= w v) -> m !! k = Some v -> w v <= total m.
Proof.
  intros W Hk. pose proof (total_delete m k v Hk). pose proof (total_nonneg (delete k m) W). lia.
Qed.

End total.
End Total.

Module Manager.
Import Total.

Abbreviation SessionId := Z (only parsing).

Inductive SessionState := Active | Orphaned.
#[global] Instance SessionState_eq_dec : EqDecision SessionState.
Proof. solve_decision. Defined.

(** The commands of a session, as far as the manager sends them. *)
Inductive SessionCommand := Destroy | Attach | Detach | Other.

(** The part of an entry the manager reads; [orphan_timeout] is the handle of
    the timer task. *)
Record Session := mkSession {
  state : SessionState;
  orphan_timeout : option nat;
  orphan_generation : Z;
}.

(** A creation that has taken its slot and not yet published its session. *)
Inductive Creation := SlotReserved | SlotStarted | TaskSpawned.

(** The media task: spawned and not yet polled, running, and after that the
    steps of its clean-up guard.  A task that is aborted before it is first
    polled is dropped without running, and its body, which makes the guard, with
    it. *)
Inductive Task := Spawned | Running | Cleaning | EntryRemoved | CountReleased | Ended | Dropped.
#[global] Instance Task_eq_dec : EqDecision Task.
Proof. solve_decision. Defined.

Record t := mk {
  max_sessions : Z;
  sessions : gmap SessionId Session;
  session_count : Z;
  active_sessions : Z;
  shutting_down : bool;
  creations : gmap SessionId Creation;
  tasks : gmap SessionId Task;
  aborted : gset SessionId;
  channels : gmap SessionId (list SessionCommand);
  timers : gmap nat (SessionId * Z);
  cancelled : gset nat;
  next_timer : nat;
  forcing : list SessionId;
}.

Definition new (max_sessions : Z) : t := mk max_sessions ∅ 0 0 false ∅ ∅ ∅ ∅ ∅ ∅ 0 [].

(** [mpsc::channel(64)]: full with 64 commands, closed when the task is gone. *)
Definition channel_size : nat := 64.
Definition can_send (m : t) (id : SessionId) : bool :=
  match tasks m !! id, channels m !! id with
  | Some (Spawned | Running), Some q => (length q <? channel_size)%nat
  | _, _ => false
  end.
Definition send (m : t) (id : SessionId) (c : SessionCommand) : t :=
  m {{ channels := alter (fun q => q ++ [c]) id (channels m) }}.

(** ** The shutdown coordinator *)

Definition initiate_shutdown (m : t) : t := m {{ shutting_down := true }}.
Definition session_started (m : t) : t := m {{ active_sessions := active_sessions m + 1 }}.
Definition session_ended (m : t) : t :=
  if 0 <? active_sessions m then m {{ active_sessions := active_sessions m - 1 }} else m.

(** ** Creation *)

(** The compare-and-exchange loop: the slot, or MAX_SESSIONS_REACHED. *)
Definition reserve (m : t) (id : SessionId) : option t :=
  if (0 <? max_sessions m) && (max_sessions m <=? session_count m) then None
  else Some (m {{ session_count := session_count m + 1 }}
               {{ creations := <[id := SlotReserved]> (creations m) }}).

Definition start (m : t) (id : SessionId) : t :=
  (session_started m) {{ creations := <[id := SlotStarted]> (creations m) }}.

Definition spawn (m : t) (id : SessionId) : t :=
  m {{ creations := <[id := TaskSpawned]> (creations m) }}
    {{ tasks := <[id := Spawned]> (tasks m) }}
    {{ channels := <[id := []]> (channels m) }}.

Definition publish (m : t) (id : SessionId) : t :=
  m {{ creations := delete id (creations m) }}
    {{ sessions := <[id := mkSession Active None 0]> (sessions m) }}.

(** ** Destruction *)

(** [JoinHandle::abort] takes effect when the task next yields. *)
Definition abort_task (m : t) (id : SessionId) : t := m {{ aborted := {[id]} ∪ aborted m }}.
Definition abort_timer (m : t) (handle : option nat) : t :=
  match handle with Some k => m {{ cancelled := {[k]} ∪ cancelled m }} | None => m end.

Definition finished (m : t) (id : SessionId) : bool :=
  match tasks m !! id with Some (Ended | Dropped) => true | _ => false end.

(** [true] for [Ok].  When the command cannot be sent, the entry is released and
    removed in a step of its own. *)
Definition destroy_session (m : t) (id : SessionId) : t * bool :=
  match sessions m !! id with
  | None => (m, false)
  | Some entry =>
      if can_send m id then (abort_timer (send m id Destroy) (orphan_timeout entry), true)
      else (m {{ forcing := id :: forcing m }}, true)
  end.

Definition force_remove (m : t) (id : SessionId) : t :=
  match sessions m !! id with
  | None => m
  | Some _ =>
      let m := m {{ sessions := delete id (sessions m) }} in
      if finished m id then m else abort_task m id
  end.

(** ** Attachment *)

Inductive attach_error := SessionNotFound | SessionNotOrphaned | SessionBusy.

Definition attach_session (m : t) (id : SessionId) : t * result attach_error unit :=
  match sessions m !! id with
  | None => (m, Err SessionNotFound)
  | Some entry =>
      if bool_decide (state entry = Orphaned) then
        if can_send m id then
          let m := send m id Attach in
          let m := m {{ sessions :=
            <[id := mkSession Active None (wrap64 (orphan_generation entry + 1))]> (sessions m) }} in
          (abort_timer m (orphan_timeout entry), Ok tt)
        else (m, Err SessionBusy)
      else (m, Err SessionNotOrphaned)
  end.

(** The entry is orphaned under a new generation, and a timer remembers it. *)
Definition detach_session (m : t) (id : SessionId) : t :=
  match sessions m !! id with
  | None => m
  | Some entry =>
      let m := if can_send m id then send m id Detach else m in
      let generation := wrap64 (orphan_generation entry + 1) in
      let m := abort_timer m (orphan_timeout entry) in
      m {{ sessions := <[id := mkSession Orphaned (Some (next_timer m)) generation]> (sessions m) }}
        {{ timers := <[next_timer m := (id, generation)]> (timers m) }}
        {{ next_timer := S (next_timer m) }}
  end.

(** The end of a timer: [remove_if] and the abort of what it removed. *)
Definition expire (m : t) (k : nat) : t :=
  match timers m !! k with
  | None => m
  | Some (id, generation) =>
      let m := m {{ timers := delete k (timers m) }} in
      match sessions m !! id with
      | Some entry =>
          if bool_decide (state entry = Orphaned) && (orphan_generation entry =? generation)
          then abort_task (m {{ sessions := delete id (sessions m) }}) id
          else m
      | None => m
      end
  end.

(** ** The task's guard *)

Definition set_task (m : t) (id : SessionId) (p : Task) : t := m {{ tasks := <[id := p]> (tasks m) }}.

Definition guard_remove (m : t) (id : SessionId) : t :=
  set_task (m {{ sessions := delete id (sessions m) }}) id EntryRemoved.
Definition guard_count (m : t) (id : SessionId) : t :=
  set_task (m {{ session_count := session_count m - 1 }}) id CountReleased.
Definition guard_ended (m : t) (id : SessionId) : t := set_task (session_ended m) id Ended.

(** One of the removals under way has happened. *)
Fixpoint remove_one (id : SessionId) (l : list SessionId) : list SessionId :=
  match l with [] => [] | x :: l => if x =? id then l else x :: remove_one id l end.

(** ** Steps

    Identifiers are random: a creation draws one that no session ever had.  A
    cancelled timer stops at its sleep or, already past it, runs. *)

Inductive step (m : t) : t -> Prop :=
| s_reserve id m' : creations m !! id = None -> tasks m !! id = None -> sessions m !! id = None ->
    reserve m id = Some m' -> step m m'
| s_start id : creations m !! id = Some SlotReserved -> step m (start m id)
| s_spawn id : creations m !! id = Some SlotStarted -> step m (spawn m id)
| s_publish id : creations m !! id = Some TaskSpawned -> step m (publish m id)
| s_poll id : tasks m !! id = Some Spawned -> step m (set_task m id Running)
| s_receive id c q : tasks m !! id = Some Running -> channels m !! id = Some (c :: q) ->
    step m (m {{ channels := <[id := q]> (channels m) }})
| s_return id : tasks m !! id = Some Running -> step m (set_task m id Cleaning)
| s_drop id : tasks m !! id = Some Spawned -> id ∈ aborted m -> step m (set_task m id Dropped)
| s_remove id : tasks m !! id = Some Cleaning -> step m (guard_remove m id)
| s_count id : tasks m !! id = Some EntryRemoved -> step m (guard_count m id)
| s_ended id : tasks m !! id = Some CountReleased -> step m (guard_ended m id)
| s_send id : can_send m id = true -> step m (send m id Other)
| s_destroy id : step m (destroy_session m id).1
| s_force id : id ∈ forcing m -> step m ((force_remove m id) {{ forcing := remove_one id (forcing m) }})
| s_attach id : step m (attach_session m id).1
| s_detach id : step m (detach_session m id)
| s_expire k : is_Some (timers m !! k) -> step m (expire m k)
| s_cancel k : k ∈ cancelled m -> step m (m {{ timers := delete k (timers m) }})
| s_shutdown : step m (initiate_shutdown m).

(** ** Accounting *)

(** Who holds a slot, and who counts as active. *)
Definition creation_slot (c : Creation) : Z := match c with TaskSpawned => 0 | _ => 1 end.
Definition task_slot (p : Task) : Z := match p with CountReleased | Ended => 0 | _ => 1 end.
Definition creation_active (c : Creation) : Z := match c with SlotStarted => 1 | _ => 0 end.
Definition task_active (p : Task) : Z := match p with Ended => 0 | _ => 1 end.

Definition slots (m : t) : Z := total creation_slot (creations m) + total task_slot (tasks m).
Definition actives (m : t) : Z := total creation_active (creations m) + total task_active (tasks m).

Record inv (m : t) : Prop := {
  inv_count : session_count m = slots m;
  inv_active : active_sessions m = actives m;
  inv_max : 0 < max_sessions m -> session_count m <= max_sessions m;
  inv_early : forall id c, creations m !! id = Some c -> c <> TaskSpawned -> tasks m !! id = None;
}.

(** What an operation that moves no task and no creation leaves alone. *)
Definition same_books (m m' : t) : Prop :=
  max_sessions m' = max_sessions m /\ session_count m' = session_count m /\
  active_sessions m' = active_sessions m /\ creations m' = creations m /\ tasks m' = tasks m.

Lemma same_books_inv m m' : same_books m m' -> inv m -> inv m'.
Proof.
  intros (E1 & E2 & E3 & E4 & E5) [C A M Y].
  split; unfold slots, actives; rewrite ?E1, ?E2, ?E3, ?E4, ?E5; done.
Qed.

Lemma abort_timer_books m h : same_books m (abort_timer m h).
Proof. destruct m, h; done. Qed.

Lemma same_books_trans m1 m2 m3 : same_books m1 m2 -> same_books m2 m3 -> same_books m1 m3.
Proof. unfold same_books. intuition congruence. Qed.

Lemma destroy_books m id : same_books m (destroy_session m id).1.
Proof.
  unfold destroy_session. destruct (sessions m !! id) as [e |]; [| by destruct m].
  destruct (can_send m id); [| by destruct m].
  eapply same_books_trans; [| apply abort_timer_books]. by destruct m.
Qed.

Lemma force_books m id l : same_books m ((force_remove m id) {{ forcing := l }}).
Proof.
  unfold force_remove. destruct (sessions m !! id) as [e |]; [| by destruct m].
  destruct (finished _ id); by destruct m.
Qed.

Lemma attach_books m id : same_books m (attach_session m id).1.
Proof.
  unfold attach_session. destruct (sessions m !! id) as [e |]; [| by destruct m].
  destruct (bool_decide _); [| by destruct m]. destruct (can_send m id); [| by destruct m].
  eapply same_books_trans; [| apply abort_timer_books]. by destruct m.
Qed.

Lemma detach_books m id : same_books m (detach_session m id).
Proof.
  unfold detach_session. destruct (sessions m !! id) as [e |]; [| by destruct m].
  destruct (can_send m id), (orphan_timeout e); by destruct m.
Qed.

Lemma expire_books m k : same_books m (expire m k).
Proof.
  unfold expire. destruct (timers m !! k) as [[id g] |]; [| by destruct m].
  destruct m as [? ss ? ? ? ? ? ? ? ? ? ? ?]; cbn. destruct (ss !! id) as [e |]; [| done].
  by destruct (_ && _).
Qed.

Create HintDb books.
#[local] Hint Resolve destroy_books force_books attach_books detach_books expire_books : books.

Lemma moved_task_inv m m' id p p' :
  tasks m !! id = Some p -> tasks m' = <[id := p']> (tasks m) ->
  max_sessions m' = max_sessions m -> creations m' = creations m ->
  session_count m' = session_count m - task_slot p + task_slot p' ->
  active_sessions m' = active_sessions m - task_active p + task_active p' ->
  task_slot p' <= task_slot p -> inv m -> inv m'.
Proof.
  intros Hp Et Em Ec Es Ea Hle [C A M Y].
  split; unfold slots, actives; rewrite ?Et, ?Em, ?Ec, ?(total_update _ _ _ p) by done.
  - rewrite Es, C. unfold slots. lia.
  - rewrite Ea, A. unfold actives. lia.
  - intros H. specialize (M H). lia.
  - intros id' c Hc Hn. destruct (decide (id' = id)) as [-> | Hne].
    + by rewrite (Y _ _ Hc Hn) in Hp.
    + rewrite lookup_insert_ne by done. by eapply Y.
Qed.

Lemma slots_nonneg m : 0 <= total creation_active (creations m).
Proof. apply total_nonneg. by intros []. Qed.

Lemma guard_ended_inv m id : tasks m !! id = Some CountReleased -> inv m -> inv (guard_ended m id).
Proof.
  intros Hp I. eapply (moved_task_inv m _ id CountReleased Ended); try done; try (by destruct m).
  - unfold guard_ended, session_ended. destruct (0 <? _); by destruct m.
  - unfold guard_ended, session_ended. destruct (0 <? _); by destruct m.
  - unfold guard_ended, session_ended. destruct (0 <? _); by destruct m.
  - unfold guard_ended, session_ended. destruct (0 <? _); destruct m; cbn; lia.
  - destruct I as [_ A _ _]. unfold actives in A. pose proof (slots_nonneg m).
    pose proof (total_lookup task_active (tasks m) id CountReleased ltac:(by intros []) Hp) as L. cbn in L.
    unfold guard_ended, session_ended. rewrite (proj2 (Z.ltb_lt _ _)) by lia. destruct m; cbn in *. lia.
Qed.

Lemma reserve_inv m id m' :
  creations m !! id = None -> tasks m !! id = None -> reserve m id = Some m' -> inv m -> inv m'.
Proof.
  unfold reserve. intros Hc Ht. split_if; [done |]. intros [= <-] [C A M Y].
  destruct m; cbn in *. split; unfold slots, actives in *; cbn in *.
  - rewrite total_fresh by done. cbn. lia.
  - rewrite total_fresh by done. cbn. lia.
  - intros H. apply andb_false_iff in Heqb. destruct Heqb as [E | E]; bool_prop; lia.
  - intros id' c. destruct (decide (id' = id)) as [-> | Hne]; [done |].
    rewrite lookup_insert_ne by done. apply Y.
Qed.

Lemma start_inv m id : creations m !! id = Some SlotReserved -> inv m -> inv (start m id).
Proof.
  intros Hc [C A M Y]. destruct m; cbn in *. split; unfold slots, actives in *; cbn in *.
  - rewrite (total_update _ _ _ SlotReserved) by done. cbn. lia.
  - rewrite (total_update _ _ _ SlotReserved) by done. cbn. lia.
  - done.
  - intros id' c. destruct (decide (id' = id)) as [-> | Hne]; [intros _ _; by eapply Y |].
    rewrite lookup_insert_ne by done. apply Y.
Qed.

Lemma spawn_inv m id : creations m !! id = Some SlotStarted -> inv m -> inv (spawn m id).
Proof.
  intros Hc [C A M Y]. assert (tasks m !! id = None) as Ht by (by eapply Y).
  destruct m; cbn in *. split; unfold slots, actives in *; cbn in *.
  - rewrite (total_update _ _ _ SlotStarted), total_fresh by done. cbn. lia.
  - rewrite (total_update _ _ _ SlotStarted), total_fresh by done. cbn. lia.
  - done.
  - intros id' c. destruct (decide (id' = id)) as [-> | Hne].
    + rewrite lookup_insert_eq. by intros [= <-].
    + rewrite !lookup_insert_ne by done. apply Y.
Qed.

Lemma publish_inv m id : creations m !! id = Some TaskSpawned -> inv m -> inv (publish m id).
Proof.
  intros Hc [C A M Y]. destruct m; cbn in *. split; unfold slots, actives in *; cbn in *.
  - rewrite (total_delete _ _ _ TaskSpawned) by done. cbn. lia.
  - rewrite (total_delete _ _ _ TaskSpawned) by done. cbn. lia.
  - done.
  - intros id' c. destruct (decide (id' = id)) as [-> | Hne]; [by rewrite lookup_delete_eq |].
    rewrite lookup_delete_ne by done. apply Y.
Qed.

Lemma manager_step_inv m m' : step m m' -> inv m -> inv m'.
Proof.
  intros S I. destruct S;
    try (by eapply same_books_inv; [| exact I]; eauto with books; by destruct m).
  - by eapply reserve_inv.
  - by apply start_inv.
  - by apply spawn_inv.
  - by apply publish_inv.
  - eapply (moved_task_inv m _ id Spawned Running); try done; destruct m; cbn; lia.
  - eapply (moved_task_inv m _ id Running Cleaning); try done; destruct m; cbn; lia.
  - eapply (moved_task_inv m _ id Spawned Dropped); try done; destruct m; cbn; lia.
  - eapply (moved_task_inv m _ id Cleaning EntryRemoved); try done; destruct m; cbn; lia.
  - eapply (moved_task_inv m _ id EntryRemoved CountReleased); try done; destruct m; cbn; lia.
  - by apply guard_ended_inv.
Qed.

Lemma new_inv max : 0 <= max -> inv (new max).
Proof.
  intros H. split; unfold slots, actives; cbn; rewrite ?total_empty; try lia; try done.
Qed.

Lemma steps_inv m m' : rtc step m m' -> inv m -> inv m'.
Proof. induction 1; eauto using manager_step_inv. Qed.

(** Nothing is under way and every task has run its guard. *)
Definition quiescent (m : t) : Prop :=
  creations m = ∅ /\ map_Forall (fun _ p => p = Ended) (tasks m).

Lemma total_zero {V} (w : V -> Z) (m : gmap Z V) : map_Forall (fun _ v => w v = 0) m -> total w m = 0.
Proof.
  induction m as [| k v m Hk IH] using map_ind; intros F; [apply total_empty |].
  apply map_Forall_insert in F as [Fv F]; [| done]. rewrite total_fresh by done. rewrite IH by done. lia.
Qed.

(** C35: sessions are counted exactly.  Under any interleaving of creations,
    commands, disconnections, timers, forced removals and ends of tasks, the
    session count is the number of slots held and never passes the configured
    maximum, and the shutdown coordinator's count is the number of sessions
    started and not ended; when every task has run its guard both are zero, so the
    slots are all free again and a drain completes. *)
Theorem sessions_accounted max m (Hmax : 0 <= max) (reached : rtc step (new max) m) :
  session_count m = slots m /\ active_sessions m = actives m /\
  (0 < max_sessions m -> 0 <= session_count m <= max_sessions m) /\
  (quiescent m -> session_count m = 0 /\ active_sessions m = 0).
Proof.
  destruct (steps_inv _ _ reached (new_inv max Hmax)) as [C A M _].
  split_and!; [done | done | |].
  - intros H. split; [| by apply M]. rewrite C. unfold slots.
    pose proof (total_nonneg creation_slot (creations m) ltac:(by intros [])).
    pose proof (total_nonneg task_slot (tasks m) ltac:(by intros [])). lia.
  - intros [Q1 Q2]. rewrite C, A. unfold slots, actives. rewrite Q1, !total_empty, !total_zero; [done | |];
      eapply map_Forall_impl; try exact Q2; by intros ? ? ->.
Qed.

(** A session that is created, runs and is destroyed. *)
Definition example_run : list t :=
  let m0 := new 1 in
  let m1 := default m0 (reserve m0 7) in
  let m2 := start m1 7 in
  let m3 := spawn m2 7 in
  let m4 := publish m3 7 in
  let m5 := set_task m4 7 Running in
  let m6 := set_task m5 7 Cleaning in
  let m7 := guard_remove m6 7 in
  let m8 := guard_count m7 7 in
  [m0; m1; m2; m3; m4; m5; m6; m7; m8; guard_ended m8 7].

Lemma sessions_accounted_witness :
  rtc step (new 1) (List.last example_run (new 1)) /\
  session_count (List.last example_run (new 1)) = 0.
Proof.
  assert (R : rtc step (new 1) (List.last example_run (new 1))).
  { eapply rtc_l; [by apply (s_reserve _ 7) |]. eapply rtc_l; [by apply (s_start _ 7) |].
    eapply rtc_l; [by apply (s_spawn _ 7) |]. eapply rtc_l; [by apply (s_publish _ 7) |].
    eapply rtc_l; [by apply (s_poll _ 7) |]. eapply rtc_l; [by apply (s_return _ 7) |].
    eapply rtc_l; [by apply (s_remove _ 7) |]. eapply rtc_l; [by apply (s_count _ 7) |].
    eapply rtc_l; [by apply (s_ended _ 7) |]. apply rtc_refl. }
  split; [exact R |].
  destruct (sessions_accounted 1 _ ltac:(lia) R) as (_ & _ & _ & Q). apply Q. split; [reflexivity |].
  apply (bool_decide_unpack _). by vm_compute.
Defined.

(** ** Slots that are lost *)

Lemma dropped_stays m m' id : step m m' -> inv m -> tasks m !! id = Some Dropped -> tasks m' !! id = Some Dropped.
Proof.
  intros S I Hd.
  assert (forall x, same_books m x -> tasks x !! id = Some Dropped) as Sb by (by intros x (_ & _ & _ & _ & ->)).
  destruct S as [id' m' _ Ht _ E | id' | id' Hc | id' | id' Ht | | id' Ht | id' Ht | id' Ht | id' Ht | id' Ht | | | | | | | |];
    try (apply Sb; eauto with books; by destruct m); try (by destruct m);
    try (destruct (decide (id = id')) as [<- | Hne]; [congruence |];
      unfold guard_ended, session_ended; try destruct (0 <? _); destruct m; cbn in *; by rewrite lookup_insert_ne).
  - unfold reserve in E. destruct (_ && _); [done |]. injection E as <-. by destruct m.
  - destruct (decide (id = id')) as [<- | Hne]; [by rewrite (inv_early _ I _ _ Hc) in Hd |].
    destruct m; cbn in *. by rewrite lookup_insert_ne.
Qed.

Lemma dropped_forever m m' id : rtc step m m' -> inv m -> tasks m !! id = Some Dropped ->
  inv m' /\ tasks m' !! id = Some Dropped.
Proof. induction 1 as [| m1 m2 m3 S _ IH]; intros I D; [done |]. apply IH; eauto using manager_step_inv, dropped_stays. Qed.

Lemma max_fixed m m' : step m m' -> max_sessions m' = max_sessions m.
Proof.
  intros S. assert (forall x, same_books m x -> max_sessions x = max_sessions m) as Sb by (by intros x (-> & _)).
  destruct S as [id' m' _ _ _ E | | | | | | | | | | | | | | | | | |];
    try (apply Sb; eauto with books; by destruct m); try (by destruct m).
  - unfold reserve in E. destruct (_ && _); [done |]. injection E as <-. by destruct m.
  - unfold guard_ended, session_ended. destruct (0 <? _); by destruct m.
Qed.

(** A session orphaned and expired before its task was first polled. *)
Definition leaked : t :=
  let m1 := default (new 1) (reserve (new 1) 7) in
  let m5 := detach_session (publish (spawn (start m1 7) 7) 7) 7 in
  set_task (expire m5 0) 7 Dropped.

Lemma leaked_reachable : rtc step (new 1) leaked.
Proof.
  eapply rtc_l; [by apply (s_reserve _ 7) |]. eapply rtc_l; [by apply (s_start _ 7) |].
  eapply rtc_l; [by apply (s_spawn _ 7) |]. eapply rtc_l; [by apply (s_publish _ 7) |].
  eapply rtc_l; [by apply (s_detach _ 7) |]. eapply rtc_l; [by apply (s_expire _ 0%nat); eexists |].
  eapply rtc_l; [apply (s_drop _ 7); [done | by apply (bool_decide_unpack _)] |]. apply rtc_refl.
Qed.

(** C37: a session aborted before its task first runs keeps its slot for ever.
    The guard that gives the slot back is made by the body of the task; when the
    orphan timer, which fires at once during a shutdown, removes the session and
    aborts the task before it was polled, the body is dropped without running.
    The state reached has no session, no creation under way and no live task; yet
    with a maximum of one session every later creation is refused, and the
    shutdown coordinator never sees the drain complete. *)
Theorem unpolled_session_leaks :
  rtc step (new 1) leaked /\ sessions leaked = ∅ /\ creations leaked = ∅ /\
  map_Forall (fun _ p => p = Dropped) (tasks leaked) /\
  forall m, rtc step leaked m -> (forall id, reserve m id = None) /\ 0 < active_sessions m.
Proof.
  split; [exact leaked_reachable |]. split; [by vm_compute |]. split; [by vm_compute |].
  split; [apply (bool_decide_unpack _); by vm_compute |]. intros m R.
  destruct (dropped_forever _ _ 7 R) as [I D];
    [by eapply steps_inv, new_inv; [exact leaked_reachable |] | by vm_compute |].
  assert (max_sessions m = 1) as Em.
  { clear - R. change 1 with (max_sessions leaked). induction R as [| m1 m2 m3 S _ IH]; [done |].
    rewrite IH. by apply max_fixed. }
  destruct I as [C A _ _]. unfold slots, actives in *.
  pose proof (total_lookup task_slot (tasks m) 7 Dropped ltac:(by intros []) D) as L1.
  pose proof (total_lookup task_active (tasks m) 7 Dropped ltac:(by intros []) D) as L2. cbn in L1, L2.
  pose proof (total_nonneg creation_slot (creations m) ltac:(by intros [])).
  pose proof (slots_nonneg m). split; [| lia]. intros id. unfold reserve. rewrite Em.
  by rewrite (proj2 (Z.leb_le 1 (session_count m))) by lia.
Qed.

(** ** Orphan timers *)

(** After [n] steps: generations count up, a timer knows the generation of its
    own disconnection, and an identifier being created is new. *)
Record timed (n : Z) (m : t) : Prop := {
  ti_keys : forall k x, timers m !! k = Some x -> (k < next_timer m)%nat;
  ti_generation : forall id e, sessions m !! id = Some e -> 0 <= orphan_generation e <= n;
  ti_timer : forall k id g e, timers m !! k = Some (id, g) -> sessions m !! id = Some e ->
    g <= orphan_generation e /\ (g = orphan_generation e -> state e = Orphaned -> orphan_timeout e = Some k);
  ti_known : forall k id g, timers m !! k = Some (id, g) -> creations m !! id = None /\ is_Some (tasks m !! id);
  ti_sessions : forall id e, sessions m !! id = Some e -> creations m !! id = None /\ is_Some (tasks m !! id);
  ti_spawned : forall id, creations m !! id = Some TaskSpawned -> is_Some (tasks m !! id);
}.

(** Operations that remove entries and timers, and move tasks, keep it. *)
Lemma timed_shrink n m m' :
  sessions m' ⊆ sessions m -> timers m' ⊆ timers m -> next_timer m' = next_timer m ->
  creations m' = creations m -> (forall id, is_Some (tasks m !! id) -> is_Some (tasks m' !! id)) ->
  timed n m -> timed (n + 1) m'.
Proof.
  intros Hs Ht Hn Hc Hk [K G T Kn Se Sp]. split.
  - intros k x Hx. rewrite Hn. eapply K, lookup_weaken; eauto.
  - intros id e He. assert (0 <= orphan_generation e <= n) by (eapply G, lookup_weaken; eauto). lia.
  - intros k id g e Hk' He. eapply T; eapply lookup_weaken; eauto.
  - intros k id g Hk'. rewrite Hc. destruct (Kn k id g); [eapply lookup_weaken; eauto |]. auto.
  - intros id e He. rewrite Hc. destruct (Se id e); [eapply lookup_weaken; eauto |]. auto.
  - intros id. rewrite Hc. auto.
Qed.

(** A new entry for a session, with a later generation, whose timer, if it is
    orphaned, is the one that is new. *)
Lemma timed_bump n m m' id e e' :
  timed n m -> sessions m !! id = Some e -> orphan_generation e' = orphan_generation e + 1 ->
  sessions m' = <[id := e']> (sessions m) -> creations m' = creations m -> tasks m' = tasks m ->
  (timers m' = timers m /\ next_timer m' = next_timer m /\ state e' = Active \/
   timers m' = <[next_timer m := (id, orphan_generation e')]> (timers m) /\
   next_timer m' = S (next_timer m) /\ orphan_timeout e' = Some (next_timer m)) ->
  timed (n + 1) m'.
Proof.
  intros [K G T Kn Se Sp] He Hg Hs Hc Ht Hcase. pose proof (G id e He) as Ge.
  assert (old : forall k i g x, timers m !! k = Some (i, g) -> sessions m' !! i = Some x ->
    g <= orphan_generation x /\ (g = orphan_generation x -> state x = Orphaned -> orphan_timeout x = Some k)).
  { intros k i g x Hk Hx. rewrite Hs in Hx. destruct (decide (i = id)) as [-> | Hne].
    - rewrite lookup_insert_eq in Hx. injection Hx as <-. destruct (T k id g e Hk He) as [L _]. lia.
    - rewrite lookup_insert_ne in Hx by done. by eapply T. }
  split.
  - destruct Hcase as [(-> & -> & _) | (-> & -> & _)]; [done |]. intros k x.
    destruct (decide (k = next_timer m)) as [-> | Hne]; [lia |]. rewrite lookup_insert_ne by done.
    intros Hk. apply K in Hk. lia.
  - intros i x. rewrite Hs. destruct (decide (i = id)) as [-> | Hne].
    + rewrite lookup_insert_eq. intros [= <-]. lia.
    + rewrite lookup_insert_ne by done. intros Hx. apply G in Hx. lia.
  - destruct Hcase as [(-> & _ & _) | (-> & _ & Ho)]; [exact old |]. intros k i g x.
    destruct (decide (k = next_timer m)) as [-> | Hne]; [| rewrite lookup_insert_ne by done; apply old].
    rewrite lookup_insert_eq. intros [= <- <-]. rewrite Hs, lookup_insert_eq. intros [= <-]. by split.
  - rewrite Hc, Ht. destruct Hcase as [(-> & _ & _) | (-> & _ & _)]; [exact Kn |]. intros k i g.
    destruct (decide (k = next_timer m)) as [-> | Hne]; [| rewrite lookup_insert_ne by done; apply Kn].
    rewrite lookup_insert_eq. intros [= <- <-]. by eapply Se.
  - intros i x. rewrite Hs, Hc, Ht. destruct (decide (i = id)) as [-> | Hne].
    + intros _. by eapply Se.
    + rewrite lookup_insert_ne by done. apply Se.
  - by rewrite Hc, Ht.
Qed.

Lemma timed_creating n m m' id c :
  timed n m -> (creations m !! id <> None \/ tasks m !! id = None) ->
  sessions m' = sessions m -> timers m' = timers m -> next_timer m' = next_timer m ->
  creations m' = <[id := c]> (creations m) ->
  (forall i, is_Some (tasks m !! i) -> is_Some (tasks m' !! i)) ->
  (c = TaskSpawned -> is_Some (tasks m' !! id)) -> timed (n + 1) m'.
Proof.
  intros [K G T Kn Se Sp] Hid Es Et En Ec Hk Hc.
  assert (other : forall i, creations m !! i = None /\ is_Some (tasks m !! i) ->
    creations m' !! i = None /\ is_Some (tasks m' !! i)).
  { intros i [C1 C2]. rewrite Ec. destruct (decide (i = id)) as [-> | Hne].
    - destruct Hid as [Hid | Hid]; [done |]. rewrite Hid in C2. by destruct C2.
    - rewrite lookup_insert_ne by done. auto. }
  split; rewrite ?Es, ?Et, ?En; try done.
  - intros i e He. apply G in He. lia.
  - intros k i g Hx. eapply other, Kn, Hx.
  - intros i e Hx. eapply other, Se, Hx.
  - intros i. rewrite Ec. destruct (decide (i = id)) as [-> | Hne].
    + rewrite lookup_insert_eq. intros [= ->]. by apply Hc.
    + rewrite lookup_insert_ne by done. auto.
Qed.

Lemma timed_publish n m id : 0 <= n -> timed n m -> creations m !! id = Some TaskSpawned -> timed (n + 1) (publish m id).
Proof.
  intros Hn [K G T Kn Se Sp] Hc. assert (forall k i g, timers m !! k = Some (i, g) -> i <> id) as Hni.
  { intros k i g Hk ->. destruct (Kn _ _ _ Hk) as [C _]. congruence. }
  assert (is_Some (tasks m !! id)) as Hs by (by apply Sp).
  destruct m; cbn in *. split; cbn.
  - done.
  - intros i e. destruct (decide (i = id)) as [-> | Hne].
    + rewrite lookup_insert_eq. intros [= <-]. cbn. lia.
    + rewrite lookup_insert_ne by done. intros He. apply G in He. lia.
  - intros k i g e Hk. rewrite lookup_insert_ne by (intros ->; by eapply Hni). by eapply T.
  - intros k i g Hk. rewrite lookup_delete_ne by (intros ->; by eapply Hni). by eapply Kn.
  - intros i e. destruct (decide (i = id)) as [-> | Hne].
    + intros _. by rewrite lookup_delete_eq.
    + rewrite lookup_insert_ne, lookup_delete_ne by done. apply Se.
  - intros i. destruct (decide (i = id)) as [-> | Hne]; [by rewrite lookup_delete_eq |].
    rewrite lookup_delete_ne by done. apply Sp.
Qed.

Lemma set_task_known id (p : Task) (ts : gmap Z Task) i : is_Some (ts !! i) -> is_Some (<[id := p]> ts !! i).
Proof. intros H. destruct (decide (i = id)) as [-> | Hne]; [by rewrite lookup_insert_eq | by rewrite lookup_insert_ne]. Qed.

Lemma attach_timed n m id : 0 <= n < u64_max -> timed n m -> timed (n + 1) (attach_session m id).1.
Proof.
  intros Hn Ti. unfold attach_session. destruct (sessions m !! id) as [e |] eqn:He.
  2: { by eapply (timed_shrink n m). }
  destruct (bool_decide _); [| by eapply (timed_shrink n m)].
  destruct (can_send m id); [| by eapply (timed_shrink n m)].
  pose proof (ti_generation _ _ Ti _ _ He) as Ge.
  assert (wrap64 (orphan_generation e + 1) = orphan_generation e + 1) as -> by (apply Z.mod_small; mlia).
  eapply (timed_bump n m _ id e (mkSession Active None (orphan_generation e + 1))); try done.
  - destruct (orphan_timeout e); by destruct m.
  - destruct (orphan_timeout e); by destruct m.
  - destruct (orphan_timeout e); by destruct m.
  - left. destruct (orphan_timeout e); by destruct m.
Qed.

Lemma detach_timed n m id : 0 <= n < u64_max -> timed n m -> timed (n + 1) (detach_session m id).
Proof.
  intros Hn Ti. unfold detach_session. destruct (sessions m !! id) as [e |] eqn:He.
  2: { by eapply (timed_shrink n m). }
  pose proof (ti_generation _ _ Ti _ _ He) as Ge.
  assert (wrap64 (orphan_generation e + 1) = orphan_generation e + 1) as -> by (apply Z.mod_small; mlia).
  eapply (timed_bump n m _ id e (mkSession Orphaned (Some (next_timer m)) (orphan_generation e + 1))); try done.
  - destruct (can_send m id), (orphan_timeout e); by destruct m.
  - destruct (can_send m id), (orphan_timeout e); by destruct m.
  - destruct (can_send m id), (orphan_timeout e); by destruct m.
  - right. destruct (can_send m id), (orphan_timeout e); by destruct m.
Qed.

Lemma expire_timed n m k : timed n m -> timed (n + 1) (expire m k).
Proof.
  intros Ti. unfold expire. destruct (timers m !! k) as [[id g] |]; [| by eapply (timed_shrink n m)].
  destruct m as [? ss ? ? ? ? ? ? ? ti ? ? ?]; cbn.
  destruct (ss !! id) as [e |]; [destruct (_ && _) |];
    (eapply timed_shrink; [.. | exact Ti]); cbn; try done; apply delete_subseteq.
Qed.

Lemma step_timed n m m' : step m m' -> 0 <= n < u64_max -> inv m -> timed n m -> timed (n + 1) m'.
Proof.
  intros S Hn I Ti.
  destruct S as [id m' C1 C2 C3 E | id Hc | id Hc | id Hc | id Ht | id c q Ht Hq | id Ht | id Ht Ha
    | id Ht | id Ht | id Ht | id Hs | id | id Hf | id | id | k Hk | k Hk |];
    try (eapply (timed_shrink n m); try done; destruct m; cbn in *; first [done | apply delete_subseteq | apply set_task_known]).
  - unfold reserve in E. destruct (_ && _); [done |]. injection E as <-.
    eapply (timed_creating n m _ id SlotReserved); try done; [by right | by destruct m ..].
  - eapply (timed_creating n m _ id SlotStarted); try done; [left; congruence | by destruct m ..].
  - eapply (timed_creating n m _ id TaskSpawned); try done; [left; congruence | by destruct m .. | |].
    + intros i. destruct m; cbn. apply set_task_known.
    + intros _. destruct m; cbn. by rewrite lookup_insert_eq.
  - by apply timed_publish; [lia |..].
  - eapply (timed_shrink n m); try done; unfold guard_ended, session_ended; destruct (0 <? _), m; cbn; try done;
      apply set_task_known.
  - eapply (timed_shrink n m); try done; unfold destroy_session;
      (destruct (sessions m !! id) as [e |]; [destruct (can_send m id); [destruct (orphan_timeout e) |] |]; by destruct m).
  - eapply (timed_shrink n m); try done; unfold force_remove; destruct (sessions m !! id);
      try (destruct (finished _ id)); destruct m; cbn; try done; try apply delete_subseteq.
  - by apply attach_timed.
  - by apply detach_timed.
  - by apply expire_timed.
Qed.

Lemma new_timed max : timed 0 (new max).
Proof. split; cbn; intros *; rewrite ?lookup_empty; done. Qed.

Lemma steps_timed max n m : 0 <= max -> nsteps step n (new max) m -> Z.of_nat n <= u64_max ->
  inv m /\ timed (Z.of_nat n) m.
Proof.
  intros Hmax. revert m. induction n as [| n IH]; intros m R Hn.
  - inversion R; subst. split; [by apply new_inv | apply new_timed].
  - apply nsteps_inv_r in R as (y & R & St). destruct (IH y R) as [I Ti]; [lia |].
    replace (Z.of_nat (S n)) with (Z.of_nat n + 1) by lia.
    split; [by eapply manager_step_inv | by eapply step_timed; [.. | lia | |]].
Qed.

(** C36: only the timer of the latest disconnection destroys a session.  In any
    run of fewer than 2^64 steps, when the end of an orphan timer removes a
    session, the session is orphaned and the timer is the one its last
    disconnection started: a session that was attached again survives every
    earlier timer, also one whose cancellation came too late, and so does one
    that was attached and disconnected again. *)
Theorem stale_timers_harmless max n m k id e
  (Hmax : 0 <= max) (reached : nsteps step n (new max) m) (Hn : Z.of_nat n <= u64_max)
  (Hlive : sessions m !! id = Some e) (Hgone : sessions (expire m k) !! id = None) :
  state e = Orphaned /\ orphan_timeout e = Some k.
Proof.
  destruct (steps_timed max n m Hmax reached Hn) as [_ [_ _ T _ _ _]].
  unfold expire in Hgone. destruct (timers m !! k) as [[i g] |] eqn:Hk; [| congruence].
  destruct (decide (i = id)) as [-> | Hne].
  - destruct (T k id g e Hk Hlive) as [_ H]. destruct m; cbn in *. rewrite Hlive in Hgone.
    destruct (bool_decide (state e = Orphaned)) eqn:Ho; cbn in Hgone; [| congruence].
    apply bool_decide_eq_true in Ho. split; [done |]. apply H; [| done].
    destruct (Z.eqb_spec (orphan_generation e) g) as [Eg | Eg]; [done |]. cbn in Hgone. congruence.
  - destruct m as [? ss ? ? ? ? ? ? ? ti ? ? ?]; cbn in *. destruct (ss !! i) as [x |]; [| cbn in Hgone; congruence].
    destruct (_ && _); cbn in Hgone; [| congruence]. by rewrite lookup_delete_ne, Hlive in Hgone.
Qed.

(** A session disconnected, attached and disconnected again: two timers. *)
Definition twice_orphaned : t :=
  let m1 := default (new 1) (reserve (new 1) 7) in
  let m4 := publish (spawn (start m1 7) 7) 7 in
  detach_session (attach_session (detach_session m4 7) 7).1 7.

Lemma stale_timers_harmless_witness :
  orphan_timeout (mkSession Orphaned (Some 1%nat) 3) = Some 1%nat.
Proof.
  assert (R : nsteps step 7 (new 1) twice_orphaned).
  { eapply nsteps_l; [by apply (s_reserve _ 7) |]. eapply nsteps_l; [by apply (s_start _ 7) |].
    eapply nsteps_l; [by apply (s_spawn _ 7) |]. eapply nsteps_l; [by apply (s_publish _ 7) |].
    eapply nsteps_l; [by apply (s_detach _ 7) |]. eapply nsteps_l; [by apply (s_attach _ 7) |].
    eapply nsteps_l; [by apply (s_detach _ 7) |]. apply nsteps_O. }
  exact (proj2 (stale_timers_harmless 1 7 twice_orphaned 1 7 (mkSession Orphaned (Some 1%nat) 3)
    ltac:(lia) R ltac:(done) ltac:(by vm_compute) ltac:(by vm_compute))).
Defined.

End Manager.
