(* ===== verification/Download.v ===== *)
(** Where playback files may be fetched from ([playback/download_policy.rs]).

    URLs, HTTP headers and requests, name resolution and the matching of CIDR
    networks are third-party code: an interface each.  The bound on concurrent
    resolver threads is not modelled. *)

From Stdlib Require Import Ascii Sorted.
From stdpp Require Import strings.
From S2P Require Import Prelude SocketPool.
#[local] Open Scope Z_scope.

Module Download.
Import SocketPool(IpAddr, V4, V6).

(** ** CIDR notation

    The notation of a network, which says what [contains] is to decide:
    dotted quads and IPv6 prefixes ending in [::]. *)

Record Prefix := mkPrefix { is_v6 : bool; base : Z; plen : Z }.

Definition digit_value (c : Ascii.ascii) : option Z :=
  let n := Z.of_nat (Ascii.nat_of_ascii c) in
  if (48 <=? n) && (n <=? 57) then Some (n - 48)
  else if (97 <=? n) && (n <=? 102) then Some (n - 87) else None.

Fixpoint number_from (radix acc : Z) (s : string) : option Z :=
  match s with
  | EmptyString => Some acc
  | String c s =>
      d ← digit_value c;
      if d <? radix then number_from radix (radix * acc + d) s else None
  end.
Definition number (radix : Z) (s : string) : option Z :=
  match s with EmptyString => None | _ => number_from radix 0 s end.

(** The pieces of [s] between the separators. *)
Fixpoint split_on (sep : Ascii.ascii) (s : string) : list string :=
  match s with
  | EmptyString => [EmptyString]
  | String c s =>
      if Ascii.eqb c sep then EmptyString :: split_on sep s
      else match split_on sep s with
           | p :: ps => String c p :: ps
           | [] => [String c EmptyString]
           end
  end.

Definition dotted_quad (s : string) : option Z :=
  match split_on "."%char s with
  | [a; b; c; d] =>
      a ← number 10 a; b ← number 10 b; c ← number 10 c; d ← number 10 d;
      if (a <? 256) && (b <? 256) && (c <? 256) && (d <? 256)
      then Some (((a * 256 + b) * 256 + c) * 256 + d) else None
  | _ => None
  end.

(** Groups of 16 bits from the left; [::] fills the rest with zeros. *)
Fixpoint groups (left : Z) (gs : list string) : option Z :=
  match gs with
  | [EmptyString; EmptyString] => Some 0
  | g :: gs =>
      if left =? 0 then None
      else g ← number 16 g; r ← groups (left - 1) gs; Some (Z.shiftl g (16 * (left - 1)) + r)
  | [] => None
  end.

Definition cidr (s : string) : option Prefix :=
  match split_on "/"%char s with
  | [a; n] =>
      n ← number 10 n;
      match dotted_quad a with
      | Some b => if n <=? 32 then Some (mkPrefix false b n) else None
      | None => b ← groups 8 (split_on ":"%char a); if n <=? 128 then Some (mkPrefix true b n) else None
      end
  | _ => None
  end.

Definition in_prefix (p : Prefix) (a : IpAddr) : bool :=
  match a with
  | V4 x => negb (is_v6 p) && (Z.shiftr x (32 - plen p) =? Z.shiftr (base p) (32 - plen p))
  | V6 x => is_v6 p && (Z.shiftr x (128 - plen p) =? Z.shiftr (base p) (128 - plen p))
  end.

(** The [ipnet] crate. *)
Class IpNets := {
  IpNet : Type;
  parse_net : string -> option IpNet;
  contains : IpNet -> IpAddr -> bool;
  parse_net_contains : forall s p, cidr s = Some p ->
    exists net, parse_net s = Some net /\ forall a, contains net a = in_prefix p a;
}.

(** The [url] crate. *)
Inductive Host := Domain (d : string) | Ipv4 (a : Z) | Ipv6 (a : Z).

Class Urls := {
  Url : Type;
  url_parse : string -> option Url;
  join : Url -> string -> option Url;
  as_str : Url -> string;
  scheme : Url -> string;
  username : Url -> string;
  password : Url -> option string;
  host : Url -> option Host;
  host_str : Url -> option string;
  port_or_known_default : Url -> option Z;
  path : Url -> string;
  query : Url -> option string;
  fragment : Url -> option string;
  Origin : Type;
  Origin_eq_dec :: EqDecision Origin;
  origin : Url -> Origin;
  ascii_serialization : Origin -> string;
}.

Section download.
Context {N : IpNets} {U : Urls}.

Inductive download_error :=
| InvalidOriginUrl | OriginWithPath | InvalidUrl | BadUrl | OriginNotAllowed | NoHost | NoPort
| DnsFailed | AddressNotAllowed | ClientFailed | InvalidHeaderName | ForbiddenHeader
| InvalidHeaderValue | RequestFailed | RedirectLimit | InvalidRedirect | Downgrade | Status (code : Z).

Record DownloadPolicy := mkPolicy {
  origins : list string;
  networks : list IpNet;
  loopback_only : bool;
}.

Definition validate_url (u : Url) : result download_error unit :=
  if negb (String.eqb (scheme u) "http" || String.eqb (scheme u) "https")
     || negb (bool_decide (is_Some (host u)))
     || negb (String.eqb (username u) "")
     || bool_decide (is_Some (password u))
     || bool_decide (is_Some (fragment u))
  then Err BadUrl else Ok tt.

Fixpoint normalize (os : list string) : result download_error (list string) :=
  match os with
  | [] => Ok []
  | o :: os =>
      match url_parse o with
      | None => Err InvalidOriginUrl
      | Some u =>
          match validate_url u with
          | Err e => Err e
          | Ok _ =>
              if negb (String.eqb (path u) "/") || bool_decide (is_Some (query u))
                 || bool_decide (is_Some (fragment u))
              then Err OriginWithPath
              else match normalize os with
                   | Err e => Err e
                   | Ok ns => Ok (ascii_serialization (origin u) :: ns)
                   end
          end
      end
  end.

Definition new (os : list string) (nets : list IpNet) : result download_error DownloadPolicy :=
  match normalize os with Err e => Err e | Ok ns => Ok (mkPolicy ns nets false) end.

Definition loopback_only_policy : DownloadPolicy := mkPolicy [] [] true.

(** [std::net]. *)
Definition to_canonical (a : IpAddr) : IpAddr :=
  match a with
  | V4 _ => a
  | V6 x => if Z.shiftr x 32 =? 65535 then V4 (x mod 4294967296) else a
  end.
Definition is_loopback (a : IpAddr) : bool :=
  match a with V4 x => Z.shiftr x 24 =? 127 | V6 x => x =? 1 end.

Definition literal_loopback (u : Url) : bool :=
  match host u with
  | Some (Ipv4 a) => is_loopback (V4 a)
  | Some (Ipv6 a) => is_loopback (to_canonical (V6 a))
  | _ => false
  end.

Definition validate (p : DownloadPolicy) (raw : string) : result download_error Url :=
  match url_parse raw with
  | None => Err InvalidUrl
  | Some u =>
      match validate_url u with
      | Err e => Err e
      | Ok _ =>
          if bool_decide (ascii_serialization (origin u) ∈ origins p) || (loopback_only p && literal_loopback u)
          then Ok u else Err OriginNotAllowed
      end
  end.

Definition V4_DENY : list string :=
  ["0.0.0.0/8"; "10.0.0.0/8"; "100.64.0.0/10"; "127.0.0.0/8"; "169.254.0.0/16"; "172.16.0.0/12";
   "192.0.0.0/24"; "192.0.2.0/24"; "192.168.0.0/16"; "198.18.0.0/15"; "198.51.100.0/24";
   "203.0.113.0/24"; "224.0.0.0/4"; "240.0.0.0/4"]%string.

(** [s.parse::<IpNet>().expect(..).contains(&ip)] *)
Definition net_has (s : string) (a : IpAddr) : outcome bool :=
  match parse_net s with Some n => Val (contains n a) | None => Panic end.

(** [iter().any] over networks in notation. *)
Fixpoint any_net (ss : list string) (a : IpAddr) : outcome bool :=
  match ss with
  | [] => Val false
  | s :: ss => let! b := net_has s a in if b then Val true else any_net ss a
  end.

Definition public_address (a : IpAddr) : outcome bool :=
  match a with
  | V4 _ => let! d := any_net V4_DENY a in Val (negb d)
  | V6 _ =>
      let! g := net_has "2000::/3" a in
      if g then let! d := any_net ["2001::/23"; "2001:db8::/32"; "2002::/16"]%string a in Val (negb d)
      else Val false
  end.

Definition allowed_ip (p : DownloadPolicy) (a : IpAddr) : outcome bool :=
  let a := to_canonical a in
  if loopback_only p then Val (is_loopback a)
  else if existsb (fun n => contains n a) (networks p) then Val true
  else public_address a.

(** [addresses.iter().any(|a| !allowed_ip(a.ip()))] *)
Fixpoint any_forbidden (p : DownloadPolicy) (xs : list (IpAddr * Z)) : outcome bool :=
  match xs with
  | [] => Val false
  | x :: xs => let! b := allowed_ip p x.1 in if b then any_forbidden p xs else Val true
  end.

(** ** Fetching *)

Record Request := mkRequest {
  req_url : Url;
  pinned : list (IpAddr * Z);
  req_headers : list (string * string);
}.
Record Response := mkResponse { status : Z; location : option string }.

(** The [reqwest] client and the system's resolver, at each hop. *)
Record World := mkWorld {
  to_socket_addrs : Z -> string -> Z -> option (list (IpAddr * Z));
  client_builds : Z -> bool;
  header_name : string -> option string;
  header_value : string -> option string;
  send : Z -> Request -> option Response;
}.
Variable W : World.

Definition resolve (hop : Z) (u : Url) : result download_error (list (IpAddr * Z)) :=
  match host_str u with
  | None => Err NoHost
  | Some h =>
      match port_or_known_default u with
      | None => Err NoPort
      | Some port =>
          match host u with
          | Some (Ipv4 a) => Ok [(V4 a, port)]
          | Some (Ipv6 a) => Ok [(V6 a, port)]
          | _ => match to_socket_addrs W hop h port with
                 | Some xs => Ok (take 64 xs)
                 | None => Err DnsFailed
                 end
          end
      end
  end.

Definition forbidden_header (name : string) : bool :=
  bool_decide (name ∈ ["host"; "connection"; "content-length"; "transfer-encoding"; "upgrade"; "forwarded";
                       "proxy-authorization"]%string)
  || String.prefix "x-forwarded-" name.

Fixpoint add_headers (hs : list (string * string)) : result download_error (list (string * string)) :=
  match hs with
  | [] => Ok []
  | (name, value) :: hs =>
      match header_name W name with
      | None => Err InvalidHeaderName
      | Some n =>
          if forbidden_header n then Err ForbiddenHeader
          else match header_value W value with
               | None => Err InvalidHeaderValue
               | Some v =>
                   match add_headers hs with Err e => Err e | Ok r => Ok ((n, v) :: r) end
               end
      end
  end.

Definition is_redirection (code : Z) : bool := (300 <=? code) && (code <? 400).
Definition is_success (code : Z) : bool := (200 <=? code) && (code <? 300).

(** One pass of the loop's body up to the answer: the request sent. *)
Definition request (p : DownloadPolicy) (hop : Z) (u : Url) (headers : list (string * string))
    : outcome (result download_error Request) :=
  match resolve hop u with
  | Err e => Val (Err e)
  | Ok addresses =>
      let! forbidden := any_forbidden p addresses in
      if bool_decide (addresses = []) || forbidden then Val (Err AddressNotAllowed)
      else if negb (client_builds W hop) then Val (Err ClientFailed)
      else match add_headers headers with
           | Err e => Val (Err e)
           | Ok hs => Val (Ok (mkRequest u addresses hs))
           end
  end.

(** The redirect to follow. *)
Definition redirect (p : DownloadPolicy) (u : Url) (r : Response) : result download_error Url :=
  match location r with
  | None => Err InvalidRedirect
  | Some l =>
      match join u l with
      | None => Err InvalidRedirect
      | Some next =>
          match validate p (as_str next) with
          | Err e => Err e
          | Ok next =>
              if String.eqb (scheme u) "https" && negb (String.eqb (scheme next) "https") then Err Downgrade
              else Ok next
          end
      end
  end.

(** [for hop in 0..=5]: the requests sent and the result; [Panic] is the
    [unreachable!] after the loop. *)
Fixpoint hops (fuel : nat) (p : DownloadPolicy) (hop : Z) (u : Url) (forward : bool)
    (headers : list (string * string)) : list Request * outcome (result download_error Response) :=
  match fuel with
  | O => ([], Panic)
  | S fuel =>
      match request p hop u (if forward then headers else []) with
      | Panic => ([], Panic)
      | Val (Err e) => ([], Val (Err e))
      | Val (Ok q) =>
          match send W hop q with
          | None => ([q], Val (Err RequestFailed))
          | Some r =>
              if is_redirection (status r) then
                if hop =? 5 then ([q], Val (Err RedirectLimit))
                else match redirect p u r with
                     | Err e => ([q], Val (Err e))
                     | Ok next =>
                         let '(qs, res) :=
                           hops fuel p (hop + 1) next (forward && bool_decide (origin next = origin u)) headers in
                         (q :: qs, res)
                     end
              else if is_success (status r) then ([q], Val (Ok r))
              else ([q], Val (Err (Status (status r))))
          end
      end
  end.

Definition response (p : DownloadPolicy) (raw : string) (headers : option (list (string * string)))
    : list Request * outcome (result download_error Response) :=
  match validate p raw with
  | Err e => ([], Val (Err e))
  | Ok u => hops 6 p 0 u true (default [] headers)
  end.

(** ** Addresses that are refused *)

Lemma net_has_val s p a : cidr s = Some p -> net_has s a = Val (in_prefix p a).
Proof. intros (n & Hn & Hc)%parse_net_contains. unfold net_has. by rewrite Hn, Hc. Qed.

(** A prefix is a range. *)
Definition lo (w : Z) (p : Prefix) : Z := Z.shiftr (base p) (w - plen p) * 2 ^ (w - plen p).
Definition hi (w : Z) (p : Prefix) : Z := lo w p + 2 ^ (w - plen p) - 1.
Definition in_range (x : Z) (r : Z * Z) : bool := (r.1 <=? x) && (x <=? r.2).

Lemma shiftr_range x k c : 0 <= k -> (Z.shiftr x k =? c) = in_range x (c * 2 ^ k, c * 2 ^ k + 2 ^ k - 1).
Proof.
  intros Hk. unfold in_range; cbn. rewrite Z.shiftr_div_pow2 by done.
  assert (0 < 2 ^ k) by (by apply Z.pow_pos_nonneg). apply eq_iff_eq_true.
  rewrite andb_true_iff, Z.eqb_eq, !Z.leb_le. split; [intros <- | intros [? ?]].
  - pose proof (Z.mul_div_le x (2 ^ k)). pose proof (Z.mul_succ_div_gt x (2 ^ k)). lia.
  - symmetry. apply (Z.div_unique x (2 ^ k) c (x - c * 2 ^ k)); lia.
Qed.

Lemma in_prefix_v4 p x :
  plen p <= 32 -> is_v6 p = false -> in_prefix p (V4 x) = in_range x (lo 32 p, hi 32 p).
Proof. intros Hl Hv. cbn. rewrite Hv. apply shiftr_range. lia. Qed.
Lemma in_prefix_v6 p x :
  plen p <= 128 -> is_v6 p = true -> in_prefix p (V6 x) = in_range x (lo 128 p, hi 128 p).
Proof. intros Hl Hv. cbn. rewrite Hv. apply shiftr_range. lia. Qed.

Definition ip4 (a b c d : Z) : Z := ((a * 256 + b) * 256 + c) * 256 + d.
Definition ip6 (a b : Z) (rest : Z) : Z := a * 2 ^ 112 + b * 2 ^ 96 + rest.

(** The code's own lists, as ranges. *)
Definition v4_special : list (Z * Z) :=
  [(ip4 0 0 0 0, ip4 0 255 255 255); (ip4 10 0 0 0, ip4 10 255 255 255);
   (ip4 100 64 0 0, ip4 100 127 255 255); (ip4 127 0 0 0, ip4 127 255 255 255);
   (ip4 169 254 0 0, ip4 169 254 255 255); (ip4 172 16 0 0, ip4 172 31 255 255);
   (ip4 192 0 0 0, ip4 192 0 0 255); (ip4 192 0 2 0, ip4 192 0 2 255);
   (ip4 192 168 0 0, ip4 192 168 255 255); (ip4 198 18 0 0, ip4 198 19 255 255);
   (ip4 198 51 100 0, ip4 198 51 100 255); (ip4 203 0 113 0, ip4 203 0 113 255);
   (ip4 224 0 0 0, ip4 239 255 255 255); (ip4 240 0 0 0, ip4 255 255 255 255)].

Definition v6_special : list (Z * Z) :=
  [(ip6 0x2001 0 0, ip6 0x2001 0x1ff (2 ^ 96 - 1)); (ip6 0x2001 0xdb8 0, ip6 0x2001 0xdb8 (2 ^ 96 - 1));
   (ip6 0x2002 0 0, ip6 0x2002 0xffff (2 ^ 96 - 1))].

Definition global (a : IpAddr) : bool :=
  match a with
  | V4 x => negb (existsb (in_range x) v4_special)
  | V6 x => in_range x (ip6 0x2000 0 0, ip6 0x3fff 0xffff (2 ^ 96 - 1)) && negb (existsb (in_range x) v6_special)
  end.

(** A list of networks in notation, as ranges. *)
Lemma any_net_ranges w v6 ss rs a x :
  (forall p, plen p <= w -> is_v6 p = v6 -> in_prefix p a = in_range x (lo w p, hi w p)) ->
  forallb (fun s => match cidr s with Some p => (plen p <=? w) && Bool.eqb (is_v6 p) v6 | None => false end) ss
    = true ->
  map (fun p => (lo w p, hi w p)) (omap cidr ss) = rs ->
  any_net ss a = Val (existsb (in_range x) rs).
Proof.
  intros Hp Hss <-. induction ss as [| s ss IH]; [done |]. cbn in Hss |- *.
  destruct (cidr s) as [p |] eqn:E; [| done]. apply andb_true_iff in Hss as [[Hl%Z.leb_le Hv%eqb_prop]%andb_true_iff Hss].
  rewrite (net_has_val s p a E), (Hp p Hl Hv); cbn. rewrite (IH Hss). by destruct (in_range _ _).
Qed.

Lemma public_address_global a : public_address a = Val (global a).
Proof.
  destruct a as [x | x]; unfold public_address, global.
  - by rewrite (any_net_ranges 32 false _ v4_special _ x (fun p => in_prefix_v4 p x)) by (by vm_compute).
  - rewrite (net_has_val _ (mkPrefix true (0x2000 * 2 ^ 112) 3)) by (by vm_compute). cbn [obind].
    rewrite in_prefix_v6 by done.
    replace (lo 128 _, hi 128 _) with (ip6 0x2000 0 0, ip6 0x3fff 0xffff (2 ^ 96 - 1)) by (by vm_compute).
    destruct (in_range x _); [| done].
    by rewrite (any_net_ranges 128 true _ v6_special _ x (fun p => in_prefix_v6 p x)) by (by vm_compute).
Qed.

(** *** The registries

    IANA's registries of special-purpose addresses (RFC 6890, RFC 8190 and the
    later entries), with whether a block is globally reachable, and the multicast
    blocks. *)
Inductive reach := Reachable | Unreachable | NotApplicable.
Definition b4 (a b c d n : Z) (r : reach) : Prefix * reach := (mkPrefix false (ip4 a b c d) n, r).
Definition b6 (a b c d n : Z) (r : reach) : Prefix * reach :=
  (mkPrefix true (ip6 a b (c * 2 ^ 80 + d * 2 ^ 64)) n, r).

Definition special_v4 : list (Prefix * reach) :=
  [b4 0 0 0 0 8 Unreachable; b4 0 0 0 0 32 Unreachable (* this network *);
   b4 10 0 0 0 8 Unreachable (* private *); b4 100 64 0 0 10 Unreachable (* shared *);
   b4 127 0 0 0 8 Unreachable (* loopback *); b4 169 254 0 0 16 Unreachable (* link local *);
   b4 172 16 0 0 12 Unreachable (* private *);
   b4 192 0 0 0 24 Unreachable (* protocol assignments *); b4 192 0 0 0 29 Unreachable (* IPv4 continuity *);
   b4 192 0 0 8 32 Unreachable (* dummy *); b4 192 0 0 9 32 Reachable (* PCP anycast *);
   b4 192 0 0 10 32 Reachable (* TURN anycast *);
   b4 192 0 0 170 32 Unreachable; b4 192 0 0 171 32 Unreachable (* NAT64 discovery *);
   b4 192 0 2 0 24 Unreachable (* documentation *); b4 192 31 196 0 24 Reachable (* AS112 *);
   b4 192 52 193 0 24 Reachable (* AMT *); b4 192 88 99 0 24 NotApplicable (* 6to4 relays, deprecated *);
   b4 192 88 99 2 32 Unreachable (* 6a44 relay *); b4 192 168 0 0 16 Unreachable (* private *);
   b4 192 175 48 0 24 Reachable (* AS112 *); b4 198 18 0 0 15 Unreachable (* benchmarking *);
   b4 198 51 100 0 24 Unreachable; b4 203 0 113 0 24 Unreachable (* documentation *);
   b4 224 0 0 0 4 NotApplicable (* multicast *); b4 240 0 0 0 4 Unreachable (* reserved *);
   b4 255 255 255 255 32 Unreachable (* broadcast *)].

Definition special_v6 : list (Prefix * reach) :=
  [(mkPrefix true 1 128, Unreachable) (* loopback *); b6 0 0 0 0 128 Unreachable (* unspecified *);
   (mkPrefix true (0xffff * 2 ^ 32) 96, Unreachable) (* IPv4-mapped *);
   b6 0x64 0xff9b 0 0 96 Reachable; b6 0x64 0xff9b 1 0 48 Unreachable (* translation *);
   b6 0x100 0 0 0 64 Unreachable; b6 0x100 0 0 1 64 Unreachable (* discard, dummy *);
   b6 0x2001 0 0 0 23 Unreachable (* protocol assignments *); b6 0x2001 0 0 0 32 NotApplicable (* Teredo *);
   (mkPrefix true (ip6 0x2001 1 1) 128, Reachable); (mkPrefix true (ip6 0x2001 1 2) 128, Reachable);
   (mkPrefix true (ip6 0x2001 1 3) 128, Reachable) (* PCP, TURN, DNS-SD anycast *);
   b6 0x2001 2 0 0 48 Unreachable (* benchmarking *); b6 0x2001 3 0 0 32 Reachable (* AMT *);
   b6 0x2001 4 0x112 0 48 Reachable (* AS112 *); b6 0x2001 0x10 0 0 28 Unreachable (* ORCHID *);
   b6 0x2001 0x20 0 0 28 Reachable (* ORCHIDv2 *); b6 0x2001 0x30 0 0 28 Reachable (* drone identifiers *);
   b6 0x2001 0xdb8 0 0 32 Unreachable (* documentation *); b6 0x2002 0 0 0 16 NotApplicable (* 6to4 *);
   b6 0x2620 0x4f 0x8000 0 48 Reachable (* AS112 *); b6 0x3fff 0 0 0 20 Unreachable (* documentation *);
   b6 0x5f00 0 0 0 16 Unreachable (* segment routing *); b6 0xfc00 0 0 0 7 Unreachable (* unique local *);
   b6 0xfe80 0 0 0 10 Unreachable (* link local *); b6 0xff00 0 0 0 8 NotApplicable (* multicast *)].

(** What is not globally reachable and yet accepted. *)
Definition accepted_special : list (Prefix * reach) :=
  [b4 192 88 99 0 24 NotApplicable; b4 192 88 99 2 32 Unreachable; b6 0x3fff 0 0 0 20 Unreachable].

(** IPv6's global unicast addresses. *)
Definition unicast_v6 : Prefix := mkPrefix true (ip6 0x2000 0 0) 3.

(** *** Ranges within ranges *)
Definition within (r q : Z * Z) : bool := (q.1 <=? r.1) && (r.2 <=? q.2).
Definition apart (r q : Z * Z) : bool := (r.2 <? q.1) || (q.2 <? r.1).

Lemma within_in x r q : within r q = true -> in_range x r = true -> in_range x q = true.
Proof. unfold within, in_range. rewrite !andb_true_iff, !Z.leb_le. lia. Qed.
Lemma apart_in x r q : apart r q = true -> in_range x r = true -> in_range x q = false.
Proof.
  unfold apart, in_range. rewrite orb_true_iff, andb_true_iff, !Z.ltb_lt, !Z.leb_le.
  destruct (Z.leb_spec q.1 x), (Z.leb_spec x q.2); try done. lia.
Qed.
Lemma existsb_within x r qs :
  existsb (within r) qs = true -> in_range x r = true -> existsb (in_range x) qs = true.
Proof.
  intros (q & Hq & Hw)%existsb_exists Hx. apply existsb_exists. exists q. split; [done | by eapply within_in].
Qed.

(** Every block of the registry is well formed, and refused unless it is
    reachable or among the accepted ones. *)
Definition range_of (w : Z) (p : Prefix) : Z * Z := (lo w p, hi w p).
Definition spared (e : Prefix * reach) : bool :=
  match e.2 with Reachable => true | _ => false end ||
  existsb (fun q => Bool.eqb (is_v6 q.1) (is_v6 e.1) && (base q.1 =? base e.1) && (plen q.1 =? plen e.1))
    accepted_special.
Definition unicast : Z * Z := (ip6 0x2000 0 0, ip6 0x3fff 0xffff (2 ^ 96 - 1)).

Lemma v4_blocks_refused : forallb (fun e => negb (is_v6 e.1) && (plen e.1 <=? 32) &&
  (spared e || existsb (within (range_of 32 e.1)) v4_special)) special_v4 = true.
Proof. by vm_compute. Qed.
Lemma v6_blocks_refused : forallb (fun e => is_v6 e.1 && (plen e.1 <=? 128) &&
  (spared e || apart (range_of 128 e.1) unicast || existsb (within (range_of 128 e.1)) v6_special)) special_v6 = true.
Proof. by vm_compute. Qed.
(** Every range of the code is a block of the registry. *)
Lemma v4_ranges_special : forallb (fun r => existsb (within r) (map (fun e => range_of 32 e.1) special_v4)) v4_special = true.
Proof. by vm_compute. Qed.
Lemma v6_ranges_special : forallb (fun r => existsb (within r) (map (fun e => range_of 128 e.1) special_v6)) v6_special = true.
Proof. by vm_compute. Qed.

Lemma spared_spec e :
  In e (special_v4 ++ special_v6) -> spared e = true -> e.2 = Reachable \/ In e accepted_special.
Proof.
  assert (D : Forall (fun e => spared e = true -> e.2 = Reachable \/ In e accepted_special) (special_v4 ++ special_v6)).
  { repeat (constructor; [intros S; first [by left | by vm_compute in S | right; cbn; tauto] |]). constructor. }
  rewrite Forall_forall in D. intros Hin. apply D. by apply list_elem_of_In.
Qed.

Lemma in_prefix_range e x :
  (In e special_v4 -> in_prefix e.1 (V4 x) = in_range x (range_of 32 e.1) /\ in_prefix e.1 (V6 x) = false) /\
  (In e special_v6 -> in_prefix e.1 (V6 x) = in_range x (range_of 128 e.1) /\ in_prefix e.1 (V4 x) = false).
Proof.
  split; intros Hin; [pose proof v4_blocks_refused as R | pose proof v6_blocks_refused as R];
    rewrite forallb_forall in R; specialize (R e Hin); apply andb_true_iff in R as [[Hv Hl%Z.leb_le]%andb_true_iff _].
  - apply negb_true_iff in Hv. split; [by apply in_prefix_v4 | cbn; by rewrite Hv].
  - split; [by apply in_prefix_v6 | cbn; by rewrite Hv].
Qed.

(** What the code accepts is in no block that is not spared. *)
Lemma global_not_special a e :
  global a = true -> In e (special_v4 ++ special_v6) -> in_prefix e.1 a = true -> spared e = true.
Proof.
  intros G [Hin | Hin]%in_app_or Hp; destruct a as [x | x]; destruct (in_prefix_range e x) as [R4 R6];
    try (destruct (R4 Hin) as [E1 E2]); try (destruct (R6 Hin) as [E1 E2]); try congruence; rewrite E1 in Hp.
  - pose proof v4_blocks_refused as R. rewrite forallb_forall in R. specialize (R e Hin).
    apply andb_true_iff in R as [_ [R | R]%orb_true_iff]; [done |]. cbn [global] in G.
    by rewrite (existsb_within x _ _ R Hp) in G.
  - pose proof v6_blocks_refused as R. rewrite forallb_forall in R. specialize (R e Hin). cbn [global] in G. fold unicast in G.
    apply andb_true_iff in R as [_ [[R | R]%orb_true_iff | R]%orb_true_iff]; [done | |].
    + by rewrite (apart_in x _ _ R Hp) in G.
    + rewrite (existsb_within x _ _ R Hp) in G. by rewrite andb_false_r in G.
Qed.

(** What the code refuses is special or not global unicast. *)
Lemma not_global_special a :
  global a = false ->
  (exists e, In e (special_v4 ++ special_v6) /\ in_prefix e.1 a = true) \/
  (exists x, a = V6 x /\ in_prefix unicast_v6 (V6 x) = false).
Proof.
  assert (K : forall x w rs blocks, forallb (fun r => existsb (within r) (map (fun e => range_of w e.1) blocks)) rs = true ->
    existsb (in_range x) rs = true -> exists e : Prefix * reach, In e blocks /\ in_range x (range_of w e.1) = true).
  { intros x w rs blocks C (r & Hr & Hx)%existsb_exists. rewrite forallb_forall in C.
    pose proof (existsb_within x r _ (C r Hr) Hx) as (q & Hq & Hxq)%existsb_exists.
    apply in_map_iff in Hq as (e & <- & He). by exists e. }
  destruct a as [x | x]; cbn [global].
  - intros G%negb_false_iff. left. destruct (K x 32 _ _ v4_ranges_special G) as (e & He & Hx).
    exists e. split; [apply in_or_app; by left |]. destruct (in_prefix_range e x) as [R _].
    destruct (R He) as [-> _]. done.
  - intros [G | G%negb_false_iff]%andb_false_iff.
    + right. exists x. split; [done |]. by rewrite in_prefix_v6.
    + left. destruct (K x 128 _ _ v6_ranges_special G) as (e & He & Hx).
      exists e. split; [apply in_or_app; by right |]. destruct (in_prefix_range e x) as [_ R].
      destruct (R He) as [-> _]. done.
Qed.

(** C30: downloads do not reach special-purpose addresses.  Outside the networks
    configured as trusted, an address is accepted only if no block of IANA's
    special-purpose registries that is not globally reachable, nor a multicast
    block, has it, written as an IPv4 address or as an IPv4-mapped IPv6 address;
    with two exceptions, which are accepted: the deprecated 6to4 relays of
    192.88.99.0/24 and the documentation block 3fff::/20.  And an address is
    refused only if some block of the registries or of multicast has it, or it is
    an IPv6 address outside global unicast. *)
Theorem special_purpose_refused p a :
  loopback_only p = false -> existsb (fun n => contains n (to_canonical a)) (networks p) = false ->
  exists b, allowed_ip p a = Val b /\
    (b = true -> forall e, In e (special_v4 ++ special_v6) -> in_prefix e.1 (to_canonical a) = true ->
       e.2 = Reachable \/ In e accepted_special) /\
    (b = false ->
       (exists e, In e (special_v4 ++ special_v6) /\ in_prefix e.1 (to_canonical a) = true) \/
       (exists x, to_canonical a = V6 x /\ in_prefix unicast_v6 (V6 x) = false)).
Proof.
  intros Hl Hn. exists (global (to_canonical a)). unfold allowed_ip. rewrite Hl, Hn. split_and!.
  - apply public_address_global.
  - intros G e He Hp. apply spared_spec; [done |]. by eapply global_not_special.
  - apply not_global_special.
Qed.

(** ** Requests *)

Lemma any_forbidden_val p xs : exists b, any_forbidden p xs = Val b.
Proof.
  induction xs as [| x xs [b IH]]; [by exists false |]. cbn. unfold allowed_ip.
  destruct (loopback_only p); [| destruct (existsb _ _)]; rewrite ?public_address_global; cbn.
  - destruct (is_loopback _); eauto.
  - eauto.
  - destruct (global _); eauto.
Qed.

Lemma any_forbidden_none p xs :
  any_forbidden p xs = Val false -> Forall (fun x => allowed_ip p x.1 = Val true) xs.
Proof.
  induction xs as [| x xs IH]; [by constructor |]. cbn. destruct (allowed_ip p x.1) as [[] |] eqn:E; cbn; try done.
  intros H. constructor; auto.
Qed.

Lemma add_headers_safe hs r : add_headers hs = Ok r -> Forall (fun h => forbidden_header h.1 = false) r.
Proof.
  revert r. induction hs as [| [name value] hs IH]; cbn; intros r H; [simplify_eq; constructor |].
  destruct (header_name W name) as [n |]; [| done]. destruct (forbidden_header n) eqn:F; [done |].
  destruct (header_value W value); [| done]. destruct (add_headers hs); simplify_eq. constructor; auto.
Qed.

(** The URL was allowed: one of the configured origins, or literal loopback for
    local fixtures. *)
Definition approved (p : DownloadPolicy) (u : Url) : Prop :=
  validate_url u = Ok tt /\
  (ascii_serialization (origin u) ∈ origins p \/ (loopback_only p = true /\ literal_loopback u = true)).

Lemma validate_approved p raw u : validate p raw = Ok u -> approved p u.
Proof.
  unfold validate, approved. destruct (url_parse raw) as [u' |]; [| done].
  destruct (validate_url u') as [[] |] eqn:V; [| done].
  destruct (_ || _) eqn:E; [| done]. intros [= <-]. split; [done |].
  apply orb_true_iff in E as [E%bool_decide_eq_true | [? ?]%andb_true_iff]; auto.
Qed.

Lemma redirect_approved p u r next :
  redirect p u r = Ok next ->
  approved p next /\ (scheme u = "https"%string -> scheme next = "https"%string).
Proof.
  unfold redirect. destruct (location r); [| done]. destruct (join u _); [| done].
  destruct (validate p _) as [n |] eqn:V; [| done]. apply validate_approved in V.
  destruct (_ && _) eqn:E; [done |]. intros [= <-]. split; [done |]. intros Hs.
  apply andb_false_iff in E as [E | E%negb_false_iff%String.eqb_eq]; [by rewrite Hs in E | done].
Qed.

Lemma request_sent p hop u hs q :
  request p hop u hs = Val (Ok q) ->
  req_url q = u /\ pinned q <> [] /\ Forall (fun x => allowed_ip p x.1 = Val true) (pinned q) /\
  resolve hop u = Ok (pinned q) /\ add_headers hs = Ok (req_headers q).
Proof.
  unfold request. destruct (resolve hop u) as [xs |]; [| done].
  destruct (any_forbidden p xs) as [f |] eqn:F; [| done]. cbn. case_bool_decide; [done |].
  destruct f; [done |]. destruct (negb _); [done |]. destruct (add_headers hs); [| done].
  intros [= <-]. split_and!; try done. by apply any_forbidden_none.
Qed.

(** What holds of every request. *)
Definition confined (p : DownloadPolicy) (q : Request) : Prop :=
  approved p (req_url q) /\ pinned q <> [] /\ Forall (fun x => allowed_ip p x.1 = Val true) (pinned q) /\
  Forall (fun h => forbidden_header h.1 = false) (req_headers q).

(** What holds of two requests, one after the other. *)
Definition follows (q1 q2 : Request) : Prop :=
  (scheme (req_url q1) = "https"%string -> scheme (req_url q2) = "https"%string) /\
  (req_headers q2 <> [] -> origin (req_url q2) = origin (req_url q1)).

Lemma hops_safe fuel p hop u fwd hs :
  approved p u ->
  let qs := (hops fuel p hop u fwd hs).1 in
  Forall (confined p) qs /\ StronglySorted follows qs /\
  Forall (fun q => (scheme u = "https"%string -> scheme (req_url q) = "https"%string) /\
                   (req_headers q <> [] -> fwd = true /\ origin (req_url q) = origin u)) qs.
Proof.
  revert hop u fwd. induction fuel as [| fuel IH]; intros hop u fwd Hu; cbn; [split_and!; constructor |].
  destruct (request p hop u _) as [[q |] |] eqn:Q; [| split_and!; constructor..].
  apply request_sent in Q as (<- & Q1 & Q2 & _ & Q3).
  assert (C : confined p q) by (split_and!; [done.. | by eapply add_headers_safe]).
  assert (F : req_headers q <> [] -> fwd = true).
  { intros H. destruct fwd; [done |]. cbn in Q3. congruence. }
  set (from_here := fun q' => _ /\ _).
  assert (One : Forall (confined p) [q] /\ StronglySorted follows [q] /\ Forall from_here [q]).
  { split; [by apply Forall_singleton |]. split; [repeat constructor |]. apply Forall_singleton. by split; auto. }
  destruct (send W hop q) as [r |]; [| exact One].
  destruct (is_redirection _); [| by destruct (is_success _)].
  destruct (hop =? 5); [exact One |].
  destruct (redirect p (req_url q) r) as [next |] eqn:R; [| exact One]. clear One.
  apply redirect_approved in R as [Hn Hs].
  destruct (hops fuel p (hop + 1) next _ hs) as [qs res] eqn:E.
  pose proof (IH (hop + 1) next (fwd && bool_decide (origin next = origin (req_url q))) Hn) as (I1 & I2 & I3).
  rewrite E in I1, I2, I3. cbn in I1, I2, I3 |- *.
  assert (I4 : Forall from_here qs).
  { eapply Forall_impl; [exact I3 |]. intros q' [J1 J2]. split; [by auto |]. intros H.
    destruct (J2 H) as [[-> O%bool_decide_eq_true]%andb_true_iff ->]. done. }
  split_and!; constructor; auto. eapply Forall_impl; [exact I4 |]. intros q' [? J]. split; [done | by apply J].
  by split; auto.
Qed.

(** C28: playback downloads stay where they were allowed to go.  Every request,
    redirects included, is for a URL of a configured origin, is sent to
    addresses that all were approved, and carries none of the headers that
    would reroute it. *)
Theorem downloads_confined p raw headers : Forall (confined p) (response p raw headers).1.
Proof.
  unfold response. destruct (validate p raw) as [u |] eqn:V; [| constructor].
  apply validate_approved in V. by apply (hops_safe 6 p 0 u true (default [] headers)) in V as [? _].
Qed.

(** C29: along the redirects of a download, HTTPS is never given up, and the
    caller's headers go to no other origin than the first one's. *)
Theorem redirects_keep_secrets p raw headers : StronglySorted follows (response p raw headers).1.
Proof.
  unfold response. destruct (validate p raw) as [u |] eqn:V; [| constructor].
  apply validate_approved in V. by apply (hops_safe 6 p 0 u true (default [] headers)) in V as (_ & ? & _).
Qed.

Lemma hops_end fuel p hop u fwd hs :
  5 - hop < Z.of_nat fuel -> hop <= 5 ->
  (hops fuel p hop u fwd hs).2 <> Panic /\ len (hops fuel p hop u fwd hs).1 <= 6 - hop.
Proof.
  revert hop u fwd. induction fuel as [| fuel IH]; intros hop u fwd Hf Hh; [lia |]. cbn.
  destruct (request p hop u _) as [[q |] |] eqn:Q; [| split; [done | cbn [fst]; rewrite ?len_cons, ?len_nil; lia] |].
  2: { unfold request in Q. destruct (resolve hop u) as [xs |]; [| done].
       destruct (any_forbidden_val p xs) as [b Hb]. rewrite Hb in Q. cbn in Q. by repeat case_match. }
  destruct (send W hop q) as [r |]; [| split; [done | cbn [fst]; rewrite ?len_cons, ?len_nil; lia]].
  destruct (is_redirection _); [| destruct (is_success _); (split; [done | cbn [fst]; rewrite ?len_cons, ?len_nil; lia])].
  destruct (Z.eqb_spec hop 5); [split; [done | cbn [fst]; rewrite ?len_cons, ?len_nil; lia] |].
  destruct (redirect p u r) as [next |]; [| split; [done | cbn [fst]; rewrite ?len_cons, ?len_nil; lia]].
  pose proof (IH (hop + 1) next (fwd && bool_decide (origin next = origin u)) ltac:(lia) ltac:(lia)) as [I1 I2].
  destruct (hops fuel p (hop + 1) next _ hs) as [qs res]. split; [done |]. cbn in *. rewrite len_cons. lia.
Qed.

(** C31: a download ends: after at most six requests there is a response or an
    error, whatever the servers answer, and the code after the redirect loop is
    never reached. *)
Theorem downloads_end p raw headers :
  (response p raw headers).2 <> Panic /\ len (response p raw headers).1 <= 6.
Proof.
  unfold response. destruct (validate p raw) as [u |]; [| split; [done | cbn [fst]; rewrite ?len_cons, ?len_nil; lia]].
  destruct (hops_end 6 p 0 u true (default [] headers)); [lia.. |]. split; [done | lia].
Qed.

End download.

(** ** Examples *)
Module Examples.

#[local] Instance sample_nets : IpNets := {|
  IpNet := Prefix; parse_net := cidr; contains := in_prefix;
  parse_net_contains := fun s p H => ex_intro _ p (conj H (fun a => eq_refl));
|}.

Record SampleUrl := mkUrl { u_text : string; u_scheme : string; u_host : Host; u_origin : string }.

Definition media : SampleUrl :=
  mkUrl "https://media.example/prompt" "https" (Domain "media.example") "https://media.example".
Definition mirror : SampleUrl :=
  mkUrl "https://mirror.example/prompt" "https" (Domain "mirror.example") "https://mirror.example".

Definition lookup_url (s : string) : option SampleUrl :=
  find (fun u => String.eqb (u_text u) s) [media; mirror].

#[local] Instance sample_urls : Urls := {|
  Url := SampleUrl; url_parse := lookup_url; join := fun _ s => lookup_url s; as_str := u_text;
  scheme := u_scheme; username := fun _ => ""%string; password := fun _ => None;
  host := fun u => Some (u_host u);
  host_str := fun u => match u_host u with Domain d => Some d | _ => None end;
  port_or_known_default := fun _ => Some 443; path := fun _ => "/prompt"%string;
  query := fun _ => None; fragment := fun _ => None;
  Origin := string; Origin_eq_dec := String.string_dec; origin := u_origin;
  ascii_serialization := fun o => o;
|}.

(** The server redirects to its mirror. *)
Definition world : World := {|
  to_socket_addrs := fun _ h port =>
    if String.eqb h "media.example" then Some [(V4 (ip4 8 8 4 4), port)]
    else Some [(V4 (ip4 9 9 9 9), port)];
  client_builds := fun _ => true; header_name := Some; header_value := Some;
  send := fun hop _ =>
    Some (if hop =? 0 then mkResponse 302 (Some "https://mirror.example/prompt"%string)
          else mkResponse 200 None);
|}.
Definition policy : DownloadPolicy := mkPolicy ["https://media.example"; "https://mirror.example"]%string [] false.

Definition authorization : list (string * string) := [("authorization", "secret")]%string.

Lemma redirected :
  response world policy "https://media.example/prompt" (Some authorization) =
  ([mkRequest media [(V4 (ip4 8 8 4 4), 443)] authorization; mkRequest mirror [(V4 (ip4 9 9 9 9), 443)] []],
   Val (Ok (mkResponse 200 None))).
Proof. vm_compute. reflexivity. Qed.

End Examples.
#[local] Existing Instance Examples.sample_nets.
#[local] Existing Instance Examples.sample_urls.
Import Examples.

(** A public address is accepted and in no block; a private one, mapped into
    IPv6, is refused. *)
Lemma special_purpose_refused_witness :
  (forall e, In e (special_v4 ++ special_v6) -> in_prefix e.1 (V4 (ip4 8 8 8 8)) = true ->
     e.2 = Reachable \/ In e accepted_special) /\
  allowed_ip policy (V4 (ip4 8 8 8 8)) = Val true /\
  allowed_ip policy (V6 (65535 * 2 ^ 32 + ip4 192 168 1 1)) = Val false.
Proof.
  destruct (special_purpose_refused policy (V4 (ip4 8 8 8 8)) eq_refl eq_refl) as (b & E & A & _).
  destruct (special_purpose_refused policy (V6 (65535 * 2 ^ 32 + ip4 192 168 1 1)) eq_refl eq_refl) as (b' & E' & A' & _).
  assert (b = true) as -> by (revert E; vm_compute; congruence). split; [exact (A eq_refl) |]. split; [done |].
  destruct b'; [exfalso | done].
  destruct (A' eq_refl (b4 192 168 0 0 16 Unreachable)) as [X | X]; [cbn; tauto | by vm_compute | done |].
  vm_compute in X. intuition congruence.
Defined.

(** The block RFC 9637 reserves for documentation is accepted. *)
Lemma documentation_block_accepted : allowed_ip policy (V6 (ip6 0x3fff 0 1)) = Val true.
Proof. by vm_compute. Qed.

Lemma downloads_confined_witness :
  confined policy (mkRequest mirror [(V4 (ip4 9 9 9 9), 443)] []).
Proof.
  pose proof (downloads_confined world policy "https://media.example/prompt" (Some authorization)) as H.
  rewrite redirected in H. cbn [fst] in H. rewrite !Forall_cons in H. apply H.
Defined.

Lemma redirects_keep_secrets_witness :
  StronglySorted follows
    [mkRequest media [(V4 (ip4 8 8 4 4), 443)] authorization; mkRequest mirror [(V4 (ip4 9 9 9 9), 443)] []].
Proof.
  pose proof (redirects_keep_secrets world policy "https://media.example/prompt" (Some authorization)) as H.
  rewrite redirected in H. exact H.
Defined.

Lemma downloads_end_witness :
  (response world policy "https://media.example/prompt" (Some authorization)).2 <> Panic /\
  len (response world policy "https://media.example/prompt" (Some authorization)).1 <= 6.
Proof. apply (downloads_end world policy "https://media.example/prompt" (Some authorization)). Defined.

End Download.
