(* ===== verification/Pcap.v ===== *)
(** Recordings: the frames that are written ([recording/pcap_writer.rs]), the
    stream descriptors ([recording/meta.rs]) and their reader, the converter
    [bin/pcap2audio.rs], up to the packets of each channel in decoding order.

    The PCAP container and JSON are third-party code; decoding, resampling and
    the writing of the WAV file are not modelled. *)

From stdpp Require Import strings sorting.
From S2P Require Import Prelude Rtp SocketPool Media.
#[local] Open Scope Z_scope.

Module Pcap.
Import SocketPool(IpAddr, V4, V6).

(** An address and a port. *)
Definition SocketAddr : Type := IpAddr * Z.

(** ** Checksums *)

Definition word (a b : Z) : Z := Z.lor (Z.shiftl a 8) b.

(** [add_bytes]: 16-bit words, the last one padded, added to a [u32]. *)
Fixpoint add_bytes (sum : Z) (l : bytes) : Z :=
  match l with
  | a :: b :: l => add_bytes (wrap32 (sum + word a b)) l
  | [a] => wrap32 (sum + Z.shiftl a 8)
  | [] => sum
  end.

(** [while sum > 0xFFFF]; a [u32] is folded after three passes. *)
Fixpoint fold_carries (fuel : nat) (sum : Z) : outcome Z :=
  if 65535 <? sum then
    match fuel with
    | O => Panic
    | S fuel => fold_carries fuel (Z.land sum 65535 + Z.shiftr sum 16)
    end
  else Val sum.

(** [!sum as u16] *)
Definition not16 (sum : Z) : Z := wrap16 (u32_max - sum).

Definition ipv4_checksum (header : bytes) : outcome Z :=
  let! s := fold_carries 3 (add_bytes 0 header) in Val (not16 s).

Definition clip16 (n : Z) : Z := Z.min n u16_max.

Definition octets4 (a : Z) : bytes := to_be 4 a.
Definition octets6 (a : Z) : bytes := to_be 16 a.

Definition udp6_checksum (src dst src_port dst_port : Z) (payload : bytes) : outcome Z :=
  let udp_len := clip16 (8 + len payload) in
  let s := add_bytes 0 (octets6 src) in
  let s := add_bytes s (octets6 dst) in
  let s := wrap32 (s + udp_len) in
  let s := wrap32 (s + 17) in
  let s := wrap32 (s + src_port) in
  let s := wrap32 (s + dst_port) in
  let s := wrap32 (s + udp_len) in
  let s := add_bytes s payload in
  let! s := fold_carries 3 s in
  let cs := not16 s in
  Val (if cs =? 0 then 65535 else cs).

(** ** Frames *)

Definition ipv4_octets (a : IpAddr) : bytes :=
  match a with
  | V4 a => octets4 a
  | V6 a =>
      let b i := byte_at (octets6 a) i in
      let xor := Z.lxor in
      [10; xor (xor (xor (xor (xor (b 0) (b 1)) (b 2)) (b 3)) (b 4)) (b 5);
       xor (xor (xor (xor (b 6) (b 7)) (b 8)) (b 9)) (b 10);
       xor (xor (xor (xor (b 11) (b 12)) (b 13)) (b 14)) (b 15)]
  end.

Definition build_ipv4_frame (src_ip : bytes) (src_port : Z) (dst_ip : bytes) (dst_port : Z) (payload : bytes)
    : outcome bytes :=
  let ethernet := [0; 0; 0; 0; 0; 0] ++ [0; 0; 0; 0; 0; 0] ++ [8; 0] in
  let total_len := clip16 (20 + 8 + len payload) in
  let header := [0x45; 0] ++ to_be 2 total_len ++ [0; 0] ++ [0x40; 0] ++ [64; 17] ++ [0; 0] ++ src_ip ++ dst_ip in
  let! checksum := ipv4_checksum header in
  let header := <[11%nat := Z.land checksum 255]> (<[10%nat := Z.shiftr checksum 8]> header) in
  let udp_len := clip16 (8 + len payload) in
  Val (ethernet ++ header ++ to_be 2 src_port ++ to_be 2 dst_port ++ to_be 2 udp_len ++ [0; 0] ++ payload).

Definition build_ipv6_frame (src src_port dst dst_port : Z) (payload : bytes) : outcome bytes :=
  let ethernet := [0; 0; 0; 0; 0; 0] ++ [0; 0; 0; 0; 0; 0] ++ [0x86; 0xDD] in
  let udp_len := clip16 (8 + len payload) in
  let header := [0x60; 0; 0; 0] ++ to_be 2 udp_len ++ [17; 64] ++ octets6 src ++ octets6 dst in
  let! checksum := udp6_checksum src dst src_port dst_port payload in
  Val (ethernet ++ header ++ to_be 2 src_port ++ to_be 2 dst_port ++ to_be 2 udp_len ++ to_be 2 checksum ++ payload).

Definition build_pcap_frame (src_addr dst_addr : SocketAddr) (payload : bytes) : outcome bytes :=
  match src_addr.1, dst_addr.1 with
  | V6 src, V6 dst => build_ipv6_frame src src_addr.2 dst dst_addr.2 payload
  | src, dst => build_ipv4_frame (ipv4_octets src) src_addr.2 (ipv4_octets dst) dst_addr.2 payload
  end.

(** The addresses that stand for endpoints in a recording. *)
Definition synthetic_addr (endpoint_index : Z) : SocketAddr :=
  let ip a b c d := V4 (((a * 256 + b) * 256 + c) * 256 + d) in
  if endpoint_index =? 65535 then (ip 10 255 0 1, 10000)
  else
    let octet := wrap8 (endpoint_index mod 254 + 1) in
    let subnet := wrap8 (Z.min (endpoint_index / 254 + 1) 254) in
    (ip 10 subnet 0 octet, 10000).

(** ** Reading a frame *)

(** [parse_frame] of the converter. *)
Definition parse_frame (data : bytes) : outcome (option (SocketAddr * SocketAddr * bytes)) :=
  if len data <? 14 then Val None
  else
    let! ethertype := get16 data 12 in
    if ethertype =? 0x0800 then
      if len data <? 34 then Val None
      else
        let! b := get data 14 in
        let ihl := Z.land b 15 * 4 in
        let ip_end := 14 + ihl in
        let! protocol := get data 23 in
        if negb (protocol =? 17) || (len data <? ip_end + 8) then Val None
        else
          let! src_ip := get32 data 26 in
          let! dst_ip := get32 data 30 in
          let! src_port := get16 data ip_end in
          let! dst_port := get16 data (ip_end + 2) in
          let! payload := slice_from data (ip_end + 8) in
          Val (Some ((V4 src_ip, src_port), (V4 dst_ip, dst_port), payload))
    else if ethertype =? 0x86DD then
      if len data <? 62 then Val None
      else
        let! next_header := get data 20 in
        if negb (next_header =? 17) then Val None
        else
          let! src_ip := slice data 22 38 in
          let! dst_ip := slice data 38 54 in
          let! src_port := get16 data 54 in
          let! dst_port := get16 data 56 in
          let! payload := slice_from data 62 in
          Val (Some ((V6 (from_be src_ip), src_port), (V6 (from_be dst_ip), dst_port), payload))
    else Val None.

(** [parse_rtp] of the converter: payload type, sequence number, timestamp, SSRC
    and body. *)
Definition parse_rtp (p : bytes) : outcome (option (Z * Z * Z * Z * bytes)) :=
  if len p <? 12 then Val None
  else
    let! b0 := get p 0 in
    if negb (Z.shiftr b0 6 =? 2) then Val None
    else
      let cc := Z.land b0 15 in
      let! b1 := get p 1 in
      let pt := Z.land b1 127 in
      let! seq := get16 p 2 in
      let! ts := get32 p 4 in
      let! ssrc := get32 p 8 in
      let offset := 12 + cc * 4 in
      let! offset :=
        if negb (Z.land b0 16 =? 0) then
          if len p <? offset + 4 then Val None
          else let! ext_words := get16 p (offset + 2) in Val (Some (offset + (4 + ext_words * 4)))
        else Val (Some offset) in
      match offset with
      | None => Val None
      | Some offset =>
          if len p <? offset then Val None
          else let! body := slice_from p offset in Val (Some (pt, seq, ts, ssrc, body))
      end.

(** ** Frames are read back *)

Lemma two_step_ind {A} (P : list A -> Prop) :
  P [] -> (forall a, P [a]) -> (forall a b l, P l -> P (a :: b :: l)) -> forall l, P l.
Proof.
  intros H0 H1 H2. fix IH 1. intros [| a [| b l]]; [done | by apply H1 |]. apply H2, IH.
Qed.

Definition addr_ok (a : IpAddr) : Prop :=
  match a with V4 x => is_u32 x | V6 x => 0 <= x < 2 ^ 128 end.
Definition same_family (a b : IpAddr) : Prop :=
  match a, b with V4 _, V4 _ | V6 _, V6 _ => True | _, _ => False end.

Lemma from_to_be2 x : is_u16 x -> from_be (to_be 2 x) = x.
Proof. intros H. rewrite from_to_be. apply Z.mod_small, H. Qed.
Lemma from_to_be4 x : is_u32 x -> from_be (to_be 4 x) = x.
Proof. intros H. rewrite from_to_be. apply Z.mod_small, H. Qed.
Lemma from_to_be16 x : 0 <= x < 2 ^ 128 -> from_be (to_be 16 x) = x.
Proof. intros H. rewrite from_to_be. apply Z.mod_small, H. Qed.

(** Reading a field that starts after [l]. *)
Lemma slice_app_mid l k r : slice (l ++ k ++ r) (len l) (len l + len k) = Val k.
Proof.
  pose proof (len_nonneg l). pose proof (len_nonneg k). pose proof (len_nonneg r).
  rewrite slice_val by (rewrite ?len_app; lia). f_equal.
  replace (Z.to_nat (len l)) with (length l) by (unfold len; lia).
  replace (Z.to_nat (len l + len k - len l)) with (length k) by (unfold len; lia).
  by rewrite drop_app_length, take_app_length.
Qed.
Lemma slice_from_app l r : slice_from (l ++ r) (len l) = Val r.
Proof.
  pose proof (len_nonneg l). pose proof (len_nonneg r). rewrite slice_from_val by (rewrite len_app; lia).
  replace (Z.to_nat (len l)) with (length l) by (unfold len; lia). by rewrite drop_app_length.
Qed.

Definition folded (s : Z) : Z := if s =? 0 then 0 else (s - 1) mod 65535 + 1.

Lemma fold_step s :
  65535 < s < 2 ^ 32 ->
  let s' := Z.land s 65535 + Z.shiftr s 16 in 0 < s' < s /\ s' <= 131070 /\ folded s' = folded s.
Proof.
  intros H. cbn zeta. rewrite land_ffff, Z.shiftr_div_pow2 by lia. change (2 ^ 16) with 65536.
  assert (E : s = 65536 * (s / 65536) + s mod 65536) by (apply Z.div_mod; lia).
  pose proof (Z.mod_pos_bound s 65536). assert (1 <= s / 65536 < 65536) by mlia.
  split_and!; [lia.. |]. unfold folded. rewrite !(proj2 (Z.eqb_neq _ _)) by lia. f_equal.
  rewrite E at 3.
  replace (65536 * (s / 65536) + s mod 65536 - 1)
    with (s mod 65536 + s / 65536 - 1 + (s / 65536) * 65535) by lia.
  by rewrite Z.mod_add by lia.
Qed.

Lemma fold_carries_val s : 0 <= s < 2 ^ 32 -> fold_carries 3 s = Val (folded s).
Proof.
  assert (small : forall s, 0 <= s <= 65535 -> s = folded s).
  { intros x Hx. unfold folded. destruct (Z.eqb_spec x 0); [done |]. rewrite Z.mod_small; lia. }
  intros Hs. unfold fold_carries.
  destruct (Z.ltb_spec 65535 s) as [H1 |]; [| f_equal; apply small; lia].
  destruct (fold_step s) as (A1 & A2 & A3); [lia |]. cbn zeta in *. rewrite <- A3. clear A3.
  generalize dependent (Z.land s 65535 + Z.shiftr s 16). intros s1 A1 A2.
  destruct (Z.ltb_spec 65535 s1) as [H2 |]; [| f_equal; apply small; lia].
  assert (Hs2 : Z.land s1 65535 + Z.shiftr s1 16 <= 65535 + 1).
  { rewrite land_ffff, Z.shiftr_div_pow2 by lia. change (2 ^ 16) with 65536. mlia. }
  destruct (fold_step s1) as (B1 & B2 & B3); [lia |]. cbn zeta in *. rewrite <- B3. clear B3.
  generalize dependent (Z.land s1 65535 + Z.shiftr s1 16). intros s2 B2 B1 Hs2.
  destruct (Z.ltb_spec 65535 s2) as [H3 |]; [| f_equal; apply small; lia].
  assert (s2 = 65536) as -> by lia. by vm_compute.
Qed.

Lemma add_bytes_u32 s l : is_u32 s -> is_u32 (add_bytes s l).
Proof.
  revert s. assert (W : forall x, is_u32 (wrap32 x)) by (intros x; unfold is_u32, wrap32; apply Z.mod_pos_bound; lia).
  induction l as [| a | a b l IH] using two_step_ind; intros s Hs; cbn; auto.
Qed.

Lemma udp6_checksum_val src dst sp dp pl : exists c, udp6_checksum src dst sp dp pl = Val c /\ is_u16 c.
Proof.
  unfold udp6_checksum. rewrite fold_carries_val.
  - cbn [obind]. eexists. split; [done |]. split_if; unfold not16; mlia.
  - apply add_bytes_u32. unfold is_u32, wrap32. apply Z.mod_pos_bound. lia.
Qed.

Lemma ipv4_checksum_val h : exists c, ipv4_checksum h = Val c /\ is_u16 c.
Proof.
  unfold ipv4_checksum. rewrite fold_carries_val by (apply add_bytes_u32; unfold is_u32; lia).
  cbn [obind]. eexists. split; [done |]. unfold not16. mlia.
Qed.

(** The IPv4 header before its checksum is filled in. *)
Definition ipv4_header (src dst : Z) (pl : bytes) : bytes :=
  [0x45; 0] ++ to_be 2 (clip16 (28 + len pl)) ++ [0; 0; 0x40; 0; 64; 17] ++ [0; 0] ++ octets4 src ++ octets4 dst.

(** The IPv4 frame, byte by byte. *)
Lemma ipv4_frame src dst sp dp pl :
  exists c, is_u16 c /\ ipv4_checksum (ipv4_header src dst pl) = Val c /\
    build_ipv4_frame (octets4 src) sp (octets4 dst) dp pl =
    Val ([0; 0; 0; 0; 0; 0; 0; 0; 0; 0; 0; 0; 8; 0; 0x45; 0] ++ to_be 2 (clip16 (28 + len pl)) ++
         [0; 0; 0x40; 0; 64; 17; Z.shiftr c 8; Z.land c 255] ++ octets4 src ++ octets4 dst ++
         to_be 2 sp ++ to_be 2 dp ++ to_be 2 (clip16 (8 + len pl)) ++ [0; 0] ++ pl).
Proof.
  destruct (ipv4_checksum_val (ipv4_header src dst pl)) as (c & Hc & Hu).
  exists c. split_and!; [done.. |]. unfold build_ipv4_frame. cbn zeta.
  change (ipv4_checksum _) with (ipv4_checksum (ipv4_header src dst pl)). by rewrite Hc.
Qed.

Lemma ipv6_frame src dst sp dp pl :
  exists c, is_u16 c /\ udp6_checksum src dst sp dp pl = Val c /\
    build_ipv6_frame src sp dst dp pl =
    Val (([0; 0; 0; 0; 0; 0; 0; 0; 0; 0; 0; 0; 0x86; 0xDD; 0x60; 0; 0; 0] ++
          to_be 2 (clip16 (8 + len pl)) ++ [17; 64]) ++ octets6 src ++ octets6 dst ++
         (to_be 2 sp ++ to_be 2 dp ++ to_be 2 (clip16 (8 + len pl)) ++ to_be 2 c) ++ pl).
Proof.
  unfold build_ipv6_frame. destruct (udp6_checksum_val src dst sp dp pl) as (c & Hc & Hu).
  rewrite Hc. exists c. split_and!; [done.. |]. reflexivity.
Qed.

Lemma parse_ipv4 src dst sp dp pl n m c1 c2 :
  is_u32 src -> is_u32 dst -> is_u16 sp -> is_u16 dp ->
  parse_frame ([0; 0; 0; 0; 0; 0; 0; 0; 0; 0; 0; 0; 8; 0; 0x45; 0] ++ to_be 2 n ++
               [0; 0; 0x40; 0; 64; 17; c1; c2] ++ octets4 src ++ octets4 dst ++
               to_be 2 sp ++ to_be 2 dp ++ to_be 2 m ++ [0; 0] ++ pl) =
  Val (Some ((V4 src, sp), (V4 dst, dp), pl)).
Proof.
  intros H1 H2 H3 H4. set (data := _ ++ _).
  assert (L : len data = 42 + len pl) by (unfold data; rewrite !len_app, !len_to_be; cbn; unfold len; cbn; lia).
  pose proof (len_nonneg pl). unfold parse_frame. rewrite (proj2 (Z.ltb_ge _ 14)) by lia. reads.
  change (be16_at data 12) with 2048. change (2048 =? 0x0800) with true. cbn match.
  rewrite (proj2 (Z.ltb_ge _ 34)) by lia. reads. change (byte_at data 14) with 0x45.
  change (Z.land 0x45 15 * 4) with 20. change (byte_at data 23) with 17.
  change (17 =? 17) with true. cbn [negb orb]. rewrite (proj2 (Z.ltb_ge _ (14 + 20 + 8))) by lia. reads.
  change (be32_at data 26) with (from_be (to_be 4 src)). change (be32_at data 30) with (from_be (to_be 4 dst)).
  change (be16_at data (14 + 20)) with (from_be (to_be 2 sp)).
  change (be16_at data (14 + 20 + 2)) with (from_be (to_be 2 dp)).
  rewrite !from_to_be4, !from_to_be2 by done. reflexivity.
Qed.

Lemma parse_ipv6 src dst sp dp pl n m c :
  0 <= src < 2 ^ 128 -> 0 <= dst < 2 ^ 128 -> is_u16 sp -> is_u16 dp ->
  parse_frame (([0; 0; 0; 0; 0; 0; 0; 0; 0; 0; 0; 0; 0x86; 0xDD; 0x60; 0; 0; 0] ++ to_be 2 n ++ [17; 64]) ++
               octets6 src ++ octets6 dst ++ (to_be 2 sp ++ to_be 2 dp ++ to_be 2 m ++ to_be 2 c) ++ pl) =
  Val (Some ((V6 src, sp), (V6 dst, dp), pl)).
Proof.
  intros H1 H2 H3 H4. set (data := _ ++ _).
  assert (L : len data = 62 + len pl)
    by (unfold data, octets6; rewrite !len_app, !len_to_be; unfold len; cbn; lia).
  pose proof (len_nonneg pl). unfold parse_frame. rewrite (proj2 (Z.ltb_ge _ 14)) by lia. reads.
  change (be16_at data 12) with 0x86DD. change (0x86DD =? 0x0800) with false.
  change (0x86DD =? 0x86DD) with true. cbn match. rewrite (proj2 (Z.ltb_ge _ 62)) by lia. reads.
  change (byte_at data 20) with 17. change (17 =? 17) with true. cbn [negb]. reads.
  change (take (Z.to_nat (38 - 22)) (drop (Z.to_nat 22) data)) with (to_be 16 src).
  change (take (Z.to_nat (54 - 38)) (drop (Z.to_nat 38) data)) with (to_be 16 dst).
  change (be16_at data 54) with (from_be (to_be 2 sp)). change (be16_at data 56) with (from_be (to_be 2 dp)).
  rewrite !from_to_be16, !from_to_be2 by done. reflexivity.
Qed.

Lemma frame_read_back src dst pl :
  addr_ok src.1 -> addr_ok dst.1 -> same_family src.1 dst.1 -> is_u16 src.2 -> is_u16 dst.2 ->
  exists f, build_pcap_frame src dst pl = Val f /\ parse_frame f = Val (Some (src, dst, pl)).
Proof.
  destruct src as [[a | a] sp], dst as [[b | b] dp]; intros H1 H2 H3 H4 H5; try done; cbn in H1, H2, H4, H5.
  - unfold build_pcap_frame; cbn [fst snd ipv4_octets].
    destruct (ipv4_frame a b sp dp pl) as (c & _ & _ & ->). eexists. split; [done |]. by apply parse_ipv4.
  - unfold build_pcap_frame; cbn [fst snd].
    destruct (ipv6_frame a b sp dp pl) as (c & _ & _ & ->). eexists. split; [done |]. by apply parse_ipv6.
Qed.

(** What the recorder writes is what the converter reads: the frame of a
    packet between two addresses of one family is parsed to the same addresses,
    ports and payload, for every payload. *)
Theorem frame_roundtrip src dst pl :
  addr_ok src.1 -> addr_ok dst.1 -> same_family src.1 dst.1 -> is_u16 src.2 -> is_u16 dst.2 ->
  exists f, build_pcap_frame src dst pl = Val f /\ parse_frame f = Val (Some (src, dst, pl)).
Proof. apply frame_read_back. Qed.

(** ** Checksums verify *)

Fixpoint wsum (l : bytes) : Z :=
  match l with a :: b :: l => a * 256 + b + wsum l | [a] => a * 256 | [] => 0 end.

Lemma word_val a b : is_u8 a -> is_u8 b -> word a b = a * 256 + b.
Proof.
  intros Ha Hb. unfold word. rewrite Z.shiftl_mul_pow2 by lia. by apply (lor_add a b 8).
Qed.

Lemma add_bytes_val s l : are_bytes l -> is_u32 s -> add_bytes s l = wrap32 (s + wsum l).
Proof.
  revert s. induction l as [| a | a b l IH] using two_step_ind; intros s Hl Hs; cbn.
  - rewrite Z.add_0_r. symmetry. apply Z.mod_small, Hs.
  - by rewrite Z.shiftl_mul_pow2 by lia.
  - apply Forall_cons in Hl as [Ha Hl]. apply Forall_cons in Hl as [Hb Hl].
    rewrite IH, word_val by (done || (unfold is_u32, wrap32; apply Z.mod_pos_bound; lia)).
    unfold wrap32. rewrite Z.add_mod_idemp_l by lia. f_equal. lia.
Qed.

Lemma wsum_bound l : are_bytes l -> 0 <= wsum l <= 32768 * (len l + 1).
Proof.
  induction l as [| a | a b l IH] using two_step_ind; intros Hl; cbn; rewrite ?len_cons.
  - unfold len; cbn. lia.
  - apply Forall_cons in Hl as [Ha _]. change (len []) with 0. unfold is_u8 in Ha. lia.
  - apply Forall_cons in Hl as [Ha Hl]. apply Forall_cons in Hl as [Hb Hl].
    specialize (IH Hl). unfold is_u8 in Ha, Hb. lia.
Qed.

Lemma wsum_app l k : Z.even (len l) = true -> wsum (l ++ k) = wsum l + wsum k.
Proof.
  induction l as [| a | a b l IH] using two_step_ind; intros Hl; [done | done |].
  cbn. rewrite !len_cons in Hl. rewrite IH; [lia |]. replace (1 + (1 + len l)) with (len l + 2) in Hl by lia.
  by rewrite Z.even_add in Hl; destruct (Z.even (len l)).
Qed.

Lemma folded_range s : 0 <= s -> 0 <= folded s <= 65535.
Proof. intros H. unfold folded. split_if; mlia. Qed.

(** Adding the complement makes the sum a multiple of 65535. *)
Lemma folded_complement s : 0 < s -> folded (s + (65535 - folded s)) = 65535.
Proof.
  intros H. unfold folded at 2. rewrite (proj2 (Z.eqb_neq _ _)) by lia.
  pose proof (Z.div_mod (s - 1) 65535 ltac:(lia)). pose proof (Z.mod_pos_bound (s - 1) 65535 ltac:(lia)).
  unfold folded. rewrite (proj2 (Z.eqb_neq _ _)) by lia.
  replace (s + (65535 - ((s - 1) mod 65535 + 1)) - 1) with (65534 + (s - 1) / 65535 * 65535) by lia.
  by rewrite Z.mod_add by lia.
Qed.

Lemma folded_add s : 0 < s -> folded (s + 65535) = folded s.
Proof.
  intros H. unfold folded. rewrite !(proj2 (Z.eqb_neq _ _)) by lia. f_equal.
  replace (s + 65535 - 1) with (s - 1 + 1 * 65535) by lia. by rewrite Z.mod_add by lia.
Qed.

Lemma not16_val s : 0 <= s <= 65535 -> not16 s = 65535 - s.
Proof. intros. unfold not16, wrap16, u32_max. mlia. Qed.

(** What a receiver checks (RFC 1071): the words add up to all ones. *)
Definition verifies (l : bytes) : Prop := fold_carries 3 (add_bytes 0 l) = Val 65535.

Lemma verifies_sum l : are_bytes l -> wsum l < 2 ^ 32 -> folded (wsum l) = 65535 -> verifies l.
Proof.
  intros Hl Hb Hf. pose proof (wsum_bound l Hl). unfold verifies.
  rewrite add_bytes_val by (done || (unfold is_u32; lia)). unfold wrap32. rewrite Z.mod_small by lia.
  rewrite fold_carries_val by lia. by f_equal.
Qed.

Lemma octets4_bytes a : are_bytes (octets4 a).
Proof. apply to_be_bytes. Qed.
Lemma octets6_bytes a : are_bytes (octets6 a).
Proof. apply to_be_bytes. Qed.
#[local] Hint Resolve octets4_bytes octets6_bytes to_be_bytes : core.

Lemma wsum_to_be2 x : is_u16 x -> wsum (to_be 2 x) = x.
Proof.
  intros H. pose proof (from_to_be2 x H) as E. unfold from_be in E. cbn in E |- *. lia.
Qed.

(** Every recorded IPv4 header carries a checksum that verifies. *)
Theorem ipv4_header_verifies src dst sp dp pl :
  exists f, build_ipv4_frame (octets4 src) sp (octets4 dst) dp pl = Val f /\
    verifies (take 20 (drop 14 f)).
Proof.
  destruct (ipv4_frame src dst sp dp pl) as (c & Hu & C & ->). eexists. split; [done |].
  set (header := ipv4_header src dst pl) in *.
  set (mid := [0x45; 0] ++ to_be 2 (clip16 (28 + len pl)) ++ [0; 0; 0x40; 0; 64; 17]).
  assert (Hm : are_bytes mid) by (unfold mid; repeat (apply Forall_app; split); auto; repeat constructor; done).
  assert (Hb : are_bytes header).
  { change header with (mid ++ [0; 0] ++ octets4 src ++ octets4 dst).
    repeat (apply Forall_app; split); auto; repeat constructor; done. }
  assert (L : len header = 20) by reflexivity. pose proof (wsum_bound header Hb) as B.
  assert (Hpos : 0 < wsum header).
  { change header with ([0x45; 0] ++ drop 2 header). rewrite wsum_app by done.
    assert (are_bytes (drop 2 header)) as H by (by apply Forall_drop). apply wsum_bound in H. cbn [wsum]. lia. }
  pose proof (folded_range (wsum header) ltac:(lia)).
  assert (Hcv : c = 65535 - folded (wsum header)).
  { unfold ipv4_checksum in C. rewrite add_bytes_val in C by (done || (unfold is_u32; lia)).
    unfold wrap32 in C. rewrite Z.mod_small, fold_carries_val in C by lia. cbn [obind] in C.
    injection C as <-. apply not16_val. lia. }
  change (verifies (mid ++ [Z.shiftr c 8; Z.land c 255] ++ octets4 src ++ octets4 dst)).
  assert (Hc : [Z.shiftr c 8; Z.land c 255] = to_be 2 c).
  { rewrite land255, Z.shiftr_div_pow2 by lia. change (2 ^ 8) with 256. cbn. f_equal.
    - change (256 ^ Z.of_nat 1) with 256. rewrite Z.mod_small; mlia.
    - change (256 ^ Z.of_nat 0) with 1. by rewrite Z.div_1_r. }
  rewrite Hc.
  assert (S1 : wsum (mid ++ to_be 2 c ++ octets4 src ++ octets4 dst) = wsum header + c).
  { change header with (mid ++ [0; 0] ++ octets4 src ++ octets4 dst).
    rewrite !(wsum_app mid) by done. rewrite (wsum_app (to_be 2 c)), (wsum_app [0; 0]) by done.
    rewrite wsum_to_be2 by done. cbn [wsum]. lia. }
  apply verifies_sum.
  - apply Forall_app. split; [exact Hm |]. repeat (apply Forall_app; split); auto.
  - rewrite S1. lia.
  - rewrite S1, Hcv. by apply folded_complement.
Qed.

(** The IPv6 pseudo-header of a frame and what it protects (RFC 8200, 8.1). *)
Definition udp6_protected (f : bytes) : bytes :=
  take 32 (drop 22 f) ++ [0; 0] ++ take 2 (drop 58 f) ++ [0; 0; 0; 17] ++ drop 54 f.

(** The sum over the pseudo-header, the UDP header with a zero checksum and the payload. *)
Definition udp6_sum (src dst sp dp : Z) (pl : bytes) : Z :=
  wsum (octets6 src) + wsum (octets6 dst) + (8 + len pl) + 17 + sp + dp + (8 + len pl) + wsum pl.

Lemma udp6_sum_bound src dst sp dp pl :
  are_bytes pl -> is_u16 sp -> is_u16 dp -> 8 + len pl <= 65535 ->
  0 < udp6_sum src dst sp dp pl < 2 ^ 32 - 65535.
Proof.
  intros Hpl Hsp Hdp Hlen. pose proof (len_nonneg pl). pose proof (wsum_bound pl Hpl).
  pose proof (wsum_bound _ (octets6_bytes src)). pose proof (wsum_bound _ (octets6_bytes dst)).
  change (len (octets6 src)) with 16 in *. change (len (octets6 dst)) with 16 in *.
  unfold udp6_sum, is_u16 in *. lia.
Qed.

Lemma udp6_checksum_complement src dst sp dp pl :
  are_bytes pl -> is_u16 sp -> is_u16 dp -> 8 + len pl <= 65535 ->
  let c := 65535 - folded (udp6_sum src dst sp dp pl) in
  udp6_checksum src dst sp dp pl = Val (if c =? 0 then 65535 else c).
Proof.
  intros Hpl Hsp Hdp Hlen. pose proof (udp6_sum_bound src dst sp dp pl Hpl Hsp Hdp Hlen) as B.
  pose proof (len_nonneg pl). pose proof (wsum_bound pl Hpl).
  pose proof (wsum_bound _ (octets6_bytes src)). pose proof (wsum_bound _ (octets6_bytes dst)).
  unfold is_u16 in Hsp, Hdp. assert (U : forall x, is_u32 (wrap32 x)) by (intros; apply Z.mod_pos_bound; lia).
  unfold udp6_checksum. replace (clip16 (8 + len pl)) with (8 + len pl) by (unfold clip16, u16_max; lia).
  set (n := 8 + len pl) in *.
  rewrite (add_bytes_val 0) by (auto || (unfold is_u32; lia)). rewrite !add_bytes_val by auto. unfold wrap32. rewrite !Z.add_mod_idemp_l by lia.
  rewrite (Z.mod_small (0 + wsum _ + wsum _)) by (change (len (octets6 _)) with 16 in *; lia).
  unfold udp6_sum in B. fold n in B.
  rewrite (Z.mod_small (_ + n + 17)) by lia. rewrite (Z.mod_small (_ + sp + dp)) by lia.
  change (0 + wsum (octets6 src)) with (wsum (octets6 src)). fold (udp6_sum src dst sp dp pl) in B |- *.
  rewrite Z.mod_small, fold_carries_val by (unfold udp6_sum in B; lia). cbn [obind].
  rewrite not16_val by (apply folded_range; lia). done.
Qed.

(** Every recorded IPv6 packet of a size UDP can carry has a UDP checksum
    that verifies and is not zero, as IPv6 requires. *)
Theorem udp6_checksum_verifies src dst sp dp pl :
  are_bytes pl -> is_u16 sp -> is_u16 dp -> 8 + len pl <= 65535 ->
  exists f, build_ipv6_frame src sp dst dp pl = Val f /\
    verifies (udp6_protected f) /\ be16_at f 60 <> 0.
Proof.
  intros Hpl Hsp Hdp Hlen. pose proof (len_nonneg pl).
  destruct (ipv6_frame src dst sp dp pl) as (c & Hu & C & ->). eexists. split; [done |].
  rewrite udp6_checksum_complement in C by done. injection C as C.
  pose proof (udp6_sum_bound src dst sp dp pl Hpl Hsp Hdp Hlen) as HS.
  set (S := udp6_sum src dst sp dp pl) in *. pose proof (folded_range S ltac:(lia)).
  replace (clip16 (8 + len pl)) with (8 + len pl) by (unfold clip16, u16_max; lia).
  set (n := 8 + len pl) in *. assert (Hn : is_u16 n) by (unfold is_u16; lia).
  set (f := _ ++ _).
  set (l := octets6 src ++ octets6 dst ++ [0; 0] ++ to_be 2 n ++ [0; 0; 0; 17] ++
            to_be 2 sp ++ to_be 2 dp ++ to_be 2 n ++ to_be 2 c ++ pl).
  change (udp6_protected f) with l.
  assert (Sum : wsum l = S + c).
  { unfold l. rewrite !wsum_app by reflexivity. rewrite !wsum_to_be2 by done. cbn [wsum]. unfold S, udp6_sum. lia. }
  split.
  - apply verifies_sum.
    + unfold l. repeat (apply Forall_app; split); auto; repeat constructor; done.
    + rewrite Sum. unfold is_u16 in Hu. lia.
    + rewrite Sum, <- C. destruct (Z.eqb_spec (65535 - folded S) 0) as [E |]; [| apply folded_complement; lia].
      rewrite folded_add; lia.
  - change (be16_at f 60) with (from_be (to_be 2 c)). rewrite from_to_be2 by done. rewrite <- C. split_if; lia.
Qed.

(** ** The two readers of RTP agree *)

Lemma byte0_bits b :
  is_u8 b ->
  (Z.shiftr b 6 =? 2) = (Z.land (Z.shiftr b 6) 3 =? 2) /\
  (Z.land b 16 =? 0) = (Z.land (Z.shiftr b 4) 1 =? 0).
Proof.
  intros Hb.
  assert (C : Bool.eqb (Z.shiftr b 6 =? 2) (Z.land (Z.shiftr b 6) 3 =? 2) &&
              Bool.eqb (Z.land b 16 =? 0) (Z.land (Z.shiftr b 4) 1 =? 0) = true).
  { pattern b. revert b Hb. apply byte_check. by vm_compute. }
  apply andb_true_iff in C as [C1 C2]. split; by apply eqb_prop.
Qed.

Lemma parse_rtp_agrees p :
  are_bytes p ->
  match RtpHeader.parse p with
  | Val (Some h) =>
      RtpHeader.padding h = false ->
      exists body, RtpHeader.payload h p = Val body /\
        parse_rtp p = Val (Some (RtpHeader.payload_type h, RtpHeader.sequence_number h, RtpHeader.timestamp h,
                                 RtpHeader.ssrc h, body))
  | Val None => parse_rtp p = Val None
  | Panic => False
  end.
Proof.
  intros Hp. unfold RtpHeader.parse, parse_rtp. pose proof (len_nonneg p).
  destruct (Z.ltb_spec (len p) 12); [done |]. reads.
  destruct (byte0_bits (byte_at p 0)) as [-> ->]; [by apply are_bytes_at |].
  destruct (negb (Z.land (Z.shiftr (byte_at p 0) 6) 3 =? 2)); [done |]. reads.
  pose proof (RtpHeader.land15_bound (byte_at p 0)). set (off := 12 + Z.land (byte_at p 0) 15 * 4) in *.
  assert (tail : forall hl, 12 <= hl -> forall v pd x c m pt sq ts sc,
    match (if len p <? hl then Val None else Val (Some (RtpHeader.mk v pd x c m pt sq ts sc hl))) with
    | Val (Some h) => RtpHeader.padding h = false -> exists body, RtpHeader.payload h p = Val body /\
        (if len p <? hl then Val None else let! b := slice_from p hl in Val (Some (pt, sq, ts, sc, b))) =
        Val (Some (RtpHeader.payload_type h, RtpHeader.sequence_number h, RtpHeader.timestamp h,
                   RtpHeader.ssrc h, body))
    | Val None =>
        (if len p <? hl then Val None else let! b := slice_from p hl in Val (Some (pt, sq, ts, sc, b))) = Val None
    | Panic => False
    end).
  { intros hl Hh v pd x c m pt sq ts sc. destruct (Z.ltb_spec (len p) hl); [done |]. cbn. intros ->.
    unfold RtpHeader.payload. cbn. rewrite slice_from_val by lia. cbn. by eexists. }
  destruct (negb (Z.land (Z.shiftr (byte_at p 0) 4) 1 =? 0)); [| cbn [obind]; apply tail; lia].
  unfold RtpHeader.skip_extension. destruct (Z.ltb_spec (len p) (off + 4)); [done |]. reads.
  pose proof (be16_at_u16 p (off + 2) Hp) as B. unfold is_u16 in B. unfold checked_mul64, checked_add64, u64_max.
  rewrite (proj2 (Z.leb_le _ _)) by lia. rewrite (proj2 (Z.leb_le _ _)) by lia. cbn [obind]. apply tail. lia.
Qed.

Lemma parse_rtp_build pt sq ts sc m pl :
  0 <= pt < 128 -> is_u16 sq -> is_u32 ts -> is_u32 sc -> are_bytes pl ->
  parse_rtp (RtpHeader.build pt sq ts sc m pl) = Val (Some (pt, sq, ts, sc, pl)).
Proof.
  intros H1 H2 H3 H4 H5. pose proof (parse_rtp_agrees _ (RtpHeader.build_bytes pt sq ts sc m pl H5)) as A.
  destruct (RtpHeader.parse_build pt sq ts sc m pl) as [Hp Hb]; [unfold is_u8; lia |].
  rewrite Hp in A. destruct (A eq_refl) as (body & Hb' & ->). rewrite Hb in Hb'. injection Hb' as <-. cbn.
  do 6 f_equal; [rewrite land127 | unfold wrap16 | unfold wrap32 | unfold wrap32]; by apply Z.mod_small.
Qed.

(** The converter's own RTP reader agrees with [RtpHeader]: it accepts the
    same packets, with the same fields, and returns the same payload when there
    is no padding (the recorder never writes any). *)
Theorem rtp_readers_agree p :
  are_bytes p ->
  match RtpHeader.parse p with
  | Val (Some h) =>
      RtpHeader.padding h = false ->
      exists body, RtpHeader.payload h p = Val body /\
        parse_rtp p = Val (Some (RtpHeader.payload_type h, RtpHeader.sequence_number h, RtpHeader.timestamp h,
                                 RtpHeader.ssrc h, body))
  | Val None => parse_rtp p = Val None
  | Panic => False
  end.
Proof. apply parse_rtp_agrees. Qed.

Lemma frame_roundtrip_witness :
  exists f, build_pcap_frame (V4 167772161, 10000) (V4 167772162, 5004) [1; 2; 3] = Val f /\
    parse_frame f = Val (Some ((V4 167772161, 10000), (V4 167772162, 5004), [1; 2; 3])).
Proof. apply frame_roundtrip; cbn; unfold is_u32, is_u16; (lia || done). Defined.

Ltac literal_bytes := repeat first [apply Forall_nil_2 | apply Forall_cons_2; [unfold is_u8; lia |]].

Lemma udp6_checksum_verifies_witness :
  exists f, build_ipv6_frame 1 5004 2 5006 [1; 2; 3] = Val f /\ verifies (udp6_protected f) /\ be16_at f 60 <> 0.
Proof.
  apply udp6_checksum_verifies; [literal_bytes | unfold is_u16; lia.. | by vm_compute].
Defined.

Lemma rtp_readers_agree_witness :
  exists body, RtpHeader.payload (RtpHeader.mk 2 false false 0 false 0 7 8 9 12) (RtpHeader.build 0 7 8 9 false [5]) = Val body /\
    parse_rtp (RtpHeader.build 0 7 8 9 false [5]) = Val (Some (0, 7, 8, 9, body)).
Proof.
  pose proof (rtp_readers_agree (RtpHeader.build 0 7 8 9 false [5])) as H.
  apply H; [| done]. apply RtpHeader.build_bytes. literal_bytes.
Defined.

End Pcap.

(** ** Decoding order *)
Module Convert.

(** A recorded packet of a channel; its payload is in the spool. *)
Record RtpPacket := mkPacket {
  epoch : Z; ssrc : Z; seq : Z; ts : Z; capture : Z; codec : Codec.AudioCodec; offset : Z; length : Z;
}.

(** [a.wrapping_sub(b) as i16 as i64] *)
Definition seq_delta (a b : Z) : Z :=
  let d := wrap16 (a - b) in if d <? 32768 then d else d - 65536.

(** The loop of [epoch_sequence_keys]. *)
Fixpoint keys_from (first : RtpPacket) (prev : option Z) (ext highest : Z) (packets : list RtpPacket) : list Z :=
  match packets with
  | [] => []
  | p :: packets =>
      if negb (epoch p =? epoch first) || negb (ssrc p =? ssrc first) then []
      else
        let ext := match prev with None => seq p | Some pv => ext + seq_delta (seq p) pv end in
        if (ext <? highest - 512) || (highest + 16384 <? ext) then []
        else ext :: keys_from first (Some (seq p)) ext (Z.max highest ext) packets
  end.

Definition epoch_sequence_keys (packets : list RtpPacket) : list Z :=
  match packets with
  | [] => []
  | first :: _ => keys_from first None 0 (seq first) packets
  end.

(** [sort_by_key], which is stable. *)
Fixpoint insert_by {A} (x : Z * A) (l : list (Z * A)) : list (Z * A) :=
  match l with
  | [] => [x]
  | y :: l => if x.1 <=? y.1 then x :: y :: l else y :: insert_by x l
  end.
Definition sort_by_key {A} (l : list (Z * A)) : list (Z * A) := foldr insert_by [] l.

(** The epochs of a channel, each in decoding order: [while epoch_start < len]. *)
Fixpoint decode_epochs (fuel : nat) (packets : list RtpPacket) : outcome (list (list RtpPacket)) :=
  match packets with
  | [] => Val []
  | _ =>
      match fuel with
      | O => Panic
      | S fuel =>
          let keys := epoch_sequence_keys packets in
          let n := Datatypes.length keys in
          let! rest := decode_epochs fuel (drop n packets) in
          Val (map snd (sort_by_key (zip keys (take n packets))) :: rest)
      end
  end.

Definition decode_order (packets : list RtpPacket) : outcome (list (list RtpPacket)) :=
  decode_epochs (Datatypes.length packets) packets.

(** *** Sorting *)

Definition by_key {A} (x y : Z * A) : Prop := x.1 <= y.1.

Lemma insert_by_perm {A} (x : Z * A) l : insert_by x l ≡ₚ x :: l.
Proof. induction l as [| y l IH]; cbn; [done |]. destruct (_ <=? _); [done |]. by rewrite IH, Permutation_swap. Qed.

Lemma sort_by_key_perm {A} (l : list (Z * A)) : sort_by_key l ≡ₚ l.
Proof. induction l as [| x l IH]; cbn; [done |]. by rewrite insert_by_perm, IH. Qed.

Lemma insert_by_sorted {A} (x : Z * A) l : StronglySorted by_key l -> StronglySorted by_key (insert_by x l).
Proof.
  induction 1 as [| y l Hl IH Hy]; cbn; [repeat constructor |].
  destruct (Z.leb_spec x.1 y.1).
  - constructor; [by constructor |]. constructor; [done |]. eapply Forall_impl; [exact Hy |].
    unfold by_key. intros z ?. lia.
  - constructor; [done |]. rewrite insert_by_perm. constructor; [unfold by_key; lia | done].
Qed.

Lemma sort_by_key_sorted {A} (l : list (Z * A)) : StronglySorted by_key (sort_by_key l).
Proof. induction l as [| x l IH]; cbn; [constructor | by apply insert_by_sorted]. Qed.

(** Equal keys keep their order. *)
Lemma insert_by_stable {A} (x : Z * A) l k :
  filter (fun y => y.1 = k) (insert_by x l) = filter (fun y => y.1 = k) (x :: l).
Proof.
  induction l as [| y l IH]; cbn [insert_by]; [done |]. destruct (Z.leb_spec x.1 y.1); [done |].
  rewrite (filter_cons _ y), IH, !filter_cons. repeat case_decide; simplify_eq; try done. lia.
Qed.

Lemma sort_by_key_stable {A} (l : list (Z * A)) k :
  filter (fun y => y.1 = k) (sort_by_key l) = filter (fun y => y.1 = k) l.
Proof.
  induction l as [| x l IH]; [done |]. change (sort_by_key (x :: l)) with (insert_by x (sort_by_key l)).
  by rewrite insert_by_stable, !filter_cons, IH.
Qed.

(** *** Epochs *)

Lemma keys_first p l : 0 < len (epoch_sequence_keys (p :: l)).
Proof.
  cbn. rewrite !Z.eqb_refl. cbn. rewrite (proj2 (Z.ltb_ge _ _)), (proj2 (Z.ltb_ge _ _)) by lia. cbn.
  rewrite len_cons. pose proof (len_nonneg (keys_from p (Some (seq p)) (seq p) (Z.max (seq p) (seq p)) l)). lia.
Qed.

Lemma keys_from_length first prev ext high l : (Datatypes.length (keys_from first prev ext high l) <= Datatypes.length l)%nat.
Proof.
  revert prev ext high. induction l as [| p l IH]; intros prev ext high; cbn; [lia |].
  destruct (_ || _); cbn; [lia |]. destruct (_ || _); cbn; [lia |].
  specialize (IH (Some (seq p)) (match prev with None => seq p | Some pv => ext + seq_delta (seq p) pv end)
                 (Z.max high (match prev with None => seq p | Some pv => ext + seq_delta (seq p) pv end))). lia.
Qed.

Lemma keys_length l : (Datatypes.length (epoch_sequence_keys l) <= Datatypes.length l)%nat.
Proof. destruct l; [done |]. apply keys_from_length. Qed.

Lemma map_snd_zip {A B} (l : list A) (k : list B) : (Datatypes.length k <= Datatypes.length l)%nat -> map snd (zip l k) = k.
Proof. intros H. by apply snd_zip. Qed.

(** Splitting a channel into epochs ends for every recording: each pass
    takes at least one packet, and the epochs contain every recorded packet
    exactly once. *)
Theorem epochs_terminate l :
  exists es, decode_order l = Val es /\ concat es ≡ₚ l /\ Forall (fun e => e <> []) es.
Proof.
  unfold decode_order. assert (G : forall fuel l, (Datatypes.length l <= fuel)%nat ->
    exists es, decode_epochs fuel l = Val es /\ concat es ≡ₚ l /\ Forall (fun e => e <> []) es); [| by apply G].
  clear l. induction fuel as [| fuel IH]; intros [| p l] Hl; try (by exists []); [cbn in Hl; lia |].
  pose proof (keys_first p l) as K. pose proof (keys_length (p :: l)) as KL.
  set (ks := epoch_sequence_keys (p :: l)) in *. unfold len in K.
  destruct (IH (drop (Datatypes.length ks) (p :: l))) as (es & E & Pm & N); [rewrite length_drop; cbn in *; lia |].
  set (now := sort_by_key (zip ks (take (Datatypes.length ks) (p :: l)))).
  assert (Hn : map snd now ≡ₚ take (Datatypes.length ks) (p :: l)).
  { unfold now. rewrite sort_by_key_perm, map_snd_zip; [done |]. rewrite length_take. lia. }
  exists (map snd now :: es). split_and!.
  - cbn [decode_epochs]. fold ks. rewrite E. done.
  - change (map snd now ++ concat es ≡ₚ p :: l). rewrite Hn, Pm. by rewrite take_drop.
  - constructor; [| done]. intros H0. rewrite H0 in Hn. apply Permutation_length in Hn.
    rewrite length_take in Hn. cbn in *. lia.
Qed.

(** Packets with their true position in the sender's stream, as they arrive
    with bounded reordering. *)
Fixpoint arriving (first : RtpPacket) (prev high : Z) (l : list (Z * RtpPacket)) : Prop :=
  match l with
  | [] => True
  | (n, p) :: l =>
      epoch p = epoch first /\ ssrc p = ssrc first /\ seq p = n mod 65536 /\
      -32768 <= n - prev < 32768 /\ high - 512 <= n <= high + 16384 /\
      arriving first n (Z.max high n) l
  end.

Lemma seq_delta_true m n : -32768 <= n - m < 32768 -> seq_delta (n mod 65536) (m mod 65536) = n - m.
Proof. intros H. unfold seq_delta, wrap16. rewrite <- Zminus_mod. split_if; mlia. Qed.

Lemma keys_arriving first prev high c l :
  arriving first prev high l ->
  keys_from first (Some (prev mod 65536)) (prev - c) (high - c) (map snd l) = map (fun x => x.1 - c) l.
Proof.
  revert prev high. induction l as [| [n p] l IH]; intros prev high; [done |].
  intros (He & Hs & Hq & Hd & Hw & Hl). cbn [map snd fst keys_from].
  rewrite He, Hs, !Z.eqb_refl, Hq, seq_delta_true by done. cbn [negb orb].
  replace (prev - c + (n - prev)) with (n - c) by lia.
  rewrite (proj2 (Z.ltb_ge _ _)), (proj2 (Z.ltb_ge _ _)) by lia. cbn [orb]. f_equal.
  replace (Z.max (high - c) (n - c)) with (Z.max high n - c) by lia. by apply IH.
Qed.

(** The keys are the true positions up to a common offset. *)
Lemma insert_by_shift (x : Z * RtpPacket) l c :
  map (fun y => (y.1 - c, y.2)) (insert_by x l) = insert_by (x.1 - c, x.2) (map (fun y => (y.1 - c, y.2)) l).
Proof.
  induction l as [| y l IH]; cbn; [done |].
  replace (x.1 - c <=? y.1 - c) with (x.1 <=? y.1) by (apply eq_iff_eq_true; rewrite !Z.leb_le; lia).
  destruct (x.1 <=? y.1); cbn; [done |]. by rewrite IH.
Qed.
Lemma sort_by_key_shift (l : list (Z * RtpPacket)) c :
  sort_by_key (map (fun y => (y.1 - c, y.2)) l) = map (fun y => (y.1 - c, y.2)) (sort_by_key l).
Proof.
  induction l as [| x l IH]; [done |]. change (sort_by_key (x :: l)) with (insert_by x (sort_by_key l)).
  rewrite insert_by_shift, <- IH. done.
Qed.

(** C33: a stream that arrives reordered within the window, across any number of
    sequence wraps, is decoded in the order it was sent: one epoch, holding
    every packet, by its true position in the stream. *)
Theorem reordering_undone n0 p0 l :
  seq p0 = n0 mod 65536 -> arriving p0 n0 n0 l ->
  exists order, decode_order (p0 :: map snd l) = Val [map snd order] /\
    order ≡ₚ (n0, p0) :: l /\ StronglySorted by_key order.
Proof.
  intros H0 Hl. set (all := (n0, p0) :: l). set (c := n0 - seq p0).
  assert (Hk : epoch_sequence_keys (map snd all) = map (fun x => x.1 - c) all).
  { cbn. rewrite !Z.eqb_refl. cbn. rewrite (proj2 (Z.ltb_ge _ _)), (proj2 (Z.ltb_ge _ _)) by lia. cbn.
    replace (n0 - c) with (seq p0) by (unfold c; lia). f_equal. rewrite Z.max_id.
    rewrite <- (keys_arriving p0 n0 n0 c l Hl). rewrite <- H0. unfold c. by replace (n0 - (n0 - seq p0)) with (seq p0) by lia. }
  exists (sort_by_key all). split_and!; [| apply sort_by_key_perm | apply sort_by_key_sorted].
  change (p0 :: map snd l) with (map snd all). unfold decode_order.
  change (Datatypes.length (map snd all)) with (S (Datatypes.length (map snd l))).
  assert (Hne : exists a r, map snd all = a :: r) by (by repeat eexists). destruct Hne as (a & r & Ear).
  cbn [decode_epochs]. rewrite Ear at 1. rewrite Hk, !length_map.
  rewrite drop_ge, take_ge by (rewrite length_map; lia). cbn [decode_epochs].
  replace (zip (map (fun x : Z * RtpPacket => x.1 - c) all) (map snd all))
    with (map (fun y : Z * RtpPacket => (y.1 - c, y.2)) all)
    by (generalize all; intros k; induction k as [| [] k IH]; cbn; [done | by rewrite IH]).
  rewrite sort_by_key_shift, map_map. by destruct (Datatypes.length l).
Qed.

(** *** Witnesses *)

Lemma epochs_terminate_witness :
  exists es, decode_order [mkPacket 0 1 10 0 0 Codec.Pcmu 0 160; mkPacket 1 1 500 0 0 Codec.Pcmu 160 160] = Val es /\
    concat es ≡ₚ [mkPacket 0 1 10 0 0 Codec.Pcmu 0 160; mkPacket 1 1 500 0 0 Codec.Pcmu 160 160] /\
    Forall (fun e => e <> []) es.
Proof. apply epochs_terminate. Defined.

Lemma reordering_undone_witness :
  let p n := mkPacket 0 1 (n mod 65536) 0 0 Codec.Pcmu 0 160 in
  exists order, decode_order [p 65535; p 65537; p 65536] = Val [map snd order] /\
    order ≡ₚ [(65535, p 65535); (65537, p 65537); (65536, p 65536)] /\ StronglySorted by_key order.
Proof.
  intros p. apply (reordering_undone 65535 (p 65535) [(65537, p 65537); (65536, p 65536)]); [done |].
  cbn. repeat split; lia.
Defined.

End Convert.
