(* ===== verification/Recorder.v ===== *)
(** The recordings of a session ([recording/recorder.rs], [recording/meta.rs]).

    A recording's channel, the packet its writer is busy with and the packets
    already written are part of its state; the writer takes packets at any time.
    Creating files, threads and flush timeouts are not modelled, JSON is an
    interface, and the order in which the code walks its hash maps is the order
    of [map_to_list]. *)

From stdpp Require Import strings.
From S2P Require Import Prelude Rtp SocketPool Media Dtmf SessionDtmf Pcap.
#[local] Open Scope Z_scope.

(** ** Stream descriptors *)
Module Meta.

Definition MAGIC : bytes := [82; 66; 80; 49].

Record StreamDescriptor := mkDescriptor {
  v : Z;
  d_endpoint_id : string;
  role : string;
  ep_type : string;
  codec : string;
  pt : Z;
  clock_rate : Z;
  channels : Z;
  endian : option string;
  ssrc : option Z;
  local : string;
  remote : string;
}.
#[global] Instance StreamDescriptor_eq_dec : EqDecision StreamDescriptor.
Proof. solve_decision. Defined.

(** [serde_json] on descriptors. *)
Class Json := {
  to_vec : StreamDescriptor -> bytes;
  from_slice : bytes -> option StreamDescriptor;
  from_to_vec : forall d, from_slice (to_vec d) = Some d;
}.

Section meta.
Context {J : Json}.

Definition encode (d : StreamDescriptor) : bytes := MAGIC ++ to_vec d.

Definition starts_with (payload prefix : bytes) : bool := bool_decide (take (length prefix) payload = prefix).

Definition parse (payload : bytes) : option StreamDescriptor :=
  if starts_with payload MAGIC then from_slice (drop (length MAGIC) payload) else None.

Inductive PacketKind := Descriptor | Rtcp | Rtp.

Definition classify (payload : bytes) : outcome PacketKind :=
  if starts_with payload MAGIC then Val Descriptor
  else if 2 <=? len payload then
    let! b0 := get payload 0 in
    if Z.land b0 0xC0 =? 0x80 then
      let! b1 := get payload 1 in
      Val (if (200 <=? b1) && (b1 <=? 204) then Rtcp else Rtp)
    else Val Rtp
  else Val Rtp.

Lemma parse_encode d : parse (encode d) = Some d.
Proof.
  unfold parse, encode, starts_with. rewrite take_app_length, bool_decide_true, drop_app_length by done.
  apply from_to_vec.
Qed.
Lemma classify_encode d : classify (encode d) = Val Descriptor.
Proof. unfold classify, encode, starts_with. by rewrite take_app_length, bool_decide_true. Qed.

End meta.
End Meta.

Module Recorder.
Import Meta.

Definition RecordingId : Type := Z.
Abbreviation SocketAddr := Pcap.SocketAddr.

Record RecordPacket := mkRecord {
  src_addr : SocketAddr;
  dst_addr : SocketAddr;
  payload : bytes;
  timestamp : Z;
}.

Record DescriptorState := mkDescState {
  desc : StreamDescriptor;
  d_payload : bytes;
  version : Z;
  d_src : SocketAddr;
  d_dst : SocketAddr;
}.

(** [pending] is the channel, [writing] the packet whose permits the writer
    still holds, [written] what is in the file; [open] until the writer fails. *)
Record Recording := mkRecording {
  r_endpoint : option EndpointId;
  file_path : string;
  started_at : Z;
  packet_count : Z;
  dropped_packet_count : Z;
  pending : list RecordPacket;
  writing : option RecordPacket;
  written : list RecordPacket;
  open : bool;
  last_written_version : gmap EndpointId Z;
}.

Record RecordingManager := mkManager {
  recordings : gmap RecordingId Recording;
  pending_starts : Z;
  endpoint_recordings : gmap EndpointId (list RecordingId);
  next_endpoint_index : Z;
  endpoint_indices : gmap EndpointId Z;
  free_indices : list Z;
  max_recordings : Z;
  channel_size : Z;
  latest_descriptors : gmap EndpointId DescriptorState;
}.

Definition with_config (max chan : Z) : RecordingManager := mkManager ∅ 0 ∅ 0 ∅ [] max chan ∅.

(** Everything that was ever put into the recording. *)
Definition log (r : Recording) : list RecordPacket := written r ++ option_list (writing r) ++ pending r.

(** ** Queueing *)

(** [payload.len().saturating_add(64)] as a [u32]. *)
Definition cost (p : RecordPacket) : Z := Z.min (len (payload p) + 64) u32_max.
Definition total (l : list RecordPacket) : Z := foldr (fun p n => cost p + n) 0 l.
Definition held (r : Recording) : Z := total (option_list (writing r) ++ pending r).

Inductive send_error := Full | Closed.

(** [Recording::enqueue]: 1 MiB per recording, 16 MiB for the process of which
    [elsewhere] is held by other recordings, and the channel's capacity.  The
    packet and drop counters are [u64] in the code and integers here: one would
    wrap after 2^64 packets. *)
Definition enqueue (chan elsewhere : Z) (r : Recording) (p : RecordPacket) : result send_error Recording :=
  if 1048576 <? held r + cost p then Err Full
  else if 16777216 <? elsewhere + held r + cost p then Err Full
  else if negb (open r) then Err Closed
  else if chan <=? len (pending r) then Err Full
  else Ok (r {{ pending := pending r ++ [p] }}).

Definition count (r : Recording) : Recording := r {{ packet_count := packet_count r + 1 }}.
Definition count_drop (r : Recording) : Recording := r {{ dropped_packet_count := dropped_packet_count r + 1 }}.
Definition saw (e : EndpointId) (n : Z) (r : Recording) : Recording :=
  r {{ last_written_version := <[e := n]> (last_written_version r) }}.

(** The writer's thread. *)
Definition writer_takes (r : Recording) : Recording :=
  match writing r, pending r with
  | None, p :: ps => r {{ writing := Some p; pending := ps }}
  | _, _ => r
  end.
Definition writer_done (r : Recording) : Recording :=
  match writing r with
  | Some p => r {{ writing := None; written := written r ++ [p] }}
  | None => r
  end.
(** The receiver goes, and with it what it had not written. *)
Definition writer_fails (r : Recording) : Recording := r {{ open := false; pending := []; writing := None }}.

Section recorder.
Context {J : Json}.

(** ** Addresses *)

Definition get_endpoint_index (m : RecordingManager) (e : EndpointId) : RecordingManager * Z :=
  match endpoint_indices m !! e with
  | Some i => (m, i)
  | None =>
      match last (free_indices m) with
      | Some i =>
          (m {{ free_indices := removelast (free_indices m);
                endpoint_indices := <[e := i]> (endpoint_indices m) }}, i)
      | None =>
          let i := next_endpoint_index m in
          (m {{ next_endpoint_index := Z.min (Z.min (i + 1) u16_max) 65534;
                endpoint_indices := <[e := i]> (endpoint_indices m) }}, i)
      end
  end.

Definition frame (m : RecordingManager) (e : EndpointId) (local remote : option SocketAddr)
    : RecordingManager * (SocketAddr * SocketAddr) :=
  match local, remote with
  | Some l, Some r => (m, (r, l))
  | _, _ =>
      let '(m, i) := get_endpoint_index m e in
      (m, (Pcap.synthetic_addr i, Pcap.synthetic_addr 65535))
  end.

Definition note_descriptor (m : RecordingManager) (e : EndpointId) (d : StreamDescriptor)
    (local remote : option SocketAddr) : RecordingManager :=
  let unchanged := match latest_descriptors m !! e with Some st => bool_decide (desc st = d) | None => false end in
  if unchanged then m
  else
    let '(m, (src, dst)) := frame m e local remote in
    let version := match latest_descriptors m !! e with Some st => version st + 1 | None => 1 end in
    m {{ latest_descriptors := <[e := mkDescState d (encode d) version src dst]> (latest_descriptors m) }}.

Definition forget_endpoint (m : RecordingManager) (e : EndpointId) : RecordingManager :=
  m {{ latest_descriptors := delete e (latest_descriptors m) }}.

(** ** Starting and stopping *)

Inductive recorder_error := TooManyRecordings | NotPrepared | RecordingNotFound.

Definition begin_start (m : RecordingManager) : result recorder_error RecordingManager :=
  if max_recordings m <=? Z.of_nat (size (recordings m)) + pending_starts m then Err TooManyRecordings
  else Ok (m {{ pending_starts := pending_starts m + 1 }}).

(** One cached descriptor is replayed into a new recording. *)
Definition replay (chan elsewhere now : Z) (r : Recording) (x : EndpointId * DescriptorState) : Recording :=
  let '(e, st) := x in
  match enqueue chan elsewhere r (mkRecord (d_src st) (d_dst st) (d_payload st) now) with
  | Ok r => saw e (version st) (count r)
  | Err _ => r
  end.

(** [complete_start]; [prepared] is the path of the file that was created. *)
Definition complete_start (m : RecordingManager) (endpoint_id : option EndpointId) (prepared : option string)
    (id : RecordingId) (elsewhere now : Z) : RecordingManager * result recorder_error RecordingId :=
  let m := m {{ pending_starts := sat_sub (pending_starts m) 1 }} in
  match prepared with
  | None => (m, Err NotPrepared)
  | Some path =>
      let r := mkRecording endpoint_id path now 0 0 [] None [] true ∅ in
      let er := match endpoint_id with
                | Some e => <[e := default [] (endpoint_recordings m !! e) ++ [id]]> (endpoint_recordings m)
                | None => endpoint_recordings m
                end in
      let to_replay :=
        filter (fun x => endpoint_id = None \/ endpoint_id = Some x.1) (map_to_list (latest_descriptors m)) in
      let r := foldl (replay (channel_size m) elsewhere now) r to_replay in
      (m {{ recordings := <[id := r]> (recordings m); endpoint_recordings := er }}, Ok id)
  end.

Record StoppedRecordingInfo := mkStopped {
  recording_id : RecordingId; s_file_path : string; duration_ms : Z; packets : Z; dropped_packets : Z;
}.
Definition info (id : RecordingId) (r : Recording) (now : Z) : StoppedRecordingInfo :=
  mkStopped id (file_path r) (duration_since now (started_at r) / ns_per_ms) (packet_count r)
    (dropped_packet_count r).

(** The recording is removed, from the endpoint's list as well. *)
Definition remove_recording (m : RecordingManager) (id : RecordingId) (r : Recording) : RecordingManager :=
  m {{ recordings := delete id (recordings m);
       endpoint_recordings :=
         match r_endpoint r with
         | Some e =>
             match endpoint_recordings m !! e with
             | Some ids => <[e := filter (fun i => i <> id) ids]> (endpoint_recordings m)
             | None => endpoint_recordings m
             end
         | None => endpoint_recordings m
         end }}.

Definition stop (m : RecordingManager) (id : RecordingId) (now : Z)
    : RecordingManager * result recorder_error StoppedRecordingInfo :=
  match recordings m !! id with
  | None => (m, Err RecordingNotFound)
  | Some r => (remove_recording m id r, Ok (info id r now))
  end.

Definition is_recording (m : RecordingManager) : bool := negb (bool_decide (recordings m = ∅)).

Fixpoint stop_ids (m : RecordingManager) (ids : list RecordingId) (now : Z)
    : RecordingManager * list StoppedRecordingInfo :=
  match ids with
  | [] => (m, [])
  | id :: ids =>
      match stop m id now with
      | (m, Ok i) => let '(m, infos) := stop_ids m ids now in (m, i :: infos)
      | (m, Err _) => stop_ids m ids now
      end
  end.
Definition stop_all (m : RecordingManager) (now : Z) : RecordingManager * list StoppedRecordingInfo :=
  stop_ids m (map fst (map_to_list (recordings m))) now.

Definition stop_endpoint_recordings (m : RecordingManager) (e : EndpointId) (now : Z)
    : RecordingManager * list StoppedRecordingInfo :=
  let ids := default [] (endpoint_recordings m !! e) in
  let stopped := omap (fun id => match recordings m !! id with Some r => Some (info id r now) | None => None end) ids in
  let m := m {{ endpoint_recordings := delete e (endpoint_recordings m);
                recordings := foldl (fun rs id => delete id rs) (recordings m) ids }} in
  match endpoint_indices m !! e with
  | Some i => (m {{ endpoint_indices := delete e (endpoint_indices m); free_indices := free_indices m ++ [i] }}, stopped)
  | None => (m, stopped)
  end.

(** ** Delivering *)

(** The descriptor that goes first, if this recording is behind; [None] when the
    packet is not to be enqueued, with whether the recording is dead. *)
Definition prepend (chan elsewhere now : Z) (e : EndpointId) (src dst : SocketAddr)
    (d : option (Z * bytes)) (r : Recording) : result (Recording * bool) Recording :=
  match d with
  | None => Ok r
  | Some (version, dpayload) =>
      if default 0 (last_written_version r !! e) <? version then
        match enqueue chan elsewhere r (mkRecord src dst dpayload now) with
        | Ok r => Ok (saw e version (count r))
        | Err Closed => Err (r, true)
        | Err Full => Err (count_drop r, false)
        end
      else Ok r
  end.

(** One recording's share of [deliver]; the flag is whether it is dead. *)
Definition deliver_to (chan elsewhere now : Z) (e : EndpointId) (src dst : SocketAddr) (pl : bytes)
    (d : option (Z * bytes)) (r : Recording) : Recording * bool :=
  match prepend chan elsewhere now e src dst d r with
  | Err x => x
  | Ok r =>
      match enqueue chan elsewhere r (mkRecord src dst pl now) with
      | Ok r => (count r, false)
      | Err Closed => (r, true)
      | Err Full => (count_drop r, false)
      end
  end.

Definition targets (m : RecordingManager) (e : EndpointId) : list RecordingId :=
  default [] (endpoint_recordings m !! e) ++
  map fst (filter (fun x => r_endpoint x.2 = None) (map_to_list (recordings m))).

(** The loop over the targets: the recordings and the dead ones. *)
Fixpoint deliver_all (chan : Z) (elsewhere : RecordingId -> Z) (now : Z) (e : EndpointId) (src dst : SocketAddr)
    (pl : bytes) (d : option (Z * bytes)) (ids : list RecordingId) (rs : gmap RecordingId Recording)
    : gmap RecordingId Recording * list RecordingId :=
  match ids with
  | [] => (rs, [])
  | id :: ids =>
      match rs !! id with
      | None => deliver_all chan elsewhere now e src dst pl d ids rs
      | Some r =>
          let '(r, dead) := deliver_to chan (elsewhere id) now e src dst pl d r in
          let '(rs, ds) := deliver_all chan elsewhere now e src dst pl d ids (<[id := r]> rs) in
          (rs, if dead then id :: ds else ds)
      end
  end.

Fixpoint remove_dead (m : RecordingManager) (ids : list RecordingId) (now : Z)
    : RecordingManager * list StoppedRecordingInfo :=
  match ids with
  | [] => (m, [])
  | id :: ids =>
      match recordings m !! id with
      | None => remove_dead m ids now
      | Some r =>
          let '(m, infos) := remove_dead (remove_recording m id r) ids now in (m, info id r now :: infos)
      end
  end.

Definition deliver (m : RecordingManager) (e : EndpointId) (src dst : SocketAddr) (pl : bytes)
    (with_descriptor : bool) (elsewhere : RecordingId -> Z) (now : Z)
    : RecordingManager * list StoppedRecordingInfo :=
  if bool_decide (recordings m = ∅) then (m, [])
  else
    let d := if with_descriptor
             then (fun st => (version st, d_payload st)) <$> (latest_descriptors m !! e) else None in
    let '(rs, dead) :=
      deliver_all (channel_size m) elsewhere now e src dst pl d (targets m e) (recordings m) in
    remove_dead (m {{ recordings := rs }}) dead now.

Definition record_packet_addr (m : RecordingManager) (e : EndpointId) (pl : bytes)
    (local remote : option SocketAddr) (elsewhere : RecordingId -> Z) (now : Z)
    : RecordingManager * list StoppedRecordingInfo :=
  let '(m, (src, dst)) := frame m e local remote in deliver m e src dst pl true elsewhere now.

Definition record_rtcp (m : RecordingManager) (e : EndpointId) (pl : bytes)
    (local remote : option SocketAddr) (elsewhere : RecordingId -> Z) (now : Z)
    : RecordingManager * list StoppedRecordingInfo :=
  let '(m, (src, dst)) := frame m e local remote in deliver m e src dst pl false elsewhere now.

(** [record_inbound] of the session. *)
Definition record_inbound (m : RecordingManager) (pkt : RoutedRtpPacket)
    (dtmf_state : gmap EndpointId SessionDtmf.EndpointDtmf) (sensitive : gset EndpointId)
    (d : option StreamDescriptor) (local remote : option SocketAddr) (elsewhere : RecordingId -> Z) (now : Z)
    : RecordingManager :=
  if negb (is_recording m) then m
  else if negb (SessionDtmf.should_record_inbound pkt dtmf_state sensitive) then m
  else
    let e := source_endpoint_id pkt in
    let m := match d with Some d => note_descriptor m e d local remote | None => m end in
    let raw := RtpHeader.build (payload_type pkt) (sequence_number pkt) (Media.timestamp pkt) (Media.ssrc pkt)
                 (marker pkt) (Media.payload pkt) in
    (record_packet_addr m e raw local remote elsewhere now).1.

End recorder.
End Recorder.
