(* ===== verification/Converter.v ===== *)
(** The converter's first pass ([bin/pcap2audio.rs], the loop of [run]): frames
    are bound to channels by descriptors in capture order.

    A capture is the list of its packets' timestamps and data; the crate that
    writes the PCAP container keeps timestamps at its own resolution. *)

From stdpp Require Import strings pretty.
From S2P Require Import Prelude Rtp SocketPool Media SessionDtmf Pcap Recorder.
#[local] Open Scope Z_scope.

Module Converter.
Import Meta.

#[global] Instance IpAddr_countable : Countable SocketPool.IpAddr.
Proof.
  refine (inj_countable'
    (fun a => match a with SocketPool.V4 x => inl x | SocketPool.V6 x => inr x end)
    (fun s => match s with inl x => SocketPool.V4 x | inr x => SocketPool.V6 x end) _).
  by intros [].
Defined.

Definition Flow : Type := SocketPool.IpAddr * Z * (SocketPool.IpAddr * Z).

Record Channel := mkChannel {
  c_codec : option Codec.AudioCodec;
  c_pt : option Z;
  first_capture : option Z;
  c_packets : list Convert.RtpPacket;
  c_epoch : Z;
}.
Definition new_channel : Channel := mkChannel None None None [] 0.

Definition MAX_CHANNELS : Z := 32.
Definition MAX_TEMP_BYTES : Z := 2 * 1024 * 1024 * 1024.

Record State := mkState {
  addr_to_endpoint : gmap Flow string;
  chans : gmap string Channel;
  order : list string;
  encoded : bytes;
  unbound_rtp : Z;
  undecodable_desc : Z;
}.
Definition start : State := mkState ∅ ∅ [] [] 0 0.

Inductive convert_error :=
| EndpointIdTooLong | TooManyMappings | TooManyChannels | PayloadTooLarge | SpoolTooLarge.

(** The time [pcap_file]'s writer keeps of a packet. *)
Class PcapFile := { file_time : Z -> Z }.

(** The names the recorder writes. *)
Definition codec_from_descriptor (d : StreamDescriptor) : option Codec.AudioCodec :=
  if String.eqb (codec d) "PCMU" then Some Codec.Pcmu
  else if String.eqb (codec d) "G722" then Some Codec.G722
  else if String.eqb (codec d) "opus" then Some Codec.Opus
  else if String.eqb (codec d) "L16" && (0 <? clock_rate d) then Some (Codec.L16 (clock_rate d))
  else None.

Section convert.
Context {J : Json} {PF : PcapFile}.

Definition on_descriptor (s : State) (flow : Flow) (pl : bytes) : result convert_error State :=
  match parse pl with
  | None => Ok (s {{ undecodable_desc := undecodable_desc s + 1 }})
  | Some d =>
      let id := d_endpoint_id d in
      if 128 <? Z.of_nat (String.length id) then Err EndpointIdTooLong
      else if negb ((Z.of_nat (size (addr_to_endpoint s)) <? 4096)
                    || bool_decide (is_Some (addr_to_endpoint s !! flow))) then Err TooManyMappings
      else if negb ((Z.of_nat (size (chans s)) <? MAX_CHANNELS) || bool_decide (is_Some (chans s !! id)))
      then Err TooManyChannels
      else
        let s := s {{ addr_to_endpoint := <[flow := id]> (addr_to_endpoint s) }} in
        match codec_from_descriptor d with
        | None => Ok s
        | Some c =>
            let ord := if bool_decide (is_Some (chans s !! id)) then order s else order s ++ [id] in
            let ch := default new_channel (chans s !! id) in
            let ch := ch {{ c_epoch := if bool_decide (c_packets ch = []) then c_epoch ch
                                       else sat_add32 (c_epoch ch) 1;
                            c_codec := Some c; c_pt := Some (pt d) }} in
            Ok (s {{ chans := <[id := ch]> (chans s); order := ord }})
        end
  end.

Definition on_rtp (s : State) (flow : Flow) (ts : Z) (pl : bytes) : outcome (result convert_error State) :=
  match addr_to_endpoint s !! flow with
  | None => Val (Ok (s {{ unbound_rtp := unbound_rtp s + 1 }}))
  | Some id =>
      match chans s !! id with
      | None => Val (Ok s)
      | Some ch =>
          match c_codec ch, c_pt ch with
          | Some c, Some want_pt =>
              let! r := Pcap.parse_rtp pl in
              match r with
              | None => Val (Ok s)
              | Some (pt, seq, rts, ssrc, body) =>
                  if negb (pt =? want_pt) then Val (Ok s)
                  else if 16384 <? len body then Val (Err PayloadTooLarge)
                  else if MAX_TEMP_BYTES <? len (encoded s) + len body then Val (Err SpoolTooLarge)
                  else
                    let first := match first_capture ch with None => Some ts | f => f end in
                    let p := Convert.mkPacket (c_epoch ch) ssrc seq rts ts c (len (encoded s)) (len body) in
                    Val (Ok (s {{ encoded := encoded s ++ body;
                                  chans := <[id := ch {{ first_capture := first;
                                                         c_packets := c_packets ch ++ [p] }}]> (chans s) }}))
              end
          | _, _ => Val (Ok s)
          end
      end
  end.

Definition on_packet (s : State) (ts : Z) (data : bytes) : outcome (result convert_error State) :=
  let! f := Pcap.parse_frame data in
  match f with
  | None => Val (Ok s)
  | Some (src, dst, pl) =>
      let! k := classify pl in
      match k with
      | Descriptor => Val (on_descriptor s (src, dst) pl)
      | Rtcp => Val (Ok s)
      | Rtp => on_rtp s (src, dst) ts pl
      end
  end.

Fixpoint demux (s : State) (capture : list (Z * bytes)) : outcome (result convert_error State) :=
  match capture with
  | [] => Val (Ok s)
  | (ts, data) :: capture =>
      let! r := on_packet s ts data in
      match r with Err e => Val (Err e) | Ok s => demux s capture end
  end.

(** [write_record_packet]: a packet of a recording as it is captured. *)
Definition captured (p : Recorder.RecordPacket) : outcome (Z * bytes) :=
  let! f := Pcap.build_pcap_frame (Recorder.src_addr p) (Recorder.dst_addr p) (Recorder.payload p) in
  Val (file_time (Z.max (Recorder.timestamp p) 0), f).

(** Reading back one packet of a recording. *)
Definition read (s : State) (p : Recorder.RecordPacket) : outcome (result convert_error State) :=
  let! (ts, data) := captured p in on_packet s ts data.

Fixpoint convert (s : State) (l : list Recorder.RecordPacket) : outcome (result convert_error State) :=
  match l with
  | [] => Val (Ok s)
  | p :: l =>
      let! r := read s p in
      match r with Err e => Val (Err e) | Ok s => convert s l end
  end.

(** ** Reading *)

(** A packet between two valid addresses of one family. *)
Definition well_addressed (src dst : Pcap.SocketAddr) : Prop :=
  Pcap.addr_ok src.1 /\ Pcap.addr_ok dst.1 /\ Pcap.same_family src.1 dst.1 /\ is_u16 src.2 /\ is_u16 dst.2.

Lemma read_val s p :
  well_addressed (Recorder.src_addr p) (Recorder.dst_addr p) ->
  read s p =
    let! k := classify (Recorder.payload p) in
    match k with
    | Descriptor => Val (on_descriptor s (Recorder.src_addr p, Recorder.dst_addr p) (Recorder.payload p))
    | Rtcp => Val (Ok s)
    | Rtp => on_rtp s (Recorder.src_addr p, Recorder.dst_addr p) (file_time (Z.max (Recorder.timestamp p) 0)) (Recorder.payload p)
    end.
Proof.
  intros (H1 & H2 & H3 & H4 & H5). unfold read, captured.
  destruct (Pcap.frame_read_back _ _ (Recorder.payload p) H1 H2 H3 H4 H5) as (f & Hf & Hp).
  rewrite Hf. cbn [obind]. unfold on_packet. by rewrite Hp.
Qed.

Lemma convert_app s l k :
  convert s (l ++ k) =
    let! r := convert s l in match r with Err e => Val (Err e) | Ok s => convert s k end.
Proof.
  revert s. induction l as [| p l IH]; intros s; cbn; [done |].
  destruct (read s p) as [[s' | e] |]; cbn; [apply IH | done | done].
Qed.

(** The bindings, without the packets. *)
Definition bindings (s : State) : gmap Flow string * gmap string (option Codec.AudioCodec * option Z) :=
  (addr_to_endpoint s, (fun ch => (c_codec ch, c_pt ch)) <$> chans s).

Lemma on_rtp_bindings s flow ts pl s' : on_rtp s flow ts pl = Val (Ok s') -> bindings s' = bindings s.
Proof.
  unfold on_rtp, bindings. destruct (addr_to_endpoint s !! flow) as [id |]; [| by intros [= <-]; destruct s].
  destruct (chans s !! id) as [ch |] eqn:E; [| by intros [= <-]].
  destruct (c_codec ch) as [c |] eqn:Ec; [| by intros [= <-]].
  destruct (c_pt ch) as [w |] eqn:Ew; [| by intros [= <-]].
  destruct (Pcap.parse_rtp pl) as [[[[[[pt sq] rts] sc] body] |] |]; cbn; [| by intros [= <-] | done].
  destruct (negb (pt =? w)); [by intros [= <-] |]. do 2 (destruct (_ <? _); [done |]). intros [= <-].
  destruct s; cbn in *. f_equal. rewrite fmap_insert. destruct ch; cbn in *. subst.
  apply insert_id. by rewrite lookup_fmap, E.
Qed.

Lemma on_descriptor_ok s flow d :
  Z.of_nat (String.length (d_endpoint_id d)) <= 128 ->
  (Z.of_nat (size (addr_to_endpoint s)) < 4096 \/ is_Some (addr_to_endpoint s !! flow)) ->
  (Z.of_nat (size (chans s)) < MAX_CHANNELS \/ is_Some (chans s !! d_endpoint_id d)) ->
  exists s', on_descriptor s flow (encode d) = Ok s'.
Proof.
  intros Hid Ha Hc. unfold on_descriptor. rewrite parse_encode, (proj2 (Z.ltb_ge _ _)) by done.
  assert (negb ((Z.of_nat (size (addr_to_endpoint s)) <? 4096) || bool_decide (is_Some (addr_to_endpoint s !! flow))) = false) as ->.
  { apply negb_false_iff, orb_true_iff. destruct Ha; [left; by apply Z.ltb_lt | right; by apply bool_decide_eq_true]. }
  assert (negb ((Z.of_nat (size (chans s)) <? MAX_CHANNELS) || bool_decide (is_Some (chans s !! d_endpoint_id d))) = false) as ->.
  { apply negb_false_iff, orb_true_iff. destruct Hc; [left; by apply Z.ltb_lt | right; by apply bool_decide_eq_true]. }
  destruct (codec_from_descriptor d); by eexists.
Qed.

Lemma on_descriptor_effect s flow d s' :
  on_descriptor s flow (encode d) = Ok s' ->
  addr_to_endpoint s' = <[flow := d_endpoint_id d]> (addr_to_endpoint s) /\ encoded s' = encoded s /\
  (forall id, id <> d_endpoint_id d -> chans s' !! id = chans s !! id) /\
  (forall c, codec_from_descriptor d = Some c -> exists ch,
     chans s' !! d_endpoint_id d = Some ch /\ c_codec ch = Some c /\ c_pt ch = Some (pt d) /\
     c_packets ch = c_packets (default new_channel (chans s !! d_endpoint_id d))).
Proof.
  unfold on_descriptor. rewrite parse_encode. do 3 (destruct (_ : bool); [done |]).
  destruct (codec_from_descriptor d) as [c |]; intros [= <-]; destruct s; cbn; split_and!; try done.
  - intros id Hid. by rewrite lookup_insert_ne.
  - intros c' [= <-]. rewrite lookup_insert_eq. eexists. split; [done |].
    by destruct (default new_channel _).
Qed.

End convert.

(** ** What recordings contain

    The recorder of a session whose endpoints come and go, with sockets or
    without. *)
Section recordings.
Context {J : Json} {PF : PcapFile}.
Import Recorder.

(** How endpoints and addresses, or the lack of one, are written in descriptors. *)
Variable name : EndpointId -> string.
Hypothesis name_inj : forall e e', name e = name e' -> e = e'.
Variable text : option Pcap.SocketAddr -> string.
Hypothesis text_inj : forall a b, text a = text b -> a = b.

(** A socket and a peer of one family; no socket is the address that stands for
    the bridge. *)
Definition addressed (lo ro : option Pcap.SocketAddr) : Prop :=
  match lo, ro with
  | Some l, Some r => well_addressed r l /\ l <> Pcap.synthetic_addr 65535
  | _, _ => True
  end.

Definition honest (e : EndpointId) (d : StreamDescriptor) (lo ro : option Pcap.SocketAddr) : Prop :=
  (d_endpoint_id d = name e /\ Z.of_nat (String.length (name e)) <= 128) /\
  local d = text lo /\ remote d = text ro /\ addressed lo ro.

(** Synthetic addresses have not run out. *)
Definition roomy (m : RecordingManager) (lo ro : option Pcap.SocketAddr) : Prop :=
  match lo, ro with Some _, Some _ => True | _, _ => next_endpoint_index m < 64516 end.

(** No other endpoint that is there has the socket; one that was torn down may
    have had it. *)
Definition free (m : RecordingManager) (e : EndpointId) (lo ro : option Pcap.SocketAddr) : Prop :=
  match lo, ro with
  | Some l, Some _ => forall e' st, latest_descriptors m !! e' = Some st -> e' <> e -> d_dst st <> l
  | _, _ => True
  end.

Definition set_recording (m : RecordingManager) (id : RecordingId) (f : Recording -> Recording) : RecordingManager :=
  m {{ recordings := alter f id (recordings m) }}.

(** The endpoints that have left since a recording first heard of them. *)
Definition Departed : Type := RecordingId -> gset EndpointId.
Definition depart (m : RecordingManager) (e : EndpointId) (G : Departed) : Departed :=
  fun id =>
    match recordings m !! id with
    | Some r => if bool_decide (is_Some (last_written_version r !! e)) then {[e]} ∪ G id else G id
    | None => G id
    end.

(** The recorder of a session: any order of starts (every [complete_start] follows
    its [begin_start], with a fresh identifier), stops, descriptors, media, RTCP,
    endpoints that leave, and progress or failure of the writers.  No two
    endpoints that are there share a socket, an endpoint that has had a
    descriptor goes on having one, and fewer than 64516 endpoints at a time have
    no socket: beyond that synthetic addresses would coincide. *)
Inductive step : RecordingManager * Departed -> RecordingManager * Departed -> Prop :=
| SBegin m m' G : begin_start m = Ok m' -> step (m, G) (m', G)
| SComplete m G ep prepared id elsewhere now :
    recordings m !! id = None -> 0 < pending_starts m -> step (m, G) ((complete_start m ep prepared id elsewhere now).1, G)
| SStop m G id now : step (m, G) ((stop m id now).1, G)
| SNote m G e d lo ro :
    honest e d lo ro -> free m e lo ro -> roomy m lo ro -> step (m, G) (note_descriptor m e d lo ro, G)
| SInbound m G pkt ds sens d lo ro elsewhere now :
    honest (source_endpoint_id pkt) d lo ro -> free m (source_endpoint_id pkt) lo ro -> roomy m lo ro ->
    step (m, G) (record_inbound m pkt ds sens (Some d) lo ro elsewhere now, G)
| SUnknown m G pkt ds sens lo ro elsewhere now :
    latest_descriptors m !! source_endpoint_id pkt = None -> addressed lo ro -> roomy m lo ro ->
    step (m, G) (record_inbound m pkt ds sens None lo ro elsewhere now, G)
| SRtcp m G e pl lo ro elsewhere now :
    classify pl = Val Rtcp -> addressed lo ro -> roomy m lo ro ->
    step (m, G) ((record_rtcp m e pl lo ro elsewhere now).1, G)
| STeardown m G e now : step (m, G) ((stop_endpoint_recordings (forget_endpoint m e) e now).1, depart m e G)
| STakes m G id : step (m, G) (set_recording m id writer_takes, G)
| SDone m G id : step (m, G) (set_recording m id writer_done, G)
| SFails m G id : step (m, G) (set_recording m id writer_fails, G).

Inductive reachable (max chan : Z) : RecordingManager * Departed -> Prop :=
| reach_new : reachable max chan (with_config max chan, fun _ => ∅)
| reach_step x y : reachable max chan x -> step x y -> reachable max chan y.

(** *** The invariant *)

Definition st_ok (e : EndpointId) (st : DescriptorState) : Prop :=
  d_payload st = encode (desc st) /\
  (d_endpoint_id (desc st) = name e /\ Z.of_nat (String.length (name e)) <= 128) /\
  well_addressed (d_src st) (d_dst st) /\ 1 <= version st.

(** The converter knows the endpoint's flow, codec and payload type. *)
Definition bound (s : State) (st : DescriptorState) : Prop :=
  (bindings s).1 !! (d_src st, d_dst st) = Some (d_endpoint_id (desc st)) /\
  forall c, codec_from_descriptor (desc st) = Some c ->
    (bindings s).2 !! d_endpoint_id (desc st) = Some (Some c, Some (pt (desc st))).

(** What a recording has been told is up to date is. *)
Definition told (latest : gmap EndpointId DescriptorState) (G : gset EndpointId) (r : Recording) (s : State) : Prop :=
  forall e n, e ∉ G -> last_written_version r !! e = Some n ->
    exists st, latest !! e = Some st /\ n <= version st /\ (n = version st -> bound s st).

Definition rec_ok (latest : gmap EndpointId DescriptorState) (G : gset EndpointId) (r : Recording) : Prop :=
  open r = true -> forall s, convert start (log r) = Val (Ok s) -> told latest G r s.

Definition idx_ok (m : RecordingManager) : Prop :=
  forall e, NoDup (default [] (endpoint_recordings m !! e)) /\
    forall id, id ∈ default [] (endpoint_recordings m !! e) <->
               exists r, recordings m !! id = Some r /\ r_endpoint r = Some e.

(** The descriptors in force: a flow each. *)
Definition latest_ok (latest : gmap EndpointId DescriptorState) : Prop :=
  (forall e st, latest !! e = Some st -> st_ok e st) /\
  forall e1 e2 st1 st2, latest !! e1 = Some st1 -> latest !! e2 = Some st2 -> e1 <> e2 ->
    (d_src st1, d_dst st1) <> (d_src st2, d_dst st2).

(** Synthetic addresses: a number each, below those that would coincide. *)
Record indices_ok (m : RecordingManager) : Prop := {
  ix_next : 0 <= next_endpoint_index m <= 64516;
  ix_range : forall e i, endpoint_indices m !! e = Some i -> 0 <= i < next_endpoint_index m;
  ix_inj : forall e1 e2 i, endpoint_indices m !! e1 = Some i -> endpoint_indices m !! e2 = Some i -> e1 = e2;
  ix_nodup : NoDup (free_indices m);
  ix_free : forall i, i ∈ free_indices m -> 0 <= i < next_endpoint_index m /\ forall e, endpoint_indices m !! e <> Some i;
}.

(** The flow of an endpoint's packets. *)
Definition flow_at (ix : gmap EndpointId Z) (e : EndpointId) (lo ro : option Pcap.SocketAddr) : option Flow :=
  match lo, ro with
  | Some l, Some r => Some (r, l)
  | _, _ => (fun i => (Pcap.synthetic_addr i, Pcap.synthetic_addr 65535)) <$> ix !! e
  end.
Definition located (ix : gmap EndpointId Z) (e : EndpointId) (st : DescriptorState) : Prop :=
  exists lo ro, local (desc st) = text lo /\ remote (desc st) = text ro /\ addressed lo ro /\
    flow_at ix e lo ro = Some (d_src st, d_dst st).

Record inv (m : RecordingManager) (G : Departed) : Prop := {
  inv_latest : latest_ok (latest_descriptors m);
  inv_located : forall e st, latest_descriptors m !! e = Some st -> located (endpoint_indices m) e st;
  inv_indices : indices_ok m;
  inv_rec : forall id r, recordings m !! id = Some r -> rec_ok (latest_descriptors m) (G id) r;
  inv_idx : idx_ok m;
}.

(** *** Addresses *)

Lemma synthetic_inj i j :
  0 <= i < 64516 -> 0 <= j < 64516 -> Pcap.synthetic_addr i = Pcap.synthetic_addr j -> i = j.
Proof.
  intros Hi Hj. unfold Pcap.synthetic_addr. rewrite !(proj2 (Z.eqb_neq _ 65535)) by lia. intros [= E]. revert E.
  assert (i / 254 + 1 <= 254) by mlia. assert (j / 254 + 1 <= 254) by mlia. rewrite !Z.min_l by done. unfold wrap8. mlia.
Qed.

Lemma synthetic_addressed i : 0 <= i < 64516 -> well_addressed (Pcap.synthetic_addr i) (Pcap.synthetic_addr 65535).
Proof.
  intros Hi. unfold Pcap.synthetic_addr. rewrite (proj2 (Z.eqb_neq _ 65535)) by lia. rewrite Z.eqb_refl.
  unfold well_addressed, Pcap.addr_ok, Pcap.same_family, is_u16; cbn [fst snd]. split_and!; try done; try lia.
  all: unfold wrap8, is_u32; mlia.
Qed.

(** What only gives out numbers. *)
Record same (m m' : RecordingManager) : Prop := {
  same_recs : recordings m' = recordings m;
  same_index : endpoint_recordings m' = endpoint_recordings m;
  same_latest : latest_descriptors m' = latest_descriptors m;
  same_chan : channel_size m' = channel_size m;
  same_max : max_recordings m' = max_recordings m;
  same_pending : pending_starts m' = pending_starts m;
  same_given : forall e i, endpoint_indices m !! e = Some i -> endpoint_indices m' !! e = Some i;
}.

Lemma index_spec m e :
  indices_ok m -> next_endpoint_index m < 64516 ->
  let x := get_endpoint_index m e in
  same m x.1 /\ indices_ok x.1 /\ endpoint_indices x.1 !! e = Some x.2 /\
  (is_Some (endpoint_indices m !! e) -> x.1 = m).
Proof.
  intros [I1 I2 I3 I4 I5] Hn. unfold get_endpoint_index. destruct (endpoint_indices m !! e) as [i |] eqn:E; [done |].
  assert (New : forall i (nx : Z) fr, next_endpoint_index m <= nx <= 64516 -> 0 <= i < nx ->
    (forall e', endpoint_indices m !! e' <> Some i) -> NoDup fr -> i ∉ fr ->
    (forall j, j ∈ fr -> j ∈ free_indices m) ->
    let m' := m {{ free_indices := fr; next_endpoint_index := nx; endpoint_indices := <[e := i]> (endpoint_indices m) }} in
    same m m' /\ indices_ok m' /\ endpoint_indices m' !! e = Some i).
  { intros i nx fr Hnx Hi Hun Hnd Hif Hsub m'. destruct m as [? ? ? nx0 ix fr0 ? ? ?]; cbn in *. split_and!.
    - split; try done. cbn. intros e' j Hj. rewrite lookup_insert_ne; [done | congruence].
    - split; cbn; [lia | | | done |].
      + intros e' j [[_ <-] | [_ Hj]]%lookup_insert_Some; [done |]. pose proof (I2 e' j Hj). lia.
      + intros e1 e2 j [[<- <-] | [H1 Hj1]]%lookup_insert_Some [[<- H] | [H2 Hj2]]%lookup_insert_Some; subst;
          [done | by destruct (Hun e2) | by destruct (Hun e1) | by eapply I3].
      + intros j Hj. destruct (I5 j (Hsub j Hj)) as [R U]. split; [lia |].
        intros e' [[_ <-] | [_ Hj']]%lookup_insert_Some; [done | by destruct (U e')].
    - by rewrite lookup_insert_eq. }
  destruct (last (free_indices m)) as [i |] eqn:L.
  - apply last_Some in L as [fr L]. rewrite L in *. rewrite removelast_last.
    apply NoDup_app in I4 as (N1 & N2 & _). destruct (I5 i) as [R U]; [set_solver |].
    destruct (New i (next_endpoint_index m) fr) as (A & B & C); [lia | done | done | done | | set_solver |].
    { intros Hin. apply (N2 i Hin). set_solver. }
    split; [| split; [| split; [| by intros []]]]; destruct m; cbn in *; try done.
  - cbn zeta. replace (Z.min (Z.min (next_endpoint_index m + 1) u16_max) 65534) with (next_endpoint_index m + 1)
      by (unfold u16_max; lia).
    destruct (New (next_endpoint_index m) (next_endpoint_index m + 1) (free_indices m)) as (A & B & C);
      [lia | lia | | done | | done |].
    { intros e' H. specialize (I2 e' _ H). lia. }
    { intros H. destruct (I5 _ H). lia. }
    split; [| split; [| split; [| by intros []]]]; destruct m; cbn in *; try done.
Qed.

Lemma frame_spec m e lo ro :
  indices_ok m -> roomy m lo ro ->
  let x := frame m e lo ro in
  same m x.1 /\ indices_ok x.1 /\ flow_at (endpoint_indices x.1) e lo ro = Some x.2 /\
  (forall f, flow_at (endpoint_indices m) e lo ro = Some f -> x = (m, f)).
Proof.
  intros I Hr. assert (Sock : same m m) by (by split).
  assert (Syn : next_endpoint_index m < 64516 ->
    let x := (let '(m', i) := get_endpoint_index m e in (m', (Pcap.synthetic_addr i, Pcap.synthetic_addr 65535))) in
    same m x.1 /\ indices_ok x.1 /\
    (fun i => (Pcap.synthetic_addr i, Pcap.synthetic_addr 65535)) <$> (endpoint_indices x.1 !! e) = Some x.2 /\
    (forall f, (fun i => (Pcap.synthetic_addr i, Pcap.synthetic_addr 65535)) <$> (endpoint_indices m !! e) = Some f -> x = (m, f))).
  { intros Hn. destruct (index_spec m e I Hn) as (A & B & C & D). destruct (get_endpoint_index m e) as [m' i].
    cbn [fst snd] in *. split_and!; [done | done | by rewrite C |].
    intros f (j & Ej & ->)%fmap_Some. rewrite D in * by (by eexists). congruence. }
  destruct lo as [l |], ro as [r |]; cbn [roomy frame flow_at] in *; try (by apply Syn).
  split_and!; try done. by intros f [= <-].
Qed.

Lemma flow_addressed m e lo ro src dst :
  indices_ok m -> addressed lo ro -> flow_at (endpoint_indices m) e lo ro = Some (src, dst) -> well_addressed src dst.
Proof.
  intros I. destruct lo as [l |], ro as [r |]; cbn; [by intros [H _] [= <- <-] | ..];
    intros _ (i & Hi & [= -> ->])%fmap_Some; pose proof (ix_range m I e i Hi); pose proof (ix_next m I);
    apply synthetic_addressed; lia.
Qed.

(** Two endpoints that are there have different flows. *)
Lemma flows_apart m e lo ro f e' lo' ro' f' :
  indices_ok m -> e <> e' -> addressed lo ro -> addressed lo' ro' ->
  flow_at (endpoint_indices m) e lo ro = Some f -> flow_at (endpoint_indices m) e' lo' ro' = Some f' ->
  (forall l r, lo = Some l -> ro = Some r -> f'.2 <> l) -> f' <> f.
Proof.
  intros I Hne A A' F F' Hl.
  assert (K : forall ix e lo ro f, flow_at ix e lo ro = Some f ->
    (exists l r, lo = Some l /\ ro = Some r /\ f = (r, l)) \/
    (exists i, ix !! e = Some i /\ f = (Pcap.synthetic_addr i, Pcap.synthetic_addr 65535) /\
       (lo = None \/ ro = None))).
  { intros ix e0 [l |] [r |] f0; cbn; [intros [= <-]; left; by exists l, r | ..]; intros (i & Hi & ->)%fmap_Some; right; eauto. }
  destruct (K _ _ _ _ _ F) as [(l & r & -> & -> & ->) | (i & Hi & -> & _)].
  - intros ->. by apply (Hl l r).
  - destruct (K _ _ _ _ _ F') as [(l & r & -> & -> & ->) | (j & Hj & -> & _)].
    + intros [= _ E]. by destruct A' as [_ ?].
    + intros [= E]. pose proof (ix_range m I _ _ Hi). pose proof (ix_range m I _ _ Hj). pose proof (ix_next m I).
      apply synthetic_inj in E; [subst | lia | lia]. by apply Hne, (ix_inj m I e e' i).
Qed.

Lemma located_mono m m' e st : same m m' -> located (endpoint_indices m) e st -> located (endpoint_indices m') e st.
Proof.
  intros S (lo & ro & E1 & E2 & A & F). exists lo, ro. split_and!; try done.
  destruct lo as [l |], ro as [r |]; cbn in *; try done; apply fmap_Some in F as (i & Hi & ->);
    by rewrite (same_given m m' S e i Hi).
Qed.

Lemma same_inv m m' G : same m m' -> indices_ok m' -> inv m G -> inv m' G.
Proof.
  intros S I' [I1 I2 _ I4 I5]. pose proof S as [S1 S2 S3 _ _ _ _]. split; rewrite ?S3, ?S1; try done.
  - intros e st H. eapply located_mono; eauto.
  - unfold idx_ok. by rewrite S1, S2.
Qed.

(** *** Reading what is appended *)

Lemma read_quiet s p s' :
  well_addressed (src_addr p) (dst_addr p) -> classify (payload p) <> Val Descriptor ->
  read s p = Val (Ok s') -> bindings s' = bindings s.
Proof.
  intros Hw Hk. rewrite read_val by done. destruct (classify (payload p)) as [[] |]; cbn; try done.
  - by intros [= <-].
  - apply on_rtp_bindings.
Qed.

Lemma read_descriptor s src dst d now s' :
  well_addressed src dst -> read s (mkRecord src dst (encode d) now) = Val (Ok s') ->
  on_descriptor s (src, dst) (encode d) = Ok s'.
Proof.
  intros Hw. rewrite read_val by done. cbn [payload src_addr dst_addr]. rewrite classify_encode. cbn. by intros [= ->].
Qed.

Lemma descriptor_binds s st s' :
  on_descriptor s (d_src st, d_dst st) (encode (desc st)) = Ok s' -> bound s' st.
Proof.
  intros (Ha & _ & _ & Hc)%on_descriptor_effect. unfold bound, bindings; cbn. rewrite Ha, lookup_insert_eq.
  split; [done |]. intros c Hcodec. destruct (Hc c Hcodec) as (ch & Hch & E1 & E2 & _).
  by rewrite lookup_fmap, Hch; cbn; rewrite E1, E2.
Qed.

Lemma descriptor_keeps s src dst e d st e2 s' :
  d_endpoint_id d = name e -> st_ok e2 st -> e <> e2 -> (src, dst) <> (d_src st, d_dst st) ->
  on_descriptor s (src, dst) (encode d) = Ok s' -> bound s st -> bound s' st.
Proof.
  intros H1 (_ & [K1 _] & _) Hne Hflow (Ha & _ & Hc & _)%on_descriptor_effect [B1 B2].
  unfold bound, bindings in *; cbn in *. rewrite Ha, lookup_insert_ne by done.
  split; [done |]. intros c Hcodec. rewrite lookup_fmap, Hc by (rewrite H1, K1; intros E%name_inj; congruence).
  rewrite <- lookup_fmap. auto.
Qed.

(** *** Appending to a recording *)

Lemma enqueue_ok chan el r p r' :
  enqueue chan el r p = Ok r' ->
  open r = true /\ log r' = log r ++ [p] /\ last_written_version r' = last_written_version r /\
  r_endpoint r' = r_endpoint r /\ open r' = open r /\ dropped_packet_count r' = dropped_packet_count r.
Proof.
  unfold enqueue. do 2 (destruct (_ <? _); [done |]). destruct (open r) eqn:O; [| done]. cbn [negb].
  destruct (_ <=? _); [done |]. intros [= <-]. destruct r; cbn in *. unfold log; cbn. by rewrite !app_assoc.
Qed.

Lemma enqueue_closed chan el r p : enqueue chan el r p = Err Closed -> open r = false.
Proof.
  unfold enqueue. do 2 (destruct (_ <? _); [done |]). destruct (open r); [| done]. cbn. by destruct (_ <=? _).
Qed.

Lemma convert_snoc l p s' :
  convert start (l ++ [p]) = Val (Ok s') ->
  exists s, convert start l = Val (Ok s) /\ read s p = Val (Ok s').
Proof.
  rewrite convert_app. destruct (convert start l) as [[s | e] |]; cbn; [| done | done].
  destruct (read s p) as [[s1 | e] |] eqn:R; cbn; try done. intros [= <-]. by exists s.
Qed.

Lemma append_quiet latest G r r' p :
  rec_ok latest G r -> open r = true -> log r' = log r ++ [p] ->
  last_written_version r' = last_written_version r ->
  well_addressed (src_addr p) (dst_addr p) -> classify (payload p) <> Val Descriptor ->
  rec_ok latest G r'.
Proof.
  intros Hr O L V Hw Hk _ s' Hs'. rewrite L in Hs'. apply convert_snoc in Hs' as (s & Hs & R).
  apply read_quiet in R; [| done..]. intros e n He Hn. rewrite V in Hn.
  destruct (Hr O s Hs e n He Hn) as (st & E1 & E2 & E3). exists st. split_and!; [done.. |].
  intros E. destruct (E3 E). unfold bound. by rewrite R.
Qed.

Lemma append_descriptor latest G r r' e st now :
  latest_ok latest -> latest !! e = Some st ->
  rec_ok latest G r -> open r = true ->
  log r' = log r ++ [mkRecord (d_src st) (d_dst st) (encode (desc st)) now] ->
  last_written_version r' = <[e := version st]> (last_written_version r) ->
  rec_ok latest G r'.
Proof.
  intros Hlat He Hr O L V _ s' Hs'. rewrite L in Hs'. apply convert_snoc in Hs' as (s & Hs & R).
  pose proof (proj1 Hlat e st He) as (Hp & [Hname _] & Hw & Hv).
  apply read_descriptor in R; [| done].
  intros e2 n He2 Hn. rewrite V in Hn. apply lookup_insert_Some in Hn as [[<- <-] | [Hne Hn]].
  - exists st. split_and!; [done | lia |]. intros _. by eapply descriptor_binds.
  - destruct (Hr O s Hs e2 n He2 Hn) as (st2 & E1 & E2 & E3). exists st2. split_and!; [done.. |].
    intros E. destruct Hlat as [Hlat Hdst]. eapply descriptor_keeps; eauto.
Qed.

Definition kept (r r' : Recording) : Prop := open r' = open r /\ r_endpoint r' = r_endpoint r.

Lemma replay_ok latest G chan el now r e st :
  latest_ok latest -> latest !! e = Some st -> rec_ok latest G r ->
  rec_ok latest G (replay chan el now r (e, st)) /\ kept r (replay chan el now r (e, st)).
Proof.
  intros Hlat He Hr. unfold replay. destruct (enqueue _ _ _ _) as [r1 |] eqn:E; [| done].
  apply enqueue_ok in E as (O & L & V & Ep & O' & _). destruct (proj1 Hlat e st He) as (Hp & _). rewrite Hp in L.
  split; [| unfold kept, saw, count; by destruct r1].
  apply (append_descriptor latest G r _ e st now); try done; rewrite <- V; by destruct r1.
Qed.

Lemma deliver_to_ok latest G chan el now e st pl r :
  latest_ok latest -> latest !! e = Some st -> rec_ok latest G r ->
  classify pl <> Val Descriptor ->
  let x := deliver_to chan el now e (d_src st) (d_dst st) pl (Some (version st, d_payload st)) r in
  rec_ok latest G x.1 /\ kept r x.1 /\ (x.2 = true -> open r = false).
Proof.
  intros Hlat He Hr Hpl. unfold deliver_to. destruct (proj1 Hlat e st He) as (Hp & _ & Hw & Hv).
  assert (Pre : match prepend chan el now e (d_src st) (d_dst st) (Some (version st, d_payload st)) r with
    | Ok r1 => rec_ok latest G r1 /\ kept r r1
    | Err x => rec_ok latest G x.1 /\ kept r x.1 /\ (x.2 = true -> open r = false)
    end).
  { unfold prepend. destruct (_ <? _); [| done].
    destruct (enqueue _ _ _ _) as [r1 | []] eqn:E.
    - apply enqueue_ok in E as (O & L & V & Ep & O' & _). rewrite Hp in L.
      split; [| unfold kept, saw, count; by destruct r1].
      apply (append_descriptor latest G r _ e st now); try done; rewrite <- V; by destruct r1.
    - unfold kept, count_drop. by destruct r.
    - apply enqueue_closed in E. unfold kept. cbn. auto. }
  destruct (prepend _ _ _ _ _ _ _ _) as [r1 | x]; [| done]. destruct Pre as [H1 K1].
  destruct (enqueue _ _ _ _) as [r2 | []] eqn:E.
  - apply enqueue_ok in E as (O & L & V & Ep & O' & _). destruct K1 as [K1 K2].
    split_and!; [| unfold kept, count; destruct r2; cbn in *; split; congruence | done].
    apply (append_quiet latest G r1 _ (mkRecord (d_src st) (d_dst st) pl now)); try done; by destruct r2.
  - unfold kept, count_drop in *. by destruct r1.
  - apply enqueue_closed in E. destruct K1. cbn. split_and!; [done.. |]. congruence.
Qed.

Lemma deliver_aux_ok latest G chan el now e src dst pl r :
  rec_ok latest G r -> well_addressed src dst -> classify pl <> Val Descriptor ->
  let x := deliver_to chan el now e src dst pl None r in
  rec_ok latest G x.1 /\ kept r x.1 /\ (x.2 = true -> open r = false).
Proof.
  intros Hr Hw Hpl. unfold deliver_to; cbn [prepend]. destruct (enqueue _ _ _ _) as [r1 | []] eqn:E.
  - apply enqueue_ok in E as (O & L & V & Ep & O' & _).
    split_and!; [| unfold kept, count; by destruct r1 | done].
    apply (append_quiet latest G r _ (mkRecord src dst pl now)); try done; by destruct r1.
  - unfold kept, count_drop. by destruct r.
  - apply enqueue_closed in E. unfold kept. cbn. auto.
Qed.

(** *** Delivering to all *)

Lemma elem_cons_ne (j i : RecordingId) ids : j <> i -> bool_decide (j ∈ i :: ids) = bool_decide (j ∈ ids).
Proof. intros H. apply bool_decide_ext. rewrite elem_of_cons. naive_solver. Qed.

Lemma deliver_all_lookup chan el now e src dst pl d ids rs j :
  NoDup ids ->
  let f r := deliver_to chan (el j) now e src dst pl d r in
  let x := deliver_all chan el now e src dst pl d ids rs in
  x.1 !! j = (if bool_decide (j ∈ ids) then (fun r => (f r).1) <$> rs !! j else rs !! j) /\
  (j ∈ x.2 <-> j ∈ ids /\ exists r, rs !! j = Some r /\ (f r).2 = true).
Proof.
  intros Hnd f. cbn zeta. revert rs. induction Hnd as [| id ids Hid Hnd IH]; intros rs; cbn [deliver_all].
  { split; [done |]. cbn. split; [by intros ?%elem_of_nil | intros [?%elem_of_nil _]; done]. }
  destruct (rs !! id) as [r |] eqn:E.
  - destruct (deliver_to chan (el id) now e src dst pl d r) as [r' dead] eqn:D.
    specialize (IH (<[id := r']> rs)). destruct (deliver_all _ _ _ _ _ _ _ _ ids _) as [rs' ds]. cbn in IH |- *.
    destruct IH as [I1 I2]. destruct (decide (j = id)) as [-> | Hj].
    + rewrite bool_decide_false, lookup_insert_eq in I1 by done. rewrite bool_decide_true by (by left).
      rewrite I1, E. cbn. unfold f. rewrite D. split; [done |].
      assert (id ∉ ds) by (intros [? _]%I2; done). split.
      * intros Hin. split; [by left |]. exists r. split; [done |]. rewrite D. by destruct dead.
      * intros [_ (r0 & [= <-] & Hd)]. rewrite D in Hd. cbn in Hd. subst. by left.
    + rewrite lookup_insert_ne in I1, I2 by done. rewrite I1.
      rewrite elem_cons_ne by done.
      split; [done |]. destruct dead; rewrite ?elem_of_cons, I2; set_solver.
  - destruct (IH rs) as [I1 I2]. rewrite I1, I2. destruct (decide (j = id)) as [-> | Hj].
    + rewrite bool_decide_false, bool_decide_true, E by (done || by left). split; [done |].
      split; [by intros [? _] | intros (_ & ? & ? & _); congruence].
    + rewrite elem_cons_ne by done. split; [done |]. set_solver.
Qed.

Lemma targets_nodup m e : idx_ok m -> NoDup (targets m e).
Proof.
  intros H. destruct (H e) as [Hnd Hin]. unfold targets. apply NoDup_app. split_and!; [done | |].
  - intros id Hid Hin2. apply list_elem_of_In, in_map_iff in Hin2 as ([id2 r2] & E & Hin2). cbn in E; subst id2.
    apply list_elem_of_In, list_elem_of_filter in Hin2 as [Hn Hin2]. apply elem_of_map_to_list in Hin2.
    apply Hin in Hid as (r & Hr & He). cbn in Hn. congruence.
  - eapply (sublist_NoDup _ (map_to_list (recordings m)).*1); [apply NoDup_fst_map_to_list |].
    apply (fmap_sublist fst), sublist_filter.
Qed.

Lemma targets_covers m e id r :
  idx_ok m -> recordings m !! id = Some r ->
  id ∈ targets m e <-> r_endpoint r = None \/ r_endpoint r = Some e.
Proof.
  intros H Hr. destruct (H e) as [_ Hin]. unfold targets. rewrite elem_of_app, Hin.
  split.
  - intros [(r1 & ? & ?) | Hin2]; [right; congruence |]. left.
    apply list_elem_of_In, in_map_iff in Hin2 as ([id2 r2] & E & Hin2). cbn in E; subst id2.
    apply list_elem_of_In, list_elem_of_filter in Hin2 as [Hn Hin2]. apply elem_of_map_to_list in Hin2.
    cbn in Hn. congruence.
  - intros [Hn | Hs]; [right | left; by exists r]. apply list_elem_of_In, in_map_iff. exists (id, r).
    split; [done |]. apply list_elem_of_In, list_elem_of_filter. split; [done |]. by apply elem_of_map_to_list.
Qed.

(** *** Removing *)

Lemma remove_recording_idx m id r :
  idx_ok m -> recordings m !! id = Some r -> idx_ok (remove_recording m id r).
Proof.
  intros H Hr e. destruct (H e) as [Hnd Hin].
  assert (L : default [] (endpoint_recordings (remove_recording m id r) !! e) =
              filter (fun i => i <> id) (default [] (endpoint_recordings m !! e))).
  { assert (Hnone : r_endpoint r <> Some e ->
      default [] (endpoint_recordings m !! e) = filter (fun i => i <> id) (default [] (endpoint_recordings m !! e))).
    { intros Hne. symmetry.
      assert (F : Forall (fun i => i <> id) (default [] (endpoint_recordings m !! e))).
      { apply Forall_forall. intros i Hi ->. apply Hin in Hi as (r1 & ? & ?). congruence. }
      revert F. generalize (default [] (endpoint_recordings m !! e)). intros k. induction 1 as [| i k Hi _ IH]; [done |].
      rewrite filter_cons_True by done. by rewrite IH. }
    unfold remove_recording. destruct m; cbn in *.
    destruct (r_endpoint r) as [e1 |] eqn:Er; [| by apply Hnone].
    destruct (endpoint_recordings0 !! e1) as [ids |] eqn:E1.
    - destruct (decide (e = e1)) as [-> | Hne]; [by rewrite lookup_insert_eq, E1 |].
      rewrite lookup_insert_ne by done. apply Hnone. congruence.
    - destruct (decide (e = e1)) as [-> | Hne]; [by rewrite E1 | apply Hnone; congruence]. }
  rewrite L. split; [by apply NoDup_filter |]. intros j. rewrite list_elem_of_filter, Hin.
  assert (R : recordings (remove_recording m id r) = delete id (recordings m)) by (by destruct m).
  rewrite R. split.
  - intros (Hj & r1 & H1 & H2). exists r1. by rewrite lookup_delete_ne.
  - intros (r1 & H1 & H2). apply lookup_delete_Some in H1 as [Hne H1]. split; [done | by exists r1].
Qed.

Lemma remove_dead_spec ids m now :
  idx_ok m ->
  let m' := (remove_dead m ids now).1 in
  idx_ok m' /\ latest_descriptors m' = latest_descriptors m /\
  forall j, recordings m' !! j = if bool_decide (j ∈ ids) then None else recordings m !! j.
Proof.
  revert m. induction ids as [| id ids IH]; intros m H; cbn [remove_dead]; [split_and!; done |].
  destruct (recordings m !! id) as [r |] eqn:E.
  - pose proof (remove_recording_idx m id r H E) as H1. specialize (IH _ H1).
    destruct (remove_dead (remove_recording m id r) ids now) as [m1 infos]. cbn in IH |- *.
    destruct IH as (I1 & I2 & I3). split_and!; [done | rewrite I2; by destruct m |]. intros j. rewrite I3.
    destruct (decide (j = id)) as [-> | Hj].
    + rewrite (bool_decide_true (id ∈ id :: ids)) by (by left). rewrite lookup_delete_eq. by destruct (bool_decide _).
    + by rewrite elem_cons_ne, lookup_delete_ne.
  - destruct (IH m H) as (I1 & I2 & I3). split_and!; [done.. |]. intros j. rewrite I3.
    destruct (decide (j = id)) as [-> | Hj]; [| by rewrite elem_cons_ne].
    rewrite (bool_decide_true (id ∈ id :: ids)) by (by left). rewrite E. by destruct (bool_decide _).
Qed.

(** [deliver] reaches each recording that covers the endpoint once, and the
    others not at all. *)
Lemma deliver_spec m e src dst pl (wd : bool) el now :
  idx_ok m ->
  let d := if wd then (fun st => (version st, d_payload st)) <$> (latest_descriptors m !! e) else None in
  let f j r := deliver_to (channel_size m) (el j) now e src dst pl d r in
  let covers r := r_endpoint r = None \/ r_endpoint r = Some e in
  (forall j r, recordings m !! j = Some r -> covers r -> kept r (f j r).1) ->
  let m' := (deliver m e src dst pl wd el now).1 in
  idx_ok m' /\ latest_descriptors m' = latest_descriptors m /\
  forall j, match recordings m !! j with
            | None => recordings m' !! j = None
            | Some r => (~ covers r /\ recordings m' !! j = Some r) \/
                        (covers r /\ recordings m' !! j = if (f j r).2 then None else Some (f j r).1)
            end.
Proof.
  intros H d f covers Hk. unfold deliver. case_bool_decide as E.
  { split_and!; [done.. |]. intros j. cbn. by rewrite E, lookup_empty. }
  fold d. pose proof (fun j => deliver_all_lookup (channel_size m) el now e src dst pl d (targets m e) (recordings m) j
                       (targets_nodup m e H)) as A. cbn zeta in A. fold f in A.
  destruct (deliver_all _ _ _ _ _ _ _ _ _ _) as [rs dead]. cbn in A.
  assert (Hm1 : idx_ok (m {{ recordings := rs }})).
  { intros e1. destruct (H e1) as [Hnd Hin]. replace (endpoint_recordings (m {{ recordings := rs }}))
      with (endpoint_recordings m) by (by destruct m). split; [done |]. intros j. rewrite Hin.
    replace (recordings (m {{ recordings := rs }})) with rs by (by destruct m). destruct (A j) as [-> _].
    case_bool_decide as T; [| done]. split.
    - intros (r & Hr & He). exists (f j r).1. rewrite Hr. split; [done |].
      destruct (Hk j r Hr) as [_ ->]; [by apply (targets_covers m e j r H Hr) | done].
    - intros (r1 & Hr1 & He). destruct (recordings m !! j) as [r |] eqn:Hr; [| done]. injection Hr1 as <-.
      exists r. split; [done |]. destruct (Hk j r Hr) as [_ <-]; [by apply (targets_covers m e j r H Hr) | done]. }
  destruct (remove_dead_spec dead _ now Hm1) as (I1 & I2 & I3).
  destruct (remove_dead (m {{ recordings := rs }}) dead now) as [m2 infos]. cbn in I1, I2, I3 |- *.
  split_and!; [done | rewrite I2; by destruct m |]. intros j. rewrite I3.
  replace (recordings (m {{ recordings := rs }})) with rs by (by destruct m). destruct (A j) as [A1 A2]. rewrite A1.
  destruct (recordings m !! j) as [r |] eqn:Hr.
  - destruct (decide (j ∈ targets m e)) as [T | T].
    + right. split; [by apply (targets_covers m e j r H Hr) |]. rewrite (bool_decide_true (j ∈ targets m e)) by done.
      unfold f at 1. destruct (deliver_to _ _ _ _ _ _ _ _ r) as [r1 []] eqn:D.
      * rewrite bool_decide_true; [done |]. apply A2. split; [done |]. exists r. split; [done |]. unfold f. by rewrite D.
      * rewrite bool_decide_false; [unfold f; cbn; by rewrite D |]. intros (_ & r0 & [= <-] & Hd)%A2.
        unfold f in Hd. by rewrite D in Hd.
    + left. split; [intros Hc; by apply T, (targets_covers m e j r H Hr) |].
      rewrite bool_decide_false by (intros (? & _)%A2; done). by rewrite bool_decide_false.
  - rewrite bool_decide_false by (intros (_ & ? & ? & _)%A2; done). by destruct (bool_decide _).
Qed.

(** The numbers given out. *)
Definition numbers (m : RecordingManager) : gmap EndpointId Z * Z * list Z :=
  (endpoint_indices m, next_endpoint_index m, free_indices m).

Lemma indices_numbers m m' : numbers m' = numbers m -> indices_ok m -> indices_ok m'.
Proof. unfold numbers. intros [= E1 E2 E3] []. by split; rewrite ?E1, ?E2, ?E3. Qed.

Lemma inv_fields m m' G :
  recordings m' = recordings m -> endpoint_recordings m' = endpoint_recordings m ->
  latest_descriptors m' = latest_descriptors m -> numbers m' = numbers m -> inv m G -> inv m' G.
Proof.
  intros E1 E2 E3 En [I1 I2 I3 I4 I5]. pose proof En as [= N _ _].
  split; rewrite ?E1, ?E3, ?N; try done; [by eapply indices_numbers | unfold idx_ok; by rewrite E1, E2].
Qed.

Lemma remove_dead_numbers ids m now : numbers (remove_dead m ids now).1 = numbers m.
Proof.
  revert m. induction ids as [| id ids IH]; intros m; cbn [remove_dead]; [done |].
  destruct (recordings m !! id) as [r |]; [| apply IH]. specialize (IH (remove_recording m id r)).
  destruct (remove_dead _ _ _). cbn in *. rewrite IH. by destruct m.
Qed.
Lemma deliver_numbers m e src dst pl (wd : bool) el now : numbers (deliver m e src dst pl wd el now).1 = numbers m.
Proof.
  unfold deliver. case_bool_decide; [done |]. destruct (deliver_all _ _ _ _ _ _ _ _ _ _) as [rs dead].
  rewrite remove_dead_numbers. by destruct m.
Qed.

(** *** Steps *)

(** A descriptor that is noted again changes nothing; another one replaces it, at
    the flow the endpoint's packets have. *)
Lemma note_effect m e d lo ro :
  indices_ok m -> roomy m lo ro ->
  let m' := note_descriptor m e d lo ro in
  (m' = m /\ exists st, latest_descriptors m !! e = Some st /\ desc st = d) \/
  exists m0 src dst, same m m0 /\ indices_ok m0 /\ flow_at (endpoint_indices m0) e lo ro = Some (src, dst) /\
    m' = m0 {{ latest_descriptors :=
      <[e := mkDescState d (encode d)
               (match latest_descriptors m !! e with Some st => version st + 1 | None => 1 end) src dst]>
      (latest_descriptors m) }}.
Proof.
  intros I Hr. unfold note_descriptor. cbn zeta.
  destruct (match latest_descriptors m !! e with Some st => bool_decide (desc st = d) | None => false end) eqn:U.
  - left. split; [done |]. destruct (latest_descriptors m !! e) as [st |]; [| done]. exists st.
    by apply bool_decide_eq_true in U.
  - right. destruct (frame_spec m e lo ro I Hr) as (S & I0 & F & _). destruct (frame m e lo ro) as [m0 [src dst]].
    exists m0, src, dst. cbn [fst snd] in *. split_and!; try done. by rewrite (same_latest m m0 S).
Qed.

(** A note leaves the recordings alone. *)
Lemma note_same m e d lo ro :
  indices_ok m -> roomy m lo ro ->
  let m' := note_descriptor m e d lo ro in
  recordings m' = recordings m /\ endpoint_recordings m' = endpoint_recordings m /\
  channel_size m' = channel_size m /\ max_recordings m' = max_recordings m /\ pending_starts m' = pending_starts m.
Proof.
  intros I Hr. destruct (note_effect m e d lo ro I Hr) as [[-> _] | (m0 & src & dst & S & _ & _ & ->)]; [done |].
  destruct S, m0. by split_and!.
Qed.

Lemma note_inv m G e d lo ro :
  inv m G -> honest e d lo ro -> free m e lo ro -> roomy m lo ro -> inv (note_descriptor m e d lo ro) G.
Proof.
  intros I (Hname & Hlo & Hro & Ha) Hfree Hroom.
  destruct (note_effect m e d lo ro (inv_indices m G I) Hroom) as [[-> _] | (m0 & src & dst & S & I0 & F & ->)]; [done |].
  apply (same_inv m m0 G S I0) in I as [[I1 I2] I3 _ I4 I5].
  rewrite <- (same_latest m m0 S). set (st0 := mkDescState d (encode d) _ src dst).
  assert (Hst : st_ok e st0).
  { split; [done |]. split; [done |]. split; [by eapply flow_addressed |]. cbn.
    destruct (latest_descriptors m0 !! e) as [st |] eqn:E; [| lia]. destruct (I1 e st E) as (_ & _ & _ & ?). lia. }
  assert (Hapart : forall e' st, latest_descriptors m0 !! e' = Some st -> e' <> e -> (d_src st, d_dst st) <> (src, dst)).
  { intros e' st H Hne. destruct (I3 e' st H) as (lo' & ro' & _ & _ & A' & F').
    apply (flows_apart m0 e lo ro (src, dst) e' lo' ro'); try done. intros l r -> ->.
    cbn in Hfree |- *. apply (Hfree e' st); [by rewrite <- (same_latest m m0 S) | done]. }
  assert (Hloc : located (endpoint_indices m0) e st0) by (by exists lo, ro).
  destruct m0 as [rs ps er nx ix fr mx ch la]; cbn in *. split; cbn; [split | | by destruct I0 | | done].
  - intros e2 st [[<- <-] | [_ H]]%lookup_insert_Some; [done | by apply I1].
  - intros e1 e2 st1 st2 [[<- <-] | [Hn1 H1]]%lookup_insert_Some [[<- <-] | [Hn2 H2]]%lookup_insert_Some Hne; [done | | |].
    + cbn. intros E. by apply (Hapart e2 st2 H2).
    + by apply (Hapart e1 st1 H1).
    + by eapply I2.
  - intros e2 st [[<- <-] | [_ H]]%lookup_insert_Some; [done | by apply I3].
  - intros id rc Hrc O s Hs e2 n He2 Hn. destruct (I4 id rc Hrc O s Hs e2 n He2 Hn) as (st & E1 & E2 & E3).
    destruct (decide (e2 = e)) as [-> | Hne].
    + rewrite lookup_insert_eq. eexists. split; [done |]. unfold st0. cbn. rewrite E1. split; lia.
    + rewrite lookup_insert_ne by done. by exists st.
Qed.

Lemma build_not_descriptor pt sq ts sc m pl : classify (RtpHeader.build pt sq ts sc m pl) <> Val Descriptor.
Proof.
  unfold classify, RtpHeader.build, starts_with. cbn [app take length MAGIC].
  rewrite bool_decide_false by done. destruct (2 <=? _); [| done].
  destruct (get _ 0) as [b0 |]; cbn; [| done]. destruct (_ =? _); [| done].
  destruct (get _ 1) as [b1 |]; cbn; [| done]. by destruct (_ && _).
Qed.

(** After the note, the endpoint's descriptor is the one given, at the flow of its
    packets. *)
Lemma noted m G e d lo ro :
  inv m G -> honest e d lo ro -> roomy m lo ro ->
  let m' := note_descriptor m e d lo ro in
  exists st, latest_descriptors m' !! e = Some st /\ desc st = d /\ frame m' e lo ro = (m', (d_src st, d_dst st)).
Proof.
  intros I (_ & Hlo & Hro & Ha) Hroom.
  destruct (note_effect m e d lo ro (inv_indices m G I) Hroom) as [[-> (st & E & D)] | (m0 & src & dst & S & I0 & F & ->)].
  - exists st. split; [done |]. split; [done |]. destruct (inv_located m G I e st E) as (lo' & ro' & E1 & E2 & _ & F).
    rewrite D, Hlo in E1. rewrite D, Hro in E2. apply text_inj in E1 as <-, E2 as <-.
    by apply (frame_spec m e lo ro (inv_indices m G I) Hroom).
  - eexists. split; [destruct m0; cbn; apply lookup_insert_eq |]. split; [done |]. cbn [d_src d_dst].
    destruct lo as [l |], ro as [r |]; cbn in F; [by injection F as <- <- | ..];
      apply fmap_Some in F as (i & Hi & [= -> ->]); destruct m0; cbn in *; unfold get_endpoint_index; cbn; by rewrite Hi.
Qed.

Lemma deliver_inv m G e src dst pl (wd : bool) el now :
  inv m G ->
  (forall j r, recordings m !! j = Some r ->
     let x := deliver_to (channel_size m) (el j) now e src dst pl
                (if wd then (fun st => (version st, d_payload st)) <$> (latest_descriptors m !! e) else None) r in
     rec_ok (latest_descriptors m) (G j) x.1 /\ kept r x.1) ->
  inv (deliver m e src dst pl wd el now).1 G.
Proof.
  intros [I1 I2 I2' I3 I4] Hf.
  pose proof (deliver_numbers m e src dst pl wd el now) as N. injection N as N1 N2 N3.
  destruct (deliver_spec m e src dst pl wd el now I4) as (D1 & D2 & D3); [intros j r Hr _; by apply Hf |].
  split; rewrite ?D2; [done | by rewrite N1 | by apply (indices_numbers m); unfold numbers; congruence | | done].
  intros j r' Hr'. specialize (D3 j). destruct (recordings m !! j) as [r |] eqn:Hr; [| congruence].
  destruct D3 as [[_ D3] | [_ D3]]; rewrite D3 in Hr'; [injection Hr' as <-; by eapply I3 |].
  destruct (deliver_to _ _ _ _ _ _ _ _ r).2; [done |]. injection Hr' as <-. by apply (Hf j r Hr).
Qed.

Lemma inbound_inv m G pkt ds sens d lo ro el now :
  inv m G -> honest (source_endpoint_id pkt) d lo ro -> free m (source_endpoint_id pkt) lo ro -> roomy m lo ro ->
  inv (record_inbound m pkt ds sens (Some d) lo ro el now) G.
Proof.
  intros I Hh He Hr. unfold record_inbound. do 2 (destruct (negb _); [done |]).
  set (e := source_endpoint_id pkt) in *. cbn zeta. pose proof (note_inv m G e d lo ro I Hh He Hr) as N.
  destruct (noted m G e d lo ro I Hh Hr) as (st & L & _ & F).
  set (m1 := note_descriptor m e d lo ro) in *. unfold record_packet_addr. rewrite F.
  apply deliver_inv; [done |]. intros j rc Hrc. cbn zeta. rewrite L. cbn.
  destruct (deliver_to_ok (latest_descriptors m1) (G j) (channel_size m1) (el j) now e st
    (RtpHeader.build (payload_type pkt) (sequence_number pkt) (Media.timestamp pkt) (Media.ssrc pkt) (marker pkt)
       (Media.payload pkt)) rc (inv_latest m1 G N) L) as (A & B & _); [by eapply (inv_rec m1 G N) |
    apply build_not_descriptor | done].
Qed.

(** Packets that bring no descriptor with them: RTCP, and media of an endpoint
    that has none yet. *)
Lemma plain_inv m G e pl lo ro (wd : bool) el now :
  inv m G -> classify pl <> Val Descriptor -> addressed lo ro -> roomy m lo ro ->
  (wd = true -> latest_descriptors m !! e = None) ->
  inv (let '(m, (src, dst)) := frame m e lo ro in deliver m e src dst pl wd el now).1 G.
Proof.
  intros I Hk Ha Hr Hwd. destruct (frame_spec m e lo ro (inv_indices m G I) Hr) as (S & I0 & F & _).
  destruct (frame m e lo ro) as [m0 [src dst]]. cbn [fst snd] in *. apply (same_inv m m0 G S I0) in I.
  apply deliver_inv; [done |]. intros j rc Hrc. cbn zeta.
  replace (if wd then _ else None) with (@None (Z * bytes))
    by (destruct wd; [by rewrite (same_latest m m0 S), Hwd | done]).
  destruct (deliver_aux_ok (latest_descriptors m0) (G j) (channel_size m0) (el j) now e src dst pl rc) as (A & B & _);
    [by eapply (inv_rec m0 G I) | by eapply flow_addressed | done | done].
Qed.

Lemma unknown_inv m G pkt ds sens lo ro el now :
  inv m G -> latest_descriptors m !! source_endpoint_id pkt = None -> addressed lo ro -> roomy m lo ro ->
  inv (record_inbound m pkt ds sens None lo ro el now) G.
Proof.
  intros I Hn Ha Hr. unfold record_inbound. do 2 (destruct (negb _); [done |]).
  apply plain_inv; try done. apply build_not_descriptor.
Qed.

Lemma replays_ok latest G chan el now r xs :
  latest_ok latest -> Forall (fun x => latest !! x.1 = Some x.2) xs ->
  rec_ok latest G r ->
  rec_ok latest G (foldl (replay chan el now) r xs) /\ kept r (foldl (replay chan el now) r xs).
Proof.
  intros Hlat Hxs. revert r. induction Hxs as [| [e st] xs Hx _ IH]; intros r Hr; [done |]. cbn [foldl].
  destruct (replay_ok latest G chan el now r e st Hlat Hx Hr) as [A [B1 B2]].
  destruct (IH _ A) as [C [D1 D2]]. split; [done |]. split; congruence.
Qed.

(** A recording is added. *)
Lemma added_inv m G m' id r :
  inv m G -> recordings m !! id = None -> rec_ok (latest_descriptors m) (G id) r ->
  recordings m' = <[id := r]> (recordings m) -> latest_descriptors m' = latest_descriptors m ->
  endpoint_recordings m' =
    match r_endpoint r with
    | Some e => <[e := default [] (endpoint_recordings m !! e) ++ [id]]> (endpoint_recordings m)
    | None => endpoint_recordings m
    end ->
  numbers m' = numbers m -> inv m' G.
Proof.
  intros [I1 I2 I2' I3 I4] Hid Hr R L ER Nm. injection Nm as N1 N2 N3.
  split; rewrite ?L, ?R; [done | by rewrite N1 | by apply (indices_numbers m); unfold numbers; congruence | |].
  - intros j rj. rewrite lookup_insert_Some. intros [[<- <-] | [_ H]]; [done | by eapply I3].
  - intros e. destruct (I4 e) as [Hnd Hin]. rewrite R.
    assert (Hnew : id ∉ default [] (endpoint_recordings m !! e)) by (intros (? & ? & _)%Hin; congruence).
    destruct (decide (r_endpoint r = Some e)) as [He | He].
    + rewrite ER, He, lookup_insert_eq. cbn. split.
      * apply NoDup_app. split_and!; [done | | apply NoDup_singleton]. by intros x Hx ->%list_elem_of_singleton.
      * intros j. rewrite elem_of_app, list_elem_of_singleton, Hin. split.
        -- intros [(r1 & H1 & H2) | ->]; [exists r1; split; [by rewrite lookup_insert_ne by congruence | done] |].
           exists r. by rewrite lookup_insert_eq.
        -- intros (r1 & [[-> <-] | [Hne H1]]%lookup_insert_Some & H2); [by right | left; by exists r1].
    + assert (endpoint_recordings m' !! e = endpoint_recordings m !! e) as ->.
      { rewrite ER. destruct (r_endpoint r) as [e1 |]; [| done]. rewrite lookup_insert_ne; [done | congruence]. }
      split; [done |]. intros j. rewrite Hin. split.
      * intros (r1 & H1 & H2). exists r1. split; [by rewrite lookup_insert_ne by congruence | done].
      * intros (r1 & [[-> <-] | [Hne H1]]%lookup_insert_Some & H2); [done | by exists r1].
Qed.

Lemma complete_inv m G ep prepared id el now :
  inv m G -> recordings m !! id = None -> inv (complete_start m ep prepared id el now).1 G.
Proof.
  intros I Hid. unfold complete_start. destruct prepared as [path |]; cbn [fst]; cbn zeta.
  - set (r0 := mkRecording ep path now 0 0 [] None [] true ∅). set (xs := filter _ _).
    destruct (replays_ok (latest_descriptors m) (G id) (channel_size m) el now r0 xs (inv_latest m G I)) as [A [_ Ep]].
    { apply Forall_forall. intros [e st] Hx. unfold xs in Hx. apply list_elem_of_filter in Hx as [_ Hx].
      apply elem_of_map_to_list in Hx. by destruct m. }
    { intros _ s _ e n _ Hn. cbn in Hn. by rewrite lookup_empty in Hn. }
    eapply (added_inv m G _ id _ I Hid A); rewrite ?Ep; by destruct m.
  - apply (inv_fields m); by destruct m.
Qed.

Lemma stop_inv m G id now : inv m G -> inv (stop m id now).1 G.
Proof.
  intros [I1 I2 I2' I3 I4]. unfold stop. destruct (recordings m !! id) as [r |] eqn:E; [| by split]. cbn [fst].
  pose proof (remove_recording_idx m id r I4 E) as Hidx.
  split; try (by destruct m); [by apply (indices_numbers m); [destruct m |] |].
  intros j rj H. destruct m; cbn in *. apply lookup_delete_Some in H as [_ H]. by eapply I3.
Qed.

Lemma foldl_delete (rs : gmap RecordingId Recording) ids j :
  foldl (fun rs id => delete id rs) rs ids !! j = if bool_decide (j ∈ ids) then None else rs !! j.
Proof.
  revert rs. induction ids as [| i ids IH]; intros rs; cbn [foldl]; [done |]. rewrite IH.
  destruct (decide (j = i)) as [-> | Hj]; [| by rewrite elem_cons_ne, lookup_delete_ne].
  rewrite (bool_decide_true (i ∈ i :: ids)) by (by left). rewrite lookup_delete_eq. by destruct (bool_decide _).
Qed.

(** A number that is given back. *)
Lemma freed_indices m m' e :
  indices_ok m -> next_endpoint_index m' = next_endpoint_index m -> endpoint_indices m' = delete e (endpoint_indices m) ->
  free_indices m' = free_indices m ++ option_list (endpoint_indices m !! e) -> indices_ok m'.
Proof.
  intros [I1 I2 I3 I4 I5] E1 E2 E3. split; rewrite ?E1, ?E2, ?E3; [done | | | |].
  - intros e' i [_ H]%lookup_delete_Some. by eapply I2.
  - intros e1 e2 i [_ H1]%lookup_delete_Some [_ H2]%lookup_delete_Some. by eapply I3.
  - destruct (endpoint_indices m !! e) as [i |] eqn:E; [| by rewrite app_nil_r]. apply NoDup_app.
    split_and!; [done | | apply NoDup_singleton]. intros j Hj ->%list_elem_of_singleton. by destruct (I5 _ Hj) as [_ U], (U e).
  - intros i [Hi | Hi]%elem_of_app.
    + destruct (I5 i Hi) as [R U]. split; [done |]. intros e' [_ H]%lookup_delete_Some. by apply (U e').
    + destruct (endpoint_indices m !! e) as [j |] eqn:E; [| by apply elem_of_nil in Hi].
      apply list_elem_of_singleton in Hi as ->. split; [by eapply I2 |].
      intros e' [Hne H]%lookup_delete_Some. by apply Hne, (I3 e e' j).
Qed.

Lemma teardown_inv m G e now :
  inv m G -> inv (stop_endpoint_recordings (forget_endpoint m e) e now).1 (depart m e G).
Proof.
  intros [[I1 I2] Il Ii I3 I4]. set (ids := default [] (endpoint_recordings m !! e)).
  set (m' := (stop_endpoint_recordings (forget_endpoint m e) e now).1).
  assert (R : recordings m' = foldl (fun rs id => delete id rs) (recordings m) ids /\
    latest_descriptors m' = delete e (latest_descriptors m) /\
    endpoint_recordings m' = delete e (endpoint_recordings m) /\
    next_endpoint_index m' = next_endpoint_index m /\
    endpoint_indices m' = delete e (endpoint_indices m) /\
    free_indices m' = free_indices m ++ option_list (endpoint_indices m !! e)).
  { unfold m', stop_endpoint_recordings, forget_endpoint, ids. destruct m; cbn.
    destruct (endpoint_indices0 !! e) eqn:E; cbn; [done |]. split_and!; try done; [by rewrite delete_id | by rewrite app_nil_r]. }
  destruct R as (R & L & ER & N1 & N2 & N3). clearbody m'. split; rewrite ?R, ?L; [split | | | |].
  - intros e2 st [_ H]%lookup_delete_Some. by apply I1.
  - intros e1 e2 st1 st2 [_ H1]%lookup_delete_Some [_ H2]%lookup_delete_Some. by eapply I2.
  - intros e2 st [Hne H]%lookup_delete_Some. destruct (Il e2 st H) as (lo & ro & E1 & E2 & A & F). exists lo, ro.
    rewrite N2. split_and!; try done. destruct lo, ro; cbn in *; try done; by rewrite lookup_delete_ne.
  - by apply (freed_indices m m' e).
  - intros id r. rewrite foldl_delete. case_bool_decide; [done |]. intros Hr O s Hs e2 n He2 Hn.
    unfold depart in He2. rewrite Hr in He2.
    assert (e2 <> e /\ e2 ∉ G id) as [Hne HG].
    { case_bool_decide as T; [set_solver |]. split; [| done]. intros ->. apply T. by eexists. }
    destruct (I3 id r Hr O s Hs e2 n HG Hn) as (st & E1 & E2). exists st. by rewrite lookup_delete_ne.
  - intros e1. rewrite ER, R. destruct (decide (e1 = e)) as [-> | Hne].
    + rewrite lookup_delete_eq. cbn. split; [constructor |]. intros id.
      split; [by intros ?%elem_of_nil |]. intros (r & Hr & He). exfalso. rewrite foldl_delete in Hr.
      case_bool_decide as T; [done |]. apply T, (I4 e). by exists r.
    + rewrite lookup_delete_ne by done. destruct (I4 e1) as [Hnd Hin]. split; [done |]. intros id. rewrite Hin.
      split; intros (r & Hr & He); exists r; (split; [| done]); rewrite foldl_delete in *.
      * rewrite bool_decide_false; [done |]. intros (r1 & ? & ?)%(I4 e). congruence.
      * by case_bool_decide.
Qed.

(** The writer moves packets within the log. *)
Lemma writer_inv m G id f :
  (forall r, r_endpoint (f r) = r_endpoint r /\
     (open (f r) = true -> open r = true /\ log (f r) = log r /\ last_written_version (f r) = last_written_version r)) ->
  inv m G -> inv (set_recording m id f) G.
Proof.
  intros Hf [I1 I2 I2' I3 I4]. assert (R : recordings (set_recording m id f) = alter f id (recordings m)) by (by destruct m).
  split; [by destruct m | by destruct m | by apply (indices_numbers m); [destruct m |] | |].
  - rewrite R. replace (latest_descriptors (set_recording m id f)) with (latest_descriptors m) by (by destruct m).
    intros j r' Hr' O s Hs. destruct (decide (j = id)) as [-> | Hj].
    + rewrite lookup_alter_eq in Hr'. destruct (recordings m !! id) as [r |] eqn:E; [| done]. injection Hr' as <-.
      destruct (Hf r) as [_ K]. destruct (K O) as (O1 & L & V). rewrite L in Hs.
      intros e n He Hn. rewrite V in Hn. by apply (I3 id r E O1 s Hs).
    + rewrite lookup_alter_ne in Hr' by done. by apply (I3 j r' Hr').
  - intros e. destruct (I4 e) as [Hnd Hin].
    replace (endpoint_recordings (set_recording m id f)) with (endpoint_recordings m) by (by destruct m).
    split; [done |]. intros j. rewrite Hin, R. destruct (decide (j = id)) as [-> | Hj]; [| by rewrite lookup_alter_ne].
    rewrite lookup_alter_eq. destruct (recordings m !! id) as [r |]; [| done]. cbn. destruct (Hf r) as [Ep _].
    split; intros (r1 & [= <-] & He); eexists; (split; [done |]); congruence.
Qed.

Lemma takes_keeps r :
  r_endpoint (writer_takes r) = r_endpoint r /\
  (open (writer_takes r) = true -> open r = true /\ log (writer_takes r) = log r /\
     last_written_version (writer_takes r) = last_written_version r).
Proof. unfold writer_takes, log. destruct r as [? ? ? ? ? [| p ps] [w |] ? ? ?]; cbn; auto. Qed.
Lemma done_keeps r :
  r_endpoint (writer_done r) = r_endpoint r /\
  (open (writer_done r) = true -> open r = true /\ log (writer_done r) = log r /\
     last_written_version (writer_done r) = last_written_version r).
Proof.
  unfold writer_done, log. destruct r as [? ? ? ? ? ps [w |] wr ? ?]; cbn; auto.
  split; [done |]. intros ->. split_and!; try done. by rewrite <- app_assoc.
Qed.

Lemma recorder_step x y : step x y -> inv x.1 x.2 -> inv y.1 y.2.
Proof.
  intros [] I; cbn [fst snd] in *.
  - unfold begin_start in *. destruct (_ <=? _); [done |]. simplify_eq. apply (inv_fields m); by destruct m.
  - by apply complete_inv.
  - by apply stop_inv.
  - by apply note_inv.
  - by apply inbound_inv.
  - by apply unknown_inv.
  - unfold record_rtcp. apply plain_inv; try done. by intros E; rewrite E in *.
  - by apply teardown_inv.
  - apply writer_inv; [apply takes_keeps | done].
  - apply writer_inv; [apply done_keeps | done].
  - apply writer_inv; [intros []; done | done].
Qed.

Lemma recorder_inv max chan x : reachable max chan x -> inv x.1 x.2.
Proof.
  induction 1 as [| x y _ IH S]; [| by eapply recorder_step]. split; cbn; [by split | done | | done |].
  - split; cbn; [lia | done | done | constructor | by intros i ?%elem_of_nil].
  - intros e. cbn. rewrite !lookup_empty. cbn. split; [constructor |]. intros id.
    split; [by intros ?%elem_of_nil | by intros (? & ? & _)].
Qed.

(** *** Media that is recorded is found again *)

(** A packet of the audio the descriptor announces. *)
Record audio (d : StreamDescriptor) (pkt : RoutedRtpPacket) : Prop := {
  audio_pt : payload_type pkt = pt d;
  audio_pt_range : 0 <= pt d < 128 /\ ~ 72 <= pt d <= 76;
  audio_seq : is_u16 (sequence_number pkt);
  audio_ts : is_u32 (Media.timestamp pkt);
  audio_ssrc : is_u32 (Media.ssrc pkt);
  audio_bytes : are_bytes (Media.payload pkt);
}.

(** The converter's limits allow one more packet of that flow. *)
Record room (s : State) (flow : Flow) (id : string) (body : bytes) : Prop := {
  room_flows : Z.of_nat (size (addr_to_endpoint s)) < 4096 \/ is_Some (addr_to_endpoint s !! flow);
  room_chans : Z.of_nat (size (chans s)) < MAX_CHANNELS \/ is_Some (chans s !! id);
  room_body : len body <= 16384;
  room_spool : len (encoded s) + len body <= MAX_TEMP_BYTES;
}.

Definition raw (pkt : RoutedRtpPacket) : bytes :=
  RtpHeader.build (payload_type pkt) (sequence_number pkt) (Media.timestamp pkt) (Media.ssrc pkt) (marker pkt)
    (Media.payload pkt).

Lemma classify_raw d pkt : audio d pkt -> classify (raw pkt) = Val Rtp.
Proof.
  intros [E [H1 H2] _ _ _ _]. unfold classify, raw, RtpHeader.build, starts_with.
  cbn [app take length MAGIC]. rewrite bool_decide_false by done.
  rewrite (proj2 (Z.leb_le _ _)) by (rewrite !len_cons; pose proof (len_nonneg (to_be 2 (sequence_number pkt) ++
    to_be 4 (Media.timestamp pkt) ++ to_be 4 (Media.ssrc pkt) ++ Media.payload pkt)); lia).
  unfold get. rewrite !len_cons. pose proof (len_nonneg (to_be 2 (sequence_number pkt) ++
    to_be 4 (Media.timestamp pkt) ++ to_be 4 (Media.ssrc pkt) ++ Media.payload pkt)).
  do 2 rewrite (proj2 (Z.ltb_lt _ _)) by lia. cbn [obind andb Z.leb]. change (byte_at _ 0) with 128.
  change (Z.land 128 0xC0 =? 0x80) with true. cbn match. change (0 <=? 1) with true. cbn [andb obind].
  match goal with |- context [byte_at ?l 1] =>
    change (byte_at l 1) with (Z.lor (if marker pkt then 128 else 0) (Z.land (payload_type pkt) 127)) end.
  rewrite E, land127, Z.mod_small by lia. destruct (marker pkt); [| rewrite Z.lor_0_l].
  - pose proof (lor_add 1 (pt d) 7 ltac:(lia) ltac:(lia)) as L. change (1 * 2 ^ 7) with 128 in L. rewrite L.
    destruct (Z.leb_spec 200 (128 + pt d)), (Z.leb_spec (128 + pt d) 204); try done. lia.
  - by rewrite (proj2 (Z.leb_gt 200 _)) by lia.
Qed.

(** What one more packet of a bound flow adds. *)
Definition lands (s s' : State) (e : EndpointId) (pkt : RoutedRtpPacket) (c : Codec.AudioCodec) (now : Z) : Prop :=
  exists ch, chans s' !! name e = Some ch /\ c_codec ch = Some c /\
    c_packets ch = c_packets (default new_channel (chans s !! name e)) ++
      [Convert.mkPacket (c_epoch ch) (Media.ssrc pkt) (sequence_number pkt) (Media.timestamp pkt) (file_time (Z.max now 0)) c
         (len (encoded s)) (len (Media.payload pkt))] /\
    encoded s' = encoded s ++ Media.payload pkt /\
    forall id, id <> name e -> chans s' !! id = chans s !! id.

Lemma on_rtp_lands s flow e d pkt c now ch :
  addr_to_endpoint s !! flow = Some (name e) -> chans s !! name e = Some ch ->
  c_codec ch = Some c -> c_pt ch = Some (pt d) -> audio d pkt ->
  len (Media.payload pkt) <= 16384 -> len (encoded s) + len (Media.payload pkt) <= MAX_TEMP_BYTES ->
  exists s', on_rtp s flow (file_time (Z.max now 0)) (raw pkt) = Val (Ok s') /\ lands s s' e pkt c now.
Proof.
  intros Hf Hch E1 E2 [A1 [A2 _] A3 A4 A5 A6] Hl1 Hl2. unfold on_rtp. rewrite Hf, Hch, E1, E2.
  unfold raw. rewrite Pcap.parse_rtp_build by (done || (rewrite A1; done)). cbn [obind].
  rewrite A1, Z.eqb_refl. cbn [negb]. rewrite !(proj2 (Z.ltb_ge _ _)) by lia. eexists. split; [done |].
  unfold lands. destruct s; cbn in *. rewrite lookup_insert_eq, Hch. eexists. split; [done |].
  destruct ch; cbn in *. split_and!; try done. intros id Hid. by rewrite lookup_insert_ne.
Qed.

Lemma media_lands s st e pkt c now :
  bound s st -> st_ok e st -> audio (desc st) pkt ->
  codec_from_descriptor (desc st) = Some c ->
  len (Media.payload pkt) <= 16384 -> len (encoded s) + len (Media.payload pkt) <= MAX_TEMP_BYTES ->
  exists s', read s (mkRecord (d_src st) (d_dst st) (raw pkt) now) = Val (Ok s') /\ lands s s' e pkt c now.
Proof.
  intros [B1 B2] (_ & [Hn _] & Hw & _) Ha Hc Hl1 Hl2. rewrite read_val by done. cbn [payload src_addr dst_addr].
  rewrite (classify_raw (desc st)) by done. cbn [obind].
  specialize (B2 c Hc). cbn in B2. rewrite lookup_fmap, Hn in B2. rewrite Hn in B1.
  destruct (chans s !! name e) as [ch |] eqn:E; [| done]. injection B2 as E1 E2.
  exact (on_rtp_lands s (d_src st, d_dst st) e (desc st) pkt c now ch B1 E E1 E2 Ha Hl1 Hl2).
Qed.

(** One recording gets a packet. *)
Lemma deliver_lands latest G chan el now e st pkt rc s c :
  latest_ok latest -> latest !! e = Some st -> e ∉ G ->
  rec_ok latest G rc -> open rc = true -> convert start (log rc) = Val (Ok s) ->
  audio (desc st) pkt -> codec_from_descriptor (desc st) = Some c ->
  room s (d_src st, d_dst st) (name e) (Media.payload pkt) ->
  let x := deliver_to chan el now e (d_src st) (d_dst st) (raw pkt) (Some (version st, d_payload st)) rc in
  dropped_packet_count x.1 = dropped_packet_count rc + 1 \/
  (dropped_packet_count x.1 = dropped_packet_count rc /\
   exists s', convert start (log x.1) = Val (Ok s') /\ lands s s' e pkt c now).
Proof.
  intros Hlat He HG Hr O Hs Ha Hc [R1 R2 R3 R4]. pose proof (proj1 Hlat e st He) as Hh.
  pose proof Hh as (Hp & [Hn Hshort] & Hw & Hv).
  assert (Pre : match prepend chan el now e (d_src st) (d_dst st) (Some (version st, d_payload st)) rc with
    | Ok r1 => open r1 = true /\ dropped_packet_count r1 = dropped_packet_count rc /\
        exists s1, convert start (log r1) = Val (Ok s1) /\ bound s1 st /\ encoded s1 = encoded s /\
          c_packets (default new_channel (chans s1 !! name e)) = c_packets (default new_channel (chans s !! name e)) /\
          forall id, id <> name e -> chans s1 !! id = chans s !! id
    | Err x => dropped_packet_count x.1 = dropped_packet_count rc + 1
    end).
  { unfold prepend. destruct (Z.ltb_spec (default 0 (last_written_version rc !! e)) (version st)) as [V | V].
    - destruct (enqueue _ _ _ _) as [r1 | []] eqn:E; [| by destruct rc | apply enqueue_closed in E; congruence].
      apply enqueue_ok in E as (_ & L & _ & _ & O' & D). split; [destruct r1; cbn in *; congruence |].
      split; [by destruct r1 |]. rewrite Hp in L.
      destruct (on_descriptor_ok s (d_src st, d_dst st) (desc st)) as (s1 & Hd); [by rewrite Hn | done | by rewrite Hn |].
      exists s1. split.
      { replace (log _) with (log r1) by (by destruct r1). rewrite L, convert_app, Hs. cbn [obind convert].
        rewrite read_val by done. cbn [payload src_addr dst_addr]. rewrite classify_encode. cbn [obind].
        by rewrite Hd. }
      split; [by eapply descriptor_binds |]. apply on_descriptor_effect in Hd as (_ & D2 & D3 & D4).
      rewrite Hn in D3, D4. destruct (D4 c Hc) as (ch & -> & _ & _ & D5). split_and!; done.
    - split; [done |]. split; [done |]. exists s. split; [done |]. split; [| done].
      destruct (last_written_version rc !! e) as [n |] eqn:En; [| cbn in V; lia]. cbn in V.
      destruct (Hr O s Hs e n HG En) as (st' & E1 & E2 & E3). assert (st' = st) as -> by congruence.
      apply E3. lia. }
  unfold deliver_to. destruct (prepend _ _ _ _ _ _ _ _) as [r1 | x]; [| by left].
  destruct Pre as (O1 & D1 & s1 & C1 & B1 & En & Pk & Oth).
  destruct (enqueue _ _ _ _) as [r2 | []] eqn:E; [right | left; destruct r1; cbn in *; lia | apply enqueue_closed in E; congruence].
  apply enqueue_ok in E as (_ & L & _ & _ & _ & D). split; [destruct r2; cbn in *; congruence |].
  destruct (media_lands s1 st e pkt c now B1 Hh Ha Hc) as (s' & Hread & Hland); [done | by rewrite En |].
  exists s'. split.
  - replace (log _) with (log r2) by (by destruct r2). rewrite L, convert_app, C1. cbn [obind convert]. by rewrite Hread.
  - destruct Hland as (ch & K1 & K2 & K3 & K4 & K5). exists ch. rewrite <- Pk, <- En. split_and!; try done.
    intros id Hid. rewrite K5, Oth; done.
Qed.

Definition covers (rc : Recording) (e : EndpointId) : Prop := r_endpoint rc = None \/ r_endpoint rc = Some e.

Lemma inbound_lands m G pkt ds sens d lo ro el now id rc s c :
  let e := source_endpoint_id pkt in
  inv m G -> honest e d lo ro -> free m e lo ro -> roomy m lo ro -> e ∉ G id ->
  SessionDtmf.should_record_inbound pkt ds sens = true ->
  recordings m !! id = Some rc -> covers rc e -> open rc = true ->
  convert start (log rc) = Val (Ok s) -> codec_from_descriptor d = Some c -> audio d pkt ->
  room s (frame (note_descriptor m e d lo ro) e lo ro).2 (name e) (Media.payload pkt) ->
  exists rc', recordings (record_inbound m pkt ds sens (Some d) lo ro el now) !! id = Some rc' /\
    (dropped_packet_count rc' = dropped_packet_count rc + 1 \/
     (dropped_packet_count rc' = dropped_packet_count rc /\
      exists s', convert start (log rc') = Val (Ok s') /\ lands s s' e pkt c now)).
Proof.
  intros e I Hh Hfree Hr HG Hrec Hid Hcov O Hs Hc Ha Hroom. unfold record_inbound.
  assert (is_recording m = true) as ->.
  { unfold is_recording. rewrite bool_decide_false; [done |]. intros E. by rewrite E, lookup_empty in Hid. }
  rewrite Hrec. cbn [negb]. cbn zeta. fold e.
  destruct (noted m G e d lo ro I Hh Hr) as (st & L & <- & F).
  pose proof (note_inv m G e (desc st) lo ro I Hh Hfree Hr) as N.
  destruct (note_same m e (desc st) lo ro (inv_indices m G I) Hr) as (R & _ & Ch & _).
  set (m1 := note_descriptor m e (desc st) lo ro) in *.
  unfold record_packet_addr. rewrite F in Hroom |- *. fold (raw pkt). cbn [snd] in Hroom.
  assert (Hid1 : recordings m1 !! id = Some rc) by (by rewrite R).
  pose proof (fun j rj (H : recordings m1 !! j = Some rj) => deliver_to_ok (latest_descriptors m1) (G j) (channel_size m1) (el j) now e st (raw pkt) rj
      (inv_latest m1 G N) L (inv_rec m1 G N j rj H) (build_not_descriptor _ _ _ _ _ _)) as K.
  destruct (deliver_spec m1 e (d_src st) (d_dst st) (raw pkt) true el now (inv_idx m1 G N)) as (_ & _ & D).
  { rewrite L. cbn. intros j rj Hj _. by apply K. }
  specialize (D id). rewrite Hid1, L in D. cbn [fmap option_fmap option_map] in D.
  destruct D as [[Hn _] | [_ D]]; [by destruct Hn |].
  destruct (K id rc Hid1) as (_ & _ & Hdead).
  pose proof (deliver_lands (latest_descriptors m1) (G id) (channel_size m1) (el id) now e st pkt rc s c
    (inv_latest m1 G N) L HG (inv_rec m1 G N id rc Hid1) O Hs Ha Hc Hroom) as X.
  cbn zeta in X, Hdead. destruct (deliver_to _ _ _ _ _ _ _ _ rc) as [rc' []]; cbn in *.
  - rewrite Hdead in O by done. done.
  - by exists rc'.
Qed.

(** C14: recording and converting, end to end.  Let a session record, through any
    starts, stops, codec and address changes, dropped packets, progress or failure
    of the writers, and endpoints with or without sockets that leave and come
    back or whose sockets are given to others.  When an audio packet arrives with
    its endpoint's descriptor, and the endpoint has not left the session since the
    recording first heard of it, a recording that covers the endpoint either
    counts the packet as dropped, or has it so that converting the file finds it:
    it is appended to its endpoint's channel with its codec, sequence number,
    timestamp, SSRC and payload, and no other channel changes.  In particular the
    descriptor the converter needs precedes it.  ([returning_endpoint_unbound]
    shows that an endpoint that left and came back is indeed lost to a recording
    that went on; [room] are the converter's limits.) *)
Theorem recorded_media_lands max chan m G pkt ds sens d lo ro el now id rc s c
  (reach : reachable max chan (m, G)) (stayed : source_endpoint_id pkt ∉ G id)
  (describes : honest (source_endpoint_id pkt) d lo ro) (known : codec_from_descriptor d = Some c)
  (own : free m (source_endpoint_id pkt) lo ro) (numbered : roomy m lo ro)
  (media : audio d pkt) (recorded : SessionDtmf.should_record_inbound pkt ds sens = true)
  (running : recordings m !! id = Some rc /\ open rc = true /\ covers rc (source_endpoint_id pkt))
  (readable : convert start (log rc) = Val (Ok s))
  (fits : room s (frame (note_descriptor m (source_endpoint_id pkt) d lo ro) (source_endpoint_id pkt) lo ro).2
            (name (source_endpoint_id pkt)) (Media.payload pkt)) :
  exists rc', recordings (record_inbound m pkt ds sens (Some d) lo ro el now) !! id = Some rc' /\
    (dropped_packet_count rc' = dropped_packet_count rc + 1 \/
     (dropped_packet_count rc' = dropped_packet_count rc /\
      exists s', convert start (log rc') = Val (Ok s') /\ lands s s' (source_endpoint_id pkt) pkt c now)).
Proof.
  destruct running as (H1 & H2 & H3). eapply inbound_lands; try done.
  exact (recorder_inv max chan (m, G) reach).
Qed.

(** *** Memory *)

Definition bounded (chan : Z) (rc : Recording) : Prop := held rc <= 1048576 /\ len (pending rc) <= chan.

Lemma total_app k1 k2 : total (k1 ++ k2) = total k1 + total k2.
Proof. unfold total. induction k1 as [| p k1 IH]; cbn; [done |]. lia. Qed.

Lemma cost_pos p : 0 <= cost p.
Proof. unfold cost, u32_max. pose proof (len_nonneg (payload p)). lia. Qed.

Lemma enqueue_bounded chan el rc p rc' : enqueue chan el rc p = Ok rc' -> bounded chan rc'.
Proof.
  unfold enqueue. destruct (Z.ltb_spec 1048576 (held rc + cost p)) as [| H]; [done |].
  destruct (_ <? _); [done |]. destruct (negb _); [done |].
  destruct (Z.leb_spec chan (len (pending rc))) as [| L]; [done |]. intros [= <-].
  unfold bounded, held in *. destruct rc; cbn in *. rewrite app_assoc, total_app, len_app.
  change (total [p]) with (cost p + 0). change (len [p]) with 1. lia.
Qed.

Lemma replay_bounded chan el now xs rc :
  bounded chan rc -> bounded chan (foldl (replay chan el now) rc xs).
Proof.
  revert rc. induction xs as [| [e st] xs IH]; intros rc H; [done |]. cbn [foldl]. apply IH.
  unfold replay. destruct (enqueue _ _ _ _) as [r1 |] eqn:E; [| done].
  apply enqueue_bounded in E. by destruct r1.
Qed.

Lemma prepend_bounded chan el now e src dst d rc :
  bounded chan rc ->
  match prepend chan el now e src dst d rc with
  | Ok r1 => bounded chan r1 /\ kept rc r1
  | Err x => bounded chan x.1 /\ kept rc x.1
  end.
Proof.
  intros H. unfold prepend. destruct d as [[n p] |]; [| done]. destruct (_ <? _); [| done].
  destruct (enqueue _ _ _ _) as [r1 | []] eqn:E; [| by destruct rc | done].
  pose proof (enqueue_bounded _ _ _ _ _ E) as B. apply enqueue_ok in E as (_ & _ & _ & K1 & K2 & _).
  by destruct r1.
Qed.

Lemma deliver_to_bounded chan el now e src dst pl d rc :
  bounded chan rc -> bounded chan (deliver_to chan el now e src dst pl d rc).1.
Proof.
  intros H. unfold deliver_to. pose proof (prepend_bounded chan el now e src dst d rc H) as P.
  destruct (prepend _ _ _ _ _ _ _ _) as [r1 |]; [| by destruct P]. destruct P as [P _].
  destruct (enqueue _ _ _ _) as [r2 | []] eqn:E; [apply enqueue_bounded in E; by destruct r2 | by destruct r1 | done].
Qed.

Lemma deliver_to_kept chan el now e src dst pl d rc : kept rc (deliver_to chan el now e src dst pl d rc).1.
Proof.
  unfold deliver_to, prepend.
  assert (Q : forall r p, match enqueue chan el r p with Ok r' => kept r r' | Err _ => True end).
  { intros r p. destruct (enqueue chan el r p) as [r' |] eqn:E; [| done].
    apply enqueue_ok in E as (_ & _ & _ & K1 & K2 & _). by split. }
  unfold kept in *. destruct d as [[n p] |]; [destruct (_ <? _) |].
  1: pose proof (Q rc (mkRecord src dst p now)) as Q1;
     destruct (enqueue chan el rc (mkRecord src dst p now)) as [r1 | []]; [| by destruct rc | done];
     pose proof (Q (saw e n (count r1)) (mkRecord src dst pl now)) as Q2;
     destruct (enqueue chan el (saw e n (count r1)) (mkRecord src dst pl now)) as [r2 | []];
     destruct r1; try destruct r2; cbn in *; intuition congruence.
  all: pose proof (Q rc (mkRecord src dst pl now)) as Q2;
     destruct (enqueue chan el rc (mkRecord src dst pl now)) as [r2 | []]; try destruct r2; try destruct rc; done.
Qed.

(** Recordings may go and change, none comes. *)
Record evolves (chan : Z) (m m' : RecordingManager) : Prop := {
  ev_chan : channel_size m' = channel_size m;
  ev_max : max_recordings m' = max_recordings m;
  ev_pending : pending_starts m' = pending_starts m;
  ev_recs : forall j rc', recordings m' !! j = Some rc' -> exists rc,
    recordings m !! j = Some rc /\ (bounded chan rc -> bounded chan rc');
}.

Record mgr_bounded (max chan : Z) (m : RecordingManager) : Prop := {
  mb_chan : channel_size m = chan;
  mb_max : max_recordings m = max;
  mb_count : 0 <= pending_starts m /\ Z.of_nat (size (recordings m)) + pending_starts m <= max;
  mb_recs : forall id rc, recordings m !! id = Some rc -> bounded chan rc;
}.

Lemma evolves_bounded max chan m m' : evolves chan m m' -> mgr_bounded max chan m -> mgr_bounded max chan m'.
Proof.
  intros [E1 E2 E3 E4] [B1 B2 [B3 B4] B5]. split; [congruence | congruence | rewrite E3; split; [done |] |].
  - assert (size (recordings m') <= size (recordings m))%nat; [| lia].
    rewrite <- !size_dom. apply subseteq_size. intros j. rewrite !elem_of_dom.
    intros [rc' H]. destruct (E4 j rc' H) as (rc & ? & _). by eexists.
  - intros j rc' H. destruct (E4 j rc' H) as (rc & H1 & H2). eauto.
Qed.

Lemma remove_dead_config ids m now :
  let m' := (remove_dead m ids now).1 in
  channel_size m' = channel_size m /\ max_recordings m' = max_recordings m /\ pending_starts m' = pending_starts m.
Proof.
  revert m. induction ids as [| id ids IH]; intros m; cbn [remove_dead]; [done |].
  destruct (recordings m !! id) as [r |]; [| apply IH]. specialize (IH (remove_recording m id r)).
  destruct (remove_dead _ _ _). by destruct m.
Qed.

Lemma deliver_evolves m e src dst pl (wd : bool) el now :
  idx_ok m -> evolves (channel_size m) m (deliver m e src dst pl wd el now).1.
Proof.
  intros H. pose proof (deliver_spec m e src dst pl wd el now H) as D. cbn zeta in D.
  destruct D as (_ & _ & D); [intros; apply deliver_to_kept |].
  assert (Cf : channel_size (deliver m e src dst pl wd el now).1 = channel_size m /\
    max_recordings (deliver m e src dst pl wd el now).1 = max_recordings m /\
    pending_starts (deliver m e src dst pl wd el now).1 = pending_starts m).
  { unfold deliver. case_bool_decide; [done |]. destruct (deliver_all _ _ _ _ _ _ _ _ _ _) as [rs dead].
    pose proof (remove_dead_config dead (m {{ recordings := rs }}) now) as K. destruct (remove_dead _ _ _). by destruct m. }
  destruct Cf as (C1 & C2 & C3). split; [done.. |]. intros j rc' Hj. specialize (D j).
  destruct (recordings m !! j) as [rc |]; [| congruence]. exists rc. split; [done |].
  destruct D as [[_ D] | [_ D]]; [congruence |]. intros B.
  pose proof (deliver_to_bounded (channel_size m) (el j) now e src dst pl
    (if wd then (fun st => (version st, d_payload st)) <$> (latest_descriptors m !! e) else None) rc B) as X.
  destruct (deliver_to _ _ _ _ _ _ _ _ rc) as [r1 []]; cbn in *; congruence.
Qed.

Lemma evolves_refl chan m : evolves chan m m.
Proof. split; eauto. Qed.

Lemma evolves_trans chan m1 m2 m3 : evolves chan m1 m2 -> evolves chan m2 m3 -> evolves chan m1 m3.
Proof.
  intros [A1 A2 A3 A4] [B1 B2 B3 B4]. split; [congruence.. |].
  intros j rc' Hj. destruct (B4 j rc' Hj) as (rc1 & H1 & H2). destruct (A4 j rc1 H1) as (rc & H3 & H4). eauto.
Qed.

Lemma note_evolves chan m e d lo ro :
  indices_ok m -> roomy m lo ro -> evolves chan m (note_descriptor m e d lo ro).
Proof.
  intros I Hr. destruct (note_same m e d lo ro I Hr) as (R & _ & E1 & E2 & E3). split; try done. rewrite R. eauto.
Qed.

Lemma framed_evolves m e pl lo ro (wd : bool) el now :
  idx_ok m -> indices_ok m -> roomy m lo ro ->
  evolves (channel_size m) m (let '(m, (src, dst)) := frame m e lo ro in deliver m e src dst pl wd el now).1.
Proof.
  intros H I Hr. destruct (frame_spec m e lo ro I Hr) as (S & _). destruct (frame m e lo ro) as [m0 [src dst]].
  cbn [fst] in S. destruct S as [S1 S2 _ S4 S5 S6 _]. apply (evolves_trans _ m m0); [split; try done; rewrite S1; eauto |].
  rewrite <- S4. apply deliver_evolves. unfold idx_ok in *. by rewrite S1, S2.
Qed.

Lemma inbound_evolves m G pkt ds sens d lo ro el now :
  inv m G -> (forall d', d = Some d' -> honest (source_endpoint_id pkt) d' lo ro /\ free m (source_endpoint_id pkt) lo ro) ->
  roomy m lo ro -> evolves (channel_size m) m (record_inbound m pkt ds sens d lo ro el now).
Proof.
  intros I Hd Hr. unfold record_inbound. do 2 (destruct (negb _); [apply evolves_refl |]). cbn zeta.
  set (e := source_endpoint_id pkt) in *. unfold record_packet_addr. destruct d as [d |].
  - destruct (Hd d eq_refl) as [Hh Hf]. pose proof (note_inv m G e d lo ro I Hh Hf Hr) as N.
    destruct (noted m G e d lo ro I Hh Hr) as (st & _ & _ & F). rewrite F.
    eapply evolves_trans; [by apply (note_evolves _ m e d lo ro); [apply (inv_indices m G I) |] |].
    destruct (note_same m e d lo ro (inv_indices m G I) Hr) as (_ & _ & <- & _). apply deliver_evolves, (inv_idx _ _ N).
  - by apply framed_evolves; [apply (inv_idx m G I) | apply (inv_indices m G I) |].
Qed.

Lemma writer_evolves chan m id f :
  (forall rc, bounded chan rc -> bounded chan (f rc)) -> evolves chan m (set_recording m id f).
Proof.
  intros Hf. split; try (by destruct m). intros j rc' H.
  replace (recordings (set_recording m id f)) with (alter f id (recordings m)) in H by (by destruct m).
  destruct (decide (id = j)) as [-> | Hne]; [rewrite lookup_alter_eq in H | rewrite lookup_alter_ne in H by done; eauto].
  destruct (recordings m !! j) as [rc |]; [| done]. injection H as <-. eauto.
Qed.

Lemma takes_bounded chan rc : bounded chan rc -> bounded chan (writer_takes rc).
Proof.
  unfold bounded, writer_takes, held. destruct rc as [? ? ? ? ? [| p ps] [w |] ? ? ?]; cbn; try done.
  rewrite len_cons. lia.
Qed.
Lemma done_bounded chan rc : bounded chan rc -> bounded chan (writer_done rc).
Proof.
  unfold bounded, writer_done, held. destruct rc as [? ? ? ? ? ps [w |] ? ? ?]; cbn; try done.
  pose proof (cost_pos w). lia.
Qed.
Lemma fails_bounded chan rc : 0 <= chan -> bounded chan (writer_fails rc).
Proof. intros. by destruct rc. Qed.

Lemma complete_bounded max chan m ep prepared id el now :
  0 <= chan -> mgr_bounded max chan m -> recordings m !! id = None -> 0 < pending_starts m ->
  mgr_bounded max chan (complete_start m ep prepared id el now).1.
Proof.
  intros Hc [B1 B2 [B3 B4] B5] Hid Hp. unfold complete_start, sat_sub. destruct prepared as [path |]; cbn zeta.
  - cbn [fst]. destruct m as [rs ps er ni ei fi mr cs ld]; cbn in *. subst mr cs. split; cbn; [done | done | |].
    + rewrite map_size_insert_None by done. lia.
    + intros j rc. rewrite lookup_insert_Some. intros [[<- <-] | [_ H]]; [| eauto]. by apply replay_bounded.
  - destruct m; cbn in *. split; cbn; try done. lia.
Qed.

Lemma teardown_evolves chan m e now : evolves chan m (stop_endpoint_recordings (forget_endpoint m e) e now).1.
Proof.
  unfold stop_endpoint_recordings, forget_endpoint.
  set (ids := default [] (endpoint_recordings m !! e)).
  assert (L : forall j rc, foldl (fun rs id => delete id rs) (recordings m) ids !! j = Some rc -> recordings m !! j = Some rc).
  { intros j rc. rewrite foldl_delete. by case_bool_decide. }
  destruct m as [rs ps er ni ei fi mr cs ld]; cbn in *. destruct (ei !! e); split; cbn; eauto.
Qed.

Lemma stop_evolves chan m id now : evolves chan m (stop m id now).1.
Proof.
  unfold stop, remove_recording. destruct (recordings m !! id) as [rc |]; [| apply evolves_refl].
  split; try (by destruct m). intros j rc'. destruct m; cbn. intros [_ H]%lookup_delete_Some. eauto.
Qed.

Lemma step_bounded max chan x y :
  0 <= chan -> step x y -> inv x.1 x.2 -> mgr_bounded max chan x.1 -> mgr_bounded max chan y.1.
Proof.
  intros Hc [] I B; cbn [fst snd] in *; pose proof (mb_chan _ _ _ B) as Ec.
  3-11: apply (evolves_bounded max chan m); [| exact B].
  - unfold begin_start in *. destruct (Z.leb_spec (max_recordings m) (Z.of_nat (size (recordings m)) + pending_starts m));
      [done |]. simplify_eq. destruct B as [B1 B2 B3 B4]. split; [by destruct m | by destruct m | | by destruct m].
    replace (pending_starts _) with (pending_starts m + 1) by (by destruct m).
    replace (recordings _) with (recordings m) by (by destruct m). lia.
  - by apply complete_bounded.
  - apply stop_evolves.
  - by apply note_evolves; [apply (inv_indices m G I) |].
  - rewrite <- Ec. eapply inbound_evolves; [done | | done]. by intros d' [= <-].
  - rewrite <- Ec. by eapply inbound_evolves.
  - rewrite <- Ec. unfold record_rtcp. by apply framed_evolves; [apply (inv_idx m G I) | apply (inv_indices m G I) |].
  - apply teardown_evolves.
  - apply writer_evolves, takes_bounded.
  - apply writer_evolves, done_bounded.
  - apply writer_evolves. intros. by apply fails_bounded.
Qed.

(** C32: recordings never hold more than they may.  In any run of [step], whatever
    arrives and however slow the writers are, a session has at most its maximum of recordings,
    including those being started, and every recording keeps at most a mebibyte
    of packets in memory and at most as many as its channel has room for. *)
Theorem recordings_bounded max chan m G (sizes : 0 <= max /\ 0 <= chan) (reach : reachable max chan (m, G)) :
  Z.of_nat (size (recordings m)) + pending_starts m <= max /\
  forall id rc, recordings m !! id = Some rc -> held rc <= 1048576 /\ len (pending rc) <= chan.
Proof.
  destruct sizes as [Hm Hc]. assert (B : mgr_bounded max chan (m, G).1).
  { induction reach as [| x y R IH S]; [split; cbn; done |].
    exact (step_bounded max chan x y Hc S (recorder_inv max chan x R) IH). }
  destruct B as [_ _ [_ B] R]. by split.
Qed.

End recordings.

(** ** Examples *)

Module Examples.
Import Recorder.

(** Descriptors as the bits of their number. *)
Fixpoint bits (p : positive) : bytes :=
  match p with xH => [] | xO p => 0 :: bits p | xI p => 1 :: bits p end.
Fixpoint unbits (l : bytes) : positive :=
  match l with [] => xH | b :: l => if b =? 0 then xO (unbits l) else xI (unbits l) end.
Lemma unbits_bits p : unbits (bits p) = p.
Proof. induction p as [p IH | p IH |]; cbn; by rewrite ?IH. Qed.

#[global] Instance StreamDescriptor_countable : Countable StreamDescriptor.
Proof.
  refine (inj_countable'
    (fun d => (v d, d_endpoint_id d, role d, ep_type d, codec d, pt d, clock_rate d, channels d, endian d, ssrc d,
               local d, remote d))
    (fun '(a, b, c, d, e, f, g, h, i, j, k, l) => mkDescriptor a b c d e f g h i j k l) _).
  by intros [].
Defined.

Definition sample_json : Json.
Proof.
  refine {| to_vec d := bits (countable.encode d); from_slice l := countable.decode (unbits l) |}.
  intros d. by rewrite unbits_bits, decode_encode.
Defined.
#[local] Existing Instance sample_json.
Definition sample_pcap : PcapFile := {| file_time t := t / 1000 * 1000 |}.
#[local] Existing Instance sample_pcap.

Definition name (e : EndpointId) : string := pretty e.
Lemma name_inj e e' : name e = name e' -> e = e'.
Proof. apply pretty_Z_inj. Qed.
Definition text (a : option Pcap.SocketAddr) : string := pretty (countable.encode a).
Lemma text_inj a b : text a = text b -> a = b.
Proof. intros H%pretty_positive_inj. by apply (inj countable.encode) in H. Qed.

Definition host (i p : Z) : Pcap.SocketAddr := (SocketPool.V4 i, p).
Definition describe (e : EndpointId) (c : string) (pt : Z) (l r : Pcap.SocketAddr) : StreamDescriptor :=
  mkDescriptor 1 (name e) "remote" "rtp" c pt 8000 1 None None (text (Some l)) (text (Some r)).
Definition packet (e pt seq : Z) : RoutedRtpPacket := mkPacket e pt seq 160 99 false [1; 2; 3].

(** A session records everything. *)
Definition started : RecordingManager :=
  (complete_start ((with_config 2 10) {{ pending_starts := 1 }}) None (Some "all.pcap") 1 0 0).1.
Definition empty_recording : Recording := mkRecording None "all.pcap" 0 0 0 [] None [] true ∅.
Definition hears (m : RecordingManager) (e : EndpointId) (c : string) (pt seq : Z) (l r : Pcap.SocketAddr)
    : RecordingManager :=
  record_inbound m (packet e pt seq) ∅ ∅ (Some (describe e c pt l r)) (Some l) (Some r) (fun _ => 0) 5.

Lemma started_reachable : reachable name text 2 10 (started, fun _ => ∅).
Proof.
  eapply reach_step; [eapply reach_step; [apply reach_new |] |].
  - by apply SBegin.
  - by apply (SComplete name text _ _ None (Some "all.pcap") 1 0 0).
Qed.

(** Endpoint 5 is heard, leaves, and its socket is given to endpoint 7. *)
Definition heard : RecordingManager := hears started 5 "PCMU" 0 1 (host 1 7) (host 2 9).
Definition left : RecordingManager := (stop_endpoint_recordings (forget_endpoint heard 5) 5 6).1.
Definition gone : Departed := depart heard 5 (fun _ => ∅).

Lemma describe_honest e c pt l r :
  well_addressed r l -> l <> Pcap.synthetic_addr 65535 -> Z.of_nat (String.length (name e)) <= 128 ->
  honest name text e (describe e c pt l r) (Some l) (Some r).
Proof. intros. by split. Qed.

Lemma left_reachable : reachable name text 2 10 (left, gone).
Proof.
  apply (reach_step name text 2 10 (heard, fun _ => ∅)); [| exact (STeardown name text heard (fun _ => ∅) 5 6)].
  apply (reach_step name text 2 10 (started, fun _ => ∅)); [exact started_reachable |].
  unfold heard, hears.
  refine (SInbound name text started (fun _ => ∅) (packet 5 0 1) ∅ ∅ (describe 5 "PCMU" 0 (host 1 7) (host 2 9))
    (Some (host 1 7)) (Some (host 2 9)) (fun _ => 0) 5 _ _ I).
  - apply describe_honest; [by repeat split | done | by vm_compute].
  - intros e' st He'. by vm_compute in He'.
Qed.

(** The recording so far, and what the converter makes of it. *)
Definition left_recording : Recording := default empty_recording (recordings left !! 1).
Definition left_state : State :=
  match convert start (log left_recording) with Val (Ok s) => s | _ => start end.
Lemma left_recorded : recordings left !! 1 = Some left_recording.
Proof.
  assert (S : is_Some (recordings left !! 1)) by (apply (bool_decide_unpack _); by vm_compute).
  unfold left_recording. by destruct S as [r ->].
Qed.
Lemma left_read : convert start (log left_recording) = Val (Ok left_state).
Proof.
  assert (S : match convert start (log left_recording) with Val (Ok _) => true | _ => false end = true) by (by vm_compute).
  unfold left_state. by destruct (convert start (log left_recording)) as [[s | err] |].
Qed.

End Examples.
Import Examples.
#[local] Existing Instance sample_json.
#[local] Existing Instance sample_pcap.

Lemma recorded_media_lands_witness :
  exists rc', Recorder.recordings (hears left 7 "G722" 9 3 (host 1 7) (host 2 11)) !! 1 = Some rc' /\
    (Recorder.dropped_packet_count rc' = Recorder.dropped_packet_count left_recording + 1 \/
     (Recorder.dropped_packet_count rc' = Recorder.dropped_packet_count left_recording /\
      exists s', convert start (Recorder.log rc') = Val (Ok s') /\
        lands name left_state s' 7 (packet 7 9 3) Codec.G722 5)).
Proof.
  unfold hears.
  refine (recorded_media_lands name name_inj text text_inj 2 10 left gone (packet 7 9 3) ∅ ∅
    (describe 7 "G722" 9 (host 1 7) (host 2 11)) (Some (host 1 7)) (Some (host 2 11)) (fun _ => 0) 5 1
    left_recording left_state Codec.G722 left_reachable _ _ _ _ I _ _ _ left_read _).
  - by apply (bool_decide_unpack _); vm_compute.
  - apply describe_honest; [by repeat split | done | by vm_compute].
  - done.
  - intros e' st He'. by vm_compute in He'.
  - split; try (by vm_compute); [cbn; lia |]. repeat constructor; by vm_compute.
  - done.
  - split; [exact left_recorded |]. split; [by vm_compute | left; by vm_compute].
  - split; try (by vm_compute); left; by vm_compute.
Defined.

Lemma recordings_bounded_witness :
  Z.of_nat (size (Recorder.recordings left)) + Recorder.pending_starts left <= 2 /\
  forall id rc, Recorder.recordings left !! id = Some rc ->
    Recorder.held rc <= 1048576 /\ len (Recorder.pending rc) <= 10.
Proof.
  apply (recordings_bounded name name_inj text text_inj 2 10 left gone); [done | exact left_reachable].
Defined.

(** An endpoint that leaves a session and returns is lost to a recording of
    the session.  Leaving forgets the endpoint's descriptor, so its versions
    start at one again when it is back, while the recording remembers that it
    has seen version one: the new descriptor is never written, nothing is counted
    as dropped, and the converter cannot tell whose packet it is. *)
Theorem returning_endpoint_unbound :
  let m1 := hears started 7 "PCMU" 0 3 (host 1 7) (host 2 9) in
  let gone := (Recorder.stop_endpoint_recordings (Recorder.forget_endpoint m1 7) 7 6).1 in
  let back := hears gone 7 "G722" 9 4 (host 1 7) (host 2 11) in
  (fun rc => (Recorder.packet_count rc, Recorder.dropped_packet_count rc,
      match convert start (Recorder.log rc) with
      | Val (Ok s) => Some (unbound_rtp s, (fun ch => length (c_packets ch)) <$> chans s !! name 7)
      | _ => None
      end)) <$> Recorder.recordings back !! 1 = Some (3, 0, Some (1, Some 1%nat)).
Proof. by vm_compute. Qed.

End Converter.
